(* ===== verification/_CoqProject ===== *)
-Q . S2P
Prelude.v
Regex.v
Hex.v
HexProps.v
Debugger.v
GdbProtocol.v
Sim.v
GdbProps.v
GdbPackets.v
GdbTransfers.v
GdbServer.v
Options.v
Streams.v
Trace.v
PiCall.v
Replayer.v
Images.v
Writers.v
Recorder.v
Sample.v
RecordProps.v
ReplayProps.v
ReplayData.v
ReplayHandles.v
SelectBinary.v
Tracer.v
Files.v
Json.v
Launch.v
Archive.v
Resources.v
Packing.v
HostDebugger.v
SampleHost.v
HostRegisters.v
HostProps.v
Printer.v
PrintProps.v
GraphDump.v
Threads.v
RecordThreads.v
Interleaving.v
Lifetimes.v
Commands.v
TracedFiles.v
Starting.v
Programs.v
SampleProgram.v
Observer.v
Reproduce.v
Main.v
UnitTests.v
