(* ===== verification/Prelude.v ===== *)
(** * dpcpp_trace: a verification development

    dpcpp_trace records the plugin-interface (PI) calls that a SYCL program
    makes, prints them, runs the program again against the recording, packs a
    recording with the files the program needs, and lets a GDB client debug the
    program.  This development translates the C++ of the tool and proves what its
    parts promise to each other.  Paths are those of the repository.

    ** The program and the files that model it

    Text and data.  A [std::string] or a byte vector is a [bytes] (a list of
    bytes); a machine integer is a [Z] with its conversions ([u8] to [u64], [i32],
    [i64]) where the code converts.  How a call ends is an [outcome]: a value, an
    exception, [std::terminate], [exit], undefined behaviour, or that it waits for a
    mutex.  Code with state is in the monad [M S] over a record of the state.  Prelude has these, the
    tactics and the lemmas on them; Streams has paths, file streams and the
    memory of the process.

    The command line.  Options is the class [options] (lib/utils/options.cpp);
    Main is src/main.cpp: options, dispatch, exception handler.

    The file system of the commands.  Files has nodes by canonical path and
    [which] of lib/utils/utils.cpp; Json the documents.

    Recording.  Launch has [record] (src/record.cpp), which prepares a trace
    directory and launches the program under the tracer; Tracer is the ptrace
    worker of lib/utils/Tracer.cpp, Starting the processes it starts; TracedFiles
    puts recording and tracer together.  Programs has what runs under the tracer: a
    program as a class, which goes on from the answer of the system to its call,
    and its run under the worker.  Inside the program, Threads is lib/system_intercept/threads.cpp, which names threads and
    thereby trace files, Recorder is lib/plugin_record, one record per finished
    PI call, Images the descriptors of the device binaries, SelectBinary their
    collection by concurrent threads as a step relation on the flag and the mutex,
    RecordThreads the plugin in all threads of a process, and GraphDump the
    protobuf graph of lib/graph_dump.  In RecordThreads what is thread_local is kept
    per thread, the rest is shared, and the scheduler lets a thread do its next
    statement: the begin and the end of a call, the handler, and in
    [handleSelectBinary] every statement on the flag and the mutex.  Trace has the record format with its
    writer (the recorder's) and its two readers (the replay plugin's and
    print's); PiCall the calls both plugins know.  Writers is the format before
    it (lib/plugin_record/write_utils.hpp).

    Replaying.  Launch has [replay] (src/replay.cpp), which reads the
    configuration of the trace, builds the environment and launches the program
    with the replay plugin; Replayer is lib/plugin_replay, every function of
    which answers from the next record of the thread's trace.  Interleaving has
    the replay plugin in all threads of a process: the stream of a thread its own,
    the rest shared, the calls of the threads in any order.

    Packing.  Archive has [pack] and [unpack] (src/pack.cpp, src/unpack.cpp);
    Resources the mapped files and the compression they go through
    (lib/utils/MappedFile.cpp, lib/utils/Compression.cpp), and is what Archive
    takes as its class Compression.

    Printing.  Printer is src/print.cpp with src/pretty_printers.hpp.

    Debugging.  Commands is src/debug.cpp; GdbServer the loop of
    src/debug_server/server.cpp; GdbProtocol the packet handlers of
    src/debug_server/GDBServerProtocol.cpp, on the encodings of Hex and the
    packet patterns of Regex; Debugger the interface AbstractDebugger, against
    which the protocol is written; HostDebugger its implementation on LLDB
    (lib/debug/host/HostDebugger.cpp); Lifetimes what that library, the compression
    and the memory resource (include/utils/MiResource.hpp) create and destroy.

    Operations have the names of the C++ functions; a function that is one block
    there and several definitions here is put together in the definition that
    bears its name.  UnitTests has the tests of unittests/utils as definitions on
    these files.  Sample, Sim, SampleHost and SampleProgram hold concrete instances
    for the inputs at which theorems are exercised, and model no code.

    ** Parameters

    What is not in the repository is a class, a field of a class, or an argument:
    protobuf messages (Trace.Protobuf: a message read back is the one written),
    JSON text (Json.JsonText: a document printed parses to itself), zstd
    and the places the system gives to files and mappings (Resources.Zstd,
    Resources.Placement), the walk and the
    listing of a directory (Archive.Walk, Printer.Listing), the search of CTRE
    (Regex.Ctre: a match reports a derivation, and a derivable text matches),
    ptrace (Tracer.Ptrace), the traced program (Programs.Program; a program that
    does not look where the tracer writes is Programs.Oblivious), LLDB (HostDebugger.LLDB, HostDebugger.Launcher),
    POSIX files of the debug server (GdbProtocol.Files), the PI headers and a
    device plugin (PiCall.PiHeaders, Recorder.Plugin), names and constants of the
    PI (Printer.PiNames), environment and dlopen (Launch.System).  Every class
    with laws has a concrete instance that obeys them.

    ** What is proved

    Across components: Main, Launch and Json, the command lines [record] and then
    [replay] run the same program on the trace; ReplayProps, the replay plugin
    gives a program the results and outputs of the recorded run, and stops at
    a call that meets the record of another function, and Interleaving, it does so
    in every thread, however the threads interleave while they are recorded and
    while they are replayed; RecordThreads, which calls are lost in a recording; Archive and Packing, a packed trace is unpacked
    as it was and replay finds in it the copies of the files; Reproduce, a program
    that reads files, its recording packed, makes the same file calls with the same
    answers under replay on another file system, which must agree with the recorded
    one on the names that are not in the trace; Observer, the handler of record
    does not disturb a program; Starting, what record reports of a program the
    system refuses; UnitTests, the tests of the repository pass; Resources, packing
    a file gives back every descriptor and all memory; TracedFiles, the files
    pack copies are the ones the program opened.

    The GDB server: GdbProps, the patterns are exclusive and every reply is a
    frame; GdbPackets, each packet has its meaning on the debugger; GdbTransfers,
    the slices of a transfer make up the text, and three handlers lose data;
    GdbServer, when the loop ends and which mode it acknowledges in; HexProps, the
    encodings are inverse; HostProps and HostRegisters, breakpoints refine a set of addresses,
    register files have every register at its offset, the bounds of the reads and
    writes, resuming, and a wait that does not end.

    Recording and reading: Trace, records are read back as written by either
    reader; RecordProps, one record per call with its outputs; ReplayData and
    ReplayHandles, outputs, mapped memory and handles in a replay; SelectBinary,
    binaries are collected once; RecordThreads, the call of a thread that waits
    meanwhile is lost; Threads, names
    are distinct; GraphDump, the graph refines one event per task; PrintProps,
    what print shows; Tracer, strings of the tracee, the system call filter and
    the worker loop; Options, the grammar of the command lines; Commands,
    [debug] starts and serves the recorded program; Lifetimes, the debugger and its target
    are destroyed once.

    ** Fuel

    Loops of the code that are not structural have fuel.  Where the code itself
    bounds the loop, the definition that calls it gives enough; where it does not,
    running out is a value of its own ([None]).  [readString] and
    [run_filter] (Tracer): one unit per word of the string, one per instruction
    of the filter.  [parse_loop] (Trace) and [collect_records] (Printer): one
    unit per record of a file and one more, and the theorems that say a trace is
    read state this bound.  [parseV0] (Archive) is given the length of the
    archive, of which every entry takes at least one byte.  [which_loop] (Files)
    is given the length of PATH, [digits] and [hex_digits] the number of digits.
    [wait_loop] (HostDebugger) has fuel because the loop does not end: the theorem is that no
    fuel is enough.  [write_words] (Tracer) is given the words of the string.
    [drive] (Programs) counts the stops of a program, which may run for ever:
    running out is [None], and a theorem on a run that ends is one on a number of
    stops that is enough.  A name the system reads ([name_of]) has at most the 512
    words of PATH_MAX.

    ** Not modelled

    The system calls under the tracer and the debug server; boost::asio with its
    sockets, its signals and its io_context, so that the model of the debug server
    starts from the messages that are read.  In a recording, the body of a handler
    other than [handleSelectBinary] is one step of its thread, and so is the copy of
    one binary; the memory a handler reads does not change while it runs.  In a
    replay a call is one step: the two maps that the replay plugin shares between
    threads without a lock are not split further.  A thread has its name before its first
    call; the code does not wait for that, and a call made earlier goes to the trace
    of the creator.  What a command writes to standard error, and the lines replay
    echoes while it reads the environment of a packed trace.  The file system of a
    command that ends with an exception.  The test of the host debugger, which needs
    LLDB; the benchmarks, scripts and build files. *)

From Stdlib Require Strings.Byte.
From Stdlib Require Export ZArith Lia.
From stdpp Require Export base tactics list gmap strings numbers.

Export Corelib.Init.Byte (byte(..)).
Export Corelib.Init.Byte.ByteSyntaxNotations.

(** ** Scopes, notations and tactics of the development *)

Declare Scope trace_scope.
Delimit Scope trace_scope with trace.
Delimit Scope byte_scope with byte.
#[global] Open Scope Z_scope.
#[global] Open Scope trace_scope.

(** A C++ [std::string], [std::string_view], [std::vector<uint8_t>] or
    [std::span<uint8_t>] is a sequence of bytes. *)
Abbreviation bytes := (list byte).

(** [#"text"] is a C++ string literal. *)
Notation "# s" := (String.list_byte_of_string s%string)
  (at level 1, s at level 0, format "# s") : trace_scope.

Create HintDb trace.
Create Rewrite HintDb trace.

(** Case analysis on every [if] and [match] of the goal. *)
Ltac split_cases := repeat (case_match; simplify_eq/=).

(** ** Outcomes

    How a C++ call ends: normally, with an exception that unwinds to the
    caller, with [std::terminate], with [exit(code)], or with undefined
    behaviour (the abstract machine promises nothing from there on); or not at
    all, because it waits for a mutex that somebody else holds. *)

Inductive outcome (A : Type) : Type :=
  | Ok (a : A)
  | Throw (what : bytes)
  | Terminate
  | Exit (code : Z)
  | Blocked
  | UB.
Arguments Ok {A} _.
Arguments Throw {A} _.
Arguments Terminate {A}.
Arguments Exit {A} _.
Arguments Blocked {A}.
Arguments UB {A}.

Definition outcome_bind {A B} (f : A -> outcome B) (x : outcome A) : outcome B :=
  match x with
  | Ok a => f a
  | Throw w => Throw w
  | Terminate => Terminate
  | Exit c => Exit c
  | Blocked => Blocked
  | UB => UB
  end.
#[global] Instance outcome_mret : MRet outcome := @Ok.
#[global] Instance outcome_mbind : MBind outcome := @outcome_bind.
#[global] Instance outcome_fmap : FMap outcome := fun _ _ f => outcome_bind (fun a => Ok (f a)).

Lemma outcome_bind_Ok {A B} (f : A -> outcome B) (x : outcome A) (b : B) :
  x ≫= f = Ok b <-> exists a, x = Ok a /\ f a = Ok b.
Proof. destruct x; cbn; (split; [intros; try discriminate; eauto | intros (? & ? & ?); congruence]). Qed.

Definition is_ok {A} (x : outcome A) : bool := match x with Ok _ => true | _ => false end.
Lemma is_ok_true {A} (x : outcome A) : is_ok x = true -> exists a, x = Ok a.
Proof. destruct x; [by eexists | done..]. Qed.

Lemma outcome_bind_assoc {A B C} (f : A -> outcome B) (g : B -> outcome C) (x : outcome A) :
  (x ≫= f) ≫= g = x ≫= (fun a => f a ≫= g).
Proof. by destruct x. Qed.

(** ** State and outcome: computations that read and change a state [S] *)

Definition M (S A : Type) : Type := S -> outcome (A * S).
#[global] Instance M_mret {S} : MRet (M S) := fun A a s => Ok (a, s).
#[global] Instance M_mbind {S} : MBind (M S) :=
  fun A B f x s => x s ≫= fun '(a, s') => f a s'.

Definition get {S} : M S S := fun s => Ok (s, s).
Definition put {S} (s : S) : M S unit := fun _ => Ok (tt, s).
Definition modify {S} (f : S -> S) : M S unit := fun s => Ok (tt, f s).
Definition lift {S A} (x : outcome A) : M S A := fun s => x ≫= fun a => Ok (a, s).

(** Runs a computation on a component of the state, given by its getter and
    its setter. *)
Definition zoom {S T A} (view : S -> T) (set : T -> S -> S) (m : M T A) : M S A :=
  fun s => m (view s) ≫= fun '(a, t) => Ok (a, set t s).

Lemma M_bind_Ok {S A B} (f : A -> M S B) (x : M S A) (s : S) (r : B * S) :
  (x ≫= f) s = Ok r <-> exists a s', x s = Ok (a, s') /\ f a s' = Ok r.
Proof.
  unfold mbind, M_mbind. rewrite outcome_bind_Ok. split.
  - intros ([a s'] & ? & ?); eauto.
  - intros (a & s' & ? & ?). by exists (a, s').
Qed.

Lemma M_run_bind {S A B} (m : M S A) (f : A -> M S B) (s : S) a s' :
  m s = Ok (a, s') -> (m ≫= f) s = f a s'.
Proof. intros E. unfold mbind, M_mbind. by rewrite E. Qed.

Lemma lift_Ok {S A} (x : outcome A) (s s' : S) a : lift x s = Ok (a, s') <-> x = Ok a /\ s' = s.
Proof. unfold lift. destruct x; cbn; split; intros; destruct_and?; by simplify_eq. Qed.

Lemma lift_run {S A B} (x : outcome A) (f : A -> M S B) (s : S) a :
  x = Ok a -> (lift x ≫= f) s = f a s.
Proof. by intros ->. Qed.

(** What a computation does when it returns: [holds m s Q] when the result and
    the state that [m] ends with from [s] satisfy [Q]. *)
Definition holds {S A} (m : M S A) (s : S) (Q : A -> S -> Prop) : Prop :=
  forall a s', m s = Ok (a, s') -> Q a s'.

Section holds.
Context {S : Type}.
Lemma holds_ret {A} (a : A) (s : S) (Q : A -> S -> Prop) : Q a s -> holds (mret a) s Q.
Proof. intros HQ a' s' [= <- <-]. done. Qed.
Lemma holds_bind {A B} (m : M S A) (f : A -> M S B) s (Q : B -> S -> Prop) :
  holds m s (fun a s' => holds (f a) s' Q) -> holds (m ≫= f) s Q.
Proof. intros Hm b s' (a & s1 & Ha & Hb)%M_bind_Ok. by eapply Hm. Qed.
Lemma holds_lift {A} (x : outcome A) (s : S) (Q : A -> S -> Prop) :
  (forall a, x = Ok a -> Q a s) -> holds (lift x) s Q.
Proof. intros HQ a s' H. unfold lift in H. destruct x; simplify_eq/=. by apply HQ. Qed.
Lemma holds_mono {A} (m : M S A) s (P Q : A -> S -> Prop) :
  holds m s P -> (forall a s', P a s' -> Q a s') -> holds m s Q.
Proof. intros HP HPQ a s' H. by apply HPQ, HP. Qed.
End holds.

(** ** Bytes as numbers *)

Definition b2z (b : byte) : Z := Z.of_N (Byte.to_N b).
Definition z2b (z : Z) : byte := default x00 (Byte.of_N (Z.to_N (z mod 256))).

#[global] Instance byte_eq_dec : EqDecision byte := Byte.byte_eq_dec.
#[global] Program Instance byte_countable : Countable byte :=
  inj_countable Byte.to_N Byte.of_N _.
Next Obligation. apply Byte.of_to_N. Qed.

Lemma b2z_range b : 0 <= b2z b < 256.
Proof. unfold b2z. pose proof (Byte.to_N_bounded b). lia. Qed.

Lemma z2b_b2z b : z2b (b2z b) = b.
Proof.
  unfold z2b. rewrite Z.mod_small by apply b2z_range.
  unfold b2z. by rewrite N2Z.id, Byte.of_to_N.
Qed.

Lemma b2z_z2b z : b2z (z2b z) = z mod 256.
Proof.
  unfold z2b, b2z. pose proof (Z.mod_pos_bound z 256 ltac:(lia)) as Hb.
  destruct (Byte.of_N _) eqn:E; cbn.
  - apply Byte.to_of_N in E. rewrite E. lia.
  - apply Byte.of_N_None_iff in E. lia.
Qed.

#[global] Instance b2z_inj : Inj (=) (=) b2z.
Proof. intros a b H. by rewrite <-(z2b_b2z a), H, z2b_b2z. Qed.

Lemma z2b_mod z : z2b (z mod 256) = z2b z.
Proof. unfold z2b. by rewrite Z.mod_mod by lia. Qed.

Definition all_bytes : bytes := omap (fun n => Byte.of_N (N.of_nat n)) (seq 0 256).

(** A property of every byte, decided by running over the 256 of them. *)
Lemma byte_forallb (P : byte -> bool) : forallb P all_bytes = true -> forall b, P b = true.
Proof.
  intros H b. rewrite forallb_forall in H. apply H.
  apply list_elem_of_In, list_elem_of_omap. exists (N.to_nat (Byte.to_N b)).
  rewrite N2Nat.id, Byte.of_to_N. split; [| done]. apply elem_of_seq.
  pose proof (Byte.to_N_bounded b). lia.
Qed.

Ltac by_bytes b := generalize b; apply byte_forallb; vm_compute; reflexivity.

(** ** Machine integers *)

Definition wrap (w z : Z) : Z := z mod 2 ^ w.
(** The two's complement reading of a [w]-bit pattern. *)
Definition signed (w z : Z) : Z :=
  let u := z mod 2 ^ w in if u <? 2 ^ (w - 1) then u else u - 2 ^ w.

Abbreviation u8 := (wrap 8).
Abbreviation u32 := (wrap 32).
Abbreviation u64 := (wrap 64).
Abbreviation i32 := (signed 32).
Abbreviation i64 := (signed 64).

Lemma wrap_range w z : 0 <= w -> 0 <= wrap w z < 2 ^ w.
Proof. intros. apply Z.mod_pos_bound, Z.pow_pos_nonneg; lia. Qed.

Lemma wrap_small w z : 0 <= z < 2 ^ w -> wrap w z = z.
Proof. apply Z.mod_small. Qed.

Lemma wrap_wrap w z : wrap w (wrap w z) = wrap w z.
Proof. apply Zmod_mod. Qed.

Lemma wrap_wrap_le w v z : 0 <= w <= v -> wrap w (wrap v z) = wrap w z.
Proof.
  intros. unfold wrap. replace v with (w + (v - w)) by lia.
  rewrite Z.pow_add_r by lia.
  rewrite Z.rem_mul_r by (try apply Z.pow_nonzero; try apply Z.pow_pos_nonneg; lia).
  rewrite Z.mul_comm, Z_mod_plus_full. apply Zmod_mod.
Qed.

Lemma wrap_add_l w a b : wrap w (wrap w a + b) = wrap w (a + b).
Proof. apply Zplus_mod_idemp_l. Qed.
Lemma wrap_add_r w a b : wrap w (a + wrap w b) = wrap w (a + b).
Proof. apply Zplus_mod_idemp_r. Qed.
Lemma wrap_mul_l w a b : wrap w (wrap w a * b) = wrap w (a * b).
Proof. apply Zmult_mod_idemp_l. Qed.

Lemma signed_range w z : 0 < w -> - 2 ^ (w - 1) <= signed w z < 2 ^ (w - 1).
Proof.
  intros. unfold signed.
  pose proof (Z.mod_pos_bound z (2 ^ w) ltac:(apply Z.pow_pos_nonneg; lia)).
  assert (2 ^ w = 2 * 2 ^ (w - 1)) as E.
  { rewrite <-Z.pow_succ_r by lia. f_equal. lia. }
  destruct (Z.ltb_spec (z mod 2 ^ w) (2 ^ (w - 1))); lia.
Qed.

Lemma signed_small w z : 0 < w -> - 2 ^ (w - 1) <= z < 2 ^ (w - 1) -> signed w z = z.
Proof.
  intros Hw Hz. unfold signed.
  assert (2 ^ w = 2 * 2 ^ (w - 1)) as E.
  { rewrite <-Z.pow_succ_r by lia. f_equal. lia. }
  destruct (Z.leb_spec 0 z).
  - rewrite Z.mod_small by lia. destruct (Z.ltb_spec z (2 ^ (w - 1))); lia.
  - replace (z mod 2 ^ w) with (z + 2 ^ w).
    + destruct (Z.ltb_spec (z + 2 ^ w) (2 ^ (w - 1))); lia.
    + rewrite <-(Z.mod_small (z + 2 ^ w) (2 ^ w)) by lia.
      by rewrite <-Zplus_mod_idemp_r, Z_mod_same_full, Z.add_0_r.
Qed.

Lemma signed_wrap w v z : 0 <= w <= v -> signed w (wrap v z) = signed w z.
Proof.
  intros. unfold signed. pose proof (wrap_wrap_le w v z ltac:(lia)) as E.
  unfold wrap in *. by rewrite E.
Qed.

Lemma wrap_signed w z : 0 < w -> wrap w (signed w z) = wrap w z.
Proof.
  intros. unfold signed. case_match; [apply wrap_wrap |].
  unfold wrap. replace (z mod 2 ^ w - 2 ^ w) with (z mod 2 ^ w + (-1) * 2 ^ w) by lia.
  rewrite Z_mod_plus_full. apply Zmod_mod.
Qed.

(** ** Little-endian memory representation *)

(** The [n] bytes at the address of an integer object holding [z]. *)
Fixpoint le_bytes (n : nat) (z : Z) : bytes :=
  match n with
  | O => []
  | S n => z2b z :: le_bytes n (Z.shiftr z 8)
  end.

(** The unsigned integer that [*reinterpret_cast<T *>(p)] reads. *)
Fixpoint le_value (l : bytes) : Z :=
  match l with
  | [] => 0
  | b :: l => b2z b + 256 * le_value l
  end.

Lemma length_le_bytes n z : length (le_bytes n z) = n.
Proof. revert z; induction n; intros; cbn; auto. Qed.

Lemma le_value_range l : 0 <= le_value l < 2 ^ (8 * Z.of_nat (length l)).
Proof.
  induction l as [|b l IH]; [cbn; lia |].
  replace (8 * Z.of_nat (length (b :: l))) with (8 * Z.of_nat (length l) + 8)
    by (cbn [length]; lia).
  rewrite Z.pow_add_r by lia. cbn [le_value]. pose proof (b2z_range b). lia.
Qed.

Lemma le_value_le_bytes n z : le_value (le_bytes n z) = wrap (8 * Z.of_nat n) z.
Proof.
  revert z; induction n as [|n IH]; intros z.
  { cbn. unfold wrap. by rewrite Z.mod_1_r. }
  cbn [le_bytes le_value]. rewrite IH, b2z_z2b. unfold wrap.
  replace (8 * Z.of_nat (S n)) with (8 + 8 * Z.of_nat n) by lia.
  rewrite Z.pow_add_r by lia. change (2 ^ 8) with 256.
  rewrite Z.rem_mul_r by (try apply Z.pow_pos_nonneg; lia).
  rewrite Z.shiftr_div_pow2 by lia. change (2 ^ 8) with 256. lia.
Qed.

Lemma le_bytes_le_value l : le_bytes (length l) (le_value l) = l.
Proof.
  induction l as [|b l IH]; [done |]. cbn [length le_bytes le_value].
  pose proof (b2z_range b). f_equal.
  - rewrite <-(z2b_b2z b) at 2. rewrite <-z2b_mod. f_equal.
    by rewrite Z.mul_comm, Z_mod_plus_full, Z.mod_small.
  - rewrite Z.shiftr_div_pow2 by lia. change (2 ^ 8) with 256.
    rewrite Z.mul_comm, Z.div_add, Z.div_small by lia. by rewrite Z.add_0_l.
Qed.

Lemma le_value_app l1 l2 :
  le_value (l1 ++ l2) = le_value l1 + 2 ^ (8 * Z.of_nat (length l1)) * le_value l2.
Proof.
  induction l1 as [|b l1 IH]; [cbn; lia |].
  cbn [app le_value length]. rewrite IH.
  replace (8 * Z.of_nat (S (length l1))) with (8 + 8 * Z.of_nat (length l1)) by lia.
  rewrite Z.pow_add_r by lia. change (2 ^ 8) with 256. ring.
Qed.

#[export] Hint Rewrite length_le_bytes @length_app @length_take @length_drop : trace.
#[export] Hint Resolve b2z_range : trace.

(** ** Keys of maps *)

(** The greatest key, 0 when none is positive. *)
Definition max_key {A : Type} (m : gmap Z A) : Z := map_fold (fun k _ n => Z.max k n) 0 m.

Lemma max_key_nonneg {A : Type} (m : gmap Z A) : 0 <= max_key m.
Proof. unfold max_key. apply (map_fold_weak_ind (fun n _ => 0 <= n)); lia. Qed.
Lemma max_key_le {A : Type} (m : gmap Z A) : forall k, is_Some (m !! k) -> k <= max_key m.
Proof.
  unfold max_key. apply (map_fold_weak_ind (fun n (m : gmap Z A) => forall k, is_Some (m !! k) -> k <= n)).
  - intros k. rewrite lookup_empty. by intros [].
  - intros i x m' n Hi IH k [-> | Hk]%lookup_insert_is_Some'; [lia |]. specialize (IH k Hk). lia.
Qed.
Lemma above_max_key {A : Type} (m : gmap Z A) k : max_key m < k -> m !! k = None.
Proof. intros Hk. apply eq_None_not_Some. intros H%max_key_le. lia. Qed.
