(* ===== verification/Regex.v ===== *)
(** * Regex: the regular expressions of the packet patterns

    GDBServerProtocol.cpp recognises packets with [ctre::match<"...">].  The
    patterns are data of the program and are written here in the abstract
    syntax [regex]; CTRE itself is a library, so matching is an operation of
    the class [Ctre], whose laws say that a match reports a derivation of the
    pattern and that a derivable subject is matched.  Two static checks decide
    what those laws leave open: [det] (captures are unique) and [rejects] (no
    subject with a given prefix is matched).  [backtrack] is an executable
    instance. *)

From S2P Require Import Prelude.

(** ** Abstract syntax *)

(** [.] or a bracketed class, a list of ranges. *)
Inductive cset : Type :=
  | CAny
  | CClass (ranges : list (byte * byte)).

Inductive regex : Type :=
  | REps
  | RSet (c : cset)
  | RPlus (c : cset)
  | RSeq (r1 r2 : regex)
  | ROpt (r : regex)
  | RCap (r : regex).

Declare Scope regex_scope.
Delimit Scope regex_scope with regex.
Notation "r1 '·' r2" := (RSeq r1 r2) (at level 40, left associativity) : regex_scope.

Definition RLit (b : byte) : regex := RSet (CClass [(b, b)]).
(** A literal text inside a pattern. *)
Fixpoint RText (s : bytes) : regex :=
  match s with
  | [] => REps
  | b :: s => RSeq (RLit b) (RText s)
  end.

(** A pattern written as a row of parts. *)
Fixpoint cat (l : list regex) : regex :=
  match l with
  | [] => REps
  | r :: l => RSeq r (cat l)
  end.

(** The number of capture groups. *)
Fixpoint ncaps (r : regex) : nat :=
  match r with
  | REps | RSet _ | RPlus _ => 0
  | RSeq r1 r2 => ncaps r1 + ncaps r2
  | ROpt r => ncaps r
  | RCap r => S (ncaps r)
  end.

Definition in_range (b : byte) (r : byte * byte) : bool :=
  (b2z r.1 <=? b2z b) && (b2z b <=? b2z r.2).

Section matching.
(** The bytes that [.] matches. *)
Context (any : byte -> bool).

Definition in_cset (c : cset) (b : byte) : bool :=
  match c with
  | CAny => any b
  | CClass rs => existsb (in_range b) rs
  end.

(** ** Derivations: [Matches r s caps] when [r] matches all of [s] with the
    capture groups [caps], in the order of their opening parentheses; a group
    that took no part is [None]. *)
Inductive Matches : regex -> bytes -> list (option bytes) -> Prop :=
  | M_eps : Matches REps [] []
  | M_set c b : in_cset c b = true -> Matches (RSet c) [b] []
  | M_plus c b s :
      in_cset c b = true -> forallb (in_cset c) s = true -> Matches (RPlus c) (b :: s) []
  | M_seq r1 r2 s1 s2 c1 c2 :
      Matches r1 s1 c1 -> Matches r2 s2 c2 -> Matches (RSeq r1 r2) (s1 ++ s2) (c1 ++ c2)
  | M_none r : Matches (ROpt r) [] (replicate (ncaps r) None)
  | M_some r s c : Matches r s c -> Matches (ROpt r) s c
  | M_cap r s c : Matches r s c -> Matches (RCap r) s (Some s :: c).

#[local] Hint Constructors Matches : core.

Lemma Matches_ncaps r s c : Matches r s c -> length c = ncaps r.
Proof. induction 1; cbn; rewrite ?length_app, ?length_replicate; auto. Qed.

Lemma Matches_text s : Matches (RText s) s [].
Proof.
  induction s as [|b s IH]; cbn; [constructor |].
  apply (M_seq (RLit b) (RText s) [b] s [] []); [| done].
  constructor. cbn. unfold in_range; cbn. by rewrite Z.leb_refl.
Qed.

Lemma Matches_cat rs ss cs :
  Forall3 Matches rs ss cs -> Matches (cat rs) (mjoin ss) (mjoin cs).
Proof. induction 1; cbn; by constructor. Qed.

Lemma Matches_cat_inv r rs s c :
  Matches (cat (r :: rs)) s c ->
  exists s1 s2 c1 c2, s = s1 ++ s2 /\ c = c1 ++ c2 /\ Matches r s1 c1 /\ Matches (cat rs) s2 c2.
Proof. inversion 1; subst. by eexists _, _, _, _. Qed.

Lemma Matches_lit_inv b s c : Matches (RLit b) s c -> s = [b].
Proof.
  inversion 1 as [|? b' Hb| | | | |]; subst. cbn in Hb. rewrite orb_false_r in Hb.
  unfold in_range in Hb. cbn in Hb. apply andb_prop in Hb as [? ?]. f_equal.
  apply (inj b2z). lia.
Qed.

Lemma Matches_text_inv t s c : Matches (RText t) s c -> s = t.
Proof.
  revert s c. induction t as [|b t IH]; intros s c; [by inversion 1 |].
  inversion 1 as [| | |? ? s1 s2 c1 c2 H1 H2| | |]; subst.
  by rewrite (Matches_lit_inv _ _ _ H1), (IH _ _ H2).
Qed.

Lemma Matches_opt_lit b s c : Matches (ROpt (RLit b)) s c -> s = [] \/ s = [b].
Proof.
  inversion 1 as [| | | | |? ? ? Hr|]; subst; [by left | right].
  by eapply Matches_lit_inv.
Qed.

(** ** First bytes, nullability, unique captures *)

Fixpoint nullable (r : regex) : bool :=
  match r with
  | REps | ROpt _ => true
  | RSet _ | RPlus _ => false
  | RSeq r1 r2 => nullable r1 && nullable r2
  | RCap r => nullable r
  end.

Fixpoint first (r : regex) (b : byte) : bool :=
  match r with
  | REps => false
  | RSet c | RPlus c => in_cset c b
  | RSeq r1 r2 => first r1 b || (nullable r1 && first r2 b)
  | ROpt r | RCap r => first r b
  end.

Lemma nullable_complete r c : Matches r [] c -> nullable r = true.
Proof.
  intros H. remember [] as s eqn:E. revert E.
  induction H; intros; subst; cbn; try done; auto.
  apply app_eq_nil in E as [-> ->]. by rewrite IHMatches1, IHMatches2.
Qed.

Lemma first_complete r b s c : Matches r (b :: s) c -> first r b = true.
Proof.
  intros H. remember (b :: s) as t eqn:E. revert b s E.
  induction H; intros ? ? E; simplify_eq/=; eauto.
  destruct s1 as [|b1 s1]; simplify_eq/=.
  - rewrite (nullable_complete _ _ H), (IHMatches2 _ _ eq_refl). by rewrite orb_comm.
  - by rewrite (IHMatches1 _ _ eq_refl).
Qed.

Definition disjoint (p q : byte -> bool) : Prop := forall b, p b = true -> q b = false.

(** [det r f]: if [f] holds of the byte that follows, the part of the subject
    that [r] matches and its captures are determined. *)
Fixpoint det (r : regex) (f : byte -> bool) : Prop :=
  match r with
  | REps | RSet _ => True
  | RPlus c => disjoint (in_cset c) f
  | RSeq r1 r2 =>
      det r1 (fun b => first r2 b || (nullable r2 && f b)) /\ det r2 f
  | ROpt r => nullable r = false /\ disjoint (first r) f /\ det r f
  | RCap r => det r f
  end.

Definition follows (f : byte -> bool) (s : bytes) : Prop :=
  match s with [] => True | b :: _ => f b = true end.

Lemma follows_app f r s c t :
  Matches r s c -> follows f t ->
  follows (fun b => first r b || (nullable r && f b)) (s ++ t).
Proof.
  intros H Ht. destruct s as [|b s]; cbn.
  - destruct t as [|b t]; [done |]. cbn in *.
    rewrite (nullable_complete _ _ H), Ht. by rewrite orb_comm.
  - by rewrite (first_complete _ _ _ _ H).
Qed.

Lemma plus_unique (p f : byte -> bool) s t s' t' :
  disjoint p f -> follows f t -> follows f t' ->
  forallb p s = true -> forallb p s' = true ->
  s ++ t = s' ++ t' -> s = s'.
Proof.
  intros Hd Ht Ht'. revert s'.
  induction s as [|b s IH]; intros [|b' s'] Hs Hs' E; simplify_eq/=; try done.
  - cbn in Ht. apply andb_prop in Hs' as [Hb _]. rewrite (Hd _ Hb) in Ht. done.
  - cbn in Ht'. apply andb_prop in Hs as [Hb _]. rewrite (Hd _ Hb) in Ht'. done.
  - apply andb_prop in Hs as [_ Hs], Hs' as [_ Hs']. f_equal. eauto.
Qed.

Lemma det_unique r f s c t s' c' t' :
  det r f -> follows f t -> follows f t' ->
  Matches r s c -> Matches r s' c' -> s ++ t = s' ++ t' -> s = s' /\ c = c'.
Proof.
  revert f s c t s' c' t'. induction r as [|cs0|cs|r1 IH1 r2 IH2|r IH|r IH];
    cbn [det]; intros f s c t s' c' t' Hd Ht Ht' H H' E.
  - inversion H; inversion H'; subst. done.
  - inversion H; inversion H'; simplify_eq/=. done.
  - inversion H as [| |? b u Hb Hu| | | |]; inversion H' as [| |? b' u' Hb' Hu'| | | |]; subst.
    split; [| done].
    apply (plus_unique (in_cset cs) f _ t _ t'); cbn; rewrite ?Hb, ?Hb', ?Hu, ?Hu'; done.
  - destruct Hd as [Hd1 Hd2].
    inversion H as [| | |? ? s1 s2 c1 c2 H1 H2| | |];
      inversion H' as [| | |? ? s1' s2' c1' c2' H1' H2'| | |]; subst.
    rewrite <-!app_assoc in E.
    destruct (IH1 _ s1 c1 (s2 ++ t) s1' c1' (s2' ++ t') Hd1) as [-> ->];
      eauto using follows_app.
    apply app_inv_head in E.
    destruct (IH2 f s2 c2 t s2' c2' t' Hd2) as [-> ->]; eauto.
  - destruct Hd as (Hn & Hf & Hd).
    assert (forall u d v w, Matches r u d -> follows f w -> u ++ v = w -> False) as Hno.
    { intros [|b u] d v w Hu Hw Ew.
      - apply nullable_complete in Hu. congruence.
      - subst w. cbn in Hw. apply first_complete in Hu. rewrite (Hf _ Hu) in Hw. done. }
    inversion H as [| | | | |? ? ? Hr|]; inversion H' as [| | | | |? ? ? Hr'|]; subst; cbn in *.
    + done.
    + edestruct (Hno s' c' t' t); eauto.
    + edestruct (Hno s c t t'); eauto.
    + eauto.
  - inversion H as [| | | | | |? ? d Hr]; inversion H' as [| | | | | |? ? d' Hr']; subst.
    destruct (IH f s d t s' d' t') as [-> ->]; eauto.
Qed.

(** [det], decided; patterns that repeat [.] are left out. *)
Fixpoint detb (r : regex) (f : byte -> bool) : bool :=
  match r with
  | REps | RSet _ => true
  | RPlus CAny => false
  | RPlus c => forallb (fun b => implb (in_cset c b) (negb (f b))) all_bytes
  | RSeq r1 r2 => detb r1 (fun b => first r2 b || (nullable r2 && f b)) && detb r2 f
  | ROpt r =>
      negb (nullable r) && forallb (fun b => implb (first r b) (negb (f b))) all_bytes && detb r f
  | RCap r => detb r f
  end.

Lemma disjoint_decided p q :
  forallb (fun b => implb (p b) (negb (q b))) all_bytes = true -> disjoint p q.
Proof.
  intros H b Hb. pose proof (byte_forallb _ H b) as E. cbv beta in E. rewrite Hb in E.
  by apply negb_true_iff in E.
Qed.

Lemma detb_sound r f : detb r f = true -> det r f.
Proof.
  revert f. induction r as [| |[]|r1 IH1 r2 IH2|r IH|r IH]; cbn [detb det]; intros f Hd;
    rewrite ?andb_true_iff in *; try done.
  - by apply disjoint_decided.
  - destruct Hd. eauto.
  - destruct Hd as [[? ?] ?]. split; [by apply negb_true_iff |].
    split; [by apply disjoint_decided | eauto].
  - eauto.
Qed.

(** ** Rejection by prefix, with partial derivatives *)

Fixpoint pderiv (b : byte) (r : regex) : list regex :=
  match r with
  | REps => []
  | RSet c => if in_cset c b then [REps] else []
  | RPlus c => if in_cset c b then [REps; RPlus c] else []
  | RSeq r1 r2 =>
      ((fun r => RSeq r r2) <$> pderiv b r1) ++ (if nullable r1 then pderiv b r2 else [])
  | ROpt r | RCap r => pderiv b r
  end.

Lemma pderiv_complete r b s c :
  Matches r (b :: s) c -> exists r' c', r' ∈ pderiv b r /\ Matches r' s c'.
Proof.
  intros H. remember (b :: s) as t eqn:E. revert b s E.
  induction H as [| ? ? Hb|? ? s1 Hb Hs|r1 r2 s1 s2 c1 c2 H1 IH1 H2 IH2| | |];
    intros b0 s0 E; simplify_eq/=.
  - rewrite Hb. exists REps, []. split; [set_solver | constructor].
  - rewrite Hb. destruct s0 as [|b1 s0].
    + exists REps, []. split; [set_solver | constructor].
    + cbn in Hs. apply andb_prop in Hs as [Hb1 Hs].
      exists (RPlus c), []. split; [set_solver | by constructor].
  - destruct s1 as [|b1 s1]; simplify_eq/=.
    + destruct (IH2 _ _ eq_refl) as (r' & c' & Hr & Hm). exists r', c'.
      rewrite (nullable_complete _ _ H1). set_solver.
    + destruct (IH1 _ _ eq_refl) as (r' & c' & Hr & Hm). exists (RSeq r' r2), (c' ++ c2).
      split; [set_solver | by constructor].
  - eauto.
  - eauto.
Qed.

Fixpoint residuals (p : bytes) (rs : list regex) : list regex :=
  match p with
  | [] => rs
  | b :: p => residuals p (mjoin (pderiv b <$> rs))
  end.

(** No subject that starts with [p] is matched by [r]. *)
Definition rejects (r : regex) (p : bytes) : bool :=
  match residuals p [r] with [] => true | _ => false end.

Lemma residuals_complete p s rs r c :
  r ∈ rs -> Matches r (p ++ s) c -> exists r' c', r' ∈ residuals p rs /\ Matches r' s c'.
Proof.
  revert rs r c. induction p as [|b p IH]; cbn; intros rs r c Hr Hm; [eauto |].
  destruct (pderiv_complete _ _ _ _ Hm) as (r' & c' & Hr' & Hm').
  eapply IH; [| exact Hm']. apply list_elem_of_join. exists (pderiv b r).
  split; [done |]. apply list_elem_of_fmap. eauto.
Qed.

Lemma rejects_sound r p s c : rejects r p = true -> ~ Matches r (p ++ s) c.
Proof.
  unfold rejects. intros Hr Hm.
  destruct (residuals_complete p s [r] r c) as (r' & c' & Hr' & _); [set_solver | done |].
  destruct (residuals p [r]); [set_solver | done].
Qed.

(** ** A backtracking matcher

    [bt r s k] tries the ways [r] can match a prefix of [s], longest first,
    and hands the rest and the captures to [k]. *)
Fixpoint bt (r : regex) (s : bytes)
    (k : bytes -> list (option bytes) -> option (list (option bytes))) :
    option (list (option bytes)) :=
  match r with
  | REps => k s []
  | RSet c => match s with b :: s => if in_cset c b then k s [] else None | [] => None end
  | RPlus c =>
      (fix plus s :=
         match s with
         | [] => None
         | b :: s =>
             if in_cset c b
             then match plus s with Some x => Some x | None => k s [] end
             else None
         end) s
  | RSeq r1 r2 => bt r1 s (fun s c1 => bt r2 s (fun s c2 => k s (c1 ++ c2)))
  | ROpt r => match bt r s k with Some x => Some x | None => k s (replicate (ncaps r) None) end
  | RCap r => bt r s (fun s' c => k s' (Some (take (length s - length s') s) :: c))
  end.

Lemma bt_sound r s k x :
  bt r s k = Some x -> exists s1 s2 c, s = s1 ++ s2 /\ Matches r s1 c /\ k s2 c = Some x.
Proof.
  revert s k x. induction r as [|cs|cs|r1 IH1 r2 IH2|r IH|r IH]; cbn; intros s k x H.
  - by exists [], s, [].
  - destruct s as [|b s]; [done |]. destruct (in_cset cs b) eqn:Hb; [| done].
    exists [b], s, []. by repeat constructor.
  - induction s as [|b s IHs]; [done |]. destruct (in_cset cs b) eqn:Hb; [| done].
    case_match eqn:E.
    + destruct (IHs ltac:(congruence)) as (s1 & s2 & c & -> & Hm & Hk).
      exists (b :: s1), s2, c. split; [done |]. split; [| done].
      inversion Hm; subst. constructor; [done |]. cbn. by apply andb_true_intro.
    + exists [b], s, []. by repeat constructor.
  - apply IH1 in H as (s1 & t & c1 & -> & H1 & H).
    apply IH2 in H as (s2 & s3 & c2 & -> & H2 & H).
    exists (s1 ++ s2), s3, (c1 ++ c2). rewrite app_assoc. by repeat constructor.
  - case_match eqn:E; simplify_eq.
    + apply IH in E as (s1 & s2 & c & -> & Hm & Hk). exists s1, s2, c. by repeat constructor.
    + exists [], s, (replicate (ncaps r) None). by repeat constructor.
  - apply IH in H as (s1 & s2 & c & -> & Hm & Hk).
    rewrite length_app, Nat.add_sub, take_app_length in Hk.
    exists s1, s2, (Some s1 :: c). by repeat constructor.
Qed.

Lemma bt_complete r s1 c s2 k :
  Matches r s1 c -> is_Some (k s2 c) -> is_Some (bt r (s1 ++ s2) k).
Proof.
  intros H. revert s2 k.
  induction H as [| ? ? Hb|? b s Hb Hs|r1 r2 s1 s3 c1 c2 H1 IH1 H2 IH2|r|r s c H IH|r s c H IH];
    intros s2 k Hk; cbn.
  - done.
  - by rewrite Hb.
  - rewrite Hb. clear b Hb. induction s as [|b' s IHs]; cbn.
    + case_match; [by eexists | done].
    + cbn in Hs. apply andb_prop in Hs as [Hb' Hs]. rewrite Hb'.
      destruct (IHs Hs) as [x Hx]. cbn in Hx. rewrite Hx. by eexists.
  - rewrite <-app_assoc. apply IH1, IH2. done.
  - case_match; [by eexists | done].
  - destruct (IH _ _ Hk) as [x Hx]. rewrite Hx. by eexists.
  - apply IH. by rewrite length_app, Nat.add_sub, take_app_length.
Qed.

Definition bt_match (r : regex) (s : bytes) : option (list (option bytes)) :=
  bt r s (fun s c => match s with [] => Some c | _ => None end).

Lemma bt_match_sound r s c : bt_match r s = Some c -> Matches r s c.
Proof.
  intros (s1 & [|] & c' & -> & Hm & Hk)%bt_sound; [| done].
  rewrite app_nil_r. by simplify_eq.
Qed.

Lemma bt_match_complete r s c : Matches r s c -> is_Some (bt_match r s).
Proof. intros H. rewrite <-(app_nil_r s). eapply bt_complete; eauto. Qed.
End matching.

(** ** The interface to CTRE *)

(** [ctre_match r s] is [ctre::match<r>(s)]: [Some] of the capture groups when
    the whole subject matches.  [ctre_any] is what [.] matches, which depends
    on CTRE's treatment of newlines only. *)
Class Ctre := {
  ctre_any : byte -> bool;
  ctre_match : regex -> bytes -> option (list (option bytes));
  ctre_any_spec b : b <> x0a -> ctre_any b = true;
  ctre_match_sound r s c : ctre_match r s = Some c -> Matches ctre_any r s c;
  ctre_match_complete r s c : Matches ctre_any r s c -> is_Some (ctre_match r s);
}.

(** The text of a capture group; a group that took no part views no bytes. *)
Definition group (c : list (option bytes)) (i : nat) : bytes := default [] (mjoin (c !! i)).

Definition matches `{Ctre} (r : regex) (s : bytes) : bool :=
  match ctre_match r s with Some _ => true | None => false end.

Section ctre.
Context `{Ctre}.

Lemma ctre_match_det r s c :
  detb ctre_any r (fun _ => false) = true -> Matches ctre_any r s c -> ctre_match r s = Some c.
Proof.
  intros Hd%detb_sound Hm. destruct (ctre_match_complete r s c Hm) as [c' Hc']. rewrite Hc'. f_equal.
  apply (det_unique ctre_any r (fun _ => false) s c' [] s c []); try done.
  by apply ctre_match_sound.
Qed.

(** A pattern without groups has one possible result. *)
Lemma ctre_match_nocaps r s c :
  ncaps r = 0%nat -> Matches ctre_any r s c -> ctre_match r s = Some [].
Proof.
  intros Hn Hm. destruct (ctre_match_complete r s c Hm) as [c' Hc']. rewrite Hc'. f_equal.
  apply ctre_match_sound, Matches_ncaps in Hc'. destruct c'; [done | cbn in *; lia].
Qed.

Lemma ctre_match_None r s : (forall c, ~ Matches ctre_any r s c) -> ctre_match r s = None.
Proof.
  intros Hn. destruct (ctre_match r s) eqn:E; [| done].
  apply ctre_match_sound in E. by apply Hn in E.
Qed.

Lemma ctre_match_rejects r p s :
  rejects ctre_any r p = true -> ctre_match r (p ++ s) = None.
Proof. intros Hr. apply ctre_match_None. intros c. by apply rejects_sound. Qed.

Lemma matches_spec r s : matches r s = true <-> exists c, Matches ctre_any r s c.
Proof.
  unfold matches. split.
  - case_match eqn:E; [| done]. eauto using ctre_match_sound.
  - intros [c Hc]. apply ctre_match_complete in Hc as [? ->]. done.
Qed.
End ctre.

(** The executable instance, in which [.] matches every byte. *)
#[export] Program Instance backtrack : Ctre :=
  {| ctre_any := fun _ => true; ctre_match := bt_match (fun _ => true) |}.
Next Obligation. done. Qed.
Next Obligation. apply bt_match_sound. Qed.
Next Obligation. apply bt_match_complete. Qed.
