(* ===== verification/Hex.v ===== *)
(** * Hex: the text codecs of the GDB remote protocol

    The static helpers of src/debug_server/GDBServerProtocol.cpp: hexadecimal
    encoding and decoding of bytes, strings and integers, the binary escape
    encoding, the packet checksum and [createResponse].  After the definitions
    come their round trips against each other and against the framing rules of
    the protocol. *)

From S2P Require Import Prelude.

(** ** Integer types *)

(** A C++ integral type: its size in bytes and its signedness. *)
Record ity := { ity_bytes : nat; ity_signed : bool }.
Definition ity_bits (I : ity) : Z := 8 * Z.of_nat (ity_bytes I).
Definition uint64_t : ity := {| ity_bytes := 8; ity_signed := false |}.
Definition size_t : ity := uint64_t.
Definition int_t : ity := {| ity_bytes := 4; ity_signed := true |}.

(** Conversion to the type, and [std::numeric_limits<I>::max()]. *)
Definition convert (I : ity) (z : Z) : Z :=
  if ity_signed I then signed (ity_bits I) z else wrap (ity_bits I) z.
Definition ity_min (I : ity) : Z := if ity_signed I then - 2 ^ (ity_bits I - 1) else 0.
Definition ity_max (I : ity) : Z :=
  if ity_signed I then 2 ^ (ity_bits I - 1) - 1 else 2 ^ ity_bits I - 1.

Lemma convert_small I z :
  (0 < ity_bytes I)%nat -> ity_min I <= z <= ity_max I -> convert I z = z.
Proof.
  unfold convert, ity_min, ity_max. intros. destruct (ity_signed I).
  - apply signed_small; unfold ity_bits in *; lia.
  - apply wrap_small. lia.
Qed.

Lemma ity_max_nonneg I : (0 < ity_bytes I)%nat -> 0 <= ity_max I.
Proof.
  unfold ity_max, ity_bits. intros.
  assert (0 < 2 ^ (8 * Z.of_nat (ity_bytes I) - 1)) by (apply Z.pow_pos_nonneg; lia).
  assert (0 < 2 ^ (8 * Z.of_nat (ity_bytes I))) by (apply Z.pow_pos_nonneg; lia).
  destruct (ity_signed I); lia.
Qed.

(** ** Definitions *)

Definition hexMap : bytes := #"0123456789abcdef".
Definition hexMap_at (i : Z) : byte := nth (Z.to_nat i) hexMap x00.

(** The two digits that one byte appends to the response. *)
Definition encode_byte (v : byte) : bytes :=
  [hexMap_at (Z.land (Z.shiftr (b2z v) 4) 15); hexMap_at (Z.land (Z.shiftr (b2z v) 0) 15)].

Definition encode (data : bytes) : bytes := data ≫= encode_byte.

(** [char] is signed: bytes from 0x80 up are negative. *)
Definition char_of (b : byte) : Z := signed 8 (b2z b).

Definition hexDigitToInt (c : byte) : Z :=
  let c := char_of c in
  if (97 <=? c) && (c <=? 102) then 10 + c - 97
  else if (65 <=? c) && (c <=? 70) then 10 + c - 97
  else if (48 <=? c) && (c <=? 57) then c - 48
  else -1.

(** The loop body reads [data[idx + 1]], outside the view when a single
    character is left. *)
Fixpoint decode (data : bytes) : outcome bytes :=
  match data with
  | [] => Ok []
  | [_] => UB
  | c1 :: c2 :: data =>
      let num := u8 (0 + Z.shiftl (hexDigitToInt c1) 4) in
      let num := u8 (num + hexDigitToInt c2) in
      buffer ← decode data; Ok (z2b num :: buffer)
  end.

(** ['#'], ['$'], ['}'] and ['*'] are escaped. *)
Definition must_escape (c : byte) : bool :=
  (b2z c =? 0x23) || (b2z c =? 0x24) || (b2z c =? 0x7d) || (b2z c =? 0x2a).

Definition escape (data : bytes) : bytes :=
  data ≫= fun c => if must_escape c then ["}"%byte; z2b (Z.lxor (b2z c) 0x20)] else [c].

Fixpoint find_not_zero (v : bytes) : bytes :=
  match v with
  | [] => []
  | c :: v' => if bool_decide (c = "0"%byte) then find_not_zero v' else v
  end.

Definition trim (v : bytes) : bytes :=
  match find_not_zero v with [] => #"0" | v => v end.

(** [encode(std::integral auto num)] for a type of [n] bytes. *)
Definition encode_num (n : nat) (num : Z) : bytes := trim (encode (rev (le_bytes n num))).

Definition parseInt_step (I : ity) (result : Z) (c : byte) : Z :=
  let nibble := u8 (hexDigitToInt c) in
  let result := convert I (Z.shiftl result 4) in
  convert I (Z.lor result nibble).

Definition parseInt (I : ity) (num : bytes) : Z :=
  if Z.of_nat (length num) >? Z.of_nat (ity_bytes I) * 2 then ity_max I
  else foldl (parseInt_step I) 0 num.

(** The state of the loop of [decodeString]: [flip], [realChar] and [ret]. *)
Definition decodeString_step (st : bool * Z * bytes) (c : byte) : bool * Z * bytes :=
  let '(flip, realChar, ret) := st in
  if flip then
    let realChar := signed 8 (realChar + hexDigitToInt c) in
    (false, realChar, ret ++ [z2b realChar])
  else
    let realChar := signed 8 (hexDigitToInt c) in
    (true, signed 8 (Z.shiftl realChar 4), ret).

Definition decodeString (str : bytes) : bytes :=
  (foldl decodeString_step (false, 0, []) str).2.

Definition checksum (message : bytes) : Z :=
  foldl (fun checksum c => u8 (checksum + char_of c)) 0 message.

(** The [{:02x}] field: lower-case digits, padded with zeros to two columns
    (a sign takes one of them). *)
Definition fmt_02x (z : Z) : bytes :=
  let digits := encode_num 8 (Z.abs z) in
  if z <? 0 then "-"%byte :: digits
  else replicate (2 - length digits) "0"%byte ++ digits.

Definition createResponse (response : bytes) (ack : bool) : bytes :=
  (if ack then #"+" else []) ++ #"$" ++ response ++ #"#" ++ fmt_02x (checksum response).

(** ** Reference decoders: what the other side of the connection does *)

(** Undoes the binary escape encoding. *)
Fixpoint unescape (data : bytes) : bytes :=
  match data with
  | [] => []
  | c :: data' =>
      if bool_decide (c = "}"%byte) then
        match data' with
        | [] => []
        | d :: data'' => z2b (Z.lxor (b2z d) 0x20) :: unescape data''
        end
      else c :: unescape data'
  end.

(** Splits at the first ['#']. *)
Fixpoint upto_hash (s : bytes) : option (bytes * bytes) :=
  match s with
  | [] => None
  | c :: s =>
      if bool_decide (c = "#"%byte) then Some ([], s)
      else '(p, t) ← upto_hash s; Some (c :: p, t)
  end.

(** Reads one response: an optional ['+'], ['$'], the payload up to ['#'], and
    two digits that must be the sum of the payload's bytes modulo 256. *)
Definition unframe (s : bytes) : option (bool * bytes) :=
  let '(ack, s) := match s with
                   | c :: s' => if bool_decide (c = "+"%byte) then (true, s') else (false, s)
                   | [] => (false, s) end in
  match s with
  | c :: s =>
      if bool_decide (c = "$"%byte) then
        '(payload, digits) ← upto_hash s;
        if bool_decide (digits = encode [z2b (foldr (fun b n => b2z b + n) 0 payload)])
        then Some (ack, payload) else None
      else None
  | [] => None
  end.

(** Value of a hexadecimal numeral as every reader of the protocol takes it,
    either letter case. *)
Definition digit_value (c : byte) : Z :=
  let c := b2z c in
  if (97 <=? c) && (c <=? 102) then c - 87
  else if (65 <=? c) && (c <=? 70) then c - 55
  else c - 48.
Definition numeral_value (num : bytes) : Z := foldl (fun v c => 16 * v + digit_value c) 0 num.

Definition is_lower_hex (c : byte) : bool :=
  ((48 <=? b2z c) && (b2z c <=? 57)) || ((97 <=? b2z c) && (b2z c <=? 102)).
Definition is_upper_hex (c : byte) : bool := (65 <=? b2z c) && (b2z c <=? 70).

(** ** Facts about single bytes, by enumeration *)

Lemma hexDigitToInt_lower b : is_lower_hex b = true -> hexDigitToInt b = digit_value b.
Proof.
  intros Hb. apply Z.eqb_eq. revert Hb.
  assert (implb (is_lower_hex b) (hexDigitToInt b =? digit_value b) = true) as H by by_bytes b.
  destruct (is_lower_hex b); cbn in H; done.
Qed.

Lemma hexDigitToInt_upper b : is_upper_hex b = true -> hexDigitToInt b = digit_value b - 32.
Proof.
  intros Hb. apply Z.eqb_eq. revert Hb.
  assert (implb (is_upper_hex b) (hexDigitToInt b =? digit_value b - 32) = true) as H
    by by_bytes b.
  destruct (is_upper_hex b); cbn in H; done.
Qed.

Lemma digit_value_range b :
  is_lower_hex b || is_upper_hex b = true -> 0 <= digit_value b < 16.
Proof.
  unfold is_lower_hex, is_upper_hex, digit_value. cbv zeta. intros H.
  repeat (case_match; try lia).
Qed.

(** The two digits of a byte: lower case, and worth its high and low nibble. *)
Lemma encode_byte_spec v : exists h l,
  encode_byte v = [h; l] /\ is_lower_hex h = true /\ is_lower_hex l = true /\
  b2z v = 16 * hexDigitToInt h + hexDigitToInt l /\
  0 <= hexDigitToInt h < 16 /\ 0 <= hexDigitToInt l < 16.
Proof.
  eexists _, _. split; [reflexivity |].
  set (h := hexMap_at _). set (l := hexMap_at _).
  assert ((is_lower_hex h && is_lower_hex l
           && (b2z v =? 16 * hexDigitToInt h + hexDigitToInt l)
           && (0 <=? hexDigitToInt h) && (hexDigitToInt h <? 16)
           && (0 <=? hexDigitToInt l) && (hexDigitToInt l <? 16)) = true) as H
    by (subst h l; by_bytes v).
  rewrite !andb_true_iff, !Z.leb_le, !Z.ltb_lt, Z.eqb_eq in H. tauto.
Qed.

Lemma encode_cons v data : encode (v :: data) = encode_byte v ++ encode data.
Proof. done. Qed.

Lemma length_encode data : length (encode data) = (2 * length data)%nat.
Proof. induction data as [|v data IH]; [done |]. rewrite encode_cons, length_app, IH. cbn. lia. Qed.

Lemma encode_lower data : Forall (fun c => is_lower_hex c = true) (encode data).
Proof.
  induction data as [|v data IH]; [constructor |]. rewrite encode_cons.
  destruct (encode_byte_spec v) as (h & l & -> & ? & ? & _). by repeat constructor.
Qed.

(** ** Round trips of byte strings *)

Lemma nibbles_byte v h l :
  b2z v = 16 * h + l -> 0 <= h < 16 -> 0 <= l < 16 ->
  z2b (u8 (u8 (0 + Z.shiftl h 4) + l)) = v.
Proof.
  intros E ? ?. rewrite Z.shiftl_mul_pow2, Z.add_0_l by lia.
  rewrite (wrap_small 8 (h * 2 ^ 4)) by lia. change (2 ^ 4) with 16.
  rewrite wrap_small by lia. rewrite <-(z2b_b2z v), E. f_equal. lia.
Qed.

Lemma decode_encode_app data rest :
  decode (encode data ++ rest) = (app data) <$> decode rest.
Proof.
  induction data as [|v data IH]; [cbn; by destruct (decode rest) |]. rewrite encode_cons.
  destruct (encode_byte_spec v) as (h & l & -> & _ & _ & E & ? & ?).
  cbn [app decode]. rewrite IH. rewrite (nibbles_byte v) by done. by destruct (decode rest).
Qed.

Lemma decode_encode data : decode (encode data) = Ok data.
Proof. rewrite <-(app_nil_r (encode data)), decode_encode_app. cbn. by rewrite app_nil_r. Qed.

Lemma decode_UB data : decode data = UB <-> Nat.odd (length data) = true.
Proof.
  assert (forall n data, (length data <= n)%nat ->
    (if Nat.odd (length data) then decode data = UB else exists buf, decode data = Ok buf)) as H.
  { clear data. induction n as [|n IH]; intros [|c1 [|c2 data]] Hn;
      try (by exists []); try done; try (cbn in Hn; lia).
    change (Nat.odd (length (c1 :: c2 :: data))) with (Nat.odd (length data)).
    specialize (IH data ltac:(cbn in Hn; lia)). cbn [decode]. destruct (Nat.odd (length data)).
    - by rewrite IH.
    - destruct IH as [buf ->]. cbn. eauto. }
  specialize (H _ data (le_n _)). destruct (Nat.odd _); [done |].
  destruct H as [buf ->]. done.
Qed.

(** One pair of digits, read by the loop of [decodeString]. *)
Lemma decodeString_pair v h l flip real ret :
  b2z v = 16 * hexDigitToInt h + hexDigitToInt l ->
  0 <= hexDigitToInt h < 16 -> 0 <= hexDigitToInt l < 16 -> flip = false ->
  exists real', foldl decodeString_step (flip, real, ret) [h; l] = (false, real', ret ++ [v]).
Proof.
  intros E ? ? ->. cbn [foldl decodeString_step]. eexists. do 3 f_equal.
  set (a := hexDigitToInt h) in *. set (b := hexDigitToInt l) in *.
  assert ((b2z v =? 16 * a + b) = true) as E' by lia. clear E.
  rewrite (signed_small 8 a) by lia.
  rewrite <-(z2b_b2z v), <-(z2b_mod (b2z v)), <-z2b_mod. f_equal.
  rewrite Z.shiftl_mul_pow2 by lia. apply Z.eqb_eq in E'. rewrite E'.
  change (wrap 8 (signed 8 (signed 8 (a * 2 ^ 4) + b)) = wrap 8 (16 * a + b)).
  rewrite wrap_signed, <-wrap_add_l, wrap_signed, wrap_add_l by lia. f_equal. lia.
Qed.

Lemma decodeString_encode data : decodeString (encode data) = data.
Proof.
  unfold decodeString.
  enough (forall real ret, exists real',
    foldl decodeString_step (false, real, ret) (encode data) = (false, real', ret ++ data))
    as H by (by destruct (H 0 []) as [? ->]).
  induction data as [|v data IH]; intros real ret.
  { exists real. cbn. by rewrite app_nil_r. }
  rewrite encode_cons, foldl_app.
  destruct (encode_byte_spec v) as (h & l & -> & _ & _ & E & Hh & Hl).
  destruct (decodeString_pair v h l false real ret) as [r' ->]; [done..|].
  destruct (IH r' (ret ++ [v])) as [r'' ->]. exists r''. by rewrite <-app_assoc.
Qed.

(** ** The escape encoding *)

Lemma escape_cons c data :
  escape (c :: data) =
  (if must_escape c then ["}"%byte; z2b (Z.lxor (b2z c) 0x20)] else [c]) ++ escape data.
Proof. done. Qed.

(** What [unescape] does to the image of one byte. *)
Lemma unescape_escape_byte c data :
  unescape ((if must_escape c then ["}"%byte; z2b (Z.lxor (b2z c) 0x20)] else [c]) ++ data) =
  c :: unescape data.
Proof.
  assert ((if must_escape c then bool_decide (z2b (Z.lxor (b2z (z2b (Z.lxor (b2z c) 0x20))) 0x20) = c)
           else negb (bool_decide (c = "}"%byte))) = true) as H by by_bytes c.
  destruct (must_escape c); cbn [app unescape].
  - apply bool_decide_eq_true in H. by rewrite bool_decide_true, H.
  - rewrite bool_decide_false; [done |].
    apply negb_true_iff, bool_decide_eq_false in H. done.
Qed.

Lemma unescape_escape data : unescape (escape data) = data.
Proof.
  induction data as [|c data IH]; [done |].
  by rewrite escape_cons, unescape_escape_byte, IH.
Qed.

(** The framing characters ['#'] and ['$'], and ['*'] (run-length encoding). *)
Definition is_framing (c : byte) : bool := bool_decide (c ∈ #"#$*").

Lemma escape_no_framing data : Forall (fun c => is_framing c = false) (escape data).
Proof.
  induction data as [|c data IH]; [constructor |]. rewrite escape_cons. apply Forall_app; split; [| done].
  assert ((if must_escape c then negb (is_framing (z2b (Z.lxor (b2z c) 0x20)))
           else negb (is_framing c)) = true) as H by by_bytes c.
  destruct (must_escape c); apply negb_true_iff in H; by repeat constructor.
Qed.

Lemma Forall_no_hash (p : byte -> bool) (v : bool) data :
  p "#"%byte = negb v -> Forall (fun c => p c = v) data -> "#"%byte ∉ data.
Proof.
  intros Hp Hall Hin%list_elem_of_In. rewrite List.Forall_forall in Hall.
  apply Hall in Hin. rewrite Hp in Hin. by destruct v.
Qed.
Lemma escape_no_hash data : "#"%byte ∉ escape data.
Proof. by apply (Forall_no_hash is_framing false), escape_no_framing. Qed.
Lemma encode_no_hash data : "#"%byte ∉ encode data.
Proof. by apply (Forall_no_hash is_lower_hex true), encode_lower. Qed.

(** ** Integers *)

Lemma length_trim v : (0 < length (trim v))%nat.
Proof. unfold trim. case_match; cbn; lia. Qed.

Lemma find_not_zero_length v : (length (find_not_zero v) <= length v)%nat.
Proof. induction v as [|c v IH]; cbn; [lia |]. case_bool_decide; cbn; lia. Qed.

Lemma length_trim_le v : v <> [] -> (length (trim v) <= length v)%nat.
Proof.
  intros Hv. unfold trim. pose proof (find_not_zero_length v).
  case_match; [destruct v; cbn in *; [done | lia] | congruence || lia].
Qed.

Lemma trim_lower v : Forall (fun c => is_lower_hex c = true) v ->
  Forall (fun c => is_lower_hex c = true) (trim v).
Proof.
  intros H. unfold trim.
  assert (Forall (fun c => is_lower_hex c = true) (find_not_zero v)) as H'.
  { induction H as [|c v Hc Hv IH]; cbn; [constructor |]. case_bool_decide; [done |]. by constructor. }
  case_match; [by repeat constructor | done].
Qed.

Lemma encode_num_lower n num : Forall (fun c => is_lower_hex c = true) (encode_num n num).
Proof. apply trim_lower, encode_lower. Qed.

Lemma lor_nibble v d : 0 <= d < 16 -> Z.lor (v * 16) d = v * 16 + d.
Proof.
  intros Hd. change 16 with (2 ^ 4) in *. rewrite <-Z.shiftl_mul_pow2 by lia.
  assert (Z.land (Z.shiftl v 4) d = 0) as E.
  { apply Z.bits_inj'. intros n Hn. rewrite Z.land_spec, Z.bits_0.
    destruct (Z.ltb_spec n 4).
    - by rewrite Z.shiftl_spec_low by lia.
    - rewrite <-(Z.mod_small d (2 ^ 4)) by lia.
      rewrite Z.mod_pow2_bits_high by lia. apply andb_false_r. }
  by rewrite <-Z.lxor_lor, <-Z.add_nocarry_lxor.
Qed.

Lemma encode_num_no_hash n num : "#"%byte ∉ encode_num n num.
Proof. by apply (Forall_no_hash is_lower_hex true), encode_num_lower. Qed.

Section parseInt.
Context (I : ity) (HI : (0 < ity_bytes I)%nat).

Lemma parseInt_step_small v c :
  0 <= v -> 0 <= hexDigitToInt c < 16 -> 16 * v + hexDigitToInt c <= ity_max I ->
  parseInt_step I v c = 16 * v + hexDigitToInt c.
Proof using HI.
  intros Hv Hd Hm. unfold parseInt_step. cbv zeta.
  rewrite (wrap_small 8) by lia. rewrite Z.shiftl_mul_pow2 by lia. change (2 ^ 4) with 16.
  assert (ity_min I <= 0) by (unfold ity_min; destruct (ity_signed I); lia).
  rewrite (convert_small I (v * 16)) by lia.
  assert (Z.lor (v * 16) (hexDigitToInt c) = 16 * v + hexDigitToInt c) as E.
  { rewrite (lor_nibble v) by lia. lia. }
  rewrite E. apply convert_small; lia.
Qed.

(** Reading the big-endian digits of [data] after the value [v]. *)
Lemma fold_encode data v :
  0 <= v -> v * 256 ^ Z.of_nat (length data) + le_value (rev data) <= ity_max I ->
  foldl (parseInt_step I) v (encode data) =
  v * 256 ^ Z.of_nat (length data) + le_value (rev data).
Proof using HI.
  revert v. induction data as [|b data IH]; intros v Hv Hm.
  { cbn in *. lia. }
  rewrite encode_cons, foldl_app.
  cbn [rev length] in *. rewrite le_value_app, length_rev in *. cbn [le_value] in *.
  rewrite Nat2Z.inj_succ, Z.pow_succ_r in * by lia.
  rewrite (Z.pow_mul_r 2 8) in * by lia. change (2 ^ 8) with 256 in *.
  set (p := 256 ^ Z.of_nat (length data)) in *.
  assert (0 < p) by (apply Z.pow_pos_nonneg; lia).
  pose proof (le_value_range (rev data)) as [Hr _].
  destruct (encode_byte_spec b) as (h & l & -> & _ & _ & E & Hh & Hl). cbn [foldl].
  assert ((256 * v + b2z b) * p <= ity_max I) by lia.
  assert (256 * v + b2z b <= ity_max I) by nia.
  rewrite (parseInt_step_small v h) by lia.
  rewrite parseInt_step_small by lia.
  replace (16 * (16 * v + hexDigitToInt h) + hexDigitToInt l) with (256 * v + b2z b) by lia.
  pose proof (b2z_range b). rewrite IH by lia. lia.
Qed.

Lemma fold_find_not_zero v :
  foldl (parseInt_step I) 0 (find_not_zero v) = foldl (parseInt_step I) 0 v.
Proof using HI.
  induction v as [|c v IH]; [done |]. cbn [find_not_zero]. case_bool_decide as Hc; [| done].
  subst c. cbn [foldl]. replace (parseInt_step I 0 "0"%byte) with 0; [done |].
  symmetry. apply (parseInt_step_small 0 "0"%byte); [lia | by vm_compute |].
  change (0 <= ity_max I). by apply ity_max_nonneg.
Qed.

(** Any value of the type, written by [encode] at the width of the type (or a
    narrower one that holds it) and read back by [parseInt]. *)
Lemma parseInt_encode_num n num :
  (0 < n <= ity_bytes I)%nat -> 0 <= num <= ity_max I -> num < 2 ^ (8 * Z.of_nat n) ->
  parseInt I (encode_num n num) = num.
Proof using HI.
  intros Hn Hm Hw. unfold parseInt, encode_num.
  set (v := encode (rev (le_bytes n num))).
  assert (length v = (2 * n)%nat) as Hl.
  { unfold v. by rewrite length_encode, length_rev, length_le_bytes. }
  assert (v <> []) by (intros E; rewrite E in Hl; cbn in Hl; lia).
  pose proof (length_trim_le v ltac:(done)).
  destruct (Z.gtb_spec (Z.of_nat (length (trim v))) (Z.of_nat (ity_bytes I) * 2)); [lia |].
  assert (foldl (parseInt_step I) 0 (trim v) = foldl (parseInt_step I) 0 v) as ->.
  { rewrite <-(fold_find_not_zero v). unfold trim. case_match; [| done].
    symmetry. apply (fold_find_not_zero ["0"%byte]). }
  unfold v. rewrite fold_encode; rewrite ?rev_involutive, ?le_value_le_bytes, ?wrap_small; lia.
Qed.
End parseInt.

(** ** Checksums and framing *)

Lemma checksum_sum message :
  checksum message = wrap 8 (foldr (fun b n => b2z b + n) 0 message).
Proof.
  unfold checksum.
  enough (forall a, foldl (fun c b => u8 (c + char_of b)) (wrap 8 a) message =
    wrap 8 (a + foldr (fun b n => b2z b + n) 0 message)) as H by (apply (H 0)).
  induction message as [|b message IH]; intros a; cbn [foldl foldr].
  { by rewrite Z.add_0_r. }
  replace (u8 (wrap 8 a + char_of b)) with (wrap 8 (a + b2z b)).
  - rewrite IH. f_equal. lia.
  - unfold char_of. rewrite wrap_add_l, <-(wrap_add_r 8 a (signed 8 (b2z b))).
    rewrite wrap_signed, wrap_add_r by lia. done.
Qed.

Lemma checksum_range message : 0 <= checksum message < 256.
Proof. rewrite checksum_sum. apply (wrap_range 8). lia. Qed.

Lemma fmt_02x_byte b : fmt_02x (b2z b) = encode_byte b.
Proof.
  apply (bool_decide_eq_true (fmt_02x (b2z b) = encode_byte b)).
  revert b. apply byte_forallb. vm_compute. done.
Qed.

Lemma upto_hash_app p t :
  "#"%byte ∉ p -> upto_hash (p ++ "#"%byte :: t) = Some (p, t).
Proof.
  induction p as [|c p IH]; intros Hp; cbn [app upto_hash].
  - by rewrite bool_decide_true.
  - rewrite bool_decide_false by set_solver. by rewrite IH by set_solver.
Qed.

(** The reader recovers the payload and the acknowledgement of any response
    whose payload has no ['#']. *)
Lemma unframe_createResponse response ack :
  "#"%byte ∉ response -> unframe (createResponse response ack) = Some (ack, response).
Proof.
  intros Hr. unfold createResponse.
  assert (fmt_02x (checksum response) =
    encode [z2b (foldr (fun b n => b2z b + n) 0 response)]) as ->.
  { rewrite checksum_sum. unfold wrap. change (2 ^ 8) with 256.
    rewrite <-b2z_z2b, fmt_02x_byte. done. }
  set (cs := encode _).
  change (#"$" ++ response ++ #"#" ++ cs) with ("$"%byte :: response ++ "#"%byte :: cs).
  change #"+" with ["+"%byte].
  assert (upto_hash (response ++ "#"%byte :: cs) = Some (response, cs)) as E
    by by apply upto_hash_app.
  unfold unframe. destruct ack; cbn [app].
  - rewrite bool_decide_true by done. cbv beta iota. rewrite bool_decide_true, E by done. cbn [mbind option_bind].
    by rewrite bool_decide_true.
  - rewrite bool_decide_false by done. cbv beta iota. rewrite bool_decide_true, E by done. cbn [mbind option_bind].
    by rewrite bool_decide_true.
Qed.

#[export] Hint Resolve encode_lower encode_num_lower escape_no_framing checksum_range : trace.
