(* ===== verification/HexProps.v ===== *)
(** * HexProps: the text encodings are inverse to each other

    What the encodings of Hex promise to the protocol and to the other side of
    the connection. *)

From S2P Require Import Prelude Hex.

(** Hexadecimal data: decoding an encoding gives the data back, for the
    byte buffers of [decode] and for the strings of [decodeString]; [decode]
    leaves its input exactly when the number of digits is odd. *)
Theorem hex_roundtrip data :
  decode (encode data) = Ok data /\ decodeString (encode data) = data /\
  length (encode data) = (2 * length data)%nat /\
  Forall (fun c => is_lower_hex c = true) (encode data) /\
  (decode data = UB <-> Nat.odd (length data) = true).
Proof.
  split; [apply decode_encode |]. split; [apply decodeString_encode |].
  split; [apply length_encode |]. split; [apply encode_lower | apply decode_UB].
Qed.

(** Binary data: the escaped text holds none of the characters that frame a
    packet, and undoing the escapes gives the data back. *)
Theorem escape_roundtrip data :
  unescape (escape data) = data /\ Forall (fun c => is_framing c = false) (escape data).
Proof. split; [apply unescape_escape | apply escape_no_framing]. Qed.

(** Numbers: what [encode] writes for an [n]-byte number, [parseInt] reads as
    the same number into any integer type that can hold it. *)
Theorem number_roundtrip I n num :
  (0 < ity_bytes I)%nat -> (0 < n <= ity_bytes I)%nat -> 0 <= num <= ity_max I ->
  num < 2 ^ (8 * Z.of_nat n) -> parseInt I (encode_num n num) = num.
Proof. intros. by apply parseInt_encode_num. Qed.

Lemma number_roundtrip_witness : parseInt int_t (encode_num 4 2147483647) = 2147483647.
Proof.
  refine (number_roundtrip int_t 4 2147483647 _ _ _ _); unfold int_t, ity_max, ity_bits; cbn; lia.
Defined.

(** Framing: a reader that checks the sum of the payload's bytes accepts the
    response and finds the payload and the acknowledgement in it. *)
Theorem response_roundtrip response ack :
  "#"%byte ∉ response -> unframe (createResponse response ack) = Some (ack, response).
Proof. apply unframe_createResponse. Qed.

Lemma response_roundtrip_witness :
  unframe (createResponse [x80; "a"%byte] true) = Some (true, [x80; "a"%byte]).
Proof.
  refine (response_roundtrip [x80; "a"%byte] true _).
  apply (bool_decide_unpack ("#"%byte ∉ [x80; "a"%byte])). vm_compute. exact I.
Defined.

(** A numeral's upper-case digit is read as a number 32 less, modulo 256,
    than its value. *)
Theorem uppercase_digit c :
  is_upper_hex c = true ->
  parseInt uint64_t [c] = digit_value c + 224 /\ parseInt uint64_t [c] <> digit_value c.
Proof.
  intros Hc. assert (implb (is_upper_hex c) (parseInt uint64_t [c] =? digit_value c + 224) = true) as E
    by by_bytes c.
  rewrite Hc in E. apply Z.eqb_eq in E. split; lia.
Qed.

Lemma uppercase_digit_witness : parseInt uint64_t #"A" = 234 /\ parseInt uint64_t #"A" <> 10.
Proof. refine (uppercase_digit "A"%byte _). reflexivity. Defined.
