(* ===== verification/Debugger.v ===== *)
(** * Debugger: the interface between the debug server and a debugger

    include/debug/AbstractDebugger.hpp and the debugger list of
    src/debug_server/server.hpp.  A debugger is an implementation state [D]
    with the virtual methods of [AbstractDebugger]; the GDB protocol is
    written against the class and never sees [D]. *)

From S2P Require Import Prelude.

Module StopReason.
Inductive Type_ : Set :=
  | invalid | none | trace | breakpoint | watchpoint | signal | exception
  | exec | fork | vfork | vfork_done | exit.
Record t := { type : Type_; code : Z }.
#[global] Instance Type_eq_dec : EqDecision Type_.
Proof. solve_decision. Defined.
(** The member initialisers. *)
Definition default : t := {| type := invalid; code := 0 |}.
End StopReason.

Record ProcessInfo := {
  pid : Z; parentPID : Z; realUID : Z; realGID : Z; effectiveUID : Z; effectiveGID : Z;
  triple : bytes; ostype : bytes; endian : bytes; targetABI : bytes; pointerSize : Z;
}.

(** The virtual methods, each a computation on the debugger's own state. *)
Class AbstractDebugger (D : Type) := {
  getRegistersData : Z -> M D bytes;
  writeRegistersData : bytes -> Z -> M D unit;
  readRegister : Z -> Z -> M D bytes;
  getGDBTargetXML : M D bytes;
  getProcessInfo : M D ProcessInfo;
  getExecutablePath : M D bytes;
  attach : Z -> M D unit;
  isAttached : M D bool;
  detach : M D unit;
  getNumThreads : M D Z;
  getThreadIDAtIndex : Z -> M D Z;
  getStopReason : Z -> M D StopReason.t;
  createSoftwareBreakpoint : Z -> M D unit;
  removeSoftwareBreakpoint : Z -> M D unit;
  resume : Z -> Z -> M D unit;
  stepInstruction : Z -> Z -> M D unit;
  readMemory : Z -> Z -> M D bytes;
  writeMemory : Z -> Z -> bytes -> M D unit;
  getAuxvData : M D bytes;
}.

(** The debuggers a [DebugServer] holds and the index of the active one. *)
Record DebugServer (D : Type) := { mActiveDebugger : nat; mDebuggers : list D }.
Arguments mActiveDebugger {D}.
Arguments mDebuggers {D}.
Arguments Build_DebugServer {D}.

Definition new_server {D} : DebugServer D := {| mActiveDebugger := 0; mDebuggers := [] |}.
Definition addDebugger {D} (d : D) (s : DebugServer D) : DebugServer D :=
  {| mActiveDebugger := mActiveDebugger s; mDebuggers := mDebuggers s ++ [d] |}.

(** A call on [getActiveDebugger()]: [mDebuggers[mActiveDebugger]] is not
    bounds checked. *)
Definition getActiveDebugger {D A} (op : M D A) : M (DebugServer D) A := fun s =>
  match mDebuggers s !! mActiveDebugger s with
  | None => UB
  | Some d =>
      op d ≫= fun '(a, d') =>
        Ok (a, {| mActiveDebugger := mActiveDebugger s;
                  mDebuggers := <[mActiveDebugger s := d']> (mDebuggers s) |})
  end.

(** The state of the active debugger, when there is one. *)
Definition active {D} (s : DebugServer D) : option D := mDebuggers s !! mActiveDebugger s.

Lemma getActiveDebugger_Ok {D A} (op : M D A) s a s' :
  getActiveDebugger op s = Ok (a, s') <->
  exists d d', active s = Some d /\ op d = Ok (a, d') /\
    s' = {| mActiveDebugger := mActiveDebugger s;
            mDebuggers := <[mActiveDebugger s := d']> (mDebuggers s) |}.
Proof.
  unfold getActiveDebugger, active. destruct (mDebuggers s !! _) as [d|] eqn:E.
  - rewrite outcome_bind_Ok. split.
    + intros ([a' d'] & Hop & Heq). simplify_eq. eauto.
    + intros (d0 & d' & ? & Hop & ->). simplify_eq. exists (a, d'). done.
  - split; [done |]. intros (? & ? & ? & _). done.
Qed.

(** The active debugger after a call is the state the call left. *)
Lemma active_update {D} (s : DebugServer D) d d' :
  active s = Some d ->
  active {| mActiveDebugger := mActiveDebugger s;
            mDebuggers := <[mActiveDebugger s := d']> (mDebuggers s) |} = Some d'.
Proof. intros H%lookup_lt_Some. by apply list_lookup_insert_eq. Qed.

Lemma getActiveDebugger_pure {D A} (op : M D A) s d a :
  active s = Some d -> op d = Ok (a, d) -> getActiveDebugger op s = Ok (a, s).
Proof.
  intros Hd Hop. apply getActiveDebugger_Ok. exists d, d. split; [done |]. split; [done |].
  destruct s as [i l]. cbn in *. by rewrite list_insert_id.
Qed.
