(* ===== verification/GdbProtocol.v ===== *)
(** * GdbProtocol: the packet handlers of the GDB remote protocol

    [GDBServerProtocol] of src/debug_server/GDBServerProtocol.{hpp,cpp}: the
    packet patterns, the twenty-three handlers and [processPacket], as
    computations on the protocol's fields, the server's debuggers and the
    process's open files. *)

From S2P Require Import Prelude Regex Hex Debugger.

(** ** State *)

Record GDBServerProtocol := {
  mRunning : bool;
  mAck : bool;
  mCurrentThreadIndex : Z;
  mLastThreadInfoIndex : Z;
}.

(** The member initialisers. *)
Definition new_protocol : GDBServerProtocol :=
  {| mRunning := true; mAck := true; mCurrentThreadIndex := 0; mLastThreadInfoIndex := 0 |}.

(** The system calls behind [llopen], [llread] and [llclose], on the state [F]
    of the process's files.  [sys_read] returns the count (or -1) and the bytes
    it stored at the start of the buffer. *)
Class Files (F : Type) := {
  sys_open : bytes -> Z -> Z -> M F Z;
  sys_lseek : Z -> Z -> M F unit;
  sys_read : Z -> Z -> M F (Z * bytes);
  sys_close : Z -> M F Z;
}.

Record session (D F : Type) := {
  proto : GDBServerProtocol;
  server : DebugServer D;
  files : F;
}.
Arguments proto {D F}.
Arguments server {D F}.
Arguments files {D F}.
Arguments Build_session {D F}.

(** ** Patterns *)

Definition hex_lower : cset := CClass [("0"%byte, "9"%byte); ("a"%byte, "f"%byte)].
Definition hex_any : cset :=
  CClass [("0"%byte, "9"%byte); ("a"%byte, "f"%byte); ("A"%byte, "F"%byte)].

Definition opt_plus : regex := ROpt (RLit "+"%byte).
(** [#[0-9a-fA-F]{2}] *)
Definition sum_digits : list regex := [RLit "#"%byte; RSet hex_any; RSet hex_any].
(** [\+?\$] body [#[0-9a-fA-F]{2}\+?] *)
Definition packet (body : list regex) : regex :=
  cat ([opt_plus; RLit "$"%byte] ++ body ++ sum_digits ++ [opt_plus]).
(** [([0-9a-f]+)] *)
Definition hex_group : regex := RCap (RPlus hex_lower).
Definition dots : regex := RPlus CAny.

Definition pat_qAttached := packet [RText #"qAttached";
  ROpt (RSeq (RLit ":"%byte)
    (RPlus (CClass [("0"%byte, "9"%byte); ("a"%byte, "z"%byte); ("A"%byte, "Z"%byte)])))].
Definition pat_qSupported := packet [RText #"qSupported:"; dots].
Definition pat_QStartNoAckMode := packet [RText #"QStartNoAckMode"].
Definition pat_status := packet [RText #"?"].
Definition pat_g := packet [RText #"g"].
Definition pat_G := packet [RText #"G"; RPlus hex_lower].
Definition pat_H := packet [RText #"H"; dots].
Definition pat_qfThreadInfo := packet [RText #"qfThreadInfo"].
Definition pat_qsThreadInfo := packet [RText #"qsThreadInfo"].
Definition pat_qC := packet [RText #"qC"].
Definition hex_comma : cset :=
  CClass [("0"%byte, "9"%byte); ("a"%byte, "f"%byte); ("A"%byte, "F"%byte); (","%byte, ","%byte)].
Definition pat_m := packet [RText #"m"; RPlus hex_comma].
Definition pat_M := packet [RText #"M"; dots].
Definition pat_x := packet [RText #"x"; RPlus hex_comma].
Definition pat_qXfer := packet [RText #"qXfer"; dots].
Definition pat_z := packet [RText #"z"; dots].
Definition pat_Z := packet [RText #"Z"; dots].
Definition pat_vCont := packet [RText #"vCont"; dots].
Definition pat_vFile := packet [RText #"vFile"; dots].
Definition pat_c := packet [RText #"c"].
Definition pat_p := packet [RText #"p"; RPlus hex_lower].
Definition pat_qProcessInfo := packet [RText #"qProcessInfo"].
Definition pat_k := packet [RText #"k"].

(** The patterns inside the handlers. *)
Definition in_H := cat ([opt_plus; RLit "$"%byte; RLit "H"%byte;
  RSet (CClass [("g"%byte, "g"%byte); ("c"%byte, "c"%byte)]);
  RCap (RPlus (CClass [("-"%byte, "-"%byte); ("0"%byte, "9"%byte); ("a"%byte, "f"%byte);
                       ("A"%byte, "F"%byte)]))] ++ sum_digits).
Definition m_or_x : regex := RSet (CClass [("m"%byte, "m"%byte); ("x"%byte, "x"%byte)]).
Definition in_m := packet [m_or_x; hex_group; RLit ","%byte; hex_group].
Definition in_M :=
  packet [m_or_x; hex_group; RLit ","%byte; hex_group; RLit ":"%byte; hex_group].
Definition in_features := packet [RText #"qXfer:features:read:target.xml:";
  hex_group; RLit ","%byte; hex_group].
Definition in_auxv := packet [RText #"qXfer:auxv:read::"; hex_group; RLit ","%byte; hex_group].
Definition in_exec_file := packet [RText #"qXfer:exec-file:read:"; ROpt hex_group;
  RLit ":"%byte; hex_group; RLit ","%byte; hex_group].
Definition in_z := packet [RText #"z0,"; hex_group; RLit ","%byte; hex_group].
Definition in_Z := packet [RText #"Z0,"; hex_group; RLit ","%byte; hex_group].
Definition in_vCont_query := packet [RText #"vCont?"].
Definition in_vCont_c := packet [RText #"vCont;c"].
Definition in_vCont_c_tid := packet [RText #"vCont;c:"; hex_group].
Definition opt_c : regex := ROpt (RText #";c").
Definition in_vCont_C := packet [RText #"vCont;C"; hex_group; RLit ":"%byte; hex_group; opt_c].
Definition in_vCont_s := packet [RText #"vCont;s:"; hex_group].
Definition in_vCont_S := packet [RText #"vCont;S"; hex_group; RLit ":"%byte; hex_group; opt_c].
Definition in_p := packet [RText #"p"; hex_group].
Definition in_setfs := packet [RText #"vFile:setfs:"; dots].
Definition in_open := packet [RText #"vFile:open:"; RCap dots; RLit ","%byte; hex_group;
  RLit ","%byte; hex_group].
Definition in_close := packet [RText #"vFile:close:"; hex_group].
Definition in_pread := packet [RText #"vFile:pread:"; hex_group; RLit ","%byte; hex_group;
  RLit ","%byte; hex_group].

(** ** Access to the parts of the state *)

Definition set_mRunning (b : bool) (p : GDBServerProtocol) : GDBServerProtocol :=
  {| mRunning := b; mAck := mAck p; mCurrentThreadIndex := mCurrentThreadIndex p;
     mLastThreadInfoIndex := mLastThreadInfoIndex p |}.
Definition set_mAck (b : bool) (p : GDBServerProtocol) : GDBServerProtocol :=
  {| mRunning := mRunning p; mAck := b; mCurrentThreadIndex := mCurrentThreadIndex p;
     mLastThreadInfoIndex := mLastThreadInfoIndex p |}.
Definition set_mCurrentThreadIndex (i : Z) (p : GDBServerProtocol) : GDBServerProtocol :=
  {| mRunning := mRunning p; mAck := mAck p; mCurrentThreadIndex := i;
     mLastThreadInfoIndex := mLastThreadInfoIndex p |}.
Definition set_mLastThreadInfoIndex (i : Z) (p : GDBServerProtocol) : GDBServerProtocol :=
  {| mRunning := mRunning p; mAck := mAck p; mCurrentThreadIndex := mCurrentThreadIndex p;
     mLastThreadInfoIndex := i |}.

Definition set_proto {D F} (p : GDBServerProtocol) (s : session D F) : session D F :=
  {| proto := p; server := server s; files := files s |}.
Definition set_server {D F} (d : DebugServer D) (s : session D F) : session D F :=
  {| proto := proto s; server := d; files := files s |}.
Definition set_files {D F} (f : F) (s : session D F) : session D F :=
  {| proto := proto s; server := server s; files := f |}.

(** Does a string start with a given text? *)
Fixpoint starts_with (s p : bytes) {struct p} : bool :=
  match p, s with
  | [], _ => true
  | _, [] => false
  | b :: p, c :: s => bool_decide (b = c) && starts_with s p
  end.

(** [std::string::substr(pos, n)] for [pos <= size()]. *)
Definition substr (s : bytes) (pos n : Z) : bytes := take (Z.to_nat n) (drop (Z.to_nat pos) s).

(** [std::vector<uint8_t>::resize(n)]: new elements are zero; a length above
    [max_size()] throws [std::length_error]. *)
Definition resize (v : bytes) (n : Z) : outcome bytes :=
  if n >? 2 ^ 63 - 1 then Throw #"vector::_M_default_append"
  else Ok (take (Z.to_nat n) v ++ replicate (Z.to_nat n - length v) x00).

(** [encode(-res)] for an [int]; the negation of the least one overflows. *)
Definition encode_neg (res : Z) : outcome bytes :=
  if res =? - 2 ^ 31 then UB else Ok (encode_num 4 (- res)).

Definition encodeStopReason (stopReason : StopReason.t) : bytes :=
  match StopReason.type stopReason with
  | StopReason.signal => #"S" ++ fmt_02x (StopReason.code stopReason)
  | StopReason.breakpoint => #"T05swbreak:;"
  | StopReason.exit => #"W00"
  | StopReason.watchpoint | StopReason.exception | StopReason.fork => #"S05"
  | StopReason.none => #"W00"
  | _ => #"S05"
  end.

(** ** Handlers *)

Section handlers.
Context `{Ctre} {D : Type} `{AbstractDebugger D} {F : Type} `{Files F}.
Abbreviation S := (session D F).

Definition protocol {A} (f : GDBServerProtocol -> A) : M S A := fun s => Ok (f (proto s), s).
Definition update (f : GDBServerProtocol -> GDBServerProtocol) : M S unit :=
  modify (fun s => set_proto (f (proto s)) s).
Definition debugger {A} (op : M D A) : M S A := zoom server set_server (getActiveDebugger op).
Definition syscall {A} (op : M F A) : M S A := zoom files set_files op.

(** [return createResponse(response, mAck);] *)
Definition reply (response : bytes) : M S bytes :=
  ack ← protocol mAck; mret (createResponse response ack).

Definition process_qSupported (_ : bytes) : M S bytes :=
  reply #"swbreak+;hwbreak+;vContSupported+;PacketSize=4000;QStartNoAckMode+;qXfer:auxv:read+;qXfer:features:read+;qXfer:exec-file:read+".

Definition processAck (_ : bytes) : M S bytes :=
  ack ← protocol mAck; mret (if (ack : bool) then #"+" else []).

Definition process_QStartNoAckMode (_ : bytes) : M S bytes :=
  _ ← update (set_mAck false); mret (createResponse #"OK" true).

Definition process_H (packet : bytes) : M S bytes :=
  match ctre_match in_H packet with
  | Some c =>
      let threadIdHex := group c 0 in
      _ ← (if bool_decide (nth 0 threadIdHex x00 = "-"%byte)
           then update (set_mCurrentThreadIndex 0)
           else update (set_mCurrentThreadIndex (parseInt uint64_t threadIdHex)));
      reply #"OK"
  | None => reply #"E01"
  end.

Definition process_qfThreadInfo (_ : bytes) : M S bytes :=
  i ← protocol mLastThreadInfoIndex;
  n ← debugger getNumThreads;
  if i <? n then
    _ ← update (set_mLastThreadInfoIndex (u64 (i + 1)));
    tid ← debugger (getThreadIDAtIndex i);
    reply (#"m" ++ encode_num 8 tid)
  else
    _ ← update (set_mLastThreadInfoIndex 0);
    reply #"l".

Definition process_qC (_ : bytes) : M S bytes :=
  i ← protocol mCurrentThreadIndex;
  tid ← debugger (getThreadIDAtIndex i);
  reply (#"QC" ++ encode_num 8 tid).

Definition process_g (_ : bytes) : M S bytes :=
  i ← protocol mCurrentThreadIndex;
  regValues ← debugger (getRegistersData i);
  match regValues with
  | [] => reply #"E01"
  | _ => reply (encode regValues)
  end.

Definition process_G (packet : bytes) : M S bytes :=
  regValues ← lift (decode (drop 1 packet));
  i ← protocol mCurrentThreadIndex;
  _ ← debugger (writeRegistersData regValues i);
  reply #"OK".

Definition process_m (packet : bytes) : M S bytes :=
  let c := default [] (ctre_match in_m packet) in
  let start := parseInt uint64_t (group c 0) in
  let length := parseInt uint64_t (group c 1) in
  if length =? 0 then reply #"OK"
  else
    data ← debugger (readMemory start length);
    match data with
    | [] => reply #"E01"
    | _ =>
        if starts_with packet #"$x" then reply (escape data)
        else reply (encode data)
    end.

Definition process_M (packet : bytes) : M S bytes :=
  let c := default [] (ctre_match in_M packet) in
  let start := parseInt uint64_t (group c 0) in
  let length := parseInt uint64_t (group c 1) in
  if length =? 0 then reply #"OK"
  else
    data ← lift (decode (group c 2));
    _ ← debugger (writeMemory start length data);
    reply #"OK".

Definition processStatus (_ : bytes) : M S bytes :=
  i ← protocol mCurrentThreadIndex;
  stopReason ← debugger (getStopReason i);
  reply (encodeStopReason stopReason).

(** The three blocks of [process_qXfer] after their match: the object [size]
    bytes long, the text [data] the slice is taken from. *)
Definition slice_reply (data : bytes) (size offset length : Z) : M S bytes :=
  if offset >=? size then reply []
  else
    let slice := substr data offset length in
    if u64 (offset + length) <=? size then reply (#"m" ++ slice)
    else reply (#"l" ++ slice).

Definition process_qXfer (packet : bytes) : M S bytes :=
  match ctre_match in_features packet with
  | Some c =>
      let offset := parseInt uint64_t (group c 0) in
      let length' := parseInt uint64_t (group c 1) in
      xml ← debugger getGDBTargetXML;
      slice_reply xml (Z.of_nat (length xml)) offset length'
  | None =>
  match ctre_match in_auxv packet with
  | Some c =>
      let offset := parseInt uint64_t (group c 0) in
      let length' := parseInt uint64_t (group c 1) in
      auxv ← debugger getAuxvData;
      slice_reply (escape auxv) (Z.of_nat (length auxv)) offset length'
  | None =>
  match ctre_match in_exec_file packet with
  | Some c =>
      let offset := parseInt uint64_t (group c 1) in
      let length' := parseInt uint64_t (group c 2) in
      path ← debugger getExecutablePath;
      slice_reply path (Z.of_nat (length path)) offset length'
  | None => reply []
  end end end.

Definition process_z (packet : bytes) : M S bytes :=
  match ctre_match in_z packet with
  | Some c =>
      let addr := parseInt uint64_t (group c 0) in
      _ ← debugger (removeSoftwareBreakpoint addr);
      reply #"OK"
  | None => reply #"E01"
  end.

Definition process_Z (packet : bytes) : M S bytes :=
  match ctre_match in_Z packet with
  | Some c =>
      let addr := parseInt uint64_t (group c 0) in
      _ ← debugger (createSoftwareBreakpoint addr);
      reply #"OK"
  | None => reply #"E01"
  end.

(** The last three lines of every block that lets the program run. *)
Definition stop_reply : M S bytes :=
  i ← protocol mCurrentThreadIndex;
  stopReason ← debugger (getStopReason i);
  reply (encodeStopReason stopReason).

Definition process_vCont (packet : bytes) : M S bytes :=
  match ctre_match in_vCont_query packet with
  | Some _ => reply #"vCont;c;C;t;s;S;r"
  | None =>
  match ctre_match in_vCont_c packet with
  | Some _ => _ ← debugger (resume 0 0); stop_reply
  | None =>
  match ctre_match in_vCont_c_tid packet with
  | Some c =>
      let tid := parseInt uint64_t (group c 0) in
      _ ← debugger (resume 0 tid); stop_reply
  | None =>
  match ctre_match in_vCont_C packet with
  | Some c =>
      let signal := parseInt int_t (group c 0) in
      let tid := parseInt uint64_t (group c 1) in
      _ ← debugger (resume signal tid); stop_reply
  | None =>
  match ctre_match in_vCont_s packet with
  | Some c =>
      let tid := parseInt uint64_t (group c 0) in
      _ ← debugger (stepInstruction tid 0); stop_reply
  | None =>
  match ctre_match in_vCont_S packet with
  | Some c =>
      let signal := parseInt int_t (group c 0) in
      let tid := parseInt uint64_t (group c 1) in
      _ ← debugger (stepInstruction tid signal); stop_reply
  | None => reply []
  end end end end end end.

Definition process_c (_ : bytes) : M S bytes := _ ← debugger (resume 0 0); stop_reply.

Definition process_p (packet : bytes) : M S bytes :=
  let c := default [] (ctre_match in_p packet) in
  let regNum := parseInt size_t (group c 0) in
  i ← protocol mCurrentThreadIndex;
  data ← debugger (readRegister i regNum);
  match data with
  | [] => reply #"E01"
  | _ => reply (encode data)
  end.

(** [llopen], [llread], [llclose]. *)
Definition llopen (path : bytes) (flags mode : Z) : M S Z := syscall (sys_open path flags mode).
Definition llclose (fd : Z) : M S Z := syscall (sys_close fd).

(** [buf] holds [count] zero bytes; the result is the count as an [int] and the
    buffer after the call. *)
Definition llread (fd : Z) (buf : bytes) (offset count : Z) : M S (Z * bytes) :=
  _ ← syscall (sys_lseek fd offset);
  '(n, stored) ← syscall (sys_read fd count);
  mret (signed 32 n, stored ++ drop (length stored) buf).

(** ["F"], then the result of a system call, a minus sign in front when it is
    negative. *)
Definition F_result (res : Z) : outcome bytes :=
  if res >=? 0 then Ok (#"F" ++ encode_num 4 res)
  else d ← encode_neg res; Ok (#"F" ++ #"-" ++ d).

Definition process_vFile (packet : bytes) : M S bytes :=
  match ctre_match in_setfs packet with
  | Some _ => reply #"F0"
  | None =>
  match ctre_match in_open packet with
  | Some c =>
      let flags := parseInt int_t (group c 1) in
      let mode := parseInt int_t (group c 2) in
      let filename := decodeString (group c 0) in
      res ← llopen filename flags mode;
      response ← lift (F_result res);
      reply response
  | None =>
  match ctre_match in_close packet with
  | Some c =>
      let fdView := group c 0 in
      let dropThisMany := if bool_decide (nth 0 fdView x00 = "-"%byte) then 1%nat else 0%nat in
      let fd := parseInt int_t (drop dropThisMany fdView) in
      let fd := if (0 <? dropThisMany)%nat then - fd else fd in
      res ← llclose fd;
      response ← lift (F_result res);
      reply response
  | None =>
  match ctre_match in_pread packet with
  | Some c =>
      let fd := parseInt int_t (group c 0) in
      let count := parseInt size_t (group c 1) in
      let offset := parseInt size_t (group c 2) in
      buf ← lift (resize [] count);
      '(res, buf) ← llread fd buf offset count;
      buf ← lift (resize buf (u64 res));
      response ← lift (F_result res);
      reply (if res >=? 0 then response ++ #";" ++ escape buf else response)
  | None => reply []
  end end end end.

Definition process_qAttached (_ : bytes) : M S bytes :=
  attached ← debugger isAttached;
  reply (if (attached : bool) then #"1" else #"0").

(** The code after the first [return] is dead. *)
Definition process_qProcessInfo (_ : bytes) : M S bytes := reply [].

Definition processUnsupported (_ : bytes) : M S bytes := reply [].

(** ** Dispatch *)

(** What [processPacket] recognises, one constructor per branch. *)
Inductive request : Set :=
  | Q_qAttached | Q_qSupported | Q_QStartNoAckMode | Q_status | Q_g | Q_G | Q_H
  | Q_qfThreadInfo | Q_qsThreadInfo | Q_qC | Q_m | Q_M | Q_x | Q_qXfer | Q_z | Q_Z
  | Q_vCont | Q_vFile | Q_c | Q_p | Q_qProcessInfo | Q_ack | Q_k | Q_unsupported.

(** The conditions of the if-else chain, in its order. *)
Definition classify (packet : bytes) : request :=
  if matches pat_qAttached packet then Q_qAttached
  else if matches pat_qSupported packet then Q_qSupported
  else if matches pat_QStartNoAckMode packet then Q_QStartNoAckMode
  else if matches pat_status packet then Q_status
  else if matches pat_g packet then Q_g
  else if matches pat_G packet then Q_G
  else if matches pat_H packet then Q_H
  else if matches pat_qfThreadInfo packet then Q_qfThreadInfo
  else if matches pat_qsThreadInfo packet then Q_qsThreadInfo
  else if matches pat_qC packet then Q_qC
  else if matches pat_m packet then Q_m
  else if matches pat_M packet then Q_M
  else if matches pat_x packet then Q_x
  else if matches pat_qXfer packet then Q_qXfer
  else if matches pat_z packet then Q_z
  else if matches pat_Z packet then Q_Z
  else if matches pat_vCont packet then Q_vCont
  else if matches pat_vFile packet then Q_vFile
  else if matches pat_c packet then Q_c
  else if matches pat_p packet then Q_p
  else if matches pat_qProcessInfo packet then Q_qProcessInfo
  else if bool_decide (packet = #"+") then Q_ack
  else if matches pat_k packet then Q_k
  else Q_unsupported.

(** The branches. *)
Definition processPacket (packet : bytes) : M S bytes :=
  match classify packet with
  | Q_qAttached => process_qAttached packet
  | Q_qSupported => process_qSupported packet
  | Q_QStartNoAckMode => process_QStartNoAckMode packet
  | Q_status => processStatus packet
  | Q_g => process_g packet
  | Q_G => process_G packet
  | Q_H => process_H packet
  | Q_qfThreadInfo => process_qfThreadInfo packet
  | Q_qsThreadInfo => process_qfThreadInfo packet
  | Q_qC => process_qC packet
  | Q_m => process_m packet
  | Q_M => process_M packet
  | Q_x => process_m packet
  | Q_qXfer => process_qXfer packet
  | Q_z => process_z packet
  | Q_Z => process_Z packet
  | Q_vCont => process_vCont packet
  | Q_vFile => process_vFile packet
  | Q_c => process_c packet
  | Q_p => process_p packet
  | Q_qProcessInfo => process_qProcessInfo packet
  | Q_ack => processAck packet
  | Q_k => _ ← update (set_mRunning false); mret []
  | Q_unsupported => processUnsupported packet
  end.

Definition isRunning (p : GDBServerProtocol) : bool := mRunning p.
End handlers.
