(* ===== verification/Sim.v ===== *)
(** * Sim: a small concrete debugger and file table

    Instances of [AbstractDebugger] and [Files] that run, for the concrete
    inputs at which the theorems about the protocol are exercised.  Nothing
    here models code of the repository. *)

From S2P Require Import Prelude Debugger GdbProtocol.

(** A stopped process with one mapped region, and a log of what was asked. *)
Record sim := {
  sim_base : Z;
  sim_mem : bytes;
  sim_threads : list Z;
  sim_regs : bytes;
  sim_xml : bytes;
  sim_breakpoints : list Z;
  sim_log : list (Z * Z);
}.

Definition sim_with (mem : bytes) (bps : list Z) (log : list (Z * Z)) (d : sim) : sim :=
  {| sim_base := sim_base d; sim_mem := mem; sim_threads := sim_threads d;
     sim_regs := sim_regs d; sim_xml := sim_xml d; sim_breakpoints := bps; sim_log := log |}.

Definition sim_get {A} (f : sim -> A) : M sim A := fun d => Ok (f d, d).

#[global] Instance sim_debugger : AbstractDebugger sim := {|
  getRegistersData _ := sim_get sim_regs;
  writeRegistersData data _ := modify (fun d =>
    {| sim_base := sim_base d; sim_mem := sim_mem d; sim_threads := sim_threads d;
       sim_regs := data; sim_xml := sim_xml d; sim_breakpoints := sim_breakpoints d;
       sim_log := sim_log d |});
  readRegister _ r := sim_get (fun d => take 8 (drop (Z.to_nat (8 * r)) (sim_regs d)));
  getGDBTargetXML := sim_get sim_xml;
  getProcessInfo := sim_get (fun _ =>
    {| pid := 1; parentPID := 0; realUID := 0; realGID := 0; effectiveUID := 0;
       effectiveGID := 0; triple := #"x86_64"; ostype := #"linux"; endian := #"little";
       targetABI := []; pointerSize := 8 |});
  getExecutablePath := sim_get (fun _ => #"/bin/app");
  attach _ := mret tt;
  isAttached := sim_get (fun _ => true);
  detach := mret tt;
  getNumThreads := sim_get (fun d => Z.of_nat (length (sim_threads d)));
  getThreadIDAtIndex i := fun d =>
    match sim_threads d !! Z.to_nat i with Some t => Ok (t, d) | None => UB end;
  getStopReason _ := sim_get (fun _ =>
    {| StopReason.type := StopReason.signal; StopReason.code := 5 |});
  createSoftwareBreakpoint a := modify (fun d =>
    sim_with (sim_mem d) (a :: sim_breakpoints d) (sim_log d) d);
  removeSoftwareBreakpoint a := modify (fun d =>
    sim_with (sim_mem d) (filter (fun b => b <> a) (sim_breakpoints d)) (sim_log d) d);
  resume sig tid := modify (fun d =>
    sim_with (sim_mem d) (sim_breakpoints d) (sim_log d ++ [(sig, tid)]) d);
  stepInstruction tid sig := modify (fun d =>
    sim_with (sim_mem d) (sim_breakpoints d) (sim_log d ++ [(sig, tid)]) d);
  readMemory a len := sim_get (fun d =>
    take (Z.to_nat len) (drop (Z.to_nat (a - sim_base d)) (sim_mem d)));
  writeMemory a len data := modify (fun d =>
    let i := Z.to_nat (a - sim_base d) in
    sim_with (take i (sim_mem d) ++ data ++ drop (i + length data) (sim_mem d))
      (sim_breakpoints d) (sim_log d) d);
  getAuxvData := sim_get (fun _ => [x23; x01]);
|}.

(** One open file, descriptor 3, with the given contents and offset. *)
Record sim_files := { sim_content : bytes; sim_offset : Z }.

#[global] Instance sim_Files : Files sim_files := {|
  sys_open _ _ _ := fun f => Ok (3, f);
  sys_lseek fd off := fun f => Ok (tt, {| sim_content := sim_content f; sim_offset := off |});
  sys_read fd count := fun f =>
    if fd =? 3 then
      let got := take (Z.to_nat count) (drop (Z.to_nat (sim_offset f)) (sim_content f)) in
      Ok ((Z.of_nat (length got), got), f)
    else Ok ((-1, []), f);
  sys_close _ := fun f => Ok (0, f);
|}.

Definition sim0 : sim :=
  {| sim_base := 4096; sim_mem := #"a#b$c}d*"; sim_threads := [257; 258; 4660];
     sim_regs := [x01; x23; xff]; sim_xml := #"<target>demo</target>";
     sim_breakpoints := []; sim_log := [] |}.

Definition sim_session : session sim sim_files :=
  {| proto := new_protocol; server := addDebugger sim0 new_server;
     files := {| sim_content := #"hello"; sim_offset := 0 |} |}.
