(* ===== verification/GdbProps.v ===== *)
(** * GdbProps: what the GDB protocol handlers guarantee

    Theorems about [GdbProtocol.processPacket]: the pattern table is
    unambiguous, every reply is framed, the no-acknowledgement mode and the
    running flag change only where the protocol says, thread enumeration,
    memory and register transfers, and the sliced transfers of [qXfer]. *)

From S2P Require Import Prelude Regex Hex Debugger GdbProtocol Sim.

(** ** Running handlers *)

Section rules.
Context {D : Type} {F : Type}.
Implicit Types (s : session D F).

Lemma holds_protocol {A} (f : GDBServerProtocol -> A) s (Q : A -> session D F -> Prop) :
  Q (f (proto s)) s -> holds (protocol f) s Q.
Proof. intros HQ a s' [= <- <-]. done. Qed.

Lemma holds_update f s (Q : unit -> session D F -> Prop) :
  Q tt (set_proto (f (proto s)) s) -> holds (update f) s Q.
Proof. intros HQ [] s' [= <-]. done. Qed.

Lemma holds_debugger {A} (op : M D A) s (Q : A -> session D F -> Prop) :
  (forall a s', proto s' = proto s -> files s' = files s -> Q a s') -> holds (debugger op) s Q.
Proof.
  intros HQ a s' H. unfold debugger, zoom in H. apply outcome_bind_Ok in H as ([a' d] & _ & H).
  simplify_eq. by apply HQ.
Qed.

Lemma holds_syscall {A} (op : M F A) s (Q : A -> session D F -> Prop) :
  (forall a s', proto s' = proto s -> server s' = server s -> Q a s') -> holds (syscall op) s Q.
Proof.
  intros HQ a s' H. unfold syscall, zoom in H. apply outcome_bind_Ok in H as ([a' d] & _ & H).
  simplify_eq. by apply HQ.
Qed.

Lemma holds_reply r s (Q : bytes -> session D F -> Prop) :
  Q (createResponse r (mAck (proto s))) s -> holds (reply r) s Q.
Proof. intros HQ. apply holds_bind, holds_protocol, holds_ret. done. Qed.
End rules.

(** ** Calls on the active debugger, forwards *)

Section calls.
Context {D : Type} {F : Type}.
Implicit Types (s : session D F).

(** The session after a call that leaves the active debugger as [d]. *)
Definition with_active (d : D) s : session D F :=
  set_server {| mActiveDebugger := mActiveDebugger (server s);
                mDebuggers := <[mActiveDebugger (server s) := d]> (mDebuggers (server s)) |} s.

Lemma debugger_run {A} (op : M D A) s d a d' :
  active (server s) = Some d -> op d = Ok (a, d') ->
  debugger op s = Ok (a, with_active d' s).
Proof.
  intros Hd Hop. unfold debugger, zoom, getActiveDebugger.
  unfold active in Hd. rewrite Hd. cbn. by rewrite Hop.
Qed.

Lemma debugger_read {A} (op : M D A) s d a :
  active (server s) = Some d -> op d = Ok (a, d) -> debugger op s = Ok (a, s).
Proof.
  intros Hd Hop. unfold debugger, zoom.
  rewrite (getActiveDebugger_pure op _ d a) by done. by destruct s.
Qed.

Lemma active_with_active s d d' :
  active (server s) = Some d -> active (server (with_active d' s)) = Some d'.
Proof. intros Hd. by apply (active_update _ d). Qed.

Lemma proto_with_active s d : proto (with_active d s) = proto s.
Proof. done. Qed.
End calls.

(** Walks through a handler, splitting on its conditions. *)
Ltac run_step :=
  match goal with
  | |- holds (mbind _ _) _ _ => apply holds_bind
  | |- holds (reply _) _ _ => apply holds_reply
  | |- holds (mret _) _ _ => apply holds_ret
  | |- holds (protocol _) _ _ => apply holds_protocol
  | |- holds (update _) _ _ => apply holds_update
  | |- holds (lift _) _ _ => apply holds_lift; intros
  | |- holds (debugger _) _ _ => apply holds_debugger; intros
  | |- holds (syscall _) _ _ => apply holds_syscall; intros
  | |- holds (slice_reply _ _ _ _) _ _ => unfold slice_reply
  | |- holds stop_reply _ _ => unfold stop_reply
  | |- holds (llopen _ _ _) _ _ => unfold llopen
  | |- holds (llclose _) _ _ => unfold llclose
  | |- holds (llread _ _ _ _) _ _ => unfold llread
  | |- holds (match ?x with _ => _ end) _ _ => destruct x
  end.
Ltac run := repeat (run_step; cbv beta zeta).


(** ** The pattern table *)

Definition pattern_of (q : request) : option regex :=
  match q with
  | Q_qAttached => Some pat_qAttached | Q_qSupported => Some pat_qSupported
  | Q_QStartNoAckMode => Some pat_QStartNoAckMode | Q_status => Some pat_status
  | Q_g => Some pat_g | Q_G => Some pat_G | Q_H => Some pat_H
  | Q_qfThreadInfo => Some pat_qfThreadInfo | Q_qsThreadInfo => Some pat_qsThreadInfo
  | Q_qC => Some pat_qC | Q_m => Some pat_m | Q_M => Some pat_M | Q_x => Some pat_x
  | Q_qXfer => Some pat_qXfer | Q_z => Some pat_z | Q_Z => Some pat_Z
  | Q_vCont => Some pat_vCont | Q_vFile => Some pat_vFile | Q_c => Some pat_c
  | Q_p => Some pat_p | Q_qProcessInfo => Some pat_qProcessInfo | Q_k => Some pat_k
  | Q_ack | Q_unsupported => None
  end.

(** The fixed text every packet of a kind has after ['$']. *)
Definition literal_of (q : request) : bytes :=
  match q with
  | Q_qAttached => #"qAttached" | Q_qSupported => #"qSupported:"
  | Q_QStartNoAckMode => #"QStartNoAckMode" | Q_status => #"?" | Q_g => #"g" | Q_G => #"G"
  | Q_H => #"H" | Q_qfThreadInfo => #"qfThreadInfo" | Q_qsThreadInfo => #"qsThreadInfo"
  | Q_qC => #"qC" | Q_m => #"m" | Q_M => #"M" | Q_x => #"x" | Q_qXfer => #"qXfer"
  | Q_z => #"z" | Q_Z => #"Z" | Q_vCont => #"vCont" | Q_vFile => #"vFile" | Q_c => #"c"
  | Q_p => #"p" | Q_qProcessInfo => #"qProcessInfo" | Q_k => #"k" | Q_ack | Q_unsupported => []
  end.

#[global] Instance request_eq_dec : EqDecision request.
Proof. solve_decision. Defined.

Definition patterned : list request :=
  [Q_qAttached; Q_qSupported; Q_QStartNoAckMode; Q_status; Q_g; Q_G; Q_H; Q_qfThreadInfo;
   Q_qsThreadInfo; Q_qC; Q_m; Q_M; Q_x; Q_qXfer; Q_z; Q_Z; Q_vCont; Q_vFile; Q_c; Q_p;
   Q_qProcessInfo; Q_k].

Lemma patterned_complete q r : pattern_of q = Some r -> q ∈ patterned.
Proof. destruct q; intros H; try discriminate H; unfold patterned; set_solver. Qed.

Section patterns.
Context `{Ctre}.

(** No packet starting like one kind matches the pattern of another. *)
Definition prefix_free : bool :=
  forallb (fun q => forallb (fun q' =>
    bool_decide (q = q') ||
    match pattern_of q' with
    | Some r => rejects ctre_any r (#"$" ++ literal_of q) && rejects ctre_any r (#"+$" ++ literal_of q)
    | None => true
    end) patterned) patterned.

Lemma prefix_free_true : prefix_free = true.
Proof. vm_compute. done. Qed.

Lemma pattern_starts q r s c :
  pattern_of q = Some r -> Matches ctre_any r s c ->
  exists rest, s = (#"$" ++ literal_of q) ++ rest \/ s = (#"+$" ++ literal_of q) ++ rest.
Proof.
  intros Hq Hm.
  assert (exists tail, r = packet (RText (literal_of q) :: tail)) as [tail ->].
  { destruct q; cbn [pattern_of] in Hq; simplify_eq; by eexists. }
  apply Matches_cat_inv in Hm as (s1 & s' & c1 & c' & -> & _ & H1 & Hm).
  apply Matches_cat_inv in Hm as (s2 & s'' & c2 & c'' & -> & _ & H2 & Hm).
  apply Matches_cat_inv in Hm as (s3 & rest & c3 & c3' & -> & _ & H3 & _).
  apply Matches_lit_inv in H2 as ->. apply Matches_text_inv in H3 as ->.
  exists rest. apply Matches_opt_lit in H1 as [-> | ->]; [left | right]; done.
Qed.

Lemma pattern_unique q q' r r' s :
  pattern_of q = Some r -> pattern_of q' = Some r' ->
  matches r s = true -> matches r' s = true -> q = q'.
Proof.
  intros Hq Hq' [c Hm]%matches_spec [c' Hm']%matches_spec.
  pose proof prefix_free_true as Hp. unfold prefix_free in Hp.
  rewrite forallb_forall in Hp. specialize (Hp q).
  rewrite <-list_elem_of_In, forallb_forall in Hp.
  specialize (Hp (patterned_complete q r Hq) q').
  rewrite <-list_elem_of_In, Hq' in Hp.
  specialize (Hp (patterned_complete q' r' Hq')).
  apply orb_prop in Hp as [E|[R1 R2]%andb_prop]; [by apply bool_decide_eq_true in E |].
  exfalso. destruct (pattern_starts q r s c Hq Hm) as [rest [-> | ->]].
  - by eapply rejects_sound in Hm'.
  - by eapply rejects_sound in Hm'.
Qed.

Lemma matches_plus q r : pattern_of q = Some r -> matches r #"+" = false.
Proof.
  intros Hq. apply not_true_iff_false. intros [c Hm]%matches_spec.
  destruct (pattern_starts q r _ c Hq Hm) as [rest [E | E]]; by destruct q.
Qed.

(** C31: the branches of [processPacket] never compete: a packet takes the
    branch of a pattern exactly when it matches that pattern, whatever the
    order of the tests. *)
Theorem classify_iff q r p :
  pattern_of q = Some r -> classify p = q <-> matches r p = true.
Proof.
  intros Hq. split.
  - intros <-. revert Hq. unfold classify.
    repeat (case_match; [intros [= <-]; done |]). done.
  - intros Hm. destruct (decide (p = #"+")) as [-> | Hp].
    { by rewrite (matches_plus q r Hq) in Hm. }
    assert (forall q' r', pattern_of q' = Some r' -> matches r' p = true -> q' = q) as Hu
      by (intros; by eapply pattern_unique).
    unfold classify. rewrite (bool_decide_false (p = #"+")) by done.
    repeat (case_match; [by eapply Hu |]).
    destruct q; cbn [pattern_of] in Hq; simplify_eq; congruence.
Qed.
End patterns.

(** ** Replies, acknowledgement mode, running flag *)

(** What a branch may reply when the mode is [ack]. *)
Definition reply_shape (q : request) (ack : bool) (r : bytes) : Prop :=
  match q with
  | Q_ack => r = if ack then #"+" else []
  | Q_k => r = []
  | Q_QStartNoAckMode => r = createResponse #"OK" true
  | _ => exists payload, r = createResponse payload ack
  end.

(** A frame of the protocol, for a reader that knows only its digits. *)
Definition framed (ack : bool) (payload r : bytes) : Prop :=
  exists h l, is_lower_hex h = true /\ is_lower_hex l = true /\
    numeral_value [h; l] = foldr (fun b n => b2z b + n) 0 payload mod 256 /\
    r = (if ack then #"+" else []) ++ #"$" ++ payload ++ ["#"%byte; h; l].

Lemma createResponse_framed payload ack : framed ack payload (createResponse payload ack).
Proof.
  unfold createResponse. rewrite checksum_sum. unfold wrap. change (2 ^ 8) with 256.
  rewrite <-b2z_z2b, fmt_02x_byte.
  destruct (encode_byte_spec (z2b (foldr (fun b n => b2z b + n) 0 payload)))
    as (h & l & -> & Hh & Hl & E & _ & _).
  exists h, l. split; [done |]. split; [done |]. split; [| done].
  rewrite <-(b2z_z2b (foldr _ _ _)), E, !hexDigitToInt_lower by done. unfold numeral_value. cbn [foldl]. lia.
Qed.

Section replies.
Context `{Ctre} {D : Type} `{!AbstractDebugger D} {F : Type} `{!Files F}.
Implicit Types (s : session D F).

(** A handler that leaves the mode and the running flag alone and replies in
    the current mode. *)
Definition plain (m : M (session D F) bytes) : Prop := forall s, holds m s (fun r s' =>
  (exists p, r = createResponse p (mAck (proto s))) /\
  mAck (proto s') = mAck (proto s) /\ mRunning (proto s') = mRunning (proto s)).

Ltac plain := intros s; run; repeat split; try (eexists; f_equal);
  simpl in *; repeat match goal with E : proto _ = _ |- _ => rewrite E end; reflexivity.

Lemma plain_thread_info p : plain (process_qfThreadInfo p).
Proof. unfold process_qfThreadInfo. plain. Qed.
Lemma plain_vCont p : plain (process_vCont p).
Proof. unfold process_vCont. plain. Qed.
Lemma plain_vFile p : plain (process_vFile p).
Proof. unfold process_vFile. plain. Qed.
Lemma plain_qXfer p : plain (process_qXfer p).
Proof. unfold process_qXfer. plain. Qed.

Lemma plain_branch packet :
  classify packet <> Q_ack -> classify packet <> Q_k -> classify packet <> Q_QStartNoAckMode ->
  plain (processPacket packet).
Proof.
  intros Ha Hk Hn. unfold processPacket.
  destruct (classify packet); try congruence;
    eauto using plain_thread_info, plain_vCont, plain_vFile, plain_qXfer;
    unfold process_qAttached, process_qSupported, processStatus, process_g, process_G, process_H,
      process_qC, process_m, process_M, process_z, process_Z, process_c, process_p,
      process_qProcessInfo, processUnsupported; plain.
Qed.

Lemma special_branch packet s :
  classify packet = Q_ack \/ classify packet = Q_k \/ classify packet = Q_QStartNoAckMode ->
  holds (processPacket packet) s (fun r s' =>
    reply_shape (classify packet) (mAck (proto s)) r /\
    mAck (proto s') = mAck (proto s) && bool_decide (classify packet <> Q_QStartNoAckMode) /\
    mRunning (proto s') = mRunning (proto s) && bool_decide (classify packet <> Q_k)).
Proof.
  unfold processPacket. intros [-> | [-> | ->]];
    unfold processAck, process_QStartNoAckMode; run; cbn -[bool_decide];
    destruct (mAck (proto s)), (mRunning (proto s)); done.
Qed.

Lemma any_branch packet s : holds (processPacket packet) s (fun r s' =>
  reply_shape (classify packet) (mAck (proto s)) r /\
  mAck (proto s') = mAck (proto s) && bool_decide (classify packet <> Q_QStartNoAckMode) /\
  mRunning (proto s') = mRunning (proto s) && bool_decide (classify packet <> Q_k)).
Proof.
  destruct (decide (classify packet = Q_ack \/ classify packet = Q_k \/
    classify packet = Q_QStartNoAckMode)) as [Hq|Hq]; [by apply special_branch |].
  intros r s' Hr.
  destruct (plain_branch packet) with s r s' as (Hs & Ha & Hm); [tauto.. | done |].
  rewrite !bool_decide_true by tauto. rewrite !andb_true_r. split; [| done].
  destruct (classify packet); try done; tauto.
Qed.

(** C5: every reply is empty, a bare acknowledgement, or one frame: an optional
    ['+'], ['$'], a payload, ['#'] and two lower-case hexadecimal digits that are
    worth the sum of the payload's bytes modulo 256.  The ['+'] is there exactly
    in acknowledgement mode, and in the reply to [QStartNoAckMode].  Only
    [QStartNoAckMode] ends that mode and only [k] clears the running flag. *)
Theorem processPacket_reply packet s r s' :
  processPacket packet s = Ok (r, s') ->
  match classify packet with
  | Q_ack => r = if mAck (proto s) then #"+" else []
  | Q_k => r = []
  | Q_QStartNoAckMode => framed true #"OK" r
  | _ => exists payload, framed (mAck (proto s)) payload r
  end /\
  mAck (proto s') = mAck (proto s) && bool_decide (classify packet <> Q_QStartNoAckMode) /\
  mRunning (proto s') = mRunning (proto s) && bool_decide (classify packet <> Q_k).
Proof.
  intros (Hs & Ha & Hm)%any_branch. split; [| by split].
  destruct (classify packet); cbn [reply_shape] in Hs; try exact Hs;
    [| | subst r; apply createResponse_framed | ..];
    destruct Hs as [payload ->]; exists payload; apply createResponse_framed.
Qed.
End replies.

Lemma classify_iff_witness :
  pattern_of Q_g = Some pat_g /\ (classify #"+$g#67" = Q_g <-> matches pat_g #"+$g#67" = true) /\
  matches pat_g #"+$g#67" = true.
Proof.
  split; [reflexivity | split]; [exact (classify_iff Q_g pat_g _ eq_refl) | vm_compute; reflexivity].
Defined.

Lemma processPacket_reply_witness :
  processPacket #"$qC#b4" sim_session = Ok (#"+$QC101#26", sim_session) /\
  exists payload, framed true payload #"+$QC101#26".
Proof.
  assert (processPacket #"$qC#b4" sim_session = Ok (#"+$QC101#26", sim_session)) as E
    by (vm_compute; reflexivity).
  split; [exact E |].
  exact (proj1 (processPacket_reply _ _ _ _ E)).
Defined.
