(* ===== verification/GdbPackets.v ===== *)
(** * GdbPackets: what a handler does with the packets a debugger client sends

    Packets are written out here from their meaning (an operation, addresses,
    lengths, thread ids) and [processPacket] is shown to perform that
    operation on the active debugger and to reply with its result. *)

From S2P Require Import Prelude Regex Hex Debugger GdbProtocol GdbProps Sim.

(** ** Packets and their derivations *)

(** [$text#dd] *)
Definition frame (text : bytes) (d1 d2 : byte) : bytes := #"$" ++ text ++ #"#" ++ [d1; d2].
Definition is_hex (b : byte) : bool := is_lower_hex b || is_upper_hex b.

Lemma join_app {A} (l1 l2 : list (list A)) : mjoin (l1 ++ l2) = mjoin l1 ++ mjoin l2.
Proof.
  induction l1 as [|x l1 IH]; [done |].
  change (x ++ mjoin (l1 ++ l2) = (x ++ mjoin l1) ++ mjoin l2). by rewrite IH, app_assoc.
Qed.

Section derivations.
Context (any : byte -> bool).

Lemma in_hex_lower b : in_cset any hex_lower b = is_lower_hex b.
Proof. apply eqb_prop. by_bytes b. Qed.
Lemma in_hex_any b : in_cset any hex_any b = is_hex b.
Proof. apply eqb_prop. by_bytes b. Qed.

Lemma Matches_lit b : Matches any (RLit b) [b] [].
Proof. constructor. cbn. unfold in_range; cbn. by rewrite Z.leb_refl. Qed.

Lemma Matches_plus c s :
  s <> [] -> Forall (fun b => in_cset any c b = true) s -> Matches any (RPlus c) s [].
Proof.
  intros Hs Hc. destruct s as [|b s]; [done |]. apply Forall_cons_1 in Hc as [Hb Hc].
  constructor; [done |]. clear Hs. induction Hc; cbn; [done |]. by apply andb_true_intro.
Qed.

Lemma Matches_hex_group h :
  h <> [] -> Forall (fun c => is_lower_hex c = true) h -> Matches any hex_group h [Some h].
Proof.
  intros Hh Hl. constructor. apply Matches_plus; [done |].
  eapply Forall_impl; [| exact Hl]. intros b. by rewrite in_hex_lower.
Qed.

Lemma encode_num_ne n z : encode_num n z <> [].
Proof. intros E. pose proof (length_trim (encode (rev (le_bytes n z)))). unfold encode_num in E.
  rewrite E in *. cbn in *. lia. Qed.

Lemma Matches_num_group n z : Matches any hex_group (encode_num n z) [Some (encode_num n z)].
Proof. apply Matches_hex_group; auto using encode_num_ne with trace. Qed.

Lemma Matches_opt_c : Matches any opt_c [] [].
Proof. apply (M_none any (RText #";c")). Qed.

(** The row of parts of a [packet] pattern against the parts of a frame. *)
Lemma Matches_packet body ss cs d1 d2 :
  Forall3 (Matches any) body ss cs -> is_hex d1 = true -> is_hex d2 = true ->
  Matches any (packet body) (frame (mjoin ss) d1 d2) (mjoin cs).
Proof.
  intros Hb H1 H2.
  assert (Matches any opt_plus [] []) as Ho by (apply (M_none any (RLit "+"%byte))).
  assert (Matches any (packet body)
    (mjoin ([[]; #"$"] ++ ss ++ [ #"#"; [d1]; [d2]; []])) (mjoin ([[]; []] ++ cs ++ [[]; []; []; []])))
    as Hm.
  { apply Matches_cat. repeat (apply Forall3_cons; [first [done | apply Matches_lit] |]).
    apply Forall3_app; [done |].
    repeat (apply Forall3_cons;
      [first [done | apply Matches_lit | constructor; by rewrite in_hex_any] |]).
    constructor. }
  rewrite !join_app in Hm. cbn in Hm. rewrite app_nil_r in Hm. exact Hm.
Qed.
End derivations.

#[export] Hint Resolve Matches_lit Matches_text Matches_num_group Matches_hex_group
  Matches_opt_c encode_num_ne : trace.

(** ** Numbers in packets *)

Definition u64_ok (z : Z) : Prop := 0 <= z < 2 ^ 64.
Definition sig_ok (z : Z) : Prop := 0 <= z < 2 ^ 31.

Lemma parse_u64 z : u64_ok z -> parseInt uint64_t (encode_num 8 z) = z.
Proof.
  unfold u64_ok. intros. apply parseInt_encode_num; unfold uint64_t, ity_max, ity_bits; cbn; lia.
Qed.
Lemma parse_size z : u64_ok z -> parseInt size_t (encode_num 8 z) = z.
Proof. apply parse_u64. Qed.
Lemma parse_sig z : sig_ok z -> parseInt int_t (encode_num 4 z) = z.
Proof.
  unfold sig_ok. intros. apply parseInt_encode_num; unfold int_t, ity_max, ity_bits; cbn; lia.
Qed.

Lemma encode_num_no_newline n z : Forall (fun b => b <> x0a) (encode_num n z).
Proof. eapply Forall_impl; [| apply encode_num_lower]. by intros b Hb ->. Qed.

(** Solves [Forall3 (Matches _) parts texts groups] for literal parts and
    numbers. *)
Ltac row := repeat (apply Forall3_cons; [auto with trace |]); try apply Forall3_nil.

Section frames.
Context `{Ctre}.

Lemma classify_frame q body ss cs d1 d2 :
  pattern_of q = Some (packet body) -> Forall3 (Matches ctre_any) body ss cs ->
  is_hex d1 = true -> is_hex d2 = true -> classify (frame (mjoin ss) d1 d2) = q.
Proof.
  intros Hq Hb H1 H2. apply (classify_iff q (packet body)); [done |].
  apply matches_spec. eexists. by apply Matches_packet.
Qed.

Lemma match_frame body ss cs d1 d2 :
  detb ctre_any (packet body) (fun _ => false) = true -> Forall3 (Matches ctre_any) body ss cs ->
  is_hex d1 = true -> is_hex d2 = true ->
  ctre_match (packet body) (frame (mjoin ss) d1 d2) = Some (mjoin cs).
Proof. intros Hd Hb H1 H2. apply ctre_match_det; [done |]. by apply Matches_packet. Qed.

(** A pattern that cannot start like the frame does not match it. *)
Lemma no_match_frame r t l d1 d2 :
  rejects ctre_any r (#"$" ++ t) = true ->
  ctre_match r (frame (mjoin (t :: l)) d1 d2) = None.
Proof.
  intros Hr. unfold frame. change (mjoin (t :: l)) with (t ++ mjoin l).
  replace (#"$" ++ (t ++ mjoin l) ++ #"#" ++ [d1; d2])
    with ((#"$" ++ t) ++ mjoin l ++ #"#" ++ [d1; d2]) by (by rewrite <-!app_assoc).
  by apply ctre_match_rejects.
Qed.

Lemma Matches_dots s : s <> [] -> Forall (fun b => b <> x0a) s -> Matches ctre_any dots s [].
Proof.
  intros Hs Hl. apply Matches_plus; [done |].
  eapply Forall_impl; [| exact Hl]. intros b. apply ctre_any_spec.
Qed.
Lemma classify_dots q lit rest d1 d2 :
  pattern_of q = Some (packet [RText lit; dots]) ->
  rest <> [] -> Forall (fun b => b <> x0a) rest -> is_hex d1 = true -> is_hex d2 = true ->
  classify (frame (lit ++ rest) d1 d2) = q.
Proof.
  intros Hq Hr Hl H1 H2.
  replace (lit ++ rest) with (mjoin [lit; rest]) by (cbn; by rewrite app_nil_r).
  apply (classify_frame q _ _ [[]; []] d1 d2 Hq); [| done..]. row. by apply Matches_dots.
Qed.

End frames.

(** [groups r l]: pattern [r] captures [l], part by part, from the command;
    [skip r t]: pattern [r] cannot match a command that starts with [t]. *)
Ltac groups r l :=
  match goal with
  | |- context [ctre_match r (frame (mjoin ?ss) ?d1 ?d2)] =>
      rewrite ((match_frame _ ss l d1 d2 : _ -> _ -> _ -> _ -> ctre_match r _ = _)
        ltac:(by vm_compute) ltac:(row) ltac:(done) ltac:(done))
  end;
  cbv zeta;
  change (group (mjoin l) 0) with (default [] (mjoin (mjoin l !! 0%nat)));
  change (group (mjoin l) 1) with (default [] (mjoin (mjoin l !! 1%nat)));
  change (group (mjoin l) 2) with (default [] (mjoin (mjoin l !! 2%nat)));
  cbn [default mjoin list_join option_join app lookup list_lookup id];
  rewrite ?parse_u64, ?parse_size, ?parse_sig by (cbn in *; tauto).
Ltac skip r t :=
  rewrite (no_match_frame r t) by (by vm_compute).

Section session.
Context `{Ctre} {D : Type} `{!AbstractDebugger D} {F : Type} `{!Files F}.
Implicit Types (s : session D F).

(** ** Memory: [$m addr,len] and [$x addr,len] *)

Definition mem_packet (op : byte) (addr len : Z) (d1 d2 : byte) : bytes :=
  frame (mjoin [[op]; encode_num 8 addr; #","; encode_num 8 len]) d1 d2.

Lemma Matches_m_or_x (op : byte) :
  op = "m"%byte \/ op = "x"%byte -> Matches ctre_any m_or_x [op] [].
Proof. by intros [-> | ->]; constructor. Qed.

Lemma match_in_m op addr len d1 d2 :
  op = "m"%byte \/ op = "x"%byte -> is_hex d1 = true -> is_hex d2 = true ->
  ctre_match in_m (mem_packet op addr len d1 d2) =
  Some [Some (encode_num 8 addr); Some (encode_num 8 len)].
Proof.
  intros Ho H1 H2.
  apply (match_frame _ _ [[]; [Some (encode_num 8 addr)]; []; [Some (encode_num 8 len)]]);
    [by vm_compute | | done..].
  apply Forall3_cons; [by apply Matches_m_or_x |]. row.
Qed.

Lemma Matches_hex_commas addr len :
  Matches ctre_any (RPlus hex_comma) (mjoin [encode_num 8 addr; #","; encode_num 8 len]) [].
Proof.
  assert (forall n z, Forall (fun b => in_cset ctre_any hex_comma b = true) (encode_num n z)) as He.
  { intros n z. eapply Forall_impl; [| apply encode_num_lower]. intros b Hb.
    assert (implb (is_lower_hex b) (in_cset ctre_any hex_comma b) = true) as Hi by by_bytes b.
    by rewrite Hb in Hi. }
  apply Matches_plus.
  - cbn. intros [E _]%app_eq_nil. by apply encode_num_ne in E.
  - cbn. rewrite app_nil_r. apply Forall_app; split; [done |]. by constructor.
Qed.

Lemma classify_mem op addr len d1 d2 q :
  (op = "m"%byte /\ q = Q_m) \/ (op = "x"%byte /\ q = Q_x) -> is_hex d1 = true -> is_hex d2 = true ->
  classify (mem_packet op addr len d1 d2) = q.
Proof.
  intros Hq H1 H2.
  assert (exists body, pattern_of q = Some (packet body) /\
    body = [RText [op]; RPlus hex_comma]) as (body & Hp & ->) by
    (destruct Hq as [[-> ->] | [-> ->]]; by eexists).
  replace (mem_packet op addr len d1 d2)
    with (frame (mjoin [[op]; mjoin [encode_num 8 addr; #","; encode_num 8 len]]) d1 d2)
    by (unfold mem_packet; cbn; by rewrite !app_nil_r).
  apply (classify_frame q _ _ [[]; []] d1 d2 Hp); [| done..].
  row. apply Matches_hex_commas.
Qed.

Lemma processPacket_mem op addr len d1 d2 s :
  op = "m"%byte \/ op = "x"%byte -> is_hex d1 = true -> is_hex d2 = true ->
  processPacket (mem_packet op addr len d1 d2) s = process_m (mem_packet op addr len d1 d2) s.
Proof.
  unfold processPacket. intros [-> | ->] H1 H2.
  - by rewrite (classify_mem _ _ _ _ _ Q_m) by tauto.
  - by rewrite (classify_mem _ _ _ _ _ Q_x) by tauto.
Qed.

(** C13: a read packet makes one [readMemory] call with the numbers it spells,
    and the reply, once unframed, is the data: in hexadecimal for [m], in the
    binary escape encoding for [x]. *)
Theorem memory_read op addr len d1 d2 s d data d' :
  op = "m"%byte \/ op = "x"%byte -> is_hex d1 = true -> is_hex d2 = true ->
  0 <= addr < 2 ^ 64 -> 0 < len < 2 ^ 64 ->
  active (server s) = Some d -> readMemory addr len d = Ok (data, d') -> data <> [] ->
  exists r s' payload,
    processPacket (mem_packet op addr len d1 d2) s = Ok (r, s') /\
    unframe r = Some (mAck (proto s), payload) /\
    (if bool_decide (op = "m"%byte) then decode payload = Ok data else unescape payload = data) /\
    active (server s') = Some d' /\ proto s' = proto s.
Proof.
  intros Ho H1 H2 Ha Hl Hd Hr Hne.
  set (payload := if bool_decide (op = "m"%byte) then encode data else escape data).
  exists (createResponse payload (mAck (proto s))), (with_active d' s), payload.
  split; [| split; [| split; [| split]]].
  - rewrite processPacket_mem by done. unfold process_m. cbv zeta. rewrite match_in_m by done.
    change (group (default [] (Some [Some ?a; Some ?b])) 0) with a.
    change (group (default [] (Some [Some ?a; Some ?b])) 1) with b.
    rewrite !(parseInt_encode_num uint64_t) by (unfold uint64_t, ity_max, ity_bits; cbn; lia).
    destruct (Z.eqb_spec len 0); [lia |].
    rewrite (M_run_bind _ _ _ _ _ (debugger_run _ s d data d' Hd Hr)).
    destruct data as [|b data]; [done |]. subst payload. destruct Ho as [-> | ->].
    + rewrite bool_decide_true by done.
      change (starts_with (mem_packet "m"%byte addr len d1 d2) #"$x") with false. done.
    + rewrite bool_decide_false by done.
      change (starts_with (mem_packet "x"%byte addr len d1 d2) #"$x") with true. done.
  - apply unframe_createResponse. subst payload.
    case_bool_decide; auto using encode_no_hash, escape_no_hash.
  - subst payload. case_bool_decide; auto using unescape_escape, decode_encode.
  - by apply (active_with_active _ d).
  - done.
Qed.
(** ** Commands: [vCont], breakpoints, thread selection *)

Inductive command : Set :=
  | Continue
  | ContinueThread (tid : Z)
  | ContinueSignal (sig tid : Z)
  | Step (tid : Z)
  | StepSignal (sig tid : Z)
  | InsertBreakpoint (addr kind : Z)
  | RemoveBreakpoint (addr kind : Z)
  | SelectThread (tid : Z).

Definition command_parts (c : command) : list bytes :=
  match c with
  | Continue => [ #"vCont;c"]
  | ContinueThread tid => [ #"vCont;c:"; encode_num 8 tid]
  | ContinueSignal sig tid => [ #"vCont;C"; encode_num 4 sig; #":"; encode_num 8 tid; []]
  | Step tid => [ #"vCont;s:"; encode_num 8 tid]
  | StepSignal sig tid => [ #"vCont;S"; encode_num 4 sig; #":"; encode_num 8 tid; []]
  | InsertBreakpoint addr kind => [ #"Z0,"; encode_num 8 addr; #","; encode_num 8 kind]
  | RemoveBreakpoint addr kind => [ #"z0,"; encode_num 8 addr; #","; encode_num 8 kind]
  | SelectThread tid => [ #"Hg"; encode_num 8 tid]
  end.

Definition command_packet (c : command) (d1 d2 : byte) : bytes :=
  frame (mjoin (command_parts c)) d1 d2.

(** What the command asks of the debugger, and its reply. *)
Definition command_effect (c : command) : M (session D F) bytes :=
  match c with
  | Continue => _ ← debugger (resume 0 0); stop_reply
  | ContinueThread tid => _ ← debugger (resume 0 tid); stop_reply
  | ContinueSignal sig tid => _ ← debugger (resume sig tid); stop_reply
  | Step tid => _ ← debugger (stepInstruction tid 0); stop_reply
  | StepSignal sig tid => _ ← debugger (stepInstruction tid sig); stop_reply
  | InsertBreakpoint addr _ => _ ← debugger (createSoftwareBreakpoint addr); reply #"OK"
  | RemoveBreakpoint addr _ => _ ← debugger (removeSoftwareBreakpoint addr); reply #"OK"
  | SelectThread tid => _ ← update (set_mCurrentThreadIndex tid); reply #"OK"
  end.

Definition command_ok (c : command) : Prop :=
  match c with
  | Continue => True
  | ContinueThread tid | Step tid | SelectThread tid => u64_ok tid
  | ContinueSignal sig tid | StepSignal sig tid => sig_ok sig /\ u64_ok tid
  | InsertBreakpoint addr _ | RemoveBreakpoint addr _ => u64_ok addr
  end.

(** The branch a command takes, and the text after the branch's literal. *)
Definition command_branch (c : command) : request * bytes * bytes :=
  match c with
  | Continue => (Q_vCont, #"vCont", #";c")
  | ContinueThread tid => (Q_vCont, #"vCont", #";c:" ++ encode_num 8 tid)
  | ContinueSignal sig tid =>
      (Q_vCont, #"vCont", #";C" ++ encode_num 4 sig ++ #":" ++ encode_num 8 tid)
  | Step tid => (Q_vCont, #"vCont", #";s:" ++ encode_num 8 tid)
  | StepSignal sig tid =>
      (Q_vCont, #"vCont", #";S" ++ encode_num 4 sig ++ #":" ++ encode_num 8 tid)
  | InsertBreakpoint addr kind =>
      (Q_Z, #"Z", #"0," ++ encode_num 8 addr ++ #"," ++ encode_num 8 kind)
  | RemoveBreakpoint addr kind =>
      (Q_z, #"z", #"0," ++ encode_num 8 addr ++ #"," ++ encode_num 8 kind)
  | SelectThread tid => (Q_H, #"H", #"g" ++ encode_num 8 tid)
  end.

Lemma classify_command c d1 d2 :
  is_hex d1 = true -> is_hex d2 = true ->
  classify (command_packet c d1 d2) = (command_branch c).1.1.
Proof.
  intros H1 H2.
  assert (mjoin (command_parts c) = (command_branch c).1.2 ++ (command_branch c).2) as E
    by (destruct c; cbn; by rewrite ?app_nil_r).
  unfold command_packet. rewrite E. apply classify_dots; [by destruct c | by destruct c | | done..].
  destruct c; cbn [command_branch snd];
    repeat (apply Forall_app; split); auto using encode_num_no_newline; by repeat constructor.
Qed.

Lemma match_in_H tid d1 d2 :
  is_hex d1 = true -> is_hex d2 = true ->
  ctre_match in_H (command_packet (SelectThread tid) d1 d2) = Some [Some (encode_num 8 tid)].
Proof.
  intros H1 H2. apply ctre_match_det; [by vm_compute |].
  replace (command_packet (SelectThread tid) d1 d2) with
    (mjoin [[]; #"$"; #"H"; #"g"; encode_num 8 tid; #"#"; [d1]; [d2]])
    by (unfold command_packet, frame; cbn; by rewrite app_nil_r).
  apply (Matches_cat _ _ _ [[]; []; []; []; [Some (encode_num 8 tid)]; []; []; []]).
  repeat (apply Forall3_cons;
    [try first [by auto with trace | apply (M_none _ (RLit "+"%byte)) |
                constructor; by rewrite ?in_hex_any] |]); [| apply Forall3_nil].
  constructor. apply Matches_plus; [apply encode_num_ne |].
  eapply Forall_impl; [| apply encode_num_lower]. intros b Hb.
  set (cs := CClass _).
  assert (implb (is_lower_hex b) (in_cset ctre_any cs b) = true) as Hi by (subst cs; by_bytes b).
  by rewrite Hb in Hi.
Qed.

(** C6: a resume, step, breakpoint or thread selection packet has exactly the
    effect it spells, with the numbers it spells. *)
Theorem command_spec c d1 d2 s :
  command_ok c -> is_hex d1 = true -> is_hex d2 = true ->
  processPacket (command_packet c d1 d2) s = command_effect c s.
Proof.
  intros Hc H1 H2. unfold processPacket. rewrite classify_command by done.
  destruct c as [|tid|sig tid|tid|sig tid|addr kind|addr kind|tid]; cbn [command_branch fst];
    unfold process_vCont, process_Z, process_z, process_H;
    [unfold command_packet; cbn [command_parts] .. | idtac].
  - skip in_vCont_query #"vCont;c". groups in_vCont_c [[] : list (option bytes)]. done.
  - skip in_vCont_query #"vCont;c:". skip in_vCont_c #"vCont;c:".
    groups in_vCont_c_tid [[]; [Some (encode_num 8 tid)]]. done.
  - skip in_vCont_query #"vCont;C". skip in_vCont_c #"vCont;C". skip in_vCont_c_tid #"vCont;C".
    groups in_vCont_C [[]; [Some (encode_num 4 sig)]; []; [Some (encode_num 8 tid)]; []]. done.
  - skip in_vCont_query #"vCont;s:". skip in_vCont_c #"vCont;s:". skip in_vCont_c_tid #"vCont;s:".
    skip in_vCont_C #"vCont;s:". groups in_vCont_s [[]; [Some (encode_num 8 tid)]]. done.
  - skip in_vCont_query #"vCont;S". skip in_vCont_c #"vCont;S". skip in_vCont_c_tid #"vCont;S".
    skip in_vCont_C #"vCont;S". skip in_vCont_s #"vCont;S".
    groups in_vCont_S [[]; [Some (encode_num 4 sig)]; []; [Some (encode_num 8 tid)]; []]. done.
  - groups in_Z [[]; [Some (encode_num 8 addr)]; []; [Some (encode_num 8 kind)]]. done.
  - groups in_z [[]; [Some (encode_num 8 addr)]; []; [Some (encode_num 8 kind)]]. done.
  - rewrite match_in_H by done. cbv zeta. change (group [Some ?a] 0) with a.
    rewrite parse_u64 by done.
    assert (nth 0 (encode_num 8 tid) x00 <> "-"%byte) as Hd.
    { pose proof (encode_num_lower 8 tid) as Hl. pose proof (encode_num_ne 8 tid).
      destruct (encode_num 8 tid) as [|b l]; [done |]. apply Forall_cons_1 in Hl as [Hb _].
      intros E. cbn in E. subst b. done. }
    by rewrite bool_decide_false.
Qed.
End session.

Lemma memory_read_witness :
  readMemory 4098 5 sim0 = Ok (#"b$c}d", sim0) /\
  exists r s' payload,
    processPacket (mem_packet "x"%byte 4098 5 "0"%byte "0"%byte) sim_session = Ok (r, s') /\
    unframe r = Some (true, payload) /\ unescape payload = #"b$c}d" /\
    active (server s') = Some sim0 /\ proto s' = new_protocol.
Proof.
  split; [reflexivity |].
  refine (memory_read "x"%byte 4098 5 "0"%byte "0"%byte sim_session sim0 #"b$c}d" sim0
    _ _ _ _ _ _ _ _); [right | ..]; try reflexivity; try lia; discriminate.
Defined.

Lemma command_spec_witness :
  processPacket (command_packet (StepSignal 5 4660) "0"%byte "0"%byte) sim_session =
  (_ ← debugger (stepInstruction 4660 5); stop_reply) sim_session.
Proof.
  refine (command_spec (StepSignal 5 4660) "0"%byte "0"%byte sim_session _ _ _);
    [unfold command_ok, sig_ok, u64_ok; lia | reflexivity | reflexivity].
Defined.
