(* ===== verification/GdbTransfers.v ===== *)
(** * GdbTransfers: exchanges of several packets, and three handlers' limits

    The sliced transfer of the target description, the enumeration of threads
    over successive packets, and the file read; then what the [M], [G] and
    [pread] handlers do with the packets their patterns let through. *)

From S2P Require Import Prelude Regex Hex Debugger GdbProtocol GdbProps Sim GdbPackets.

Section transfers.
Context `{Ctre} {D : Type} `{!AbstractDebugger D} {F : Type} `{!Files F}.
Implicit Types (s : session D F).

(** ** The target description, slice by slice *)

Definition features_packet (offset len : Z) (d1 d2 : byte) : bytes :=
  frame (mjoin [ #"qXfer:features:read:target.xml:"; encode_num 8 offset; #",";
                 encode_num 8 len]) d1 d2.

Lemma features_spec offset len d1 d2 s :
  u64_ok offset -> u64_ok len -> is_hex d1 = true -> is_hex d2 = true ->
  processPacket (features_packet offset len d1 d2) s =
  (xml ← debugger getGDBTargetXML; slice_reply xml (Z.of_nat (length xml)) offset len) s.
Proof.
  intros Ho Hl H1 H2. unfold processPacket.
  assert (classify (features_packet offset len d1 d2) = Q_qXfer) as ->.
  { apply (classify_dots Q_qXfer #"qXfer"
      (#":features:read:target.xml:" ++ encode_num 8 offset ++ #"," ++ encode_num 8 len ++ []));
      [done | done | | done..].
    repeat (apply Forall_app; split); auto using encode_num_no_newline; by repeat constructor. }
  unfold process_qXfer, features_packet.
  groups in_features [[]; [Some (encode_num 8 offset)]; []; [Some (encode_num 8 len)]]. done.
Qed.

Lemma features_reply offset chunk d1 d2 s d xml :
  u64_ok offset -> u64_ok chunk -> u64_ok (offset + chunk) ->
  is_hex d1 = true -> is_hex d2 = true ->
  active (server s) = Some d -> getGDBTargetXML d = Ok (xml, d) ->
  processPacket (features_packet offset chunk d1 d2) s =
  Ok (createResponse
        (if offset >=? Z.of_nat (length xml) then []
         else (if offset + chunk <=? Z.of_nat (length xml) then #"m" else #"l")
                ++ substr xml offset chunk) (mAck (proto s)), s).
Proof.
  intros Ho Hc Hs H1 H2 Hd Hx. rewrite features_spec by done.
  rewrite (M_run_bind _ _ _ _ _ (debugger_read _ s d xml Hd Hx)).
  unfold slice_reply. cbv zeta. rewrite wrap_small by done.
  destruct (offset >=? _); [done |]. by destruct (offset + chunk <=? _).
Qed.

(** The payloads a client gets that asks for slices of [n] bytes, one after the
    other, until one is not marked ['m']. *)
Definition slices (n : nat) (text : bytes) : list bytes :=
  map (fun i => take n (drop (i * n) text)) (seq 0 (length text / n)).
Definition last_slice (n : nat) (text : bytes) : bytes := drop (length text / n * n) text.

Lemma take_slices n (text : bytes) k :
  concat (map (fun i => take n (drop (i * n) text)) (seq 0 k)) = take (k * n) text.
Proof.
  induction k as [|k IH]; [done |]. rewrite seq_S, map_app, concat_app, IH. cbn [map concat].
  rewrite app_nil_r. rewrite <-(take_drop (k * n) (take (S k * n) text)), take_take, skipn_firstn_comm.
  cbn [Nat.add Nat.mul]. f_equal; f_equal; lia.
Qed.

Lemma slices_whole n text : concat (slices n text) ++ last_slice n text = text.
Proof. unfold slices, last_slice. by rewrite take_slices, take_drop. Qed.

(** Requests that leave the session alone. *)
Lemma mapM_replies {A} (f : A -> M (session D F) bytes) (P : A -> bytes -> Prop) s l :
  (forall i, i ∈ l -> exists r, f i s = Ok (r, s) /\ P i r) ->
  exists rs, mapM f l s = Ok (rs, s) /\ Forall2 P l rs.
Proof.
  induction l as [|i l IH]; intros Hl; [by exists [] |].
  destruct (Hl i) as (r & Er & Hr); [by left |].
  destruct IH as (rs & E & Hrs); [intros j Hj; apply Hl; by right |].
  exists (r :: rs). split; [| by constructor].
  cbn [mapM]. rewrite (M_run_bind _ _ _ _ _ Er). by rewrite (M_run_bind _ _ _ _ _ E).
Qed.

(** C14: a client asks for slices of [n] bytes of the target description, one
    after the other.  The replies are frames: the first ones, as many as whole
    slices fit, are marked ['m'] (there is more) and have the next [n] bytes each;
    the next one is marked ['l'] (the last) and has the bytes that are left.
    Together the slices are the text.  But when [n] divides the length nothing is
    left, and the last reply is an empty payload instead of ["l"]. *)
Theorem features_slices n d1 d2 s d xml :
  is_hex d1 = true -> is_hex d2 = true ->
  active (server s) = Some d -> getGDBTargetXML d = Ok (xml, d) ->
  (0 < n)%nat -> Z.of_nat (length xml) + Z.of_nat n < 2 ^ 64 ->
  exists replies,
    mapM (fun i => processPacket (features_packet (Z.of_nat (i * n)) (Z.of_nat n) d1 d2))
      (seq 0 (S (length xml / n))) s = Ok (replies, s) /\
    Forall2 (framed (mAck (proto s)))
      (map (cons "m"%byte) (slices n xml) ++
       [match last_slice n xml with [] => [] | rest => "l"%byte :: rest end]) replies /\
    concat (slices n xml) ++ last_slice n xml = xml.
Proof.
  intros H1 H2 Hd Hx Hn Hb. set (k := (length xml / n)%nat).
  pose proof (Nat.div_mod_eq (length xml) n) as Hk. fold k in Hk.
  pose proof (Nat.mod_upper_bound (length xml) n ltac:(lia)) as Hm.
  set (request := fun i => processPacket (features_packet (Z.of_nat (i * n)) (Z.of_nat n) d1 d2)).
  set (answer := fun i => if decide (i < k)%nat then "m"%byte :: take n (drop (i * n) xml)
    else match last_slice n xml with [] => [] | rest => "l"%byte :: rest end).
  assert (forall i, (i <= k)%nat -> exists r,
    request i s = Ok (r, s) /\ framed (mAck (proto s)) (answer i) r) as Hone.
  { intros i Hi. assert (i * n <= length xml)%nat by nia.
    eexists. split; [apply (features_reply _ _ d1 d2 s d xml); unfold u64_ok; (done || lia) |].
    unfold substr, answer. rewrite !Nat2Z.id. unfold last_slice. fold k. case_decide as Hik.
    - assert (i * n + n <= length xml)%nat by nia.
      destruct (Z.geb_spec (Z.of_nat (i * n)) (Z.of_nat (length xml))); [lia |].
      rewrite (proj2 (Z.leb_le _ _)) by lia. apply createResponse_framed.
    - assert (i = k) as -> by lia. destruct (Z.geb_spec (Z.of_nat (k * n)) (Z.of_nat (length xml))).
      + rewrite drop_ge by lia. apply createResponse_framed.
      + rewrite (proj2 (Z.leb_gt _ _)) by lia.
        rewrite take_ge by (rewrite length_drop; lia).
        pose proof (length_drop xml (k * n)) as Hl.
        destruct (drop (k * n) xml); [cbn in Hl; lia | apply createResponse_framed]. }
  destruct (mapM_replies request (fun i => framed (mAck (proto s)) (answer i)) s (seq 0 (S k)))
    as (replies & E & Hr); [intros i Hi; apply Hone; apply elem_of_seq in Hi; lia |].
  exists replies. split; [exact E |]. split; [| apply slices_whole].
  rewrite seq_S in Hr. apply Forall2_app_inv_l in Hr as (rs & r & Hrs & Hr & ->).
  apply Forall2_app.
  - unfold slices. fold k. rewrite map_map. apply Forall2_fmap_l.
    apply Forall2_same_length_lookup_2; [by rewrite length_seq; apply Forall2_length in Hrs; rewrite length_seq in Hrs |].
    intros i j x Hj Hx'. pose proof (Forall2_lookup_lr _ _ _ _ _ _ Hrs Hj Hx') as Hf. unfold answer in Hf.
    apply lookup_seq in Hj as [-> Hlt]. by rewrite decide_True in Hf by lia.
  - apply Forall2_cons_inv_l in Hr as (x & r' & Hr & ->%Forall2_nil_inv_l & ->).
    constructor; [| constructor].
    unfold answer in Hr. rewrite decide_False in Hr by lia. exact Hr.
Qed.

(** ** Thread enumeration *)

Lemma set_index_id s i :
  mLastThreadInfoIndex (proto s) = i -> set_proto (set_mLastThreadInfoIndex i (proto s)) s = s.
Proof. intros <-. by destruct s as [[] ? ?]. Qed.

Lemma enumerate_from (tids : list Z) ps i s d :
  active (server s) = Some d ->
  getNumThreads d = Ok (Z.of_nat (length tids), d) ->
  (forall i tid, tids !! i = Some tid -> getThreadIDAtIndex (Z.of_nat i) d = Ok (tid, d)) ->
  Z.of_nat (length tids) < 2 ^ 64 ->
  Forall (fun p => classify p = Q_qfThreadInfo \/ classify p = Q_qsThreadInfo) ps ->
  (i + length ps = S (length tids))%nat -> mLastThreadInfoIndex (proto s) = Z.of_nat i -> (0 < length ps)%nat ->
  mapM processPacket ps s =
  Ok (map (fun tid => createResponse (#"m" ++ encode_num 8 tid) (mAck (proto s))) (drop i tids)
        ++ [createResponse #"l" (mAck (proto s))],
      set_proto (set_mLastThreadInfoIndex 0 (proto s)) s).
Proof.
  intros Hd Hn Ht Hb Hp. revert i s Hd. induction Hp as [|p ps Hp Hps IH]; intros i s Hd Hi Hl Hlen; [cbn in *; lia |].
  assert (processPacket p s = process_qfThreadInfo p s) as Ep
    by (unfold processPacket; by destruct Hp as [-> | ->]).
  cbn [length] in Hi. cbn [mapM].
  assert (process_qfThreadInfo p s =
    if Z.of_nat i <? Z.of_nat (length tids) then
      Ok (createResponse (#"m" ++ encode_num 8 (nth i tids 0)) (mAck (proto s)),
          set_proto (set_mLastThreadInfoIndex (Z.of_nat (S i)) (proto s)) s)
    else Ok (createResponse #"l" (mAck (proto s)), set_proto (set_mLastThreadInfoIndex 0 (proto s)) s))
    as E.
  { unfold process_qfThreadInfo.
    erewrite M_run_bind; [| reflexivity]. rewrite Hl.
    rewrite (M_run_bind _ _ _ _ _ (debugger_read _ s d _ Hd Hn)).
    destruct (Z.ltb_spec (Z.of_nat i) (Z.of_nat (length tids))); [| done].
    erewrite M_run_bind; [| reflexivity].
    rewrite wrap_small by lia. replace (Z.of_nat i + 1) with (Z.of_nat (S i)) by lia.
    set (s1 := set_proto _ s).
    destruct (lookup_lt_is_Some_2 tids i ltac:(lia)) as [tid Htid].
    rewrite (M_run_bind _ _ _ _ _ (debugger_read _ s1 d tid Hd (Ht i tid Htid))).
    by rewrite (nth_lookup_Some tids i 0 tid). }
  destruct (Z.ltb_spec (Z.of_nat i) (Z.of_nat (length tids))) as [Hlt|Hge].
  - rewrite <-Ep in E. rewrite (M_run_bind _ _ _ _ _ E).
    set (s1 := set_proto _ s) in *.
    erewrite M_run_bind; [| apply (IH (S i) s1 Hd); [lia | done | lia]].
    destruct (lookup_lt_is_Some_2 tids i ltac:(lia)) as [tid Htid].
    rewrite (drop_S tids tid i Htid), (nth_lookup_Some tids i 0 tid Htid). done.
  - rewrite <-Ep in E. rewrite (M_run_bind _ _ _ _ _ E).
    assert (ps = []) as -> by (destruct ps; [done | cbn in *; lia]).
    by rewrite drop_ge by lia.
Qed.

(** A thread enumeration names every thread once, in order, ends with [l],
    and leaves the protocol ready for the next enumeration. *)
Theorem enumerate_threads (tids : list Z) ps s d :
  mLastThreadInfoIndex (proto s) = 0 -> active (server s) = Some d ->
  getNumThreads d = Ok (Z.of_nat (length tids), d) ->
  (forall i tid, tids !! i = Some tid -> getThreadIDAtIndex (Z.of_nat i) d = Ok (tid, d)) ->
  Z.of_nat (length tids) < 2 ^ 64 ->
  Forall (fun p => classify p = Q_qfThreadInfo \/ classify p = Q_qsThreadInfo) ps ->
  length ps = S (length tids) ->
  mapM processPacket ps s =
  Ok (map (fun tid => createResponse (#"m" ++ encode_num 8 tid) (mAck (proto s))) tids
        ++ [createResponse #"l" (mAck (proto s))], s).
Proof.
  intros Hi Hd Hn Ht Hb Hp Hl.
  rewrite (enumerate_from tids ps 0 s d) by (done || lia). by rewrite set_index_id.
Qed.

(** ** The [M] packet *)

(** The pattern inside [process_M] asks for an [m] or [x] packet, so an [M]
    packet never matches it: memory writes are acknowledged and dropped. *)
Theorem memory_write_dropped p s :
  classify p = Q_M -> processPacket p s = Ok (createResponse #"OK" (mAck (proto s)), s).
Proof.
  intros Hp. unfold processPacket. rewrite Hp.
  apply (classify_iff Q_M pat_M) in Hp as [c Hm]%matches_spec; [| done].
  unfold process_M.
  assert (ctre_match in_M p = None) as ->; [| done].
  destruct (pattern_starts Q_M pat_M p c eq_refl Hm) as [rest [-> | ->]];
    apply ctre_match_rejects; vm_compute; done.
Qed.

(** ** The [G] packet *)

Definition regs_packet (regs : bytes) (d1 d2 : byte) : bytes :=
  frame (mjoin [ #"G"; encode regs]) d1 d2.

Lemma decode_even data :
  Nat.odd (length data) = false -> exists buf, decode data = Ok buf /\ length data = (2 * length buf)%nat.
Proof.
  enough (forall n data, (length data <= n)%nat -> Nat.odd (length data) = false ->
    exists buf, decode data = Ok buf /\ length data = (2 * length buf)%nat) as E by eauto.
  clear data. induction n as [|n IH]; intros [|c1 [|c2 data]] Hn Ho;
    try (by exists []); try done; try (cbn in Hn; lia).
  change (Nat.odd (length (c1 :: c2 :: data))) with (Nat.odd (length data)) in Ho.
  destruct (IH data ltac:(cbn in Hn; lia) Ho) as (buf & E & Hl). cbn [decode]. rewrite E. cbn.
  eexists; split; [done |]. cbn [length]. lia.
Qed.

Lemma length_regs_packet regs d1 d2 :
  length (drop 1 (regs_packet regs d1 d2)) = (2 * (length regs + 2))%nat.
Proof.
  unfold regs_packet, frame. cbn. rewrite app_nil_r, length_app, length_encode. cbn. lia.
Qed.

(** [process_G] decodes from the second character on: the command letter,
    the registers, ['#'] and the checksum.  What it writes is two bytes longer
    than the registers that were sent. *)
Theorem register_write_shifted regs d1 d2 s :
  regs <> [] -> is_hex d1 = true -> is_hex d2 = true ->
  exists w, length w = (length regs + 2)%nat /\
    processPacket (regs_packet regs d1 d2) s =
    (_ ← debugger (writeRegistersData w (mCurrentThreadIndex (proto s))); reply #"OK") s.
Proof.
  intros Hr H1 H2.
  assert (classify (regs_packet regs d1 d2) = Q_G) as E.
  { apply (classify_frame Q_G [RText #"G"; RPlus hex_lower] _ [[]; []]); [done | | done..].
    row. apply Matches_plus.
    - destruct regs as [|b regs]; [done |]. rewrite encode_cons.
      by destruct (encode_byte_spec b) as (h & l & -> & _).
    - eapply Forall_impl; [| apply encode_lower]. intros b. by rewrite in_hex_lower. }
  destruct (decode_even (drop 1 (regs_packet regs d1 d2))) as (w & Hw & Hlw).
  { rewrite length_regs_packet. by rewrite Nat.odd_mul. }
  exists w. split; [rewrite length_regs_packet in Hlw; lia |].
  unfold processPacket. rewrite E. unfold process_G.
  erewrite M_run_bind; [| unfold lift; rewrite Hw; reflexivity].
  by erewrite M_run_bind; [| reflexivity].
Qed.

(** ** File reads *)

Definition pread_packet (fd count offset : Z) (d1 d2 : byte) : bytes :=
  frame (mjoin [ #"vFile:pread:"; encode_num 4 fd; #","; encode_num 8 count; #",";
                 encode_num 8 offset]) d1 d2.

Lemma classify_pread fd count offset d1 d2 :
  is_hex d1 = true -> is_hex d2 = true -> classify (pread_packet fd count offset d1 d2) = Q_vFile.
Proof.
  intros H1 H2.
  apply (classify_dots Q_vFile #"vFile" (#":pread:" ++ encode_num 4 fd ++ #"," ++
    encode_num 8 count ++ #"," ++ encode_num 8 offset ++ [])); [done | done | | done..].
  repeat (apply Forall_app; split); auto using encode_num_no_newline; by repeat constructor.
Qed.

Lemma syscall_run {A} (op : M F A) s a f' :
  op (files s) = Ok (a, f') -> syscall op s = Ok (a, set_files f' s).
Proof. intros E. unfold syscall, zoom. by rewrite E. Qed.

Lemma pread_spec fd count offset d1 d2 s :
  sig_ok fd -> u64_ok count -> u64_ok offset -> is_hex d1 = true -> is_hex d2 = true ->
  processPacket (pread_packet fd count offset d1 d2) s =
  (buf ← lift (resize [] count);
   '(res, buf) ← llread fd buf offset count;
   buf ← lift (resize buf (u64 res));
   response ← lift (F_result res);
   reply (if res >=? 0 then response ++ #";" ++ escape buf else response)) s.
Proof.
  intros Hf Hc Ho H1 H2. unfold processPacket. rewrite classify_pread by done.
  unfold process_vFile, pread_packet.
  skip in_setfs #"vFile:pread:". skip in_open #"vFile:pread:". skip in_close #"vFile:pread:".
  groups in_pread [[]; [Some (encode_num 4 fd)]; []; [Some (encode_num 8 count)]; [];
    [Some (encode_num 8 offset)]]. done.
Qed.

Lemma resize_small v n :
  n < 2 ^ 63 -> resize v n = Ok (take (Z.to_nat n) v ++ replicate (Z.to_nat n - length v) x00).
Proof. intros. unfold resize. by destruct (Z.gtb_spec n (2 ^ 63 - 1)); [lia |]. Qed.

(** A [pread] request replies with the count and the escaped bytes the file
    gave; when [read] fails, resizing the buffer to -1 throws before the
    handler reaches its error reply, and the exception leaves [processPacket]. *)
Theorem pread_outcome fd count offset d1 d2 s n stored f1 f2 :
  sig_ok fd -> 0 <= count < 2 ^ 31 -> u64_ok offset -> is_hex d1 = true -> is_hex d2 = true ->
  sys_lseek fd offset (files s) = Ok (tt, f1) -> sys_read fd count f1 = Ok ((n, stored), f2) ->
  (if n <? 0 then n = -1 else Z.of_nat (length stored) = n /\ n <= count) ->
  processPacket (pread_packet fd count offset d1 d2) s =
  if n <? 0 then Throw #"vector::_M_default_append"
  else Ok (createResponse (#"F" ++ encode_num 4 n ++ #";" ++ escape stored) (mAck (proto s)),
           set_files f2 s).
Proof.
  intros Hf Hc Ho H1 H2 Hs Hr Hn.
  rewrite pread_spec by (unfold u64_ok; done || lia).
  erewrite M_run_bind; [| unfold lift; by rewrite resize_small by lia].
  assert (llread fd (take (Z.to_nat count) [] ++ replicate (Z.to_nat count - 0) x00) offset count s =
    Ok ((n, stored ++ drop (length stored) (replicate (Z.to_nat count) x00)), set_files f2 s)) as Hl.
  { unfold llread. erewrite M_run_bind; [| by apply syscall_run].
    erewrite M_run_bind; [| by apply syscall_run].
    cbn beta iota. rewrite signed_small by (destruct (n <? 0); lia).
    by rewrite take_nil, Nat.sub_0_r. }
  rewrite (M_run_bind _ _ _ _ _ Hl). cbn beta iota. destruct (Z.ltb_spec n 0).
  { subst n. done. }
  rewrite wrap_small by lia.
  erewrite M_run_bind; [| unfold lift; by rewrite resize_small by lia].
  rewrite take_app_length' by lia.
  rewrite length_app, length_drop, length_replicate.
  replace (Z.to_nat n - _)%nat with 0%nat by lia.
  unfold F_result. destruct (Z.geb_spec n 0); [| lia].
  by erewrite M_run_bind; [| reflexivity]; rewrite app_nil_r.
Qed.
End transfers.

Lemma features_slices_witness :
  last_slice 7 (sim_xml sim0) = [] /\
  exists replies,
    mapM (fun i => processPacket (features_packet (Z.of_nat (i * 7)) 7 "0"%byte "0"%byte))
      (seq 0 4) sim_session = Ok (replies, sim_session) /\
    Forall2 (framed true) [ #"m<target"; #"m>demo</"; #"mtarget>"; [] ] replies.
Proof.
  split; [vm_compute; reflexivity |].
  destruct (features_slices 7 "0"%byte "0"%byte sim_session sim0 (sim_xml sim0))
    as (replies & H1 & H2 & _);
    [vm_compute; reflexivity | vm_compute; reflexivity | reflexivity | reflexivity | lia | cbn; lia |].
  exists replies. exact (conj H1 H2).
Defined.

Lemma enumerate_threads_witness :
  mapM processPacket [ #"$qfThreadInfo#bb"; #"$qsThreadInfo#c8"; #"$qsThreadInfo#c8";
                       #"$qsThreadInfo#c8"] sim_session =
  Ok (map (fun tid => createResponse (#"m" ++ encode_num 8 tid) true) [257; 258; 4660]
        ++ [createResponse #"l" true], sim_session).
Proof.
  refine (enumerate_threads [257; 258; 4660] _ sim_session sim0 _ _ _ _ _ _ _);
    [reflexivity | reflexivity | reflexivity | | cbn; lia | | reflexivity].
  - intros [|[|[|i]]] tid Hi; cbn in Hi; simplify_eq; reflexivity.
  - apply Forall_cons_2; [left; vm_compute; reflexivity |].
    repeat (apply Forall_cons_2; [right; vm_compute; reflexivity |]). constructor.
Defined.

Lemma memory_write_dropped_witness :
  processPacket #"$M1000,2:beef#00" sim_session = Ok (createResponse #"OK" true, sim_session).
Proof. refine (memory_write_dropped _ sim_session _). vm_compute. reflexivity. Defined.

Lemma register_write_shifted_witness :
  exists w, length w = 5%nat /\
    processPacket (regs_packet [x01; x23; xff] "0"%byte "0"%byte) sim_session =
    (_ ← debugger (writeRegistersData w 0); reply #"OK") sim_session.
Proof.
  refine (register_write_shifted [x01; x23; xff] "0"%byte "0"%byte sim_session _ _ _);
    [discriminate | reflexivity | reflexivity].
Defined.

Lemma pread_outcome_witness :
  processPacket (pread_packet 3 16 2 "0"%byte "0"%byte) sim_session =
    Ok (createResponse #"F3;llo" true,
        set_files {| sim_content := #"hello"; sim_offset := 2 |} sim_session) /\
  processPacket (pread_packet 4 16 2 "0"%byte "0"%byte) sim_session =
    Throw #"vector::_M_default_append".
Proof.
  split.
  - refine (pread_outcome 3 16 2 "0"%byte "0"%byte sim_session 3 #"llo" _ _ _ _ _ _ _ _ _ _);
      try reflexivity; unfold sig_ok, u64_ok; cbn; lia.
  - refine (pread_outcome 4 16 2 "0"%byte "0"%byte sim_session (-1) [] _ _ _ _ _ _ _ _ _ _);
      try reflexivity; unfold sig_ok, u64_ok; cbn; lia.
Defined.
