(* ===== verification/GdbServer.v ===== *)
(** * GdbServer: the server loop

    [DebugServer::run] of src/debug_server/server.cpp, over the messages that
    [async_read_some] delivers, each at most the 16384 bytes of the buffer. *)

From S2P Require Import Prelude Regex Hex Debugger GdbProtocol GdbProps Sim.

(** How the coroutine ends: by [break], by the exception of a read from a
    closed connection, by an exception of a handler (both are dropped by
    [detached]), or not in the coroutine at all. *)
Inductive ending (S : Type) : Type :=
  | Stopped (s : S)
  | Closed (s : S)
  | Escaped (what : bytes)
  | Aborted.
Arguments Stopped {S} _.
Arguments Closed {S} _.
Arguments Escaped {S} _.
Arguments Aborted {S}.

Section server.
Context `{Ctre} {D : Type} `{!AbstractDebugger D} {F : Type} `{!Files F}.
Implicit Types (s : session D F).

(** The loop of [runner]: what is written to the socket, and the ending. *)
Fixpoint run (messages : list bytes) s : list bytes * ending (session D F) :=
  match messages with
  | [] => ([], Closed s)
  | message :: messages =>
      match processPacket message s with
      | Ok (response, s) =>
          let written := match response with [] => [] | _ => [response] end in
          if negb (isRunning (proto s)) then (written, Stopped s)
          else let '(more, e) := run messages s in (written ++ more, e)
      | Throw what => ([], Escaped what)
      | _ => ([], Aborted)
      end
  end.

Lemma run_cons message ms s r s' :
  processPacket message s = Ok (r, s') ->
  run (message :: ms) s =
  let written := match r with [] => [] | _ => [r] end in
  if negb (isRunning (proto s')) then (written, Stopped s')
  else (written ++ (run ms s').1, (run ms s').2).
Proof. intros E. cbn. rewrite E. by destruct (run ms s'). Qed.

Lemma run_fail message ms s w e :
  (forall r, processPacket message s <> Ok r) -> run (message :: ms) s = (w, e) -> w = [].
Proof. intros Hf E. cbn in E. destruct (processPacket message s); try congruence. by destruct (Hf a). Qed.

(** The messages of a first part that are all served, and those after it. *)
Lemma run_app pre post s w s1 : run pre s = (w, Closed s1) ->
  run (pre ++ post) s = (w ++ (run post s1).1, (run post s1).2).
Proof.
  revert s w. induction pre as [|m ms IH]; intros s w E.
  { injection E as <- <-. apply surjective_pairing. }
  cbn [app]. destruct (processPacket m s) as [[r s2]| | | | |] eqn:Em; try (cbn in E; rewrite Em in E; done).
  rewrite (run_cons _ _ _ _ _ Em) in E. rewrite (run_cons _ _ _ _ _ Em). cbv zeta in E |- *.
  destruct (isRunning (proto s2)); cbn [negb] in E |- *; [| done].
  destruct (run ms s2) as [w' e] eqn:E'. cbn [fst snd] in E. simplify_eq.
  rewrite (IH s2 w' E'). cbn [fst snd]. by rewrite app_assoc.
Qed.

(** The loop goes on while the running flag is set, and each [k] clears it. *)
Lemma run_closed messages s w s1 : run messages s = (w, Closed s1) -> mRunning (proto s) = true ->
  mRunning (proto s1) = true /\ Forall (fun m => classify m <> Q_k) messages.
Proof.
  revert s w. induction messages as [|m ms IH]; intros s w E Hr; [by injection E as <- <- |].
  destruct (processPacket m s) as [[r s2]| | | | |] eqn:Em; try (cbn in E; rewrite Em in E; done).
  destruct (any_branch m s r s2 Em) as (_ & _ & Hk). rewrite Hr in Hk.
  rewrite (run_cons _ _ _ _ _ Em) in E. cbv zeta in E. unfold isRunning in E.
  destruct (mRunning (proto s2)) eqn:Hs; cbn [negb] in E; [| done].
  destruct (run ms s2) as [w' e] eqn:E'. cbn [fst snd] in E. simplify_eq.
  destruct (IH s2 w' E' Hs) as [H1 H2]. split; [done |].
  constructor; [by apply symmetry, bool_decide_eq_true in Hk | done].
Qed.

Lemma run_k k post s : classify k = Q_k ->
  run (k :: post) s = ([], Stopped (set_proto (set_mRunning false (proto s)) s)).
Proof.
  intros Hk. assert (processPacket k s = Ok ([], set_proto (set_mRunning false (proto s)) s)) as E
    by (unfold processPacket; by rewrite Hk).
  by rewrite (run_cons _ _ _ _ _ E).
Qed.

(** C32: a session stops exactly at its first [k] packet: it ends by [break] if and
    only if there is a [k] packet and all the messages before it are served.  The
    replies are those to the messages before it, the session is as they left it
    but for the running flag, and the messages after it are never looked at. *)
Theorem run_stops messages s w s' :
  mRunning (proto s) = true ->
  run messages s = (w, Stopped s') <->
  exists pre k post s1, messages = pre ++ k :: post /\ Forall (fun m => classify m <> Q_k) pre /\
    classify k = Q_k /\ run pre s = (w, Closed s1) /\
    s' = set_proto (set_mRunning false (proto s1)) s1.
Proof.
  intros Hr. split.
  - revert s w Hr. induction messages as [|m ms IH]; intros s w Hr Hrun; [done |].
    destruct (decide (classify m = Q_k)) as [Hq | Hq].
    { rewrite run_k in Hrun by done. simplify_eq. by exists [], m, ms, s. }
    destruct (processPacket m s) as [[r s1]| | | | |] eqn:E; try (cbn in Hrun; rewrite E in Hrun; done).
    destruct (any_branch m s r s1 E) as (_ & _ & Hk). rewrite Hr, bool_decide_true in Hk by done.
    rewrite (run_cons _ _ _ _ _ E) in Hrun. cbv zeta in Hrun. unfold isRunning in Hrun. rewrite Hk in Hrun.
    cbn [negb andb] in Hrun. destruct (run ms s1) as [w1 e] eqn:E1. cbn [fst snd] in Hrun. simplify_eq.
    destruct (IH s1 w1 Hk E1) as (pre & k & post & s2 & -> & Hpre & Hc & E2 & ->).
    exists (m :: pre), k, post, s2. split; [done |]. split; [by constructor |]. split; [done |]. split; [| done].
    rewrite (run_cons _ _ _ _ _ E). cbv zeta. unfold isRunning. by rewrite Hk, E2.
  - intros (pre & k & post & s1 & -> & _ & Hk & E & ->).
    rewrite (run_app _ _ _ _ _ E), run_k by done. cbn. by rewrite app_nil_r.
Qed.

(** A reply in acknowledgement mode starts with ['+'], otherwise not. *)
Definition acknowledged (r : bytes) : bool := bool_decide (head r = Some "+"%byte).

Lemma reply_shape_ack q ack r :
  reply_shape q ack r -> r <> [] -> q <> Q_QStartNoAckMode -> acknowledged r = ack.
Proof.
  unfold acknowledged. intros Hs Hr Hq.
  assert (forall p, bool_decide (head (createResponse p ack) = Some "+"%byte) = ack) as Hc
    by (intros; destruct ack; by apply bool_decide_true || by apply bool_decide_false).
  destruct q; cbn in Hs; try congruence; try (by case Hs; intros ? ->; apply Hc).
  by destruct ack; subst r.
Qed.

Lemma run_acks messages s w e :
  run messages s = (w, e) -> Forall (fun m => classify m <> Q_QStartNoAckMode) messages ->
  Forall (fun r => acknowledged r = mAck (proto s)) w.
Proof.
  revert s w. induction messages as [|m ms IH]; intros s w Hrun Hm; [by simplify_eq/= |].
  apply Forall_cons_1 in Hm as [Hq Hm].
  destruct (processPacket m s) as [[r s1]| | | | |] eqn:E;
    try (apply run_fail in Hrun; [by subst w | congruence]).
  destruct (any_branch m s r s1 E) as (Hs & Ha & _).
  rewrite bool_decide_true, andb_true_r in Ha by done.
  assert (Forall (fun r => acknowledged r = mAck (proto s)) (match r with [] => [] | _ => [r] end)) as Hw.
  { destruct r; [done |]. constructor; [| done]. by eapply reply_shape_ack. }
  rewrite (run_cons _ _ _ _ _ E) in Hrun. cbv zeta in Hrun.
  destruct (isRunning (proto s1)); cbn in Hrun; simplify_eq; [| done].
  apply Forall_app; split; [done |]. rewrite <-Ha. apply (IH s1); [apply surjective_pairing | done].
Qed.

(** The replies of a session that is not in acknowledgement mode: those with an
    acknowledgement answer repeated requests for this mode. *)
Lemma run_no_ack messages s : mAck (proto s) = false ->
  Forall (fun r => r = #"+$OK#9a" \/ acknowledged r = false) (run messages s).1 /\
  (length (filter (fun r => acknowledged r = true) (run messages s).1) <=
   length (filter (fun m => classify m = Q_QStartNoAckMode) messages))%nat.
Proof.
  revert s. induction messages as [|m ms IH]; intros s Hack; [by split; [constructor | cbn; lia] |].
  destruct (processPacket m s) as [[r s1]| | | | |] eqn:E;
    try (destruct (run (m :: ms) s) as [w e] eqn:Er; apply run_fail in Er; [subst w | congruence];
         split; [constructor | cbn; lia]).
  destruct (any_branch m s r s1 E) as (Hs & Ha & _). rewrite Hack in *. cbn [andb] in Ha.
  set (written := match r with [] => [] | _ => [r] end).
  assert (Forall (fun r => r = #"+$OK#9a" \/ acknowledged r = false) written /\
    (length (filter (fun r => acknowledged r = true) written) <=
     if decide (classify m = Q_QStartNoAckMode) then 1 else 0)%nat) as [Hw Hc].
  { unfold written. destruct r as [|b r]; [by split; [constructor | cbn; lia] |].
    destruct (decide (classify m = Q_QStartNoAckMode)) as [Eq|Eq].
    - rewrite Eq in Hs. cbn in Hs. split; [constructor; [by left | done] |].
      rewrite filter_cons. case_decide; cbn; lia.
    - assert (acknowledged (b :: r) = false) as Hn by by eapply reply_shape_ack.
      split; [constructor; [by right | done] |]. rewrite filter_cons_False by congruence. cbn; lia. }
  destruct (IH s1 Ha) as [H1 H2]. rewrite (run_cons _ _ _ _ _ E). cbv zeta. fold written.
  rewrite filter_cons. destruct (isRunning (proto s1)); cbn [negb fst].
  - split; [by apply Forall_app |]. rewrite list.filter_app, length_app. case_decide; cbn [length]; lia.
  - split; [done |]. case_decide; cbn [length]; lia.
Qed.

(** C33: a client asks for no-acknowledgement mode.  Every reply to the messages
    before its request carries the acknowledgement, the request is answered
    ["+$OK#9a"] and ends the mode, and of the replies after it only those to a
    repeated request, which are ["+$OK#9a"] again, carry the acknowledgement: at
    most as many as the request is repeated, and none when it is not. *)
Theorem run_ack_mode pre q post s w1 s1 :
  mRunning (proto s) = true -> mAck (proto s) = true ->
  Forall (fun m => classify m <> Q_QStartNoAckMode) pre -> run pre s = (w1, Closed s1) ->
  classify q = Q_QStartNoAckMode ->
  Forall (fun r => acknowledged r = true) w1 /\
  exists s2 w2 e, run post s2 = (w2, e) /\ mAck (proto s2) = false /\
    run (pre ++ q :: post) s = (w1 ++ #"+$OK#9a" :: w2, e) /\
    Forall (fun r => r = #"+$OK#9a" \/ acknowledged r = false) w2 /\
    (length (filter (fun r => acknowledged r = true) w2) <=
     length (filter (fun m => classify m = Q_QStartNoAckMode) post))%nat.
Proof.
  intros Hr Hack Hpre E Hq. destruct (run_closed _ _ _ _ E Hr) as [Hr1 _].
  split; [rewrite <-Hack; by eapply run_acks |].
  set (s2 := set_proto (set_mAck false (proto s1)) s1).
  assert (processPacket q s1 = Ok (#"+$OK#9a", s2)) as Eq
    by (unfold processPacket; by rewrite Hq).
  exists s2, (run post s2).1, (run post s2).2. split; [apply surjective_pairing |]. split; [done |].
  destruct (run_no_ack post s2 eq_refl) as [H1 H2]. split; [| by split].
  rewrite (run_app _ _ _ _ _ E), (run_cons _ _ _ _ _ Eq). cbv zeta. unfold isRunning.
  change (mRunning (proto s2)) with (mRunning (proto s1)). rewrite Hr1. done.
Qed.
End server.

Definition demo_messages : list bytes :=
  [ #"+"; #"+$QStartNoAckMode#b0"; #"+"; #"$qC#b4"; #"$k#6b"; #"$qC#b4"].

Lemma run_stops_witness : exists pre k post s1,
  demo_messages = pre ++ k :: post /\ classify k = Q_k /\
  run pre sim_session = ([ #"+"; #"+$OK#9a"; #"$QC101#26"], Closed s1).
Proof.
  destruct (proj1 (run_stops demo_messages sim_session [ #"+"; #"+$OK#9a"; #"$QC101#26"]
    (set_proto (set_mRunning false (set_mAck false new_protocol)) sim_session) eq_refl))
    as (pre & k & post & s1 & H1 & _ & H2 & H3 & _); [vm_compute; reflexivity |].
  exists pre, k, post, s1. exact (conj H1 (conj H2 H3)).
Defined.

Lemma run_ack_mode_witness :
  run [ #"+"] sim_session = ([ #"+"], Closed sim_session) /\
  exists w2 e, run demo_messages sim_session = (#"+" :: #"+$OK#9a" :: w2, e) /\
    Forall (fun r => r = #"+$OK#9a" \/ acknowledged r = false) w2.
Proof.
  split; [vm_compute; reflexivity |].
  destruct (run_ack_mode [ #"+"] #"+$QStartNoAckMode#b0" (drop 2 demo_messages) sim_session
    [ #"+"] sim_session eq_refl eq_refl) as (_ & s2 & w2 & e & _ & _ & H1 & H2 & _).
  - constructor; [vm_compute; discriminate | constructor].
  - vm_compute. reflexivity.
  - vm_compute. reflexivity.
  - exists w2, e. exact (conj H1 H2).
Defined.
