(* ===== verification/Options.v ===== *)
(** * Options: the command line

    The class [options] of include/options.hpp and lib/utils/options.cpp.  The
    argument vector is the list of its strings; the null pointer that ends it
    is the end of the list. *)

From S2P Require Import Prelude.

Module mode.
Inductive t : Set := record | replay | print | info | pack | unpack | debug.
#[global] Instance t_eq_dec : EqDecision t.
Proof. solve_decision. Defined.
End mode.

Inductive print_group_by : Set := group_none | group_thread.

(** ** State *)

(** [mMode] has no initialiser: [None] is its indeterminate value. *)
Record options := {
  mExecutablePath : bytes;
  mInput : bytes;
  mOutput : bytes;
  mArguments : list bytes;
  mMode : option mode.t;
  mPringGroup : print_group_by;
  mPrintPerformanceSummary : bool;
  mVerbose : bool;
  mEnvVars : list bytes;
  mRecordSkipMemObjs : bool;
  mRecordOverrideTrace : bool;
  mNoFork : bool;
  mPrintOnly : bool;
  mDebugServerOnly : bool;
  mDebugServerProtocolLog : bool;
}.

(** The member initialisers. *)
Definition new_options : options :=
  {| mExecutablePath := []; mInput := []; mOutput := []; mArguments := []; mMode := None;
     mPringGroup := group_none; mPrintPerformanceSummary := false; mVerbose := false;
     mEnvVars := []; mRecordSkipMemObjs := false; mRecordOverrideTrace := false;
     mNoFork := false; mPrintOnly := false; mDebugServerOnly := false;
     mDebugServerProtocolLog := false |}.

(** Assignment to one member: [f] is applied to the members it may change. *)
Definition set_paths (input output : bytes) (o : options) : options :=
  {| mExecutablePath := mExecutablePath o; mInput := input; mOutput := output;
     mArguments := mArguments o; mMode := mMode o; mPringGroup := mPringGroup o;
     mPrintPerformanceSummary := mPrintPerformanceSummary o; mVerbose := mVerbose o;
     mEnvVars := mEnvVars o; mRecordSkipMemObjs := mRecordSkipMemObjs o;
     mRecordOverrideTrace := mRecordOverrideTrace o; mNoFork := mNoFork o;
     mPrintOnly := mPrintOnly o; mDebugServerOnly := mDebugServerOnly o;
     mDebugServerProtocolLog := mDebugServerProtocolLog o |}.
Definition set_mInput (v : bytes) (o : options) : options := set_paths v (mOutput o) o.
Definition set_mOutput (v : bytes) (o : options) : options := set_paths (mInput o) v o.

Definition set_mArguments (v : list bytes) (o : options) : options :=
  {| mExecutablePath := mExecutablePath o; mInput := mInput o; mOutput := mOutput o;
     mArguments := v; mMode := mMode o; mPringGroup := mPringGroup o;
     mPrintPerformanceSummary := mPrintPerformanceSummary o; mVerbose := mVerbose o;
     mEnvVars := mEnvVars o; mRecordSkipMemObjs := mRecordSkipMemObjs o;
     mRecordOverrideTrace := mRecordOverrideTrace o; mNoFork := mNoFork o;
     mPrintOnly := mPrintOnly o; mDebugServerOnly := mDebugServerOnly o;
     mDebugServerProtocolLog := mDebugServerProtocolLog o |}.

Definition set_record_flags (skip override nofork : bool) (o : options) : options :=
  {| mExecutablePath := mExecutablePath o; mInput := mInput o; mOutput := mOutput o;
     mArguments := mArguments o; mMode := mMode o; mPringGroup := mPringGroup o;
     mPrintPerformanceSummary := mPrintPerformanceSummary o; mVerbose := mVerbose o;
     mEnvVars := mEnvVars o; mRecordSkipMemObjs := skip; mRecordOverrideTrace := override;
     mNoFork := nofork; mPrintOnly := mPrintOnly o; mDebugServerOnly := mDebugServerOnly o;
     mDebugServerProtocolLog := mDebugServerProtocolLog o |}.
Definition skip_mem_objs (o : options) : options :=
  set_record_flags true (mRecordOverrideTrace o) (mNoFork o) o.
Definition override_trace (o : options) : options :=
  set_record_flags (mRecordSkipMemObjs o) true (mNoFork o) o.
Definition without_fork (o : options) : options :=
  set_record_flags (mRecordSkipMemObjs o) (mRecordOverrideTrace o) true o.

Definition set_print_flags (group : print_group_by) (perf verbose only server : bool)
    (o : options) : options :=
  {| mExecutablePath := mExecutablePath o; mInput := mInput o; mOutput := mOutput o;
     mArguments := mArguments o; mMode := mMode o; mPringGroup := group;
     mPrintPerformanceSummary := perf; mVerbose := verbose; mEnvVars := mEnvVars o;
     mRecordSkipMemObjs := mRecordSkipMemObjs o;
     mRecordOverrideTrace := mRecordOverrideTrace o; mNoFork := mNoFork o;
     mPrintOnly := only; mDebugServerOnly := server;
     mDebugServerProtocolLog := mDebugServerProtocolLog o |}.
Definition set_group (g : print_group_by) (o : options) : options :=
  set_print_flags g (mPrintPerformanceSummary o) (mVerbose o) (mPrintOnly o)
    (mDebugServerOnly o) o.
Definition with_perf (o : options) : options :=
  set_print_flags (mPringGroup o) true (mVerbose o) (mPrintOnly o) (mDebugServerOnly o) o.
Definition with_verbose (o : options) : options :=
  set_print_flags (mPringGroup o) (mPrintPerformanceSummary o) true (mPrintOnly o)
    (mDebugServerOnly o) o.
Definition with_print_only (o : options) : options :=
  set_print_flags (mPringGroup o) (mPrintPerformanceSummary o) (mVerbose o) true
    (mDebugServerOnly o) o.
Definition with_server_only (o : options) : options :=
  set_print_flags (mPringGroup o) (mPrintPerformanceSummary o) (mVerbose o) (mPrintOnly o)
    true o.

Definition set_start (path : bytes) (env : list bytes) (m : option mode.t) (o : options)
    : options :=
  {| mExecutablePath := path; mInput := mInput o; mOutput := mOutput o;
     mArguments := mArguments o; mMode := m; mPringGroup := mPringGroup o;
     mPrintPerformanceSummary := mPrintPerformanceSummary o; mVerbose := mVerbose o;
     mEnvVars := env; mRecordSkipMemObjs := mRecordSkipMemObjs o;
     mRecordOverrideTrace := mRecordOverrideTrace o; mNoFork := mNoFork o;
     mPrintOnly := mPrintOnly o; mDebugServerOnly := mDebugServerOnly o;
     mDebugServerProtocolLog := mDebugServerProtocolLog o |}.
Definition set_mMode (m : mode.t) (o : options) : options :=
  set_start (mExecutablePath o) (mEnvVars o) (Some m) o.

(** ** Tests on an argument *)

(** [opt[0] != '-']; the first character of an empty argument is its NUL. *)
Definition positional (opt : bytes) : bool := negb (bool_decide (nth 0 opt x00 = "-"%byte)).
Definition is_one_of (opt : bytes) (names : list bytes) : bool :=
  existsb (fun n => bool_decide (opt = n)) names.
Definition empty (s : bytes) : bool := match s with [] => true | _ => false end.

(** ** The parsers

    Each loop starts at [argv[2]]; its argument is what is left of the vector. *)

Definition parseInfoOptions (argc : Z) : outcome unit :=
  if argc >? 2 then Throw #"info does not take any arguments" else Ok tt.

Fixpoint record_loop (args : list bytes) (o : options) : outcome options :=
  match args with
  | [] => Ok o
  | opt :: rest =>
      if positional opt && empty (mInput o) then record_loop rest (set_mInput opt o)
      else if is_one_of opt [ #"--"] then Ok (set_mArguments (mArguments o ++ rest) o)
      else if is_one_of opt [ #"--output"; #"-o"] && empty (mOutput o) then
        match rest with
        | [] => Throw (#"--output requires an argument" ++ [x0a])
        | v :: rest => record_loop rest (set_mOutput v o)
        end
      else if is_one_of opt [ #"--override"] && negb (mRecordOverrideTrace o) then
        record_loop rest (override_trace o)
      else if is_one_of opt [ #"--skip-mem-objects"; #"-s"] && negb (mRecordSkipMemObjs o) then
        record_loop rest (skip_mem_objs o)
      else if is_one_of opt [ #"--no-fork"] && negb (mNoFork o) then record_loop rest (without_fork o)
      else Throw (#"unrecognized option " ++ opt)
  end.

Definition parseRecordOptions (argv : list bytes) (o : options) : outcome options :=
  o ← record_loop (drop 2 argv) o;
  if empty (mInput o) then Throw #"input is required"
  else if empty (mOutput o) then Throw #"output is required"
  else Ok o.

Fixpoint replay_loop (args : list bytes) (o : options) : outcome options :=
  match args with
  | [] => Ok o
  | opt :: rest =>
      if positional opt then replay_loop rest (set_mInput opt o)
      else if is_one_of opt [ #"--"] then Ok (set_mArguments (mArguments o ++ rest) o)
      else if is_one_of opt [ #"--output"; #"-o"; #"-t"] then
        match rest with
        | [] => Terminate
        | v :: rest => replay_loop rest (set_mOutput v o)
        end
      else if is_one_of opt [ #"--no-fork"] && negb (mNoFork o) then replay_loop rest (without_fork o)
      else if is_one_of opt [ #"--print-only"; #"-p"] && negb (mPrintOnly o) then
        replay_loop rest (with_print_only o)
      else replay_loop rest o
  end.

Definition parseReplayOptions (argv : list bytes) (o : options) : outcome options :=
  o ← replay_loop (drop 2 argv) o;
  if empty (mInput o) then Terminate else Ok o.

Fixpoint print_loop (args : list bytes) (o : options) : outcome options :=
  match args with
  | [] => Ok o
  | opt :: rest =>
      if positional opt then print_loop rest (set_mInput opt o)
      else if is_one_of opt [ #"--group"] then
        match rest with
        | [] => UB (* a string_view of the null pointer after the arguments *)
        | group :: rest =>
            if is_one_of group [ #"none"] then print_loop rest (set_group group_none o)
            else if is_one_of group [ #"thread"] then print_loop rest (set_group group_thread o)
            else Terminate
        end
      else if is_one_of opt [ #"--verbose"] then print_loop rest (with_verbose o)
      else if is_one_of opt [ #"--perf"] then print_loop rest (with_perf o)
      else print_loop rest o
  end.

Definition parsePrintOptions (argv : list bytes) (o : options) : outcome options :=
  o ← print_loop (drop 2 argv) o;
  if empty (mInput o) then Terminate else Ok o.

(** The loops of [parsePackOptions] and [parseUnpackOptions]. *)
Fixpoint pack_loop (args : list bytes) (o : options) : outcome options :=
  match args with
  | [] => Ok o
  | opt :: rest =>
      if positional opt then pack_loop rest (set_mInput opt o)
      else if is_one_of opt [ #"--output"; #"-o"] then
        match rest with
        | [] => Terminate
        | v :: rest => pack_loop rest (set_mOutput v o)
        end
      else pack_loop rest o
  end.

Definition parsePackOptions (argv : list bytes) (o : options) : outcome options :=
  if Z.of_nat (length argv) <=? 2 then Exit 1 else pack_loop (drop 2 argv) o.

Definition parseUnpackOptions (argv : list bytes) (o : options) : outcome options :=
  if Z.of_nat (length argv) <=? 2 then Exit 1 else pack_loop (drop 2 argv) o.

Fixpoint debug_loop (args : list bytes) (o : options) : outcome options :=
  match args with
  | [] => Ok o
  | opt :: rest =>
      if positional opt then debug_loop rest (set_mInput opt o)
      else if is_one_of opt [ #"--server"] && negb (mDebugServerOnly o) then
        debug_loop rest (with_server_only o)
      else debug_loop rest o
  end.

Definition parseDebugOptions (argv : list bytes) (o : options) : outcome options :=
  if Z.of_nat (length argv) <=? 2 then Exit 1 else debug_loop (drop 2 argv) o.

(** ** The constructor *)

(** The C string at the start of a buffer; without a NUL the read leaves it. *)
Fixpoint c_string (buf : bytes) : outcome bytes :=
  match buf with
  | [] => UB
  | b :: buf => if bool_decide (b = x00) then Ok [] else s ← c_string buf; Ok (b :: s)
  end.

(** [exe] is what [readlink] stores at the start of the 1024 bytes of [buf], or
    its failure; [readlink] adds no NUL. *)
Definition make_options (argv env : list bytes) (exe : option bytes) (buf : bytes)
    : outcome options :=
  match argv with
  | [] | [_] => Terminate
  | _ :: command :: _ =>
      match exe with
      | None => Throw #"Failed to identify location"
      | Some link =>
          path ← c_string (link ++ drop (length link) buf);
          let o := set_start path env None new_options in
          if is_one_of command [ #"record"] then parseRecordOptions argv (set_mMode mode.record o)
          else if is_one_of command [ #"replay"] then parseReplayOptions argv (set_mMode mode.replay o)
          else if is_one_of command [ #"print"] then parsePrintOptions argv (set_mMode mode.print o)
          else if is_one_of command [ #"info"; #"--help"; #"-h"] then
            _ ← parseInfoOptions (Z.of_nat (length argv)); Ok (set_mMode mode.info o)
          else if is_one_of command [ #"pack"] then parsePackOptions argv (set_mMode mode.pack o)
          else if is_one_of command [ #"unpack"] then parseUnpackOptions argv (set_mMode mode.unpack o)
          else if is_one_of command [ #"debug"] then parseDebugOptions argv (set_mMode mode.debug o)
          else Ok o
      end
  end.

(** ** Accessors *)

(** Reading an indeterminate enumeration is undefined. *)
Definition command (o : options) : outcome mode.t :=
  match mMode o with Some m => Ok m | None => UB end.

(** [std::filesystem::path::parent_path]: the path without its last component;
    the parent of a name at the root is the root. *)
Fixpoint drop_while (p : byte -> bool) (l : bytes) : bytes :=
  match l with
  | [] => []
  | b :: l' => if p b then drop_while p l' else l
  end.
Definition is_slash (b : byte) : bool := bool_decide (b = "/"%byte).
Definition parent_path (path : bytes) : bytes :=
  match rev (drop_while is_slash (drop_while (fun b => negb (is_slash b)) (rev path))) with
  | [] => if is_slash (nth 0 path x00) then #"/" else []
  | parent => parent
  end.

Definition location (o : options) : bytes := parent_path (mExecutablePath o).
Definition input (o : options) : bytes := mInput o.
Definition output (o : options) : bytes := mOutput o.
Definition print_group (o : options) : print_group_by := mPringGroup o.
Definition verbose (o : options) : bool := mVerbose o.
Definition performance_summary (o : options) : bool := mPrintPerformanceSummary o.
Definition args (o : options) : list bytes := mArguments o.
Definition env (o : options) : list bytes := mEnvVars o.
Definition record_skip_mem_objects (o : options) : bool := mRecordSkipMemObjs o.
Definition record_override_trace (o : options) : bool := mRecordOverrideTrace o.
Definition no_fork (o : options) : bool := mNoFork o.
Definition print_only (o : options) : bool := mPrintOnly o.

(** * Theorems *)

Lemma is_one_of_true opt names : is_one_of opt names = true <-> opt ∈ names.
Proof.
  unfold is_one_of. rewrite existsb_exists. split.
  - intros (n & Hn & ->%bool_decide_eq_true). by apply list_elem_of_In.
  - intros Ho. exists opt. split; [by apply list_elem_of_In | by apply bool_decide_eq_true].
Qed.

Lemma empty_true s : empty s = true <-> s = [].
Proof. by destruct s. Qed.
Lemma empty_false s : empty s = false <-> s <> [].
Proof. by destruct s. Qed.

(** ** The grammar of [record] *)

Inductive record_arg : Type :=
  | RInput (path : bytes)
  | ROutput (name : bytes) (path : bytes)
  | ROverride
  | RSkip (name : bytes)
  | RNoFork.

Definition record_text (a : record_arg) : list bytes :=
  match a with
  | RInput path => [path]
  | ROutput name path => [name; path]
  | ROverride => [ #"--override"]
  | RSkip name => [name]
  | RNoFork => [ #"--no-fork"]
  end.

Definition record_apply (o : options) (a : record_arg) : options :=
  match a with
  | RInput path => set_mInput path o
  | ROutput _ path => set_mOutput path o
  | ROverride => override_trace o
  | RSkip _ => skip_mem_objs o
  | RNoFork => without_fork o
  end.

(** Spelled correctly. *)
Definition record_valid (a : record_arg) : Prop :=
  match a with
  | RInput path => positional path = true
  | ROutput name _ => name ∈ [ #"--output"; #"-o"]
  | RSkip name => name ∈ [ #"--skip-mem-objects"; #"-s"]
  | ROverride | RNoFork => True
  end.

(** What an argument sets, when it sets it for good: an empty path leaves its
    member unset. *)
Inductive record_kind : Set := KInput | KOutput | KOverride | KSkip | KNoFork.
#[global] Instance record_kind_eq_dec : EqDecision record_kind.
Proof. solve_decision. Defined.

Definition kind_of (a : record_arg) : record_kind :=
  match a with
  | RInput _ => KInput | ROutput _ _ => KOutput | ROverride => KOverride | RSkip _ => KSkip
  | RNoFork => KNoFork
  end.
Definition sets (a : record_arg) : option record_kind :=
  match a with
  | RInput [] | ROutput _ [] => None
  | _ => Some (kind_of a)
  end.

Definition unset (o : options) (k : record_kind) : Prop :=
  match k with
  | KInput => mInput o = []
  | KOutput => mOutput o = []
  | KOverride => mRecordOverrideTrace o = false
  | KSkip => mRecordSkipMemObjs o = false
  | KNoFork => mNoFork o = false
  end.

Lemma record_step a args o :
  record_valid a -> unset o (kind_of a) ->
  record_loop (record_text a ++ args) o = record_loop args (record_apply o a).
Proof.
  destruct a as [path|name path| |name|]; cbn [record_valid kind_of unset record_text record_apply app];
    intros Hv Hu; cbn [record_loop].
  - by rewrite Hv, Hu.
  - rewrite Hu. apply list_elem_of_In in Hv as [<- | [<- | []]]; done.
  - by rewrite Hu.
  - rewrite Hu. apply list_elem_of_In in Hv as [<- | [<- | []]]; done.
  - by rewrite Hu.
Qed.

Lemma unset_apply a o k : unset (record_apply o a) k -> unset o k \/ k = kind_of a.
Proof. destruct a, k; cbn; auto. Qed.
Lemma unset_apply_other a o k : unset o k -> k <> kind_of a -> unset (record_apply o a) k.
Proof. by destruct a, k. Qed.
Lemma set_apply a o k : sets a = Some k -> ~ unset (record_apply o a) k.
Proof. destruct a as [[]|? []| | |]; intros [= <-]; done. Qed.

(** The extra arguments of the application. *)
Definition extra_text (extra : option (list bytes)) : list bytes :=
  match extra with Some l => #"--" :: l | None => [] end.
Definition extra_apply (extra : option (list bytes)) (o : options) : options :=
  match extra with Some l => set_mArguments (mArguments o ++ l) o | None => o end.

Lemma record_extra extra o :
  (extra = None \/ mInput o <> []) -> record_loop (extra_text extra) o = Ok (extra_apply extra o).
Proof. destruct extra as [l|]; [| done]. cbn. done. Qed.

Lemma record_parse l o extra :
  NoDup (kind_of <$> l) -> Forall record_valid l -> Forall (unset o) (kind_of <$> l) ->
  record_loop (mjoin (record_text <$> l) ++ extra_text extra) o =
  Ok (extra_apply extra (foldl record_apply o l)).
Proof.
  revert o. induction l as [|a l IH]; intros o Hn Hv Hu.
  - cbn. by destruct extra.
  - cbn [fmap list_fmap] in *. apply list.NoDup_cons in Hn as [Ha Hn].
    apply Forall_cons_1 in Hv as [Hva Hv]. apply Forall_cons_1 in Hu as [Hua Hu].
    change (mjoin (record_text a :: ?x)) with (record_text a ++ mjoin x). rewrite <-app_assoc.
    rewrite record_step by done. apply IH; [done..|].
    rewrite list.Forall_forall in Hu |- *. intros k Hk. apply unset_apply_other; [by apply Hu |].
    intros ->. by apply Ha.
Qed.

Lemma foldl_inputs l o p :
  NoDup (kind_of <$> l) -> RInput p ∈ l -> mInput (foldl record_apply o l) = p.
Proof.
  assert (forall l o, KInput ∉ (kind_of <$> l) -> mInput (foldl record_apply o l) = mInput o) as Hno.
  { clear. induction l as [|a l IH]; intros o Hk; [done |]. cbn [fmap list_fmap foldl] in *.
    apply not_elem_of_cons in Hk as [Ha Hk]. rewrite IH by done. by destruct a. }
  revert o. induction l as [|a l IH]; intros o Hn Hp; [by apply elem_of_nil in Hp |].
  cbn [fmap list_fmap foldl] in *. apply list.NoDup_cons in Hn as [Ha Hn].
  apply elem_of_cons in Hp as [<- | Hp]; [| by apply IH]. rewrite Hno; done.
Qed.

Lemma foldl_outputs l o n p :
  NoDup (kind_of <$> l) -> ROutput n p ∈ l -> mOutput (foldl record_apply o l) = p.
Proof.
  assert (forall l o, KOutput ∉ (kind_of <$> l) -> mOutput (foldl record_apply o l) = mOutput o) as Hno.
  { clear. induction l as [|a l IH]; intros o Hk; [done |]. cbn [fmap list_fmap foldl] in *.
    apply not_elem_of_cons in Hk as [Ha Hk]. rewrite IH by done. by destruct a. }
  revert o. induction l as [|a l IH]; intros o Hn Hp; [by apply elem_of_nil in Hp |].
  cbn [fmap list_fmap foldl] in *. apply list.NoDup_cons in Hn as [Ha Hn].
  apply elem_of_cons in Hp as [<- | Hp]; [| by apply IH]. rewrite Hno; done.
Qed.

(** C29: [record] accepts its options in any order, each given once, and sets
    what they name; everything after [--] goes to the application unread. *)
Theorem record_complete exe cmd l extra p n q :
  NoDup (kind_of <$> l) -> Forall record_valid l ->
  RInput p ∈ l -> p <> [] -> ROutput n q ∈ l -> q <> [] ->
  parseRecordOptions (exe :: cmd :: mjoin (record_text <$> l) ++ extra_text extra) new_options =
  Ok (extra_apply extra (foldl record_apply new_options l)) /\
  input (foldl record_apply new_options l) = p /\ output (foldl record_apply new_options l) = q.
Proof.
  intros Hn Hv Hp Hpe Hq Hqe.
  pose proof (foldl_inputs l new_options p Hn Hp) as Ei.
  pose proof (foldl_outputs l new_options n q Hn Hq) as Eo.
  unfold input, output. split; [| done].
  unfold parseRecordOptions. change (drop 2 (exe :: cmd :: ?x)) with x.
  rewrite record_parse; [| done | done |].
  - cbn [mbind outcome_mbind outcome_bind].
    set (o := foldl record_apply new_options l) in *.
    assert (mInput (extra_apply extra o) = p /\ mOutput (extra_apply extra o) = q) as [-> ->]
      by (by destruct extra).
    rewrite (proj2 (empty_false p)), (proj2 (empty_false q)) by done. done.
  - apply list.Forall_forall. intros [] _; done.
Qed.

Lemma record_cons a l o extra args :
  record_valid a -> unset o (kind_of a) ->
  args = mjoin (record_text <$> l) ++ extra_text extra -> Forall record_valid l ->
  NoDup (omap sets l) -> Forall (unset (record_apply o a)) (omap sets l) ->
  record_text a ++ args = mjoin (record_text <$> a :: l) ++ extra_text extra /\
  Forall record_valid (a :: l) /\ NoDup (omap sets (a :: l)) /\ Forall (unset o) (omap sets (a :: l)).
Proof.
  intros Hva Hua -> Hv Hn Hu. rewrite list.Forall_forall in Hu.
  split; [| split; [by constructor |]].
  { change (mjoin (record_text <$> a :: l)) with (record_text a ++ mjoin (record_text <$> l)).
    by rewrite <-app_assoc. }
  assert (forall k, k ∈ omap sets l -> unset o k) as Huo.
  { intros k Hk. by destruct (unset_apply a o k (Hu k Hk)) as [? | ->]. }
  change (omap sets (a :: l)) with
    (match sets a with Some k => k :: omap sets l | None => omap sets l end).
  destruct (sets a) as [k|] eqn:Hs; [| split; [done | by apply list.Forall_forall]].
  assert (k = kind_of a) as Ek by (destruct a as [[]|? []| | |]; by simplify_eq/=).
  split.
  - apply list.NoDup_cons. split; [| done]. intros Hk. by apply (set_apply a o k Hs), Hu.
  - constructor; [by subst k | by apply list.Forall_forall].
Qed.

Lemma record_loop_inv args o o' :
  record_loop args o = Ok o' -> exists l extra,
    (args = mjoin (record_text <$> l) ++ extra_text extra /\ Forall record_valid l /\
     NoDup (omap sets l) /\ Forall (unset o) (omap sets l)) /\
    o' = extra_apply extra (foldl record_apply o l).
Proof.
  enough (forall n args o, (length args <= n)%nat -> record_loop args o = Ok o' ->
    exists l extra, (args = mjoin (record_text <$> l) ++ extra_text extra /\ Forall record_valid l /\
      NoDup (omap sets l) /\ Forall (unset o) (omap sets l)) /\
      o' = extra_apply extra (foldl record_apply o l)) as E by (intros; by eapply E).
  clear args o. induction n as [|n IH]; intros args o Hn Hl.
  { destruct args; [| cbn in Hn; lia]. injection Hl as <-. exists [], None.
    repeat split; constructor. }
  destruct args as [|opt rest].
  { injection Hl as <-. exists [], None. repeat split; constructor. }
  assert (forall a rest', opt :: rest = record_text a ++ rest' -> record_valid a ->
    unset o (kind_of a) -> exists l extra,
    (opt :: rest = mjoin (record_text <$> l) ++ extra_text extra /\ Forall record_valid l /\
     NoDup (omap sets l) /\ Forall (unset o) (omap sets l)) /\
    o' = extra_apply extra (foldl record_apply o l)) as Hstep.
  { intros a rest' E Hva Hua. rewrite E, record_step in Hl by done.
    assert (length rest' <= n)%nat as Hr.
    { apply (f_equal length) in E. rewrite length_app in E. cbn [length] in *.
      destruct a; cbn in E; lia. }
    destruct (IH rest' _ Hr Hl) as (l & extra & (E' & Hv & Hnd & Hu) & ->).
    exists (a :: l), extra. rewrite E. split; [by apply record_cons | done]. }
  cbn [record_loop] in Hl.
  destruct (positional opt && empty (mInput o)) eqn:C1.
  { apply andb_prop in C1 as [? ?%empty_true]. by apply (Hstep (RInput opt) rest). }
  destruct (is_one_of opt [ #"--"]) eqn:C2.
  { apply is_one_of_true, list_elem_of_singleton in C2 as ->. injection Hl as <-.
    exists [], (Some rest). repeat split; constructor. }
  destruct (is_one_of opt [ #"--output"; #"-o"] && empty (mOutput o)) eqn:C3.
  { apply andb_prop in C3 as [?%is_one_of_true ?%empty_true]. destruct rest as [|v rest]; [done |].
    by apply (Hstep (ROutput opt v) rest). }
  destruct (is_one_of opt [ #"--override"] && negb (mRecordOverrideTrace o)) eqn:C4.
  { apply andb_prop in C4 as [E%is_one_of_true ?%negb_true_iff].
    apply list_elem_of_singleton in E as ->. by apply (Hstep ROverride rest). }
  destruct (is_one_of opt [ #"--skip-mem-objects"; #"-s"] && negb (mRecordSkipMemObjs o)) eqn:C5.
  { apply andb_prop in C5 as [?%is_one_of_true ?%negb_true_iff].
    by apply (Hstep (RSkip opt) rest). }
  destruct (is_one_of opt [ #"--no-fork"] && negb (mNoFork o)) eqn:C6; [| done].
  apply andb_prop in C6 as [E%is_one_of_true ?%negb_true_iff].
  apply list_elem_of_singleton in E as ->. by apply (Hstep RNoFork rest).
Qed.

(** C30: when [record] accepts a command line, the line is a row of correctly
    spelled options, each set at most once, and of an application's arguments
    after [--]; nothing is dropped, and input and output are given. *)
Theorem record_sound argv o :
  parseRecordOptions argv new_options = Ok o -> exists l extra,
    drop 2 argv = mjoin (record_text <$> l) ++ extra_text extra /\ Forall record_valid l /\
    NoDup (omap sets l) /\ o = extra_apply extra (foldl record_apply new_options l) /\
    input o <> [] /\ output o <> [].
Proof.
  unfold parseRecordOptions. intros (o1 & Hl & Ho)%outcome_bind_Ok.
  apply record_loop_inv in Hl as (l & extra & (E & Hv & Hn & _) & Heq).
  destruct (empty (mInput o1)) eqn:Hi; [done |]. destruct (empty (mOutput o1)) eqn:Hq; [done |].
  injection Ho as <-. exists l, extra.
  by repeat split; [..| apply empty_false | apply empty_false].
Qed.

(** ** [replay] and [print] *)

Definition replay_known : list bytes :=
  [ #"--"; #"--output"; #"-o"; #"-t"; #"--no-fork"; #"--print-only"; #"-p"].

(** The arguments the loop has read when it reaches the end of [pre] without
    having met [--]; an option with an argument has read it too. *)
Fixpoint replay_reads (pre : list bytes) : bool :=
  match pre with
  | [] => true
  | opt :: rest =>
      if positional opt then replay_reads rest
      else if is_one_of opt [ #"--"] then false
      else if is_one_of opt [ #"--output"; #"-o"; #"-t"] then
        match rest with [] => false | _ :: rest => replay_reads rest end
      else replay_reads rest
  end.

Lemma replay_loop_app pre o : replay_reads pre = true ->
  exists o', forall args, replay_loop (pre ++ args) o = replay_loop args o'.
Proof.
  enough (forall n pre o, (length pre <= n)%nat -> replay_reads pre = true ->
    exists o', forall args, replay_loop (pre ++ args) o = replay_loop args o') as E by eauto.
  clear pre o. induction n as [|n IH]; intros [|opt pre] o Hn Hr; try (by exists o);
    [cbn in Hn; lia |].
  cbn [length] in Hn. cbn [replay_reads] in Hr. cbn [app replay_loop].
  destruct (positional opt); [apply IH; [lia | done] |].
  destruct (is_one_of opt [ #"--"]); [done |].
  destruct (is_one_of opt [ #"--output"; #"-o"; #"-t"]).
  { destruct pre as [|v pre]; [done |]. cbn [length] in Hn. cbn [app]. apply IH; [lia | done]. }
  destruct (is_one_of opt [ #"--no-fork"] && _); [apply IH; [lia | done] |].
  destruct (is_one_of opt [ #"--print-only"; #"-p"] && _); apply IH; (lia || done).
Qed.

(** [replay] ignores an option it does not know, wherever it stands among
    those it reads: the outcome is that of the command line without it. *)
Theorem replay_ignores_unknown exe cmd pre unknown post o :
  replay_reads pre = true -> positional unknown = false -> unknown ∉ replay_known ->
  parseReplayOptions (exe :: cmd :: pre ++ unknown :: post) o =
  parseReplayOptions (exe :: cmd :: pre ++ post) o.
Proof.
  intros Hr Hp Hu. unfold parseReplayOptions. change (drop 2 (exe :: cmd :: ?x)) with x.
  destruct (replay_loop_app pre o Hr) as [o' E]. rewrite !E. f_equal. cbn [replay_loop].
  rewrite Hp.
  assert (forall names, (forall n, n ∈ names -> n ∈ replay_known) -> is_one_of unknown names = false) as Hno.
  { intros names Hs. apply not_true_iff_false. rewrite is_one_of_true. auto. }
  rewrite !Hno; [done | intros n; unfold replay_known; rewrite !elem_of_cons, elem_of_nil; tauto ..].
Qed.

Definition print_group_value (v : bytes) : bool := is_one_of v [ #"none"; #"thread"].

(** [print] reads past the end of the argument vector exactly when a
    [--group] that takes no other word for its argument stands last; a group
    other than [none] and [thread] terminates the program. *)
Theorem print_group_argument exe cmd pre o :
  Forall (fun a => a <> #"--group") pre ->
  parsePrintOptions (exe :: cmd :: pre ++ [ #"--group"]) o = UB /\
  (forall v post, print_group_value v = false ->
     parsePrintOptions (exe :: cmd :: pre ++ #"--group" :: v :: post) o = Terminate) /\
  parsePrintOptions (exe :: cmd :: pre) o <> UB.
Proof.
  unfold parsePrintOptions. intros Hpre.
  assert (forall o, exists o', forall args, print_loop (pre ++ args) o = print_loop args o') as Hl.
  { induction Hpre as [|a pre Ha Hpre IH]; intros o1; [by exists o1 |]. cbn [app print_loop].
    destruct (positional a); [apply IH |].
    assert (is_one_of a [ #"--group"] = false) as ->.
    { apply not_true_iff_false. by rewrite is_one_of_true, list_elem_of_singleton. }
    destruct (is_one_of a [ #"--verbose"]); [apply IH |].
    destruct (is_one_of a [ #"--perf"]); apply IH. }
  destruct (Hl o) as [o' E]. change (drop 2 (exe :: cmd :: ?x)) with x. rewrite E.
  split; [done |]. split.
  - intros v post Hv. change (drop 2 (exe :: cmd :: ?x)) with x. rewrite E.
    assert (is_one_of v [ #"none"] = false /\ is_one_of v [ #"thread"] = false) as [H1 H2].
    { unfold print_group_value, is_one_of in *. cbn [existsb] in *. rewrite !orb_false_r in *.
      by apply orb_false_elim in Hv. }
    cbn [print_loop]. by rewrite H1, H2.
  - change (drop 2 (exe :: cmd :: ?x)) with x.
    rewrite <-(app_nil_r pre), E. cbn. by destruct (mInput o').
Qed.

(** ** The constructor *)

Definition command_table : list (bytes * mode.t) :=
  [(#"record", mode.record); (#"replay", mode.replay); (#"print", mode.print);
   (#"info", mode.info); (#"--help", mode.info); (#"-h", mode.info); (#"pack", mode.pack);
   (#"unpack", mode.unpack); (#"debug", mode.debug)].

Definition lookup_command (c : bytes) : option mode.t :=
  snd <$> List.find (fun e => bool_decide (c = e.1)) command_table.

Section loops.
Context (m : option mode.t) (e : list bytes).
Abbreviation keeps o := (mMode o = m /\ mEnvVars o = e).

(** Every loop keeps the mode and the environment; the induction is on the
    length because an option may take the next argument with it. *)
Lemma by_length (loop : list bytes -> options -> outcome options) :
  (forall args, (forall args', (length args' < length args)%nat -> forall o o',
     keeps o -> loop args' o = Ok o' -> keeps o') ->
   forall o o', keeps o -> loop args o = Ok o' -> keeps o') ->
  forall args o o', keeps o -> loop args o = Ok o' -> keeps o'.
Proof.
  intros Hs. enough (forall n args, (length args < n)%nat -> forall o o',
    keeps o -> loop args o = Ok o' -> keeps o') as Hn by (intros args; eapply (Hn (S (length args))); lia).
  induction n as [|n IH]; intros args Hl; [lia |]. apply Hs. intros args' Hl'. apply IH. lia.
Qed.

Ltac keeps_loop :=
  apply by_length; intros [|opt rest] IH o o' Hk Hl; cbn in Hl;
  [by injection Hl as <- |];
  repeat match type of Hl with
    | context [if ?b then _ else _] => destruct b
    | context [match ?r with [] => _ | _ => _ end] => destruct r
    end; try discriminate Hl; try (injection Hl as <-; exact Hk);
  (eapply IH; [| | exact Hl]; [cbn; lia | exact Hk]).

Lemma replay_keeps args o o' : keeps o -> replay_loop args o = Ok o' -> keeps o'.
Proof. revert args o o'. keeps_loop. Qed.
Lemma print_keeps args o o' : keeps o -> print_loop args o = Ok o' -> keeps o'.
Proof. revert args o o'. keeps_loop. Qed.
Lemma pack_keeps args o o' : keeps o -> pack_loop args o = Ok o' -> keeps o'.
Proof. revert args o o'. keeps_loop. Qed.
Lemma debug_keeps args o o' : keeps o -> debug_loop args o = Ok o' -> keeps o'.
Proof. revert args o o'. keeps_loop. Qed.
Lemma record_keeps args o o' : keeps o -> record_loop args o = Ok o' -> keeps o'.
Proof. revert args o o'. keeps_loop. Qed.

Lemma record_post argv o o' : keeps o -> parseRecordOptions argv o = Ok o' ->
  keeps o' /\ mInput o' <> [] /\ mOutput o' <> [].
Proof.
  intros Hk (o1 & Hl & Ho)%outcome_bind_Ok. apply record_keeps in Hl; [| done].
  destruct (empty (mInput o1)) eqn:Hi; [done |]. destruct (empty (mOutput o1)) eqn:Hq; [done |].
  injection Ho as <-. by rewrite empty_false in *.
Qed.
Lemma replay_post argv o o' : keeps o -> parseReplayOptions argv o = Ok o' ->
  keeps o' /\ mInput o' <> [].
Proof.
  intros Hk (o1 & Hl & Ho)%outcome_bind_Ok. apply replay_keeps in Hl; [| done].
  destruct (empty (mInput o1)) eqn:Hi; [done |]. injection Ho as <-. by rewrite empty_false in *.
Qed.
Lemma print_post argv o o' : keeps o -> parsePrintOptions argv o = Ok o' ->
  keeps o' /\ mInput o' <> [].
Proof.
  intros Hk (o1 & Hl & Ho)%outcome_bind_Ok. apply print_keeps in Hl; [| done].
  destruct (empty (mInput o1)) eqn:Hi; [done |]. injection Ho as <-. by rewrite empty_false in *.
Qed.
Lemma pack_post argv o o' : keeps o -> parsePackOptions argv o = Ok o' -> keeps o'.
Proof. unfold parsePackOptions. case_match; [done |]. apply pack_keeps. Qed.
Lemma unpack_post argv o o' : keeps o -> parseUnpackOptions argv o = Ok o' -> keeps o'.
Proof. unfold parseUnpackOptions. case_match; [done |]. apply pack_keeps. Qed.
Lemma debug_post argv o o' : keeps o -> parseDebugOptions argv o = Ok o' -> keeps o'.
Proof. unfold parseDebugOptions. case_match; [done |]. apply debug_keeps. Qed.
End loops.

(** What the constructor guarantees when it returns: the environment is
    the one given, [command()] is the mode the first argument names and is
    undefined when it names none, and the modes that need an input or an output
    have one. *)
Theorem make_options_spec argv env_vars exe buf o :
  make_options argv env_vars exe buf = Ok o ->
  env o = env_vars /\
  command o = match lookup_command (nth 1 argv []) with Some m => Ok m | None => UB end /\
  (mMode o = Some mode.record -> input o <> [] /\ output o <> []) /\
  (mMode o = Some mode.replay \/ mMode o = Some mode.print -> input o <> []).
Proof.
  destruct argv as [|exe0 [|c argv]]; [done..|]. cbn [make_options nth].
  destruct exe as [link|]; [| done]. intros (path & _ & Ho)%outcome_bind_Ok. cbv zeta in Ho.
  unfold env, command, input, output, lookup_command, command_table, is_one_of in *.
  cbn [existsb List.find fst] in *. rewrite !orb_false_r in Ho.
  repeat match type of Ho with
    | (if ?b || _ then _ else _) = _ => destruct b; cbn [orb] in Ho
    | (if ?b then _ else _) = _ => destruct b
    end; cbn [snd fmap option_fmap option_map];
    try (apply outcome_bind_Ok in Ho as ([] & _ & [= <-]); repeat split; try done; by intros [|]).
  - eapply record_post in Ho as ((-> & ->) & Hi & Hq); [| by split].
    by repeat split; intros; destruct_or?.
  - eapply replay_post in Ho as ((-> & ->) & Hi); [| by split]. by repeat split.
  - eapply print_post in Ho as ((-> & ->) & Hi); [| by split]. by repeat split.
  - eapply pack_post in Ho as [-> ->]; [| by split]. repeat split; try done; by intros [|].
  - eapply unpack_post in Ho as [-> ->]; [| by split]. repeat split; try done; by intros [|].
  - eapply debug_post in Ho as [-> ->]; [| by split]. repeat split; try done; by intros [|].
  - injection Ho as <-. repeat split; try done; by intros [|].
Qed.

(** ** Concrete command lines *)

Lemma record_complete_witness :
  parseRecordOptions [ #"dpcpp_trace"; #"record"; #"-o"; #"dir"; #"--no-fork"; #"app"; #"--"; #"-o"]
    new_options =
  Ok (extra_apply (Some [ #"-o"])
        (foldl record_apply new_options [ROutput #"-o" #"dir"; RNoFork; RInput #"app"])).
Proof.
  refine (proj1 (record_complete #"dpcpp_trace" #"record"
    [ROutput #"-o" #"dir"; RNoFork; RInput #"app"] (Some [ #"-o"]) #"app" #"-o" #"dir" _ _ _ _ _ _)).
  - apply (bool_decide_unpack _). vm_compute. exact I.
  - repeat constructor.
  - repeat constructor.
  - discriminate.
  - repeat constructor.
  - discriminate.
Defined.

Lemma record_sound_witness : exists l extra,
  [ #"-s"; #"app"; #"--output"; #"dir"] = mjoin (record_text <$> l) ++ extra_text extra /\
  NoDup (omap sets l).
Proof.
  edestruct (record_sound [ #"dpcpp_trace"; #"record"; #"-s"; #"app"; #"--output"; #"dir"])
    as (l & extra & H1 & _ & H2 & _); [vm_compute; reflexivity |].
  exists l, extra. exact (conj H1 H2).
Defined.

Lemma replay_ignores_unknown_witness :
  parseReplayOptions [ #"dpcpp_trace"; #"replay"; #"-t"; #"dir"; #"--verbose"; #"app"] new_options =
  parseReplayOptions [ #"dpcpp_trace"; #"replay"; #"-t"; #"dir"; #"app"] new_options.
Proof.
  refine (replay_ignores_unknown #"dpcpp_trace" #"replay" [ #"-t"; #"dir"] #"--verbose" [ #"app"]
    new_options eq_refl eq_refl _).
  apply (bool_decide_unpack (#"--verbose" ∉ replay_known)). vm_compute. exact I.
Defined.

Lemma print_group_argument_witness :
  parsePrintOptions [ #"dpcpp_trace"; #"print"; #"dir"; #"--perf"; #"--group"] new_options = UB.
Proof.
  refine (proj1 (print_group_argument #"dpcpp_trace" #"print" [ #"dir"; #"--perf"] new_options _)).
  repeat (constructor; [discriminate |]). constructor.
Defined.

Lemma make_options_spec_witness : exists o,
  make_options [ #"dpcpp_trace"; #"help"] [ #"A=1"] (Some #"/opt/bin/dpcpp_trace") (replicate 1024 x00)
    = Ok o /\ command o = UB /\ location o = #"/opt/bin".
Proof.
  eexists. split; [vm_compute; reflexivity |]. split; [| vm_compute; reflexivity].
  refine (proj1 (proj2 (make_options_spec [ #"dpcpp_trace"; #"help"] [ #"A=1"]
    (Some #"/opt/bin/dpcpp_trace") (replicate 1024 x00) _ _))).
  vm_compute. reflexivity.
Defined.
