(* ===== verification/Streams.v ===== *)
(** * Streams: paths, file streams and caller memory

    What the recorder, the replay plugin and the printer use of
    [std::filesystem::path], [std::ifstream] and raw memory. *)

From S2P Require Import Prelude.

(** ** Paths *)

(** [operator/]: an absolute right-hand side replaces the left-hand one, and a
    separator is added unless there is one or nothing precedes it. *)
Definition path_join (dir name : bytes) : bytes :=
  if bool_decide (list.head name = Some "/"%byte) then name
  else if bool_decide (dir = [] \/ list.last dir = Some "/"%byte) then dir ++ name
  else dir ++ #"/" ++ name.

Lemma path_join_not c dir name :
  c <> "/"%byte -> c ∉ dir -> c ∉ name -> c ∉ path_join dir name.
Proof.
  intros Hc Hd Hn. unfold path_join. case_bool_decide; [done |]. case_bool_decide; apply not_elem_of_app;
    (split; [done |]); [done |]. apply not_elem_of_cons. by split.
Qed.

(** [std::to_string] of an unsigned integer. *)
Fixpoint digits (fuel : nat) (n : Z) (acc : bytes) : bytes :=
  match fuel with
  | O => acc
  | S fuel =>
      let acc := z2b (48 + n mod 10) :: acc in
      if n <? 10 then acc else digits fuel (n / 10) acc
  end.
Definition to_string (n : Z) : bytes := digits (S (Z.to_nat (Z.log2 n))) n [].

Lemma digits_chars P fuel n acc :
  (forall d, 0 <= d < 10 -> P (z2b (48 + d))) -> Forall P acc -> Forall P (digits fuel n acc).
Proof.
  intros HP. revert n acc. induction fuel as [|fuel IH]; intros n acc Hacc; [done |].
  cbn [digits]. assert (Forall P (z2b (48 + n mod 10) :: acc)) as H'.
  { constructor; [apply HP, Z.mod_pos_bound; lia | done]. }
  case_match; [done | by apply IH].
Qed.

Lemma to_string_not c n : ~ 48 <= b2z c < 58 -> c ∉ to_string n.
Proof.
  intros Hc. assert (Forall (fun c' => c' <> c) (to_string n)) as Hf.
  { apply digits_chars; [| constructor]. intros d Hd E. apply (f_equal b2z) in E.
    rewrite b2z_z2b, Z.mod_small in E by lia. lia. }
  intros Hin. rewrite list.Forall_forall in Hf. by apply (Hf _ Hin).
Qed.
Lemma to_string_no_slash n : "/"%byte ∉ to_string n.
Proof. apply to_string_not. cbn. lia. Qed.

(** The first character is a digit. *)
Definition is_digit (c : byte) : bool := (48 <=? b2z c) && (b2z c <? 58).
(** A thread name that does not begin the name of a binary's file, which is a
    number, nor an absolute path. *)
Definition own_name (n : bytes) : Prop :=
  match n with c :: _ => c <> "/"%byte /\ is_digit c = false | [] => True end.
Lemma own_name_app n c l : c <> "/"%byte -> is_digit c = false -> own_name n -> own_name (n ++ c :: l).
Proof. by destruct n. Qed.

Lemma digits_nonempty fuel n acc : acc <> [] -> digits fuel n acc <> [].
Proof.
  revert n acc. induction fuel as [|fuel IH]; intros n acc Hacc; [done |]. cbn [digits].
  case_match; [done | by apply IH].
Qed.
Lemma to_string_head n : exists c l, to_string n = c :: l /\ is_digit c = true.
Proof.
  assert (Forall (fun c => is_digit c = true) (to_string n)) as Hf.
  { apply digits_chars; [| constructor]. intros d Hd. unfold is_digit. rewrite b2z_z2b, Z.mod_small by lia.
    apply andb_true_intro. lia. }
  assert (to_string n <> []) as Hne.
  { unfold to_string. cbn [digits]. case_match; [done | by apply digits_nonempty]. }
  destruct (to_string n) as [|c l]; [done |]. apply list.Forall_cons in Hf as [Hc _]. by exists c, l.
Qed.

(** ** The files of a trace *)

(** include/constants.hpp *)
Definition kPiTraceExt : bytes := #".pi_trace".
Definition kBuffersPath : bytes := #"buffers".

(** A thread of the traced or replayed program: the value of
    DPCPP_TRACE_DATA_PATH and the name [pthread_getname_np] gives. *)
Class Thread := { traceDir : bytes; threadName : bytes }.

Definition trace_path `{Thread} : bytes := path_join traceDir (threadName ++ kPiTraceExt).
Definition buffer_path `{Thread} (name : bytes) : bytes :=
  path_join (path_join traceDir kBuffersPath) name.
(** The file an event's memory object is saved in. *)
Definition mem_file_name `{Thread} (eventId : Z) : bytes :=
  threadName ++ #"_" ++ to_string eventId ++ #".mem".

(** ** [std::ifstream] *)

(** The bytes of the file not yet read, and the state bits. *)
Record ifstream := {
  rest : bytes;
  is_open : bool;
  eofbit : bool;
  failbit : bool;
}.

(** A default-constructed stream; a stream opened on a file, or on nothing. *)
Definition no_stream : ifstream := {| rest := []; is_open := false; eofbit := false; failbit := false |}.
Definition open_stream (file : option bytes) : ifstream :=
  match file with
  | Some content => {| rest := content; is_open := true; eofbit := false; failbit := false |}
  | None => {| rest := []; is_open := false; eofbit := false; failbit := true |}
  end.

(** [is.read(p, n)]: the bytes stored at [p].  A stream that is not good stores
    nothing and fails; one that ends early stores what there is. *)
Definition read (n : Z) (s : ifstream) : bytes * ifstream :=
  if eofbit s || failbit s then
    ([], {| rest := rest s; is_open := is_open s; eofbit := eofbit s; failbit := true |})
  else
    let k := Z.to_nat n in
    if (k <=? length (rest s))%nat then
      (take k (rest s),
       {| rest := drop k (rest s); is_open := is_open s; eofbit := false; failbit := false |})
    else
      (rest s, {| rest := []; is_open := is_open s; eofbit := true; failbit := true |}).

(** An object of [length old] bytes after [got] was stored at its address. *)
Definition overwrite (got old : bytes) : bytes := got ++ drop (length got) old.

Lemma read_all (content tail : bytes) opened n :
  n = Z.of_nat (length content) ->
  read n {| rest := content ++ tail; is_open := opened; eofbit := false; failbit := false |} =
  (content, {| rest := tail; is_open := opened; eofbit := false; failbit := false |}).
Proof.
  intros ->. unfold read. cbn [eofbit failbit orb rest]. rewrite Nat2Z.id.
  rewrite leb_correct by (rewrite length_app; lia).
  by rewrite take_app_length, drop_app_length.
Qed.

Lemma overwrite_full got old : length got = length old -> overwrite got old = got.
Proof. intros E. unfold overwrite. by rewrite E, drop_all, app_nil_r. Qed.

(** ** Caller memory *)

(** The bytes of the process that calls the plugin, by address. *)
Abbreviation memory := (gmap Z byte).

Definition load (m : memory) (p n : Z) : option bytes :=
  mapM (fun i => m !! (p + Z.of_nat i)) (seq 0 (Z.to_nat n)).

Fixpoint store (m : memory) (p : Z) (l : bytes) : memory :=
  match l with
  | [] => m
  | b :: l => store (<[p := b]> m) (p + 1) l
  end.

Lemma store_lookup_before m p l a : a < p -> store m p l !! a = m !! a.
Proof.
  revert m p. induction l as [|b l IH]; intros m p Ha; [done |].
  cbn [store]. rewrite IH by lia. by rewrite lookup_insert_ne by lia.
Qed.

Lemma store_lookup_after m p l a : p + Z.of_nat (length l) <= a -> store m p l !! a = m !! a.
Proof.
  revert m p. induction l as [|b l IH]; intros m p Ha; [done |].
  cbn [store length] in *. rewrite IH by lia. by rewrite lookup_insert_ne by lia.
Qed.

Lemma store_lookup m p l i : (i < length l)%nat -> store m p l !! (p + Z.of_nat i) = l !! i.
Proof.
  revert m p i. induction l as [|b l IH]; intros m p i Hi; [cbn in Hi; lia |].
  cbn [store]. destruct i as [|i].
  - rewrite Z.add_0_r, store_lookup_before by lia. by rewrite lookup_insert_eq.
  - replace (p + Z.of_nat (S i)) with (p + 1 + Z.of_nat i) by lia. cbn in Hi.
    by rewrite IH by lia.
Qed.

Lemma load_spec m p l :
  (forall i, (i < length l)%nat -> m !! (p + Z.of_nat i) = l !! i) ->
  load m p (Z.of_nat (length l)) = Some l.
Proof.
  intros H. unfold load. rewrite Nat2Z.id. apply mapM_Some, Forall2_same_length_lookup_2.
  { by rewrite length_seq. }
  intros i a b Ha Hb. apply lookup_seq in Ha as [-> Hi]. by rewrite H.
Qed.

(** What is stored is what is loaded. *)
Lemma load_store m p l : load (store m p l) p (Z.of_nat (length l)) = Some l.
Proof. apply load_spec. intros i Hi. by apply store_lookup. Qed.

Lemma load_length m p n l : load m p n = Some l -> length l = Z.to_nat n.
Proof. unfold load. intros H%length_mapM. by rewrite length_seq in H. Qed.

Lemma load_ext (m m' : memory) p n :
  (forall a, p <= a < p + n -> m' !! a = m !! a) -> load m' p n = load m p n.
Proof.
  intros E. unfold load. apply Forall_mapM_ext, list.Forall_forall. intros i Hi.
  apply elem_of_seq in Hi. apply E. lia.
Qed.

Lemma load_mapped (m : memory) p n :
  (forall a, p <= a < p + Z.of_nat (Z.to_nat n) -> is_Some (m !! a)) -> is_Some (load m p n).
Proof.
  intros E. unfold load. apply mapM_is_Some, list.Forall_forall. intros i Hi.
  apply elem_of_seq in Hi. apply E. lia.
Qed.

Lemma store_mapped (m : memory) p l a : is_Some (m !! a) -> is_Some (store m p l !! a).
Proof.
  revert m p. induction l as [|b l IH]; intros m p Ha; [done |]. cbn [store].
  apply IH. destruct (decide (p = a)) as [-> |]; [by rewrite lookup_insert_eq |].
  by rewrite lookup_insert_ne.
Qed.
