(* ===== verification/Trace.v ===== *)
(** * Trace: the trace file of a thread

    The messages of tools/schemas/api_call.proto; [serialize] of
    lib/plugin_record/record_handler.cpp, [getNextRecord] of
    lib/plugin_replay/replay.cpp and [parseTraceFile] of src/print.cpp. *)

From S2P Require Import Prelude Streams.

(** ** Messages *)

Module ArgData.
Inductive ArgType : Set := INT32 | INT64 | UINT32 | UINT64 | POINTER | STRING.
(** The [oneof data]. *)
Inductive data_t : Set := data_not_set | int_val (z : Z) | str_val (s : bytes).
Record t : Set := { type : ArgType; data : data_t }.
#[global] Instance ArgType_eq_dec : EqDecision ArgType.
Proof. solve_decision. Defined.
#[global] Instance data_eq_dec : EqDecision data_t.
Proof. solve_decision. Defined.
#[global] Instance t_eq_dec : EqDecision t.
Proof. solve_decision. Defined.
#[global] Instance ArgType_countable : Countable ArgType.
Proof.
  refine (inj_countable' (fun t => match t with
    | INT32 => 0 | INT64 => 1 | UINT32 => 2 | UINT64 => 3 | POINTER => 4 | STRING => 5 end)%nat
    (fun n => match n with
    | 0 => INT32 | 1 => INT64 | 2 => UINT32 | 3 => UINT64 | 4 => POINTER | _ => STRING end)%nat _).
  by intros [].
Defined.
#[global] Instance data_countable : Countable data_t.
Proof.
  refine (inj_countable' (fun d => match d with
    | data_not_set => None | int_val z => Some (inl z) | str_val s => Some (inr s) end)
    (fun d => match d with
    | None => data_not_set | Some (inl z) => int_val z | Some (inr s) => str_val s end) _).
  by intros [].
Defined.
#[global] Instance t_countable : Countable t.
Proof.
  refine (inj_countable' (fun a => (type a, data a)) (fun p => {| type := p.1; data := p.2 |}) _).
  by intros [].
Defined.
(** [call.add_args()]: the default value. *)
Definition default : t := {| type := INT32; data := data_not_set |}.
End ArgData.

Record APICall := {
  function_id : Z;
  time_start : Z;
  time_end : Z;
  return_value : Z;
  args : list ArgData.t;
  small_inputs : list bytes;
  small_outputs : list bytes;
  mem_obj_inputs : list bytes;
  mem_obj_outputs : list bytes;
}.

#[global] Instance APICall_eq_dec : EqDecision APICall.
Proof. solve_decision. Defined.

Definition new_call : APICall :=
  {| function_id := 0; time_start := 0; time_end := 0; return_value := 0; args := [];
     small_inputs := []; small_outputs := []; mem_obj_inputs := []; mem_obj_outputs := [] |}.

(** ** The protobuf library

    [parse s] is the message [ParseFromString(s)] leaves, whatever it returns.
    The law is the documented round trip, for an input that goes on with a zero
    byte: no field has tag 0, so the parser stops there and keeps what it read. *)
Class Protobuf (msg : Type) := {
  SerializeToString : msg -> bytes;
  ParseFromString : bytes -> msg;
  parse_serialize : forall m, ParseFromString (SerializeToString m ++ [x00]) = m;
}.

(** ** Writing *)

Section trace.
Context `{Protobuf APICall}.

(** What [serialize(call, os)] appends to the file. *)
Definition serialize (call : APICall) : bytes :=
  let out := SerializeToString call in
  let size := u32 (Z.of_nat (length out)) in
  le_bytes 4 size ++ take (Z.to_nat size) out.

(** ** Reading *)

(** The common part of [getNextRecord] and of the loop of [parseTraceFile]:
    [uninit] is what the uninitialised [size] holds. *)
Definition read_record (uninit : bytes) (s : ifstream) : outcome (APICall * ifstream) :=
  let '(got, s) := read 4 s in
  let size := le_value (overwrite got uninit) in
  let rawData := replicate (Z.to_nat (u32 (size + 1))) x00 in
  let '(got, s) := read size s in
  if (length rawData <? length got)%nat then UB
  else Ok (ParseFromString (overwrite got rawData), s).

Definition getNextRecord (uninit : bytes) : M ifstream APICall := read_record uninit.

Definition mapped {A B} (f : A -> B) (r : option (outcome A)) : option (outcome B) :=
  match r with Some x => Some (f <$> x) | None => None end.

(** The loop of [parseTraceFile]; [uninit] gives the uninitialised
    [recordSize] of each iteration, [None] is running out of fuel. *)
Fixpoint parse_loop (fuel : nat) (uninit : nat -> bytes) (s : ifstream)
    : option (outcome (list APICall)) :=
  if eofbit s then Some (Ok [])
  else
    match fuel with
    | O => None
    | S fuel =>
        match read_record (uninit fuel) s with
        | Ok (record, s) =>
            if eofbit s then Some (Ok [])
            else mapped (cons record) (parse_loop fuel uninit s)
        | _ => Some UB
        end
    end.

(** The records of a thread's file, paired with the thread's name. *)
Definition parseTraceFile (fuel : nat) (uninit : nat -> bytes) (threadId : bytes)
    (file : option bytes) : option (outcome (list (bytes * APICall))) :=
  mapped (map (pair threadId)) (parse_loop fuel uninit (open_stream file)).

(** * Theorems *)

(** The message fits the 32-bit length prefix. *)
Definition fits (call : APICall) : Prop := Z.of_nat (length (SerializeToString call)) < 2 ^ 32 - 1.

Lemma serialize_fits call : fits call ->
  serialize call =
  le_bytes 4 (Z.of_nat (length (SerializeToString call))) ++ SerializeToString call.
Proof.
  unfold fits, serialize. intros Hf. rewrite wrap_small by lia. by rewrite Nat2Z.id, take_ge.
Qed.

Definition good (content : bytes) : ifstream :=
  {| rest := content; is_open := true; eofbit := false; failbit := false |}.

Lemma read_record_serialize call tail uninit :
  fits call -> length uninit = 4%nat ->
  read_record uninit (good (serialize call ++ tail)) = Ok (call, good tail).
Proof.
  intros Hf Hu. unfold read_record, good. rewrite serialize_fits, <-app_assoc by done.
  rewrite read_all by by rewrite length_le_bytes. unfold fits in Hf.
  rewrite overwrite_full by by rewrite length_le_bytes.
  rewrite le_value_le_bytes, wrap_small by lia.
  rewrite read_all by done. rewrite wrap_small by lia.
  set (out := SerializeToString call). rewrite length_replicate.
  replace (Z.to_nat (Z.of_nat (length out) + 1)) with (length out + 1)%nat by lia.
  rewrite (proj2 (Nat.ltb_ge _ _)) by lia.
  unfold overwrite. rewrite drop_replicate.
  replace (length out + 1 - length out)%nat with 1%nat by lia.
  subst out. cbn [replicate]. by rewrite parse_serialize.
Qed.

(** The whole trace of a thread. *)
Definition trace_of (calls : list APICall) : bytes := calls ≫= serialize.

(** C15: whatever garbage the uninitialised length holds, reading a trace gives
    back the calls that were serialized, one [getNextRecord] per call, and
    leaves the stream where the next call starts. *)
Theorem getNextRecord_serialize calls tail uninit :
  Forall fits calls -> length uninit = 4%nat ->
  mapM (fun _ => getNextRecord uninit) calls (good (trace_of calls ++ tail)) =
  Ok (calls, good tail).
Proof.
  intros Hc Hu. induction Hc as [|c calls Hf Hc IH]; [done |]. cbn [mapM].
  change (trace_of (c :: calls)) with (serialize c ++ trace_of calls). rewrite <-app_assoc.
  erewrite M_run_bind; [| by apply read_record_serialize].
  by erewrite M_run_bind; [| exact IH].
Qed.

Lemma read_short n s : eofbit s = false -> failbit s = false -> (length (rest s) < Z.to_nat n)%nat ->
  read n s = (rest s, {| rest := []; is_open := is_open s; eofbit := true; failbit := true |}).
Proof.
  intros He Hf Hl. unfold read. rewrite He, Hf. cbn.
  by rewrite (proj2 (Nat.leb_gt _ _)) by lia.
Qed.

(** What is left in the file when its writer stopped in the middle of a record. *)
Definition cut_short (tail : bytes) : Prop :=
  exists call k, fits call /\ (k < length (serialize call))%nat /\ tail = take k (serialize call).

Lemma read_record_short tail uninit :
  length uninit = 4%nat -> cut_short tail ->
  exists call s, read_record uninit (good tail) = Ok (call, s) /\ eofbit s = true.
Proof.
  intros Hu (call & k & Hf & Hk & ->). unfold read_record. rewrite serialize_fits in * by done.
  unfold fits in Hf. set (out := SerializeToString call) in *.
  rewrite length_app, length_le_bytes in Hk.
  destruct (Nat.lt_ge_cases k 4) as [Hk4 | Hk4].
  - rewrite read_short;
      [| done | done | cbn [rest good]; rewrite length_take, length_app, length_le_bytes; lia].
    cbn [rest good is_open]. unfold read. cbn [eofbit failbit orb].
    assert (forall n, (n <? 0)%nat = false) as E by (by intros []).
    change (length []) with 0%nat. rewrite E. eauto.
  - rewrite take_app, length_le_bytes, take_ge by (rewrite length_le_bytes; lia).
    unfold good. rewrite read_all by by rewrite length_le_bytes.
    rewrite overwrite_full by by rewrite length_le_bytes.
    rewrite le_value_le_bytes, wrap_small by lia.
    rewrite read_short; [| done | done | cbn [rest]; rewrite length_take; lia].
    cbn [rest is_open]. rewrite length_replicate, wrap_small by lia.
    rewrite length_take. rewrite (proj2 (Nat.ltb_ge _ _)) by lia. eauto.
Qed.

Lemma length_serialize call : (4 <= length (serialize call))%nat.
Proof. unfold serialize. cbv zeta. rewrite length_app, length_le_bytes. lia. Qed.

Lemma parse_loop_spec calls tail uninit fuel :
  Forall fits calls -> (forall i, length (uninit i) = 4%nat) -> cut_short tail ->
  (length (trace_of calls ++ tail) < fuel)%nat ->
  parse_loop fuel uninit (good (trace_of calls ++ tail)) = Some (Ok calls).
Proof.
  intros Hc Hu Ht. revert fuel. induction Hc as [|c calls Hf Hc IH]; intros fuel Hl.
  - change (trace_of [] ++ tail) with tail in *. destruct fuel as [|fuel]; [lia |].
    destruct (read_record_short tail (uninit fuel) (Hu fuel) Ht) as (call & s & E & Hs).
    cbn [parse_loop]. change (eofbit (good tail)) with false. by rewrite E, Hs.
  - change (trace_of (c :: calls)) with (serialize c ++ trace_of calls) in *. rewrite <-app_assoc in *.
    destruct fuel as [|fuel]; [lia |]. cbn [parse_loop]. change (eofbit (good _)) with false. cbv iota.
    rewrite read_record_serialize by done. change (eofbit (good _)) with false. cbv iota.
    rewrite length_app in Hl. pose proof (length_serialize c).
    by rewrite IH by lia.
Qed.

(** C39: [print] shows every complete record of a trace file and nothing else,
    also when the last record was cut short, and its loop ends. *)
Theorem parseTraceFile_complete calls tail uninit threadId fuel :
  Forall fits calls -> (forall i, length (uninit i) = 4%nat) -> cut_short tail ->
  (length (trace_of calls ++ tail) < fuel)%nat ->
  parseTraceFile fuel uninit threadId (Some (trace_of calls ++ tail)) =
  Some (Ok (map (pair threadId) calls)).
Proof.
  intros. unfold parseTraceFile. change (open_stream (Some ?c)) with (good c).
  by rewrite parse_loop_spec.
Qed.

Lemma read_failed n s : failbit s = true -> eofbit s = false ->
  read n s = ([], {| rest := rest s; is_open := is_open s; eofbit := false; failbit := true |}).
Proof. intros Hf He. unfold read. by rewrite Hf, He. Qed.

(** On a file that cannot be opened the loop of [parseTraceFile] never
    ends: the stream fails but never reaches its end. *)
Theorem parseTraceFile_unopened fuel uninit threadId :
  parseTraceFile fuel uninit threadId None = None.
Proof.
  unfold parseTraceFile, open_stream.
  assert (parse_loop fuel uninit {| rest := []; is_open := false; eofbit := false; failbit := true |}
    = None) as ->; [| done].
  induction fuel as [|fuel IH]; [done |]. cbn [parse_loop eofbit].
  unfold read_record. rewrite read_failed by done. cbn [rest is_open].
  rewrite read_failed by done. cbn [rest is_open].
  assert (forall n, (n <? length (@nil byte))%nat = false) as -> by (by intros []).
  cbn [eofbit]. by rewrite IH.
Qed.
End trace.

(** ** A concrete encoding *)

(** The bits of an injective code, eight to a byte; zero bits at the end do not
    change the number. *)
Fixpoint bits (p : positive) : list bool :=
  match p with
  | xH => [true]
  | xO p => false :: bits p
  | xI p => true :: bits p
  end.
Fixpoint bits_value (l : list bool) : N :=
  match l with
  | [] => 0
  | true :: l => N.succ_double (bits_value l)
  | false :: l => N.double (bits_value l)
  end.
Fixpoint pack_bits (l : list bool) : bytes :=
  match l with
  | [] => []
  | b0 :: b1 :: b2 :: b3 :: b4 :: b5 :: b6 :: b7 :: l =>
      Byte.of_bits (b0, (b1, (b2, (b3, (b4, (b5, (b6, b7))))))) :: pack_bits l
  | _ =>
      let b i := nth i l false in
      [Byte.of_bits (b 0%nat, (b 1%nat, (b 2%nat, (b 3%nat, (b 4%nat, (b 5%nat, (b 6%nat, b 7%nat)))))))]
  end.
Fixpoint unpack_bits (s : bytes) : list bool :=
  match s with
  | [] => []
  | c :: s =>
      let '(b0, (b1, (b2, (b3, (b4, (b5, (b6, b7))))))) := Byte.to_bits c in
      b0 :: b1 :: b2 :: b3 :: b4 :: b5 :: b6 :: b7 :: unpack_bits s
  end.

Lemma bits_value_bits p : bits_value (bits p) = Npos p.
Proof. by induction p as [p IH|p IH|]; cbn; rewrite ?IH. Qed.

Lemma unpack_pack_bits l : bits_value (unpack_bits (pack_bits l ++ [x00])) = bits_value l.
Proof.
  enough (forall n l, (length l <= n)%nat ->
    bits_value (unpack_bits (pack_bits l ++ [x00])) = bits_value l) as E by eauto.
  clear l. induction n as [|n IH]; intros l Hl; [by destruct l; [| cbn in Hl; lia] |].
  destruct l as [|b0 [|b1 [|b2 [|b3 [|b4 [|b5 [|b6 [|b7 l]]]]]]]]; try done;
    try (repeat match goal with b : bool |- _ => destruct b end; reflexivity).
  cbn [length] in Hl. cbn [pack_bits app unpack_bits]. rewrite Byte.to_bits_of_bits.
  cbn [bits_value]. by rewrite IH by lia.
Qed.

#[global] Instance APICall_countable : Countable APICall.
Proof.
  refine (inj_countable'
    (fun c => (function_id c, time_start c, time_end c, return_value c, args c, small_inputs c,
               small_outputs c, mem_obj_inputs c, mem_obj_outputs c))
    (fun p => let '(f, s, e, r, a, si, so, mi, mo) := p in
       {| function_id := f; time_start := s; time_end := e; return_value := r; args := a;
          small_inputs := si; small_outputs := so; mem_obj_inputs := mi;
          mem_obj_outputs := mo |}) _).
  by intros [].
Defined.

Section encoding.
Context {A : Type} `{Countable A} (zero : A).

Definition code_bytes (c : A) : bytes := pack_bits (bits (encode c)).
Definition decode_bytes (s : bytes) : A :=
  match bits_value (unpack_bits s) with Npos p => default zero (decode p) | N0 => zero end.

Lemma decode_code_bytes c : decode_bytes (code_bytes c ++ [x00]) = c.
Proof.
  unfold decode_bytes, code_bytes. by rewrite unpack_pack_bits, bits_value_bits, decode_encode.
Qed.

Definition countable_protobuf : Protobuf A :=
  {| SerializeToString := code_bytes; ParseFromString := decode_bytes;
     parse_serialize := decode_code_bytes |}.
End encoding.

#[global] Instance demo_protobuf : Protobuf APICall := countable_protobuf new_call.

Definition demo_calls : list APICall :=
  [ {| function_id := 3; time_start := 10; time_end := 12; return_value := 0; args := [];
       small_inputs := []; small_outputs := [[x05; x00; x00; x00]]; mem_obj_inputs := [];
       mem_obj_outputs := [] |};
    {| function_id := 7; time_start := 20; time_end := 21; return_value := 4294967266;
       args := [{| ArgData.type := ArgData.POINTER; ArgData.data := ArgData.int_val 64 |}];
       small_inputs := []; small_outputs := []; mem_obj_inputs := []; mem_obj_outputs := [] |} ].

Lemma demo_fits : Forall fits demo_calls.
Proof. repeat (constructor; [vm_compute; reflexivity |]). constructor. Qed.

Lemma getNextRecord_serialize_witness :
  mapM (fun _ => getNextRecord [xff; xff; xff; xff]) demo_calls (good (trace_of demo_calls ++ [x01])) =
  Ok (demo_calls, good [x01]).
Proof. refine (getNextRecord_serialize demo_calls [x01] [xff; xff; xff; xff] demo_fits eq_refl). Defined.

Lemma parseTraceFile_complete_witness :
  let tail := take 5 (serialize new_call) in
  parseTraceFile (S (length (trace_of demo_calls ++ tail))) (fun _ => [x01; x02; x03; x04])
    #"main" (Some (trace_of demo_calls ++ tail)) = Some (Ok (map (pair #"main") demo_calls)).
Proof.
  refine (parseTraceFile_complete demo_calls (take 5 (serialize new_call))
    (fun _ => [x01; x02; x03; x04]) #"main" _
    demo_fits (fun _ => eq_refl) _ _); [| lia].
  exists new_call, 5%nat. split; [vm_compute; reflexivity |]. split; [| reflexivity].
  apply Nat.ltb_lt. vm_compute. reflexivity.
Defined.
