(* ===== verification/PiCall.v ===== *)
(** * PiCall: the plugin interface

    The functions that [piPluginInit] of lib/plugin_replay/replay.cpp installs,
    with the parameters they are declared with there.  What the plugin
    interface's headers define (function ids, the width of its enumerations,
    constants) is not in the repository and is a class. *)

From S2P Require Import Prelude.

(** ** Functions *)

Module PiApiKind.
Inductive t : Set :=
  | piPlatformsGet | piPlatformGetInfo | piDevicesGet | piDeviceGetInfo | piDeviceRetain
  | piDeviceRelease | piextDeviceSelectBinary | piContextCreate | piContextGetInfo
  | piContextRelease | piContextRetain | piQueueCreate | piQueueGetInfo | piQueueRetain
  | piQueueRelease | piQueueFinish | piMemBufferCreate | piMemRelease | piMemGetInfo
  | piMemImageGetInfo | piMemRetain | piProgramBuild | piProgramCreateWithBinary
  | piProgramCreate | piProgramRelease | piProgramRetain | piProgramCompile | piProgramLink
  | piProgramGetInfo | piextProgramSetSpecializationConstant | piKernelCreate
  | piKernelSetExecInfo | piKernelGetInfo | piKernelGetGroupInfo | piextKernelSetArgMemObj
  | piextKernelSetArgPointer | piKernelSetArg | piKernelRelease | piKernelRetain
  | piEnqueueKernelLaunch | piEnqueueMemBufferMap | piEnqueueMemBufferRead | piEnqueueMemUnmap
  | piEnqueueEventsWait | piEnqueueEventsWaitWithBarrier | piEventsWait | piEventRelease
  | piextUSMEnqueueMemcpy | piextUSMEnqueueMemset | piextUSMDeviceAlloc | piextUSMHostAlloc
  | piextUSMFree | piTearDown.
#[global] Instance t_eq_dec : EqDecision t.
Proof. solve_decision. Defined.
End PiApiKind.

(** Types of pi.h and cl.h that the source leaves to their headers. *)
Inductive ext_type : Set :=
  | pi_platform_info | pi_device_type | pi_device_info | pi_context_info | pi_queue_properties
  | pi_queue_info | pi_mem_flags | cl_mem_info | pi_image_info | pi_program_info
  | pi_kernel_exec_info | pi_kernel_info | pi_kernel_group_info | pi_bool | pi_map_flags.

(** An argument with its C++ type. *)
Inductive argument : Set :=
  | Pointer (p : Z)
  | CString (p : Z)
  | UInt32 (z : Z)
  | Int32 (z : Z)
  | Size (z : Z)
  | Ext (t : ext_type) (z : Z).

Class PiHeaders := {
  kind_id : PiApiKind.t -> Z;
  kind_id_inj :: Inj (=) (=) kind_id;
  kind_id_u32 : forall k, 0 <= kind_id k < 2 ^ 32;
  ext_bytes : ext_type -> Z;
  ext_is_unsigned : ext_type -> bool;
  CL_MEM_CONTEXT : Z;
  PI_KERNEL_INFO_PROGRAM : Z;
  PI_QUEUE_INFO_CONTEXT : Z;
  PI_MEM_ALLOC_TYPE : Z;
  PI_MEM_TYPE_UNKNOWN : Z;
  PI_MEM_TYPE_HOST : Z;
  PI_DEVICE_BINARY_TYPE_SPIRV : Z;
  PI_DEVICE_BINARY_TYPE_NATIVE : Z;
  PI_DEVICE_BINARY_TYPE_LLVMIR_BITCODE : Z;
  PI_DEVICE_BINARY_TYPE_NONE : Z;
}.

(** ** Calls *)

Module Call.
Inductive t : Set :=
  | piPlatformsGet (numEntries platforms numPlatforms : Z)
  | piPlatformGetInfo (platform param_name param_value_size param_value param_value_size_ret
      : Z)
  | piDevicesGet (platform type numEntries devs numDevices : Z)
  | piDeviceGetInfo (device param_name param_value_size param_value param_value_size_ret : Z)
  | piDeviceRetain (device : Z)
  | piDeviceRelease (device : Z)
  | piextDeviceSelectBinary (device binaries num_binaries selected_binary_ind : Z)
  | piContextCreate (properties num_devices devices pfn_notify user_data ret_context : Z)
  | piContextGetInfo (context param_name param_value_size param_value param_value_size_ret : Z)
  | piContextRelease (context : Z)
  | piContextRetain (context : Z)
  | piQueueCreate (context device properties queue : Z)
  | piQueueGetInfo (command_queue param_name param_value_size param_value param_value_size_ret
      : Z)
  | piQueueRetain (command_queue : Z)
  | piQueueRelease (command_queue : Z)
  | piQueueFinish (command_queue : Z)
  | piMemBufferCreate (context flags size host_ptr ret_mem properties : Z)
  | piMemRelease (mem : Z)
  | piMemGetInfo (mem param_name param_value_size param_value param_value_size_ret : Z)
  | piMemImageGetInfo (image param_name param_value_size param_value param_value_size_ret : Z)
  | piMemRetain (mem : Z)
  | piProgramBuild (program num_devices device_list options pfn_notify user_data : Z)
  | piProgramCreateWithBinary (context num_devices device_list lengths binaries
      num_metadata_entries metadata binary_status ret_program : Z)
  | piProgramCreate (context il length ret_program : Z)
  | piProgramRelease (program : Z)
  | piProgramRetain (program : Z)
  | piProgramCompile (program num_devices device_list options num_input_headers input_headers
      header_include_names pfn_notify user_data : Z)
  | piProgramLink (context num_devices device_list options num_input_programs input_programs
      pfn_notify user_data ret_program : Z)
  | piProgramGetInfo (program param_name param_value_size param_value param_value_size_ret : Z)
  | piextProgramSetSpecializationConstant (prog spec_id spec_size spec_value : Z)
  | piKernelCreate (program kernel_name ret_kernel : Z)
  | piKernelSetExecInfo (kernel value_name param_value_size param_value : Z)
  | piKernelGetInfo (kernel param_name param_value_size param_value param_value_size_ret : Z)
  | piKernelGetGroupInfo (kernel device param_name param_value_size param_value
      param_value_size_ret : Z)
  | piextKernelSetArgMemObj (kernel arg_index arg_value : Z)
  | piextKernelSetArgPointer (kernel arg_index arg_size arg_value : Z)
  | piKernelSetArg (kernel arg_index arg_size arg_value : Z)
  | piKernelRelease (kernel : Z)
  | piKernelRetain (kernel : Z)
  | piEnqueueKernelLaunch (queue kernel work_dim global_work_offset global_work_size
      local_work_size num_events_in_wait_list event_wait_list event : Z)
  | piEnqueueMemBufferMap (command_queue buffer blocking_map map_flags offset size
      num_events_in_wait_list event_wait_list event ret_map : Z)
  | piEnqueueMemBufferRead (queue buffer blocking_read offset size ptr num_events_in_wait_list
      event_wait_list event : Z)
  | piEnqueueMemUnmap (command_queue memobj mapped_ptr num_events_in_wait_list event_wait_list
      event : Z)
  | piEnqueueEventsWait (command_queue num_events_in_wait_list event_wait_list event : Z)
  | piEnqueueEventsWaitWithBarrier (command_queue num_events_in_wait_list event_wait_list event
      : Z)
  | piEventsWait (num_events event_list : Z)
  | piEventRelease (event : Z)
  | piextUSMEnqueueMemcpy (queue blocking dst_ptr src_ptr size num_events_in_waitlist
      events_waitlist event : Z)
  | piextUSMEnqueueMemset (queue ptr value count num_events_in_waitlist events_waitlist event
      : Z)
  | piextUSMDeviceAlloc (result_ptr context device properties size alignment : Z)
  | piextUSMHostAlloc (result_ptr context properties size alignment : Z)
  | piextUSMFree (context ptr : Z)
  | piTearDown (arg : Z).

Definition kind (c : t) : PiApiKind.t :=
  match c with
  | piPlatformsGet _ _ _ => PiApiKind.piPlatformsGet
  | piPlatformGetInfo _ _ _ _ _ => PiApiKind.piPlatformGetInfo
  | piDevicesGet _ _ _ _ _ => PiApiKind.piDevicesGet
  | piDeviceGetInfo _ _ _ _ _ => PiApiKind.piDeviceGetInfo
  | piDeviceRetain _ => PiApiKind.piDeviceRetain
  | piDeviceRelease _ => PiApiKind.piDeviceRelease
  | piextDeviceSelectBinary _ _ _ _ => PiApiKind.piextDeviceSelectBinary
  | piContextCreate _ _ _ _ _ _ => PiApiKind.piContextCreate
  | piContextGetInfo _ _ _ _ _ => PiApiKind.piContextGetInfo
  | piContextRelease _ => PiApiKind.piContextRelease
  | piContextRetain _ => PiApiKind.piContextRetain
  | piQueueCreate _ _ _ _ => PiApiKind.piQueueCreate
  | piQueueGetInfo _ _ _ _ _ => PiApiKind.piQueueGetInfo
  | piQueueRetain _ => PiApiKind.piQueueRetain
  | piQueueRelease _ => PiApiKind.piQueueRelease
  | piQueueFinish _ => PiApiKind.piQueueFinish
  | piMemBufferCreate _ _ _ _ _ _ => PiApiKind.piMemBufferCreate
  | piMemRelease _ => PiApiKind.piMemRelease
  | piMemGetInfo _ _ _ _ _ => PiApiKind.piMemGetInfo
  | piMemImageGetInfo _ _ _ _ _ => PiApiKind.piMemImageGetInfo
  | piMemRetain _ => PiApiKind.piMemRetain
  | piProgramBuild _ _ _ _ _ _ => PiApiKind.piProgramBuild
  | piProgramCreateWithBinary _ _ _ _ _ _ _ _ _ => PiApiKind.piProgramCreateWithBinary
  | piProgramCreate _ _ _ _ => PiApiKind.piProgramCreate
  | piProgramRelease _ => PiApiKind.piProgramRelease
  | piProgramRetain _ => PiApiKind.piProgramRetain
  | piProgramCompile _ _ _ _ _ _ _ _ _ => PiApiKind.piProgramCompile
  | piProgramLink _ _ _ _ _ _ _ _ _ => PiApiKind.piProgramLink
  | piProgramGetInfo _ _ _ _ _ => PiApiKind.piProgramGetInfo
  | piextProgramSetSpecializationConstant _ _ _ _ => PiApiKind.piextProgramSetSpecializationConstant
  | piKernelCreate _ _ _ => PiApiKind.piKernelCreate
  | piKernelSetExecInfo _ _ _ _ => PiApiKind.piKernelSetExecInfo
  | piKernelGetInfo _ _ _ _ _ => PiApiKind.piKernelGetInfo
  | piKernelGetGroupInfo _ _ _ _ _ _ => PiApiKind.piKernelGetGroupInfo
  | piextKernelSetArgMemObj _ _ _ => PiApiKind.piextKernelSetArgMemObj
  | piextKernelSetArgPointer _ _ _ _ => PiApiKind.piextKernelSetArgPointer
  | piKernelSetArg _ _ _ _ => PiApiKind.piKernelSetArg
  | piKernelRelease _ => PiApiKind.piKernelRelease
  | piKernelRetain _ => PiApiKind.piKernelRetain
  | piEnqueueKernelLaunch _ _ _ _ _ _ _ _ _ => PiApiKind.piEnqueueKernelLaunch
  | piEnqueueMemBufferMap _ _ _ _ _ _ _ _ _ _ => PiApiKind.piEnqueueMemBufferMap
  | piEnqueueMemBufferRead _ _ _ _ _ _ _ _ _ => PiApiKind.piEnqueueMemBufferRead
  | piEnqueueMemUnmap _ _ _ _ _ _ => PiApiKind.piEnqueueMemUnmap
  | piEnqueueEventsWait _ _ _ _ => PiApiKind.piEnqueueEventsWait
  | piEnqueueEventsWaitWithBarrier _ _ _ _ => PiApiKind.piEnqueueEventsWaitWithBarrier
  | piEventsWait _ _ => PiApiKind.piEventsWait
  | piEventRelease _ => PiApiKind.piEventRelease
  | piextUSMEnqueueMemcpy _ _ _ _ _ _ _ _ => PiApiKind.piextUSMEnqueueMemcpy
  | piextUSMEnqueueMemset _ _ _ _ _ _ _ => PiApiKind.piextUSMEnqueueMemset
  | piextUSMDeviceAlloc _ _ _ _ _ _ => PiApiKind.piextUSMDeviceAlloc
  | piextUSMHostAlloc _ _ _ _ _ => PiApiKind.piextUSMHostAlloc
  | piextUSMFree _ _ => PiApiKind.piextUSMFree
  | piTearDown _ => PiApiKind.piTearDown
  end.

(** The arguments in the order of the declaration. *)
Definition arguments (c : t) : list argument :=
  match c with
  | piPlatformsGet a b c => [UInt32 a; Pointer b; Pointer c]
  | piPlatformGetInfo a b c d e =>
      [Pointer a; Ext pi_platform_info b; Size c; Pointer d; Pointer e]
  | piDevicesGet a b c d e => [Pointer a; Ext pi_device_type b; UInt32 c; Pointer d; Pointer e]
  | piDeviceGetInfo a b c d e =>
      [Pointer a; Ext pi_device_info b; Size c; Pointer d; Pointer e]
  | piDeviceRetain a => [Pointer a]
  | piDeviceRelease a => [Pointer a]
  | piextDeviceSelectBinary a b c d => [Pointer a; Pointer b; UInt32 c; Pointer d]
  | piContextCreate a b c d e f =>
      [Pointer a; UInt32 b; Pointer c; Pointer d; Pointer e; Pointer f]
  | piContextGetInfo a b c d e =>
      [Pointer a; Ext pi_context_info b; Size c; Pointer d; Pointer e]
  | piContextRelease a => [Pointer a]
  | piContextRetain a => [Pointer a]
  | piQueueCreate a b c d => [Pointer a; Pointer b; Ext pi_queue_properties c; Pointer d]
  | piQueueGetInfo a b c d e => [Pointer a; Ext pi_queue_info b; Size c; Pointer d; Pointer e]
  | piQueueRetain a => [Pointer a]
  | piQueueRelease a => [Pointer a]
  | piQueueFinish a => [Pointer a]
  | piMemBufferCreate a b c d e f =>
      [Pointer a; Ext pi_mem_flags b; Size c; Pointer d; Pointer e; Pointer f]
  | piMemRelease a => [Pointer a]
  | piMemGetInfo a b c d e => [Pointer a; Ext cl_mem_info b; Size c; Pointer d; Pointer e]
  | piMemImageGetInfo a b c d e =>
      [Pointer a; Ext pi_image_info b; Size c; Pointer d; Pointer e]
  | piMemRetain a => [Pointer a]
  | piProgramBuild a b c d e f =>
      [Pointer a; UInt32 b; Pointer c; CString d; Pointer e; Pointer f]
  | piProgramCreateWithBinary a b c d e f g h i =>
      [Pointer a; UInt32 b; Pointer c; Pointer d; Pointer e; Size f; Pointer g; Pointer h;
       Pointer i]
  | piProgramCreate a b c d => [Pointer a; Pointer b; Size c; Pointer d]
  | piProgramRelease a => [Pointer a]
  | piProgramRetain a => [Pointer a]
  | piProgramCompile a b c d e f g h i =>
      [Pointer a; UInt32 b; Pointer c; CString d; UInt32 e; Pointer f; Pointer g; Pointer h;
       Pointer i]
  | piProgramLink a b c d e f g h i =>
      [Pointer a; UInt32 b; Pointer c; CString d; UInt32 e; Pointer f; Pointer g; Pointer h;
       Pointer i]
  | piProgramGetInfo a b c d e =>
      [Pointer a; Ext pi_program_info b; Size c; Pointer d; Pointer e]
  | piextProgramSetSpecializationConstant a b c d => [Pointer a; UInt32 b; Size c; Pointer d]
  | piKernelCreate a b c => [Pointer a; CString b; Pointer c]
  | piKernelSetExecInfo a b c d => [Pointer a; Ext pi_kernel_exec_info b; Size c; Pointer d]
  | piKernelGetInfo a b c d e =>
      [Pointer a; Ext pi_kernel_info b; Size c; Pointer d; Pointer e]
  | piKernelGetGroupInfo a b c d e f =>
      [Pointer a; Pointer b; Ext pi_kernel_group_info c; Size d; Pointer e; Pointer f]
  | piextKernelSetArgMemObj a b c => [Pointer a; UInt32 b; Pointer c]
  | piextKernelSetArgPointer a b c d => [Pointer a; UInt32 b; Size c; Pointer d]
  | piKernelSetArg a b c d => [Pointer a; UInt32 b; Size c; Pointer d]
  | piKernelRelease a => [Pointer a]
  | piKernelRetain a => [Pointer a]
  | piEnqueueKernelLaunch a b c d e f g h i =>
      [Pointer a; Pointer b; UInt32 c; Pointer d; Pointer e; Pointer f; UInt32 g; Pointer h;
       Pointer i]
  | piEnqueueMemBufferMap a b c d e f g h i j =>
      [Pointer a; Pointer b; Ext pi_bool c; Ext pi_map_flags d; Size e; Size f; UInt32 g;
       Pointer h; Pointer i; Pointer j]
  | piEnqueueMemBufferRead a b c d e f g h i =>
      [Pointer a; Pointer b; Ext pi_bool c; Size d; Size e; Pointer f; UInt32 g; Pointer h;
       Pointer i]
  | piEnqueueMemUnmap a b c d e f =>
      [Pointer a; Pointer b; Pointer c; UInt32 d; Pointer e; Pointer f]
  | piEnqueueEventsWait a b c d => [Pointer a; UInt32 b; Pointer c; Pointer d]
  | piEnqueueEventsWaitWithBarrier a b c d => [Pointer a; UInt32 b; Pointer c; Pointer d]
  | piEventsWait a b => [UInt32 a; Pointer b]
  | piEventRelease a => [Pointer a]
  | piextUSMEnqueueMemcpy a b c d e f g h =>
      [Pointer a; Ext pi_bool b; Pointer c; Pointer d; Size e; UInt32 f; Pointer g; Pointer h]
  | piextUSMEnqueueMemset a b c d e f g =>
      [Pointer a; Pointer b; Int32 c; Size d; UInt32 e; Pointer f; Pointer g]
  | piextUSMDeviceAlloc a b c d e f =>
      [Pointer a; Pointer b; Pointer c; Pointer d; Size e; UInt32 f]
  | piextUSMHostAlloc a b c d e => [Pointer a; Pointer b; Pointer c; Size d; UInt32 e]
  | piextUSMFree a b => [Pointer a; Pointer b]
  | piTearDown a => [Pointer a]
  end.
End Call.
