(* ===== verification/Replayer.v ===== *)
(** * Replayer: the replay plugin

    lib/plugin_replay/replay.cpp: every function answers from the next record of
    the thread's trace instead of calling a device.  A function is a computation
    on the plugin's globals and on the memory of the process. *)

From S2P Require Import Prelude Streams Trace PiCall.

(** ** State *)

Record replayer := {
  GTrace : ifstream;
  GKernelProgramMap : gmap Z Z;
  GMemContextMap : gmap Z Z;
  mem : memory;
  (** The next address [new] returns, and the arrays not yet deleted. *)
  heap : Z;
  arrays : gset Z;
}.

(** What the replayed process finds around it: the contents of files, whether an
    allocation succeeds, and what an uninitialised object holds. *)
Class Process := {
  file : bytes -> option bytes;
  can_allocate : Z -> bool;
  uninit : ifstream -> nat -> bytes;
  uninit_length : forall s n, length (uninit s n) = n;
}.

Definition set_GTrace (s : ifstream) (r : replayer) : replayer :=
  {| GTrace := s; GKernelProgramMap := GKernelProgramMap r; GMemContextMap := GMemContextMap r;
     mem := mem r; heap := heap r; arrays := arrays r |}.
Definition set_kernel_program (m : gmap Z Z) (r : replayer) : replayer :=
  {| GTrace := GTrace r; GKernelProgramMap := m; GMemContextMap := GMemContextMap r;
     mem := mem r; heap := heap r; arrays := arrays r |}.
Definition set_mem_context (m : gmap Z Z) (r : replayer) : replayer :=
  {| GTrace := GTrace r; GKernelProgramMap := GKernelProgramMap r; GMemContextMap := m;
     mem := mem r; heap := heap r; arrays := arrays r |}.
Definition set_memory (m : memory) (h : Z) (a : gset Z) (r : replayer) : replayer :=
  {| GTrace := GTrace r; GKernelProgramMap := GKernelProgramMap r;
     GMemContextMap := GMemContextMap r; mem := m; heap := h; arrays := a |}.
Definition set_mem (m : memory) (r : replayer) : replayer :=
  set_memory m (heap r) (arrays r) r.

(** ** Memory *)

(** Stores bytes through a pointer. *)
Definition write (p : Z) (l : bytes) : M replayer unit := fun r =>
  match l with
  | [] => Ok (tt, r)
  | _ => if p =? 0 then UB else Ok (tt, set_mem (store (mem r) p l) r)
  end.
(** [*p = v] for an object of pointer size. *)
Definition write_ptr (p v : Z) : M replayer unit := write p (le_bytes 8 v).

Definition align (n : Z) : Z := 16 * ((n + 15) / 16).

(** [new int{1}], used as a handle; four bytes can always be allocated. *)
Definition new_int : M replayer Z := fun r =>
  Ok (heap r, set_memory (store (mem r) (heap r) (le_bytes 4 1)) (heap r + 16) (arrays r) r).

(** [new char[n]]. *)
Definition new_array `{Process} (n : Z) : M replayer Z := fun r =>
  if can_allocate n then
    Ok (heap r, set_memory (mem r) (heap r + align (n + 1)) ({[heap r]} ∪ arrays r) r)
  else Throw #"std::bad_alloc".

(** [delete[] p]. *)
Definition delete_array (p : Z) : M replayer unit := fun r =>
  if p =? 0 then Ok (tt, r)
  else if bool_decide (p ∈ arrays r) then
    Ok (tt, set_memory (mem r) (heap r) (arrays r ∖ {[p]}) r)
  else UB.

(** [record.small_outputs(0)] and [record.mem_obj_outputs(0)]. *)
Definition first (l : list bytes) : outcome bytes :=
  match l with x :: _ => Ok x | [] => UB end.

(** The bytes of [*reinterpret_cast<const pi_uint32 *>(s.data())]; the string is
    followed by a zero byte. *)
Definition as_u32 (s : bytes) : outcome bytes :=
  if (4 <=? length (s ++ [x00]))%nat then Ok (take 4 (s ++ [x00])) else UB.

Section plugin.
Context `{Thread, Process, Protobuf APICall, PiHeaders}.

Definition ensureTraceOpened : M replayer unit := fun r =>
  if is_open (GTrace r) then Ok (tt, r)
  else Ok (tt, set_GTrace (open_stream (file trace_path)) r).

(** [exit(-1)] when the record is not of the function that was called. *)
Definition dieIfUnexpected (funcId : Z) (expected : PiApiKind.t) : M replayer unit :=
  if funcId =? kind_id expected then mret tt else fun _ => Exit (-1).

(** The first three lines of every function. *)
Definition next_record (expected : PiApiKind.t) : M replayer APICall :=
  _ ← ensureTraceOpened;
  record ← zoom GTrace set_GTrace (fun s => getNextRecord (uninit s 4) s);
  _ ← dieIfUnexpected (function_id record) expected;
  mret record.

(** [static_cast<pi_result>(record.return_value())]: an [int] enumeration. *)
Definition result (record : APICall) : Z := i32 (return_value record).

Definition replayGetInfo (record : APICall) (paramValue retSize : Z) : M replayer unit :=
  output ← lift (first (small_outputs record));
  write (if paramValue =? 0 then retSize else paramValue) output.

(** [*p = reinterpret_cast<T>(new int{1})]. *)
Definition new_handle (p : Z) : M replayer Z := h ← new_int; _ ← write_ptr p h; mret h.

(** [for (size_t i = 0; i < n; i++) p[i] = reinterpret_cast<T>(new int{1})]. *)
Fixpoint new_handles (n : nat) (p : Z) : M replayer unit :=
  match n with
  | O => mret tt
  | S n => _ ← new_handle p; new_handles n (p + 8)
  end.

(** A stream on a file of the buffers directory after the size was read: the
    size, and the stream. *)
Definition open_buffer (name : bytes) : Z * ifstream :=
  let memIS := open_stream (file (buffer_path name)) in
  let '(got, s) := read 8 memIS in
  (le_value (overwrite got (uninit memIS 8)), s).

(** [map[k]]: a missing key is inserted with a null value. *)
Definition at_key (m : gmap Z Z) (k : Z) : Z * gmap Z Z :=
  match m !! k with Some v => (v, m) | None => (0, <[k := 0]> m) end.

(** ** The functions *)

Definition piPlatformsGet (numEntries platforms numPlatforms : Z) : M replayer Z :=
  record ← next_record PiApiKind.piPlatformsGet;
  _ ← (if numPlatforms =? 0 then mret tt
       else v ← lift (s ← first (small_outputs record); as_u32 s); write numPlatforms v);
  _ ← (if (numEntries >? 0) && negb (platforms =? 0) then new_handles (Z.to_nat numEntries) platforms else mret tt);
  mret (result record).

Definition piPlatformGetInfo (_ _ _ param_value param_value_size_ret : Z) : M replayer Z :=
  record ← next_record PiApiKind.piPlatformGetInfo;
  _ ← replayGetInfo record param_value param_value_size_ret;
  mret (result record).

Definition piDevicesGet (_ _ numEntries devs numDevices : Z) : M replayer Z :=
  record ← next_record PiApiKind.piDevicesGet;
  _ ← (if numDevices =? 0 then mret tt
       else v ← lift (s ← first (small_outputs record); as_u32 s); write numDevices v);
  _ ← (if (numEntries >? 0) && negb (devs =? 0) then new_handles (Z.to_nat numEntries) devs else mret tt);
  mret (result record).

Definition piDeviceGetInfo (_ _ _ param_value param_value_size_ret : Z) : M replayer Z :=
  record ← next_record PiApiKind.piDeviceGetInfo;
  _ ← replayGetInfo record param_value param_value_size_ret;
  mret (result record).

Definition piDeviceRetain (_ : Z) : M replayer Z :=
  record ← next_record PiApiKind.piDeviceRetain;
  mret (result record).

Definition piDeviceRelease (_ : Z) : M replayer Z :=
  record ← next_record PiApiKind.piDeviceRelease;
  mret (result record).

Definition piextDeviceSelectBinary (_ _ _ selected_binary_ind : Z) : M replayer Z :=
  record ← next_record PiApiKind.piextDeviceSelectBinary;
  v ← lift (s ← first (small_outputs record); as_u32 s);
  _ ← write selected_binary_ind v;
  mret (result record).

Definition piContextCreate (_ _ _ _ _ ret_context : Z) : M replayer Z :=
  record ← next_record PiApiKind.piContextCreate;
  _ ← new_handle ret_context;
  mret (result record).

Definition piContextGetInfo (_ _ _ param_value param_value_size_ret : Z) : M replayer Z :=
  record ← next_record PiApiKind.piContextGetInfo;
  _ ← replayGetInfo record param_value param_value_size_ret;
  mret (result record).

Definition piContextRelease (_ : Z) : M replayer Z :=
  record ← next_record PiApiKind.piContextRelease;
  mret (result record).

Definition piContextRetain (_ : Z) : M replayer Z :=
  record ← next_record PiApiKind.piContextRetain;
  mret (result record).

Definition piQueueCreate (_ _ _ queue : Z) : M replayer Z :=
  record ← next_record PiApiKind.piQueueCreate;
  _ ← new_handle queue;
  mret (result record).

Definition piQueueGetInfo (_ _ _ param_value param_value_size_ret : Z) : M replayer Z :=
  record ← next_record PiApiKind.piQueueGetInfo;
  _ ← replayGetInfo record param_value param_value_size_ret;
  mret (result record).

Definition piQueueRetain (_ : Z) : M replayer Z :=
  record ← next_record PiApiKind.piQueueRetain;
  mret (result record).

Definition piQueueRelease (_ : Z) : M replayer Z :=
  record ← next_record PiApiKind.piQueueRelease;
  mret (result record).

Definition piQueueFinish (_ : Z) : M replayer Z :=
  record ← next_record PiApiKind.piQueueFinish;
  mret (result record).

Definition piMemBufferCreate (context _ _ _ ret_mem _ : Z) : M replayer Z :=
  record ← next_record PiApiKind.piMemBufferCreate;
  h ← new_handle ret_mem;
  _ ← modify (fun r => set_mem_context (<[h := context]> (GMemContextMap r)) r);
  mret (result record).

Definition piMemRelease (_ : Z) : M replayer Z :=
  record ← next_record PiApiKind.piMemRelease;
  mret (result record).

Definition piMemGetInfo (mem param_name _ param_value param_value_size_ret : Z) : M replayer Z :=
  record ← next_record PiApiKind.piMemGetInfo;
  _ ← replayGetInfo record param_value param_value_size_ret;
  _ ← (if param_name =? CL_MEM_CONTEXT then
         context ← (fun r => let '(v, m) := at_key (GMemContextMap r) mem in
                             Ok (v, set_mem_context m r));
         write_ptr param_value context
       else mret tt);
  mret (result record).

Definition piMemImageGetInfo (_ _ _ param_value param_value_size_ret : Z) : M replayer Z :=
  record ← next_record PiApiKind.piMemImageGetInfo;
  _ ← replayGetInfo record param_value param_value_size_ret;
  mret (result record).

Definition piMemRetain (_ : Z) : M replayer Z :=
  record ← next_record PiApiKind.piMemImageGetInfo;
  mret (result record).

Definition piProgramBuild (_ _ _ _ _ _ : Z) : M replayer Z :=
  record ← next_record PiApiKind.piProgramBuild;
  mret (result record).

Definition piProgramCreateWithBinary (_ _ _ _ _ _ _ _ ret_program : Z) : M replayer Z :=
  record ← next_record PiApiKind.piProgramCreateWithBinary;
  _ ← new_handle ret_program;
  mret (result record).

Definition piProgramCreate (_ _ _ ret_program : Z) : M replayer Z :=
  record ← next_record PiApiKind.piProgramCreate;
  _ ← new_handle ret_program;
  mret (result record).

Definition piProgramRelease (_ : Z) : M replayer Z :=
  record ← next_record PiApiKind.piProgramRelease;
  mret (result record).

Definition piProgramRetain (_ : Z) : M replayer Z :=
  record ← next_record PiApiKind.piProgramRetain;
  mret (result record).

Definition piProgramCompile (_ _ _ _ _ _ _ _ _ : Z) : M replayer Z :=
  record ← next_record PiApiKind.piProgramCompile;
  mret (result record).

Definition piProgramLink (_ _ _ _ _ _ _ _ _ : Z) : M replayer Z :=
  record ← next_record PiApiKind.piProgramLink;
  mret (result record).

Definition piProgramGetInfo (_ _ _ param_value param_value_size_ret : Z) : M replayer Z :=
  record ← next_record PiApiKind.piProgramGetInfo;
  _ ← replayGetInfo record param_value param_value_size_ret;
  mret (result record).

Definition piextProgramSetSpecializationConstant (_ _ _ _ : Z) : M replayer Z :=
  record ← next_record PiApiKind.piextProgramSetSpecializationConstant;
  mret (result record).

Definition piKernelCreate (program _ ret_kernel : Z) : M replayer Z :=
  record ← next_record PiApiKind.piKernelCreate;
  h ← new_handle ret_kernel;
  _ ← modify (fun r => set_kernel_program (<[h := program]> (GKernelProgramMap r)) r);
  mret (result record).

Definition piKernelSetExecInfo (_ _ _ _ : Z) : M replayer Z :=
  record ← next_record PiApiKind.piKernelSetExecInfo;
  mret (result record).

Definition piKernelGetInfo (kernel param_name _ param_value param_value_size_ret : Z) : M
    replayer Z :=
  record ← next_record PiApiKind.piKernelGetInfo;
  _ ← replayGetInfo record param_value param_value_size_ret;
  _ ← (if (param_name =? PI_KERNEL_INFO_PROGRAM) && negb (param_value =? 0) then
         program ← (fun r => let '(v, m) := at_key (GKernelProgramMap r) kernel in
                             Ok (v, set_kernel_program m r));
         write_ptr param_value program
       else mret tt);
  mret (result record).

Definition piKernelGetGroupInfo (_ _ _ _ param_value param_value_size_ret : Z) : M replayer Z :=
  record ← next_record PiApiKind.piKernelGetGroupInfo;
  _ ← replayGetInfo record param_value param_value_size_ret;
  mret (result record).

Definition piextKernelSetArgMemObj (_ _ _ : Z) : M replayer Z :=
  record ← next_record PiApiKind.piextKernelSetArgMemObj;
  mret (result record).

Definition piextKernelSetArgPointer (_ _ _ _ : Z) : M replayer Z :=
  record ← next_record PiApiKind.piextKernelSetArgPointer;
  mret (result record).

Definition piKernelSetArg (_ _ _ _ : Z) : M replayer Z :=
  record ← next_record PiApiKind.piKernelSetArg;
  mret (result record).

Definition piKernelRelease (_ : Z) : M replayer Z :=
  record ← next_record PiApiKind.piKernelRelease;
  mret (result record).

Definition piKernelRetain (_ : Z) : M replayer Z :=
  record ← next_record PiApiKind.piKernelRetain;
  mret (result record).

Definition piEnqueueKernelLaunch (_ _ _ _ _ _ _ _ event : Z) : M replayer Z :=
  record ← next_record PiApiKind.piEnqueueKernelLaunch;
  _ ← new_handle event;
  mret (result record).

Definition piEnqueueMemBufferMap (_ _ _ _ _ _ _ _ event ret_map : Z) : M replayer Z :=
  record ← next_record PiApiKind.piEnqueueMemBufferMap;
  name ← lift (first (mem_obj_outputs record));
  let '(objSize, memIS) := open_buffer name in
  memory ← new_array objSize;
  _ ← write memory (Streams.read objSize memIS).1;
  _ ← write_ptr ret_map memory;
  _ ← new_handle event;
  mret (result record).

Definition piEnqueueMemBufferRead (_ _ _ _ size ptr _ _ event : Z) : M replayer Z :=
  record ← next_record PiApiKind.piEnqueueMemBufferRead;
  name ← lift (first (mem_obj_outputs record));
  let '(_, memIS) := open_buffer name in
  _ ← write ptr (Streams.read size memIS).1;
  _ ← new_handle event;
  mret (result record).

Definition piEnqueueMemUnmap (_ _ mapped_ptr _ _ event : Z) : M replayer Z :=
  record ← next_record PiApiKind.piEnqueueMemUnmap;
  _ ← new_handle event;
  _ ← delete_array mapped_ptr;
  mret (result record).

Definition piEnqueueEventsWait (_ _ _ event : Z) : M replayer Z :=
  record ← next_record PiApiKind.piEnqueueEventsWait;
  _ ← new_handle event;
  mret (result record).

Definition piEnqueueEventsWaitWithBarrier (_ _ _ event : Z) : M replayer Z :=
  record ← next_record PiApiKind.piEnqueueEventsWaitWithBarrier;
  _ ← new_handle event;
  mret (result record).

Definition piEventsWait (_ _ : Z) : M replayer Z :=
  record ← next_record PiApiKind.piEventsWait;
  mret (result record).

Definition piEventRelease (_ : Z) : M replayer Z :=
  record ← next_record PiApiKind.piEventRelease;
  mret (result record).

Definition piextUSMEnqueueMemcpy (_ _ dst_ptr _ size _ _ event : Z) : M replayer Z :=
  record ← next_record PiApiKind.piextUSMEnqueueMemcpy;
  _ ← match mem_obj_outputs record with
      | [] => mret tt
      | name :: _ =>
          let '(_, memIS) := open_buffer name in
          write dst_ptr (Streams.read size memIS).1
      end;
  _ ← new_handle event;
  mret (result record).

Definition piextUSMEnqueueMemset (_ _ _ _ _ _ event : Z) : M replayer Z :=
  record ← next_record PiApiKind.piextUSMEnqueueMemset;
  _ ← new_handle event;
  mret (result record).

Definition piextUSMDeviceAlloc (result_ptr _ _ _ size _ : Z) : M replayer Z :=
  record ← next_record PiApiKind.piextUSMDeviceAlloc;
  p ← new_array size;
  _ ← write_ptr result_ptr p;
  mret (result record).

Definition piextUSMHostAlloc (result_ptr _ _ size _ : Z) : M replayer Z :=
  record ← next_record PiApiKind.piextUSMHostAlloc;
  p ← new_array size;
  _ ← write_ptr result_ptr p;
  mret (result record).

Definition piextUSMFree (_ ptr : Z) : M replayer Z :=
  record ← next_record PiApiKind.piextUSMFree;
  _ ← delete_array ptr;
  mret (result record).

Definition piTearDown (_ : Z) : M replayer Z :=
  mret 0.

(** The function table that [piPluginInit] fills: what a call through it runs. *)
Definition piPluginInit (call : Call.t) : M replayer Z :=
  match call with
  | Call.piPlatformsGet a b c => piPlatformsGet a b c
  | Call.piPlatformGetInfo a b c d e => piPlatformGetInfo a b c d e
  | Call.piDevicesGet a b c d e => piDevicesGet a b c d e
  | Call.piDeviceGetInfo a b c d e => piDeviceGetInfo a b c d e
  | Call.piDeviceRetain a => piDeviceRetain a
  | Call.piDeviceRelease a => piDeviceRelease a
  | Call.piextDeviceSelectBinary a b c d => piextDeviceSelectBinary a b c d
  | Call.piContextCreate a b c d e f => piContextCreate a b c d e f
  | Call.piContextGetInfo a b c d e => piContextGetInfo a b c d e
  | Call.piContextRelease a => piContextRelease a
  | Call.piContextRetain a => piContextRetain a
  | Call.piQueueCreate a b c d => piQueueCreate a b c d
  | Call.piQueueGetInfo a b c d e => piQueueGetInfo a b c d e
  | Call.piQueueRetain a => piQueueRetain a
  | Call.piQueueRelease a => piQueueRelease a
  | Call.piQueueFinish a => piQueueFinish a
  | Call.piMemBufferCreate a b c d e f => piMemBufferCreate a b c d e f
  | Call.piMemRelease a => piMemRelease a
  | Call.piMemGetInfo a b c d e => piMemGetInfo a b c d e
  | Call.piMemImageGetInfo a b c d e => piMemImageGetInfo a b c d e
  | Call.piMemRetain a => piMemRetain a
  | Call.piProgramBuild a b c d e f => piProgramBuild a b c d e f
  | Call.piProgramCreateWithBinary a b c d e f g h i => piProgramCreateWithBinary a b c d e f g h i
  | Call.piProgramCreate a b c d => piProgramCreate a b c d
  | Call.piProgramRelease a => piProgramRelease a
  | Call.piProgramRetain a => piProgramRetain a
  | Call.piProgramCompile a b c d e f g h i => piProgramCompile a b c d e f g h i
  | Call.piProgramLink a b c d e f g h i => piProgramLink a b c d e f g h i
  | Call.piProgramGetInfo a b c d e => piProgramGetInfo a b c d e
  | Call.piextProgramSetSpecializationConstant a b c d => piextProgramSetSpecializationConstant a b c d
  | Call.piKernelCreate a b c => piKernelCreate a b c
  | Call.piKernelSetExecInfo a b c d => piKernelSetExecInfo a b c d
  | Call.piKernelGetInfo a b c d e => piKernelGetInfo a b c d e
  | Call.piKernelGetGroupInfo a b c d e f => piKernelGetGroupInfo a b c d e f
  | Call.piextKernelSetArgMemObj a b c => piextKernelSetArgMemObj a b c
  | Call.piextKernelSetArgPointer a b c d => piextKernelSetArgPointer a b c d
  | Call.piKernelSetArg a b c d => piKernelSetArg a b c d
  | Call.piKernelRelease a => piKernelRelease a
  | Call.piKernelRetain a => piKernelRetain a
  | Call.piEnqueueKernelLaunch a b c d e f g h i => piEnqueueKernelLaunch a b c d e f g h i
  | Call.piEnqueueMemBufferMap a b c d e f g h i j => piEnqueueMemBufferMap a b c d e f g h i j
  | Call.piEnqueueMemBufferRead a b c d e f g h i => piEnqueueMemBufferRead a b c d e f g h i
  | Call.piEnqueueMemUnmap a b c d e f => piEnqueueMemUnmap a b c d e f
  | Call.piEnqueueEventsWait a b c d => piEnqueueEventsWait a b c d
  | Call.piEnqueueEventsWaitWithBarrier a b c d => piEnqueueEventsWaitWithBarrier a b c d
  | Call.piEventsWait a b => piEventsWait a b
  | Call.piEventRelease a => piEventRelease a
  | Call.piextUSMEnqueueMemcpy a b c d e f g h => piextUSMEnqueueMemcpy a b c d e f g h
  | Call.piextUSMEnqueueMemset a b c d e f g => piextUSMEnqueueMemset a b c d e f g
  | Call.piextUSMDeviceAlloc a b c d e f => piextUSMDeviceAlloc a b c d e f
  | Call.piextUSMHostAlloc a b c d e => piextUSMHostAlloc a b c d e
  | Call.piextUSMFree a b => piextUSMFree a b
  | Call.piTearDown a => piTearDown a
  end.
End plugin.
