(* ===== verification/Images.v ===== *)
(** * Images: device binaries and their descriptors

    The messages of tools/schemas/device_binary.proto, [dumpBinaryDescriptor]
    of lib/plugin_record/record_handler.cpp and the reader of [printImageDesc]
    in src/print.cpp. *)

From S2P Require Import Prelude Streams Trace.

(** ** The plugin interface's structures *)

Record offload_entry := { addr : Z; entry_name : bytes; entry_size : Z; entry_flags : Z }.
(** [ValAddr] with [ValSize]: [None] is a null address. *)
Record property := { prop_name : bytes; ValAddr : option bytes; prop_type : Z }.
Record property_set := { set_name : bytes; set_properties : list property }.

(** What the source reads of a [pi_device_binary]; [None] is a null pointer. *)
Record pi_device_binary := {
  Version : Z;
  Kind : Z;
  Format : Z;
  DeviceTargetSpec : option bytes;
  CompileOptions : option bytes;
  LinkOptions : option bytes;
  Manifest : option bytes;
  Binary : bytes;
  Entries : list offload_entry;
  PropertySets : list property_set;
}.

(** ** Messages *)

Record OffloadEntry := { address : Z; name : bytes; size : Z; flags : Z }.
Record Property := { p_name : bytes; p_type : Z; p_data : bytes }.
Record PropertySet := { s_name : bytes; properties : list Property }.
Record DeviceBinary := {
  version : Z;
  kind : Z;
  format : Z;
  device_target_spec : bytes;
  compile_options : bytes;
  link_options : bytes;
  offload_entries : list OffloadEntry;
  property_sets : list PropertySet;
  manifest : bytes;
}.

(** ** Writing *)

Definition dump_property (p : property) : Property :=
  {| p_name := prop_name p; p_type := i32 (prop_type p); p_data := default [] (ValAddr p) |}.

(** The message [dumpBinaryDescriptor] fills; an unset string is empty. *)
Definition dump_of (binary : pi_device_binary) : DeviceBinary :=
  {| version := u32 (Version binary);
     kind := u32 (Kind binary);
     format := u32 (Format binary);
     device_target_spec := default [] (DeviceTargetSpec binary);
     compile_options := default [] (CompileOptions binary);
     link_options := default [] (LinkOptions binary);
     offload_entries := map (fun e =>
       {| address := u64 (addr e); name := entry_name e; size := u64 (entry_size e);
          flags := i32 (entry_flags e) |}) (Entries binary);
     property_sets := map (fun s =>
       {| s_name := set_name s; properties := map dump_property (set_properties s) |})
       (PropertySets binary);
     manifest := default [] (Manifest binary) |}.

Section images.
Context `{Protobuf DeviceBinary}.

(** The contents of the [.desc] file. *)
Definition descriptor (binary : pi_device_binary) : bytes :=
  let out := SerializeToString (dump_of binary) in
  let size := u64 (Z.of_nat (length out)) in
  le_bytes 8 size ++ take (Z.to_nat size) out.

(** ** Reading *)

(** What [printImageDesc] prints from; [uninit] is the uninitialised [size]. *)
Definition read_descriptor (uninit : bytes) (file : option bytes) : outcome DeviceBinary :=
  let '(got, s) := read 8 (open_stream file) in
  let size := le_value (overwrite got uninit) in
  let new_size := u64 (size + 1) in
  if new_size >? 2 ^ 63 - 1 then Throw #"basic_string::_M_replace_aux"
  else
    let rawImg := replicate (Z.to_nat new_size) x00 in
    let '(got, _) := read size s in
    if (length rawImg <? length got)%nat then UB
    else Ok (ParseFromString (overwrite got rawImg)).

(** The descriptor [print] shows for a device binary is the one the
    recorder made of it. *)
Theorem read_descriptor_dump binary tail uninit :
  Z.of_nat (length (SerializeToString (dump_of binary))) < 2 ^ 63 - 1 -> length uninit = 8%nat ->
  read_descriptor uninit (Some (descriptor binary ++ tail)) = Ok (dump_of binary).
Proof.
  intros Hs Hu. unfold descriptor, read_descriptor.
  set (out := SerializeToString (dump_of binary)) in *. cbv zeta.
  rewrite wrap_small by lia. rewrite Nat2Z.id, take_ge, <-app_assoc by lia.
  change (open_stream (Some ?c)) with
    {| rest := c; is_open := true; eofbit := false; failbit := false |}.
  rewrite read_all by by rewrite length_le_bytes.
  rewrite overwrite_full by by rewrite length_le_bytes.
  rewrite le_value_le_bytes, (wrap_small _ (Z.of_nat (length out))) by lia.
  rewrite wrap_small by lia.
  destruct (Z.gtb_spec (Z.of_nat (length out) + 1) (2 ^ 63 - 1)); [lia |].
  rewrite read_all by done. rewrite length_replicate.
  rewrite (proj2 (Nat.ltb_ge _ _)) by lia. unfold overwrite. rewrite drop_replicate.
  replace (Z.to_nat (Z.of_nat (length out) + 1) - length out)%nat with 1%nat by lia.
  subst out. cbn [replicate]. by rewrite parse_serialize.
Qed.
End images.

(** ** A concrete image *)

#[global] Instance OffloadEntry_eq_dec : EqDecision OffloadEntry.
Proof. solve_decision. Defined.
#[global] Instance Property_eq_dec : EqDecision Property.
Proof. solve_decision. Defined.
#[global] Instance PropertySet_eq_dec : EqDecision PropertySet.
Proof. solve_decision. Defined.
#[global] Instance DeviceBinary_eq_dec : EqDecision DeviceBinary.
Proof. solve_decision. Defined.
#[global] Instance OffloadEntry_countable : Countable OffloadEntry.
Proof.
  refine (inj_countable' (fun e => (address e, name e, size e, flags e))
    (fun '(a, n, s, f) => {| address := a; name := n; size := s; flags := f |}) _). by intros [].
Defined.
#[global] Instance Property_countable : Countable Property.
Proof.
  refine (inj_countable' (fun e => (p_name e, p_type e, p_data e))
    (fun '(n, t, d) => {| p_name := n; p_type := t; p_data := d |}) _). by intros [].
Defined.
#[global] Instance PropertySet_countable : Countable PropertySet.
Proof.
  refine (inj_countable' (fun e => (s_name e, properties e))
    (fun '(n, p) => {| s_name := n; properties := p |}) _). by intros [].
Defined.
#[global] Instance DeviceBinary_countable : Countable DeviceBinary.
Proof.
  refine (inj_countable' (fun b => (version b, kind b, format b, device_target_spec b,
      compile_options b, link_options b, offload_entries b, property_sets b, manifest b))
    (fun '(v, k, f, d, c, l, o, p, m) =>
      {| version := v; kind := k; format := f; device_target_spec := d; compile_options := c;
         link_options := l; offload_entries := o; property_sets := p; manifest := m |}) _).
  by intros [].
Defined.

#[global] Instance demo_image_protobuf : Protobuf DeviceBinary := countable_protobuf
  {| version := 0; kind := 0; format := 0; device_target_spec := []; compile_options := [];
     link_options := []; offload_entries := []; property_sets := []; manifest := [] |}.

Definition demo_binary : pi_device_binary :=
  {| Version := 1; Kind := 4; Format := 2; DeviceTargetSpec := Some #"spir64";
     CompileOptions := None; LinkOptions := Some #"-g"; Manifest := None; Binary := #"img";
     Entries := [{| addr := 4096; entry_name := #"kernel"; entry_size := 0; entry_flags := -1 |}];
     PropertySets := [{| set_name := #"SYCL"; set_properties :=
       [{| prop_name := #"p"; ValAddr := Some #"v"; prop_type := 1 |}] |}] |}.

Lemma read_descriptor_dump_witness :
  read_descriptor (replicate 8 xff) (Some (descriptor demo_binary ++ [])) = Ok (dump_of demo_binary).
Proof.
  refine (read_descriptor_dump demo_binary [] (replicate 8 xff) _ eq_refl).
  vm_compute. reflexivity.
Defined.
