(* ===== verification/Writers.v ===== *)
(** * Writers: the binary writers of the record plugin

    lib/plugin_record/write_utils.hpp, which record.cpp and record_handler.cpp
    include: values written one after the other behind a header with the number of
    outputs and the size.  No function calls them since the traces are protobuf
    messages. *)

From S2P Require Import Prelude.

(** A value of a parameter pack: a [const char *], or an object of a trivially
    copyable type with its bytes. *)
Inductive value : Set :=
  | CString (s : bytes)
  | Object (data : bytes).

Definition sizeof (v : value) : Z :=
  match v with CString _ => 8 | Object data => Z.of_nat (length data) end.

(** The stream is the bytes written to it so far. *)
Definition put (l : bytes) : M bytes unit := modify (fun os => os ++ l).
Definition write_size (n : Z) : M bytes unit := put (le_bytes 8 n).

(** [strlen] takes the text up to the NUL: [s] is that text. *)
Definition single_write (data : value) : M bytes unit :=
  match data with
  | CString s => _ ← put s; put [x0a]
  | Object data => put data
  end.

(** [write_helper<Ts...>::write], and [write]: packs are not empty. *)
Fixpoint write_helper (first : value) (rest : list value) : M bytes unit :=
  match rest with
  | [] => single_write first
  | next :: rest => _ ← single_write first; write_helper next rest
  end.
Definition write (first : value) (rest : list value) : M bytes unit := write_helper first rest.

(** [(sizeof(Ts) + ...)] *)
Definition totalSize (first : value) (rest : list value) : Z :=
  u64 (foldr (fun v n => sizeof v + n) 0 (first :: rest)).

Definition writeWithOutput (numOutputs : Z) (first : value) (rest : list value) : M bytes unit :=
  _ ← write_size numOutputs;
  _ ← write_size (totalSize first rest);
  write_helper first rest.
Definition writeSimple (first : value) (rest : list value) : M bytes unit :=
  let numOutputs := 0 in
  _ ← write_size numOutputs;
  _ ← write_size (totalSize first rest);
  write_helper first rest.

(** A pointer argument: its address, and what it points to unless it is null. *)
Record pointer := { address : Z; pointee : option bytes }.

Definition writeWithInfo (obj param : value) (size : Z) (value_ retSize : pointer) : M bytes unit :=
  let total := u64 (sizeof obj + sizeof param + 3 * 8) in
  let numOutputs := 1 in
  _ ← write_size numOutputs;
  _ ← write_size total;
  _ ← write_helper obj [param; Object (le_bytes 8 size); Object (le_bytes 8 (address value_));
                        Object (le_bytes 8 (address retSize))];
  _ ← (match pointee value_ with
       | Some data =>
           _ ← write_size size;
           if size <=? Z.of_nat (length data) then put (take (Z.to_nat size) data) else lift UB
       | None => mret tt
       end);
  match pointee retSize with
  | Some data =>
      let outSize := 8 in
      _ ← write_size outSize;
      if outSize <=? Z.of_nat (length data) then put (take 8 data) else lift UB
  | None => mret tt
  end.

(** * Theorems *)

(** What a value adds to the stream. *)
Definition written (v : value) : bytes :=
  match v with CString s => s ++ [x0a] | Object data => data end.

Lemma single_write_run v os : single_write v os = Ok (tt, os ++ written v).
Proof. destruct v; [| done]. unfold single_write, put. cbn. by rewrite app_assoc. Qed.
Lemma write_helper_run v l os : write_helper v l os = Ok (tt, os ++ concat (map written (v :: l))).
Proof.
  revert v os. induction l as [|w l IH]; intros v os; cbn [write_helper].
  - rewrite single_write_run. cbn. by rewrite app_nil_r.
  - rewrite (M_run_bind _ _ _ _ _ (single_write_run v os)), IH. cbn [map concat]. by rewrite <-app_assoc.
Qed.

Lemma put_bind {A} l (f : unit -> M bytes A) os : (put l ≫= f) os = f tt (os ++ l).
Proof. done. Qed.
Lemma write_size_bind {A} n (f : unit -> M bytes A) os :
  (write_size n ≫= f) os = f tt (os ++ le_bytes 8 n).
Proof. done. Qed.

Lemma writeWithOutput_run n v l os :
  writeWithOutput n v l os =
  Ok (tt, os ++ le_bytes 8 n ++ le_bytes 8 (totalSize v l) ++ concat (map written (v :: l))).
Proof.
  unfold writeWithOutput. rewrite !write_size_bind, write_helper_run. by rewrite <-!app_assoc.
Qed.

(** How far the bytes of the values are from the size in the header. *)
Definition excess (v : value) : Z :=
  match v with CString s => Z.of_nat (length s) - 7 | Object _ => 0 end.

Lemma written_length v : Z.of_nat (length (written v)) = sizeof v + excess v.
Proof. destruct v; cbn; [rewrite length_app; cbn|]; lia. Qed.

Lemma written_lengths l :
  Z.of_nat (length (concat (map written l))) =
  foldr (fun v n => sizeof v + n) 0 l + foldr (fun v n => excess v + n) 0 l.
Proof.
  induction l as [|v l IH]; [done |]. cbn [map concat foldr]. rewrite length_app, Nat2Z.inj_add, IH.
  rewrite written_length. lia.
Qed.

(** [writeSimple] is [writeWithOutput] without outputs, and the size of its header
    is the number of bytes behind it exactly when the C strings have 7 characters
    on average: a pointer's size is counted where the text and a newline are
    written.  Values without C strings always have the right size. *)
Theorem writeSimple_size v l os :
  0 <= foldr (fun v n => sizeof v + n) 0 (v :: l) < 2 ^ 64 ->
  writeSimple v l os = writeWithOutput 0 v l os /\
  exists body, writeSimple v l os = Ok (tt, os ++ le_bytes 8 0 ++ le_bytes 8 (totalSize v l) ++ body) /\
    (Z.of_nat (length body) = totalSize v l <-> foldr (fun v n => excess v + n) 0 (v :: l) = 0).
Proof.
  intros Hsize. split; [done |]. exists (concat (map written (v :: l))).
  split; [exact (writeWithOutput_run 0 v l os) |].
  rewrite written_lengths. unfold totalSize. unfold u64, wrap. rewrite Z.mod_small by exact Hsize. lia.
Qed.

(** A query is written as its arguments, the bytes of the value and the 8 bytes of
    the size, behind a header with the size of the arguments. *)
Theorem writeWithInfo_layout obj param size value_ retSize data ret os :
  pointee value_ = Some data -> pointee retSize = Some ret -> 0 <= size -> length ret = 8%nat ->
  (forall v, v = obj \/ v = param -> excess v = 0) -> sizeof obj + sizeof param + 24 < 2 ^ 64 ->
  exists args, Z.of_nat (length args) = sizeof obj + sizeof param + 24 /\
    writeWithInfo obj param size value_ retSize os =
    if size <=? Z.of_nat (length data) then
      Ok (tt, os ++ le_bytes 8 1 ++ le_bytes 8 (Z.of_nat (length args)) ++ args ++
              (le_bytes 8 size ++ take (Z.to_nat size) data) ++ (le_bytes 8 8 ++ ret))
    else UB.
Proof.
  intros Hv Hr Hs Hret Hex Hsize. assert (forall v, 0 <= sizeof v) as Hpos by (intros []; cbn; lia).
  exists (concat (map written [obj; param; Object (le_bytes 8 size); Object (le_bytes 8 (address value_));
                               Object (le_bytes 8 (address retSize))])).
  assert (forall v, v = obj \/ v = param -> Z.of_nat (length (written v)) = sizeof v) as Hw.
  { intros v Hin. rewrite written_length, Hex by done. lia. }
  rewrite written_lengths. cbn [foldr excess sizeof]. rewrite !length_le_bytes, !Hex by auto.
  split; [lia |]. unfold writeWithInfo. rewrite !write_size_bind, Hv, Hr.
  rewrite (M_run_bind _ _ _ _ _ (write_helper_run obj _ _)).
  assert (u64 (sizeof obj + sizeof param + 3 * 8) = sizeof obj + sizeof param + 24) as ->.
  { unfold u64, wrap. rewrite Z.mod_small; [lia |]. pose proof (Hpos obj). pose proof (Hpos param). lia. }
  destruct (Z.leb_spec size (Z.of_nat (length data))) as [Hle |]; [| by unfold mbind, M_mbind].
  assert (forall n l (d : bytes) os, (n <=? Z.of_nat (length d)) = true ->
    (_ ← write_size n; if n <=? Z.of_nat (length d) then put (take l d) else lift UB) os =
    Ok (tt, os ++ le_bytes 8 n ++ take l d)) as Hout.
  { intros n l d os' Hn. rewrite write_size_bind, Hn. unfold put, modify. by rewrite <-app_assoc. }
  pose proof (Hout size (Z.to_nat size) data) as Hv'. apply Z.leb_le in Hle as Hle'. rewrite Hle' in Hv'.
  rewrite (M_run_bind _ _ _ _ _ (Hv' _ eq_refl)), (Hout 8) by by rewrite Hret.
  rewrite (take_ge ret) by lia. do 2 f_equal. rewrite <-!app_assoc. do 3 f_equal. f_equal. lia.
Qed.
