(* ===== verification/Recorder.v ===== *)
(** * Recorder: the record plugin

    lib/plugin_record/record_handler.{hpp,cpp} and record.cpp: the handler of a
    thread, the functions that turn a finished call into a message, and the
    trace callback. *)

From S2P Require Import Prelude Streams Trace PiCall Images.

(** ** State *)

(** [mOS] is the path of the file the stream appends to. *)
Record RecordHandler := {
  mOS : bytes;
  mStartTime : Z;
  mLastEventId : Z;
  mLastFunctionId : Z;
  mTimestampBegin : Z;
  mTimestampEnd : Z;
  mSkipMemObjects : bool;
}.

(** The globals, the files by path, and the memory of the traced process.
    [GBinariesMutex] is whether the mutex is held. *)
Record recording := {
  GBinariesCollected : bool;
  GBinariesMutex : bool;
  GRecordHandler : option RecordHandler;
  GStartTime : Z;
  disk : gmap bytes bytes;
  app : memory;
}.

Definition set_collected (b : bool) (s : recording) : recording :=
  {| GBinariesCollected := b; GBinariesMutex := GBinariesMutex s;
     GRecordHandler := GRecordHandler s; GStartTime := GStartTime s;
     disk := disk s; app := app s |}.
Definition set_mutex (b : bool) (s : recording) : recording :=
  {| GBinariesCollected := GBinariesCollected s; GBinariesMutex := b;
     GRecordHandler := GRecordHandler s; GStartTime := GStartTime s; disk := disk s; app := app s |}.
Definition set_handler (h : RecordHandler) (s : recording) : recording :=
  {| GBinariesCollected := GBinariesCollected s; GBinariesMutex := GBinariesMutex s;
     GRecordHandler := Some h; GStartTime := GStartTime s; disk := disk s; app := app s |}.
Definition set_start (t : Z) (s : recording) : recording :=
  {| GBinariesCollected := GBinariesCollected s; GBinariesMutex := GBinariesMutex s;
     GRecordHandler := GRecordHandler s;
     GStartTime := t; disk := disk s; app := app s |}.
Definition set_disk (d : gmap bytes bytes) (s : recording) : recording :=
  {| GBinariesCollected := GBinariesCollected s; GBinariesMutex := GBinariesMutex s;
     GRecordHandler := GRecordHandler s;
     GStartTime := GStartTime s; disk := d; app := app s |}.
Definition set_app (m : memory) (s : recording) : recording :=
  {| GBinariesCollected := GBinariesCollected s; GBinariesMutex := GBinariesMutex s;
     GRecordHandler := GRecordHandler s;
     GStartTime := GStartTime s; disk := disk s; app := m |}.

(** The plugin that is traced, as far as the handlers call it: [piEventsWait]
    completes pending transfers, the two queries say what they store in the
    locals of the handler.  The structures behind a [pi_device_binary *] and
    the text behind a [const char *] are read by the class too. *)
Class Plugin := {
  piEventsWait : Z -> Z -> memory -> memory;
  piQueueGetInfo_context : Z -> Z;
  piextUSMGetMemAllocInfo_type : Z -> Z -> Z;
  binary_at : memory -> Z -> Z -> option pi_device_binary;
  text_at : memory -> Z -> bytes;
}.

(** ** Memory and files *)

(** The [n] bytes at [p]. *)
Definition load_bytes (p n : Z) : M recording bytes := fun s =>
  if n =? 0 then Ok ([], s)
  else if p =? 0 then UB
  else match load (app s) p n with Some l => Ok (l, s) | None => UB end.

(** An [ofstream] on a new file; an [ofstream] that appends. *)
Definition write_file (path content : bytes) : M recording unit :=
  modify (fun s => set_disk (<[path := content]> (disk s)) s).
Definition append_file (path content : bytes) : M recording unit :=
  modify (fun s => set_disk (<[path := default [] (disk s !! path) ++ content]> (disk s)) s).

(** ** Messages *)

Definition argument_bytes `{PiHeaders} (a : argument) : Z :=
  match a with
  | Pointer _ | CString _ | Size _ => 8
  | UInt32 _ | Int32 _ => 4
  | Ext t _ => ext_bytes t
  end.
Definition argument_value (a : argument) : Z :=
  match a with
  | Pointer v | CString v | UInt32 v | Int32 v | Size v | Ext _ v => v
  end.

(** The compile-time tests of [collectArgs] on its template argument [T], which
    is a reference type when the argument is an lvalue: a reference is neither
    [const char *] nor unsigned. *)
Definition is_cstring (lvalue : bool) (a : argument) : bool :=
  negb lvalue && match a with CString _ => true | _ => false end.
Definition is_pointer (a : argument) : bool :=
  match a with Pointer _ | CString _ => true | _ => false end.
Definition is_unsigned `{PiHeaders} (lvalue : bool) (a : argument) : bool :=
  negb lvalue &&
  match a with UInt32 _ | Size _ => true | Ext t _ => ext_is_unsigned t | _ => false end.

Definition sized (n : Z) (t4 t8 : ArgData.ArgType) : ArgData.ArgType :=
  if n =? 4 then t4 else if n =? 8 then t8 else ArgData.type ArgData.default.

Definition collectArg `{PiHeaders, Plugin} (m : memory) (lvalue : bool) (a : argument) : ArgData.t :=
  if is_cstring lvalue a then
    {| ArgData.type := ArgData.STRING; ArgData.data := ArgData.str_val (text_at m (argument_value a)) |}
  else if is_pointer a then
    {| ArgData.type := ArgData.POINTER; ArgData.data := ArgData.int_val (u64 (argument_value a)) |}
  else if is_unsigned lvalue a then
    {| ArgData.type := sized (argument_bytes a) ArgData.UINT32 ArgData.UINT64;
       ArgData.data := ArgData.int_val (u64 (argument_value a)) |}
  else
    {| ArgData.type := sized (argument_bytes a) ArgData.INT32 ArgData.INT64;
       ArgData.data := ArgData.int_val (u64 (i64 (argument_value a))) |}.

Section recorder.
Context `{Thread, Plugin, PiHeaders, Protobuf APICall, Protobuf DeviceBinary}.

(** Every call passes named parameters, that is lvalues. *)
Definition collectArgs (m : memory) (args : list argument) : list ArgData.t :=
  map (collectArg m true) args.

(** [GRecordHandler->...]: the handler exists once a call has begun. *)
Definition with_handler {A} (f : RecordHandler -> M recording A) : M recording A := fun s =>
  match GRecordHandler s with Some h => f h s | None => UB end.

Definition value (res : option Z) : outcome Z :=
  match res with Some r => Ok r | None => Throw #"bad optional access" end.

(** The first lines of every handler. *)
Definition new_record (res : option Z) (args : list argument) : M recording APICall :=
  with_handler (fun h =>
    r ← lift (value res);
    s ← get;
    mret {| function_id := mLastFunctionId h; time_start := mTimestampBegin h;
            time_end := mTimestampEnd h; return_value := u32 r;
            args := collectArgs (app s) args; small_inputs := []; small_outputs := [];
            mem_obj_inputs := []; mem_obj_outputs := [] |}).

Definition add_small_outputs (call : APICall) (out : bytes) : APICall :=
  {| function_id := function_id call; time_start := time_start call; time_end := time_end call;
     return_value := return_value call; args := args call; small_inputs := small_inputs call;
     small_outputs := small_outputs call ++ [out]; mem_obj_inputs := mem_obj_inputs call;
     mem_obj_outputs := mem_obj_outputs call |}.
Definition add_mem_obj_outputs (call : APICall) (out : bytes) : APICall :=
  {| function_id := function_id call; time_start := time_start call; time_end := time_end call;
     return_value := return_value call; args := args call; small_inputs := small_inputs call;
     small_outputs := small_outputs call; mem_obj_inputs := mem_obj_inputs call;
     mem_obj_outputs := mem_obj_outputs call ++ [out] |}.

(** [serialize(call, os)] *)
Definition serialize_to (call : APICall) : M recording unit :=
  with_handler (fun h => append_file (mOS h) (serialize call)).

(** [if (p != nullptr) call.add_small_outputs(p, n);] *)
Definition add_output_at (p n : Z) (call : APICall) : M recording APICall :=
  if p =? 0 then mret call else out ← load_bytes p n; mret (add_small_outputs call out).

(** ** Handlers *)

Definition basicHandler (res : option Z) (args : list argument) : M recording unit :=
  call ← new_record res args; serialize_to call.

Definition handlePlatformsGet (res : option Z) (numEntries platforms numPlatforms : Z)
    : M recording unit :=
  call ← new_record res [UInt32 numEntries; Pointer platforms; Pointer numPlatforms];
  call ← add_output_at numPlatforms 4 call;
  serialize_to call.

Definition handleDevicesGet (res : option Z) (platform type numEntries devs numDevices : Z)
    : M recording unit :=
  call ← new_record res [Pointer platform; Ext pi_device_type type; UInt32 numEntries;
                         Pointer devs; Pointer numDevices];
  call ← add_output_at numDevices 4 call;
  serialize_to call.

Definition handleGetInfo (res : option Z) (obj : argument) (param_name : argument)
    (Size_ Value RetSize : Z) : M recording unit :=
  call ← new_record res [obj; param_name; Size Size_; Pointer Value; Pointer RetSize];
  call ← add_output_at Value Size_ call;
  call ← add_output_at RetSize 8 call;
  serialize_to call.

Definition handleKernelGetGroupInfo (res : option Z)
    (kernel device param_name Size_ Value RetSize : Z) : M recording unit :=
  call ← new_record res [Pointer kernel; Pointer device; Ext pi_kernel_group_info param_name;
                         Size Size_; Pointer Value; Pointer RetSize];
  call ← add_output_at Value Size_ call;
  call ← add_output_at RetSize 8 call;
  serialize_to call.

(** The block under [if (writeMemObj)]: names the file, waits for the event,
    writes the size and the bytes found then at [data]. *)
Definition save_mem_obj (event size : Z) (data : M recording Z) (call : APICall)
    : M recording APICall :=
  with_handler (fun h =>
    let filename := mem_file_name (mLastEventId h) in
    _ ← modify (fun s => set_app (piEventsWait 1 event (app s)) s);
    p ← data;
    content ← load_bytes p size;
    _ ← write_file (buffer_path filename) (le_bytes 8 size ++ content);
    mret (add_mem_obj_outputs call filename)).

(** [*ret_map] *)
Definition load_pointer (p : Z) : M recording Z := l ← load_bytes p 8; mret (le_value l).

Definition handleEnqueueMemBufferMap (writeMemObj : bool) (res : option Z)
    (command_queue buffer blocking_map map_flags offset size num_events_in_wait_list
     event_wait_list event ret_map : Z) : M recording unit :=
  call ← new_record res
    [Pointer command_queue; Pointer buffer; Ext pi_bool blocking_map; Ext pi_map_flags map_flags;
     Size offset; Size size; UInt32 num_events_in_wait_list; Pointer event_wait_list;
     Pointer event; Pointer ret_map];
  call ← (if writeMemObj then save_mem_obj event size (load_pointer ret_map) call else mret call);
  serialize_to call.

Definition handleEnqueueMemBufferRead (writeMemObj : bool) (res : option Z)
    (queue buffer blocking_read offset size ptr num_events_in_wait_list event_wait_list
     event : Z) : M recording unit :=
  call ← new_record res
    [Pointer queue; Pointer buffer; Ext pi_bool blocking_read; Size offset; Size size;
     Pointer ptr; UInt32 num_events_in_wait_list; Pointer event_wait_list; Pointer event];
  call ← (if writeMemObj then save_mem_obj event size (mret ptr) call else mret call);
  serialize_to call.

Definition handleUSMEnqueueMemcpy (writeMemObj : bool) (res : option Z)
    (queue blocking dst_ptr src_ptr size num_events_in_waitlist events_waitlist event : Z)
    : M recording unit :=
  call ← new_record res
    [Pointer queue; Ext pi_bool blocking; Pointer dst_ptr; Pointer src_ptr; Size size;
     UInt32 num_events_in_waitlist; Pointer events_waitlist; Pointer event];
  let context := piQueueGetInfo_context queue in
  let allocType := piextUSMGetMemAllocInfo_type context dst_ptr in
  let shouldSaveMem :=
    ((allocType =? PI_MEM_TYPE_UNKNOWN) || (allocType =? PI_MEM_TYPE_HOST)) && writeMemObj in
  call ← (if shouldSaveMem then save_mem_obj event size (mret dst_ptr) call else mret call);
  serialize_to call.

(** The two files written for binary [i]. *)
Definition extension (format : Z) : bytes :=
  if format =? PI_DEVICE_BINARY_TYPE_SPIRV then #".spv"
  else if format =? PI_DEVICE_BINARY_TYPE_NATIVE then #".bin"
  else if format =? PI_DEVICE_BINARY_TYPE_LLVMIR_BITCODE then #".bc"
  else if format =? PI_DEVICE_BINARY_TYPE_NONE then #".none"
  else [].

Definition collect_binary (binaries i : Z) : M recording unit := fun s =>
  match binary_at (app s) binaries i with
  | None => UB
  | Some binary =>
      match DeviceTargetSpec binary with
      | None => UB (* a std::string of the null pointer *)
      | Some target =>
          (_ ← write_file (path_join traceDir (to_string i ++ #"_" ++ target ++
                 extension (Format binary))) (Binary binary);
           write_file (path_join traceDir (to_string i ++ #".desc")) (descriptor binary)) s
      end
  end.

Fixpoint collect_binaries (binaries : Z) (i : Z) (n : nat) : M recording unit :=
  match n with
  | O => mret tt
  | S n => _ ← collect_binary binaries i; collect_binaries binaries (i + 1) n
  end.

(** The constructor and the destructor of [std::lock_guard lock{GBinariesMutex}]:
    the first waits while the mutex is held. *)
Definition lock : M recording unit := fun s =>
  if GBinariesMutex s then Blocked else Ok (tt, set_mutex true s).
Definition unlock : M recording unit := modify (set_mutex false).

(** The end of [handleSelectBinary]: its record.  [sizeof(selectedBinary)] is the
    size of the pointer. *)
Definition record_selection (res : option Z) (device binaries numBinaries selectedBinary : Z)
    : M recording unit :=
  call ← new_record res [Pointer device; Pointer binaries; UInt32 numBinaries;
                         Pointer selectedBinary];
  out ← load_bytes selectedBinary 8;
  serialize_to (add_small_outputs call out).

Definition handleSelectBinary (res : option Z) (device binaries numBinaries selectedBinary : Z)
    : M recording unit :=
  s ← get;
  if GBinariesCollected s then record_selection res device binaries numBinaries selectedBinary
  else
    _ ← lock;
    s ← get;
    if GBinariesCollected s then unlock (* return *)
    else
      _ ← modify (set_collected true);
      _ ← collect_binaries binaries 0 (Z.to_nat numBinaries);
      _ ← unlock;
      record_selection res device binaries numBinaries selectedBinary.

(** [handleSelectBinary] statement by statement, for threads that are in it at
    the same time: where a thread is, and what it does next; [None] when it
    returns. *)
Inductive select_pc : Set :=
  | Check                (* if (!GBinariesCollected) *)
  | Lock                 (* std::lock_guard lock{GBinariesMutex} *)
  | Recheck              (* if (GBinariesCollected) return *)
  | SetFlag              (* GBinariesCollected = true *)
  | Collect (i : Z)      (* the loop, and the end of the block after it *)
  | Fill                 (* the record *).

Definition select_step (res : option Z) (device binaries numBinaries selectedBinary : Z)
    (p : select_pc) : M recording (option select_pc) :=
  match p with
  | Check => s ← get; mret (Some (if GBinariesCollected s then Fill else Lock))
  | Lock => _ ← lock; mret (Some Recheck)
  | Recheck =>
      s ← get;
      if GBinariesCollected s then _ ← unlock; mret None else mret (Some SetFlag)
  | SetFlag => _ ← modify (set_collected true); mret (Some (Collect 0))
  | Collect i =>
      if i <? numBinaries then _ ← collect_binary binaries i; mret (Some (Collect (i + 1)))
      else _ ← unlock; mret (Some Fill)
  | Fill => _ ← record_selection res device binaries numBinaries selectedBinary; mret None
  end.

(** The handlers the constructor of [RecordHandler] installs. *)
Definition mArgHandler (h : RecordHandler) (res : option Z) (call : Call.t) : M recording unit :=
  match call with
  | Call.piextDeviceSelectBinary a b c d => handleSelectBinary res a b c d
  | Call.piPlatformsGet a b c => handlePlatformsGet res a b c
  | Call.piDevicesGet a b c d e => handleDevicesGet res a b c d e
  | Call.piEnqueueMemBufferMap a b c d e f g h' i j =>
      handleEnqueueMemBufferMap (mSkipMemObjects h) res a b c d e f g h' i j
  | Call.piEnqueueMemBufferRead a b c d e f g h' i =>
      handleEnqueueMemBufferRead (mSkipMemObjects h) res a b c d e f g h' i
  | Call.piextUSMEnqueueMemcpy a b c d e f g h' =>
      handleUSMEnqueueMemcpy (mSkipMemObjects h) res a b c d e f g h'
  | Call.piPlatformGetInfo a b c d e =>
      handleGetInfo res (Pointer a) (Ext pi_platform_info b) c d e
  | Call.piDeviceGetInfo a b c d e => handleGetInfo res (Pointer a) (Ext pi_device_info b) c d e
  | Call.piContextGetInfo a b c d e => handleGetInfo res (Pointer a) (Ext pi_context_info b) c d e
  | Call.piKernelGetInfo a b c d e => handleGetInfo res (Pointer a) (Ext pi_kernel_info b) c d e
  | Call.piKernelGetGroupInfo a b c d e f => handleKernelGetGroupInfo res a b c d e f
  | _ => basicHandler res (Call.arguments call)
  end.

(** ** [RecordHandler] *)

(** [flush] is not modelled: writes reach the file at once. *)
Definition set_last (eventId funcId : Z) : M recording unit :=
  with_handler (fun h => modify (set_handler
    {| mOS := mOS h; mStartTime := mStartTime h; mLastEventId := eventId;
       mLastFunctionId := funcId; mTimestampBegin := mTimestampBegin h;
       mTimestampEnd := mTimestampEnd h; mSkipMemObjects := mSkipMemObjects h |})).
Definition handle (eventId funcId : Z) (result : option Z) (call : Call.t) : M recording unit :=
  _ ← set_last eventId funcId;
  with_handler (fun h => mArgHandler h result call).

(** Microseconds since the start, from a clock in nanoseconds. *)
Definition elapsed (h : RecordHandler) (now : Z) : Z := u64 (Z.quot (now - mStartTime h) 1000).

Definition timestamp_begin (now : Z) : M recording unit :=
  with_handler (fun h => modify (set_handler
    {| mOS := mOS h; mStartTime := mStartTime h; mLastEventId := mLastEventId h;
       mLastFunctionId := mLastFunctionId h; mTimestampBegin := elapsed h now;
       mTimestampEnd := mTimestampEnd h; mSkipMemObjects := mSkipMemObjects h |})).
Definition timestamp_end (now : Z) : M recording unit :=
  with_handler (fun h => modify (set_handler
    {| mOS := mOS h; mStartTime := mStartTime h; mLastEventId := mLastEventId h;
       mLastFunctionId := mLastFunctionId h; mTimestampBegin := mTimestampBegin h;
       mTimestampEnd := elapsed h now; mSkipMemObjects := mSkipMemObjects h |})).

(** The members without initialiser hold 0 here; they are set before use. *)
Definition new_handler (os : bytes) (timestamp : Z) (skipMemObjects : bool) : RecordHandler :=
  {| mOS := os; mStartTime := timestamp; mLastEventId := 0; mLastFunctionId := 0;
     mTimestampBegin := 0; mTimestampEnd := 0; mSkipMemObjects := skipMemObjects |}.

(** ** The trace callback *)

(** What the tracing framework reports of a thread. *)
Inductive trace_point : Set :=
  | function_with_args_begin
  | function_with_args_end (instance : Z) (ret_data : Z) (call : Call.t)
  | other_point.

(** [skip_env] is whether DPCPP_TRACE_SKIP_MEM_OBJECTS is set. *)
Definition tpCallback (skip_env : bool) (now : Z) (point : trace_point) : M recording unit :=
  match point with
  | function_with_args_begin =>
      s ← get;
      _ ← match GRecordHandler s with
          | None =>
              _ ← append_file trace_path [];
              modify (set_handler (new_handler trace_path (GStartTime s) (negb skip_env)))
          | Some _ => mret tt
          end;
      timestamp_begin now
  | function_with_args_end instance ret_data call =>
      s ← get;
      match GRecordHandler s with
      | None => mret tt
      | Some _ =>
          _ ← timestamp_end now;
          handle instance (kind_id (Call.kind call)) (Some ret_data) call
      end
  | other_point => mret tt
  end.

Definition kPIDebugStreamName : bytes := #"sycl.pi.debug".

(** Registration itself is the framework's. *)
Definition xptiTraceInit (data_path_set : bool) (stream_name : bytes) (now : Z)
    : M recording unit :=
  if data_path_set then
    if bool_decide (stream_name = kPIDebugStreamName) then modify (set_start now) else mret tt
  else fun _ => Terminate.
End recorder.
