(* ===== verification/Sample.v ===== *)
(** * Sample: a concrete plugin, program and recording

    Instances of the classes the recorder and the replayer are written against,
    for the concrete inputs at which their theorems are exercised.  Nothing here
    models code of the repository. *)

From S2P Require Import Prelude Streams Trace PiCall Images Recorder Replayer.

#[global] Instance sample_thread : Thread := {| traceDir := #"/tmp/trace"; threadName := #"main" |}.

(** Function ids in the order of the table. *)
Definition sample_kind_id (k : PiApiKind.t) : Z :=
  match k with
  | PiApiKind.piPlatformsGet => 1
  | PiApiKind.piPlatformGetInfo => 2
  | PiApiKind.piDevicesGet => 3
  | PiApiKind.piDeviceGetInfo => 4
  | PiApiKind.piDeviceRetain => 5
  | PiApiKind.piDeviceRelease => 6
  | PiApiKind.piextDeviceSelectBinary => 7
  | PiApiKind.piContextCreate => 8
  | PiApiKind.piContextGetInfo => 9
  | PiApiKind.piContextRelease => 10
  | PiApiKind.piContextRetain => 11
  | PiApiKind.piQueueCreate => 12
  | PiApiKind.piQueueGetInfo => 13
  | PiApiKind.piQueueRetain => 14
  | PiApiKind.piQueueRelease => 15
  | PiApiKind.piQueueFinish => 16
  | PiApiKind.piMemBufferCreate => 17
  | PiApiKind.piMemRelease => 18
  | PiApiKind.piMemGetInfo => 19
  | PiApiKind.piMemImageGetInfo => 20
  | PiApiKind.piMemRetain => 21
  | PiApiKind.piProgramBuild => 22
  | PiApiKind.piProgramCreateWithBinary => 23
  | PiApiKind.piProgramCreate => 24
  | PiApiKind.piProgramRelease => 25
  | PiApiKind.piProgramRetain => 26
  | PiApiKind.piProgramCompile => 27
  | PiApiKind.piProgramLink => 28
  | PiApiKind.piProgramGetInfo => 29
  | PiApiKind.piextProgramSetSpecializationConstant => 30
  | PiApiKind.piKernelCreate => 31
  | PiApiKind.piKernelSetExecInfo => 32
  | PiApiKind.piKernelGetInfo => 33
  | PiApiKind.piKernelGetGroupInfo => 34
  | PiApiKind.piextKernelSetArgMemObj => 35
  | PiApiKind.piextKernelSetArgPointer => 36
  | PiApiKind.piKernelSetArg => 37
  | PiApiKind.piKernelRelease => 38
  | PiApiKind.piKernelRetain => 39
  | PiApiKind.piEnqueueKernelLaunch => 40
  | PiApiKind.piEnqueueMemBufferMap => 41
  | PiApiKind.piEnqueueMemBufferRead => 42
  | PiApiKind.piEnqueueMemUnmap => 43
  | PiApiKind.piEnqueueEventsWait => 44
  | PiApiKind.piEnqueueEventsWaitWithBarrier => 45
  | PiApiKind.piEventsWait => 46
  | PiApiKind.piEventRelease => 47
  | PiApiKind.piextUSMEnqueueMemcpy => 48
  | PiApiKind.piextUSMEnqueueMemset => 49
  | PiApiKind.piextUSMDeviceAlloc => 50
  | PiApiKind.piextUSMHostAlloc => 51
  | PiApiKind.piextUSMFree => 52
  | PiApiKind.piTearDown => 53
  end.

Lemma sample_kind_id_inj : Inj (=) (=) sample_kind_id.
Proof. intros [] []; vm_compute; congruence. Qed.
Lemma sample_kind_id_u32 k : 0 <= sample_kind_id k < 2 ^ 32.
Proof. destruct k; vm_compute; split; congruence. Qed.

#[global] Instance sample_headers : PiHeaders := {|
  kind_id := sample_kind_id;
  kind_id_inj := sample_kind_id_inj;
  kind_id_u32 := sample_kind_id_u32;
  ext_bytes t := match t with pi_queue_properties | pi_mem_flags | pi_map_flags | pi_device_type => 8
                 | _ => 4 end;
  ext_is_unsigned _ := true;
  CL_MEM_CONTEXT := 4358;
  PI_KERNEL_INFO_PROGRAM := 4500;
  PI_QUEUE_INFO_CONTEXT := 4240;
  PI_MEM_ALLOC_TYPE := 16784;
  PI_MEM_TYPE_UNKNOWN := 16790;
  PI_MEM_TYPE_HOST := 16791;
  PI_DEVICE_BINARY_TYPE_SPIRV := 2;
  PI_DEVICE_BINARY_TYPE_NATIVE := 1;
  PI_DEVICE_BINARY_TYPE_LLVMIR_BITCODE := 3;
  PI_DEVICE_BINARY_TYPE_NONE := 0;
|}.

(** Transfers are finished when they return; one binary at every address. *)
#[global] Instance sample_plugin : Plugin := {|
  Recorder.piEventsWait _ _ m := m;
  piQueueGetInfo_context q := q;
  piextUSMGetMemAllocInfo_type _ _ := 16790;
  binary_at _ _ i := if i =? 0 then Some demo_binary else None;
  text_at _ _ := #"text";
|}.

Lemma sample_uninit_length (s : ifstream) n : length (replicate n xaa) = n.
Proof. apply length_replicate. Qed.

(** The replaying process, with the files of a recording. *)
Definition sample_process (files : gmap bytes bytes) : Process :=
  {| file p := files !! p; can_allocate n := n <? 65536; uninit _ n := replicate n xaa;
     uninit_length := sample_uninit_length |}.

(** The recording program's memory: a pointer at 256 to a region at 512. *)
Definition sample_memory : memory :=
  store (store (store ∅ 256 (le_bytes 8 512)) 512 #"mapped!!") 768 #"device name".

Definition sample_handler (skip : bool) : RecordHandler := new_handler trace_path 1000 (negb skip).
Definition sample_recording : recording :=
  {| GBinariesCollected := true; GBinariesMutex := false; GRecordHandler := None; GStartTime := 1000; disk := ∅;
     app := sample_memory |}.
Definition sample_started (skip : bool) : recording := set_handler (sample_handler skip) sample_recording.

Definition sample_replayer : replayer :=
  {| GTrace := no_stream; GKernelProgramMap := ∅; GMemContextMap := ∅; mem := ∅; heap := 4096;
     arrays := ∅ |}.
