(* ===== verification/RecordProps.v ===== *)
(** * RecordProps: what the recorder writes

    Every finished call appends one record to the trace of its thread, with the
    call's function, times, result and arguments, and with the outputs its
    handler saves. *)

From S2P Require Import Prelude Streams Trace PiCall Images Recorder Sample.

(** ** Paths never meet *)

Lemma path_join_suffix dir name : exists pre, path_join dir name = pre ++ name.
Proof.
  unfold path_join. case_bool_decide; [by exists [] |]. case_bool_decide; [by eexists |].
  exists (dir ++ #"/"). by rewrite <-app_assoc.
Qed.

Lemma last_byte_ne (p q : bytes) a b pre pre' : a <> b -> p = pre ++ [a] -> q = pre' ++ [b] -> p <> q.
Proof. intros Hab -> -> E. by apply app_inj_tail in E as [_ ?]. Qed.

Section paths.
Context `{Thread}.
Lemma trace_path_last : exists pre, trace_path = pre ++ ["e"%byte].
Proof.
  unfold trace_path. destruct (path_join_suffix traceDir (threadName ++ kPiTraceExt)) as [pre ->].
  exists (pre ++ threadName ++ #".pi_trac"). by rewrite <-!app_assoc.
Qed.
Lemma buffer_path_last eventId : exists pre, buffer_path (mem_file_name eventId) = pre ++ ["m"%byte].
Proof.
  unfold buffer_path. destruct (path_join_suffix (path_join traceDir kBuffersPath)
    (mem_file_name eventId)) as [pre ->]. unfold mem_file_name.
  exists (pre ++ threadName ++ #"_" ++ to_string eventId ++ #".me"). by rewrite <-!app_assoc.
Qed.
Lemma trace_path_buffer eventId : buffer_path (mem_file_name eventId) <> trace_path.
Proof.
  destruct trace_path_last as [p1 E1], (buffer_path_last eventId) as [p2 E2].
  eapply last_byte_ne; [| exact E2 | exact E1]. done.
Qed.

Lemma trace_path_binary c l : own_name threadName -> is_digit c = true ->
  trace_path <> path_join traceDir (c :: l).
Proof.
  unfold trace_path, own_name. intros Hn Hc E. set (n := threadName ++ kPiTraceExt) in *.
  assert (exists d l', n = d :: l' /\ d <> "/"%byte /\ is_digit d = false) as (d & l' & En & Hd & Hdd).
  { subst n. destruct threadName as [|d n]; [by exists "."%byte, #"pi_trace" |]. exists d, (n ++ kPiTraceExt).
    tauto. }
  rewrite En in E. assert (c <> "/"%byte) by (intros ->; done).
  unfold path_join in E. cbn [list.head] in E. rewrite !(bool_decide_eq_false_2 (Some _ = _)) in E by congruence.
  destruct (bool_decide _); apply app_inv_head in E; simplify_eq; congruence.
Qed.
End paths.

(** ** Rules *)

Section rules.
Context `{Thread, Plugin, PiHeaders, Protobuf APICall, Protobuf DeviceBinary}.
Implicit Types (s : recording).

(** The record of a call with its outputs. *)
Definition record_with (h : RecordHandler) (m : memory) (res : Z) (args : list argument)
    (small mem_obj : list bytes) : APICall :=
  {| function_id := mLastFunctionId h; time_start := mTimestampBegin h;
     time_end := mTimestampEnd h; return_value := u32 res; args := collectArgs m args;
     small_inputs := []; small_outputs := small; mem_obj_inputs := []; mem_obj_outputs := mem_obj |}.

Lemma holds_new_record res args s h (Q : APICall -> recording -> Prop) :
  GRecordHandler s = Some h -> Q (record_with h (app s) res args [] []) s ->
  holds (new_record (Some res) args) s Q.
Proof. intros Hh HQ c s' E. unfold new_record, with_handler in E. rewrite Hh in E. by injection E as <- <-. Qed.

(** What [if (p != nullptr) call.add_small_outputs(p, n)] adds. *)
Definition saved_at (m : memory) (p n : Z) (out : list bytes) : Prop :=
  if p =? 0 then out = [] else exists l, out = [l] /\ (n = 0 /\ l = [] \/ load m p n = Some l).

Lemma load_bytes_Ok p n s l s' : load_bytes p n s = Ok (l, s') ->
  s' = s /\ (n = 0 /\ l = [] \/ p <> 0 /\ load (app s) p n = Some l).
Proof.
  unfold load_bytes. destruct (Z.eqb_spec n 0); [intros [= <- <-]; auto |].
  destruct (Z.eqb_spec p 0); [done |]. destruct (load _ _ _) eqn:E; [| done].
  intros [= -> ->]. auto.
Qed.

Lemma holds_add_output p n h m res args small mem_obj s (Q : APICall -> recording -> Prop) :
  (forall out, saved_at (app s) p n out -> Q (record_with h m res args (small ++ out) mem_obj) s) ->
  holds (add_output_at p n (record_with h m res args small mem_obj)) s Q.
Proof.
  intros HQ c s' E. unfold add_output_at in E. unfold saved_at in HQ.
  destruct (p =? 0).
  - injection E as <- <-. specialize (HQ [] eq_refl). by rewrite app_nil_r in HQ.
  - apply M_bind_Ok in E as (l & s1 & El & [= <- <-]).
    apply load_bytes_Ok in El as [-> Hl]. apply HQ. exists l. split; [done |]. tauto.
Qed.

Lemma holds_serialize_to call h s (Q : unit -> recording -> Prop) :
  GRecordHandler s = Some h ->
  Q tt (set_disk (<[mOS h := default [] (disk s !! mOS h) ++ serialize call]> (disk s)) s) ->
  holds (serialize_to call) s Q.
Proof.
  intros Hh HQ [] s' E. unfold serialize_to, with_handler in E. rewrite Hh in E. by injection E as <-.
Qed.

Lemma holds_save_mem_obj event size (data : M recording Z) h m res args small mem_obj s
    (Q : APICall -> recording -> Prop) :
  GRecordHandler s = Some h ->
  (forall p s1 content s2, data (set_app (piEventsWait 1 event (app s)) s) = Ok (p, s1) ->
     load_bytes p size s1 = Ok (content, s2) ->
     Q (record_with h m res args small (mem_obj ++ [mem_file_name (mLastEventId h)]))
       (set_disk (<[buffer_path (mem_file_name (mLastEventId h)) := le_bytes 8 size ++ content]>
          (disk s2)) s2)) ->
  holds (save_mem_obj event size data (record_with h m res args small mem_obj)) s Q.
Proof.
  intros Hh HQ c s' E. unfold save_mem_obj, with_handler in E. rewrite Hh in E.
  apply M_bind_Ok in E as ([] & s0 & [= <-] & E).
  apply M_bind_Ok in E as (p & s1 & Hp & E).
  apply M_bind_Ok in E as (content & s2 & Hc & E).
  apply M_bind_Ok in E as ([] & s3 & [= <-] & [= <- <-]). by eapply HQ.
Qed.

(** ** What a call leaves behind *)

(** The addresses and lengths of the outputs a handler saves in the record. *)
Definition small_outputs_of (call : Call.t) : list (Z * Z) :=
  match call with
  | Call.piPlatformsGet _ _ p | Call.piDevicesGet _ _ _ _ p => [(p, 4)]
  | Call.piPlatformGetInfo _ _ n p q | Call.piDeviceGetInfo _ _ n p q
  | Call.piContextGetInfo _ _ n p q | Call.piKernelGetInfo _ _ n p q
  | Call.piKernelGetGroupInfo _ _ _ n p q => [(p, n); (q, 8)]
  | Call.piextDeviceSelectBinary _ _ _ p => [(p, 8)]
  | _ => []
  end.

(** The file of its memory object, if one is written. *)
Definition saves_mem_obj (h : RecordHandler) (call : Call.t) : bool :=
  mSkipMemObjects h &&
  match call with
  | Call.piEnqueueMemBufferMap _ _ _ _ _ _ _ _ _ _
  | Call.piEnqueueMemBufferRead _ _ _ _ _ _ _ _ _ => true
  | Call.piextUSMEnqueueMemcpy queue _ dst _ _ _ _ _ =>
      let t := piextUSMGetMemAllocInfo_type (piQueueGetInfo_context queue) dst in
      (t =? PI_MEM_TYPE_UNKNOWN) || (t =? PI_MEM_TYPE_HOST)
  | _ => false
  end.
Definition mem_objs_of (h : RecordHandler) (call : Call.t) : list bytes :=
  if saves_mem_obj h call then [mem_file_name (mLastEventId h)] else [].

(** [s'] is [s] with one more record at the end of the trace. *)
Definition appended (h : RecordHandler) (m : memory) (res : Z) (call : Call.t)
    (s s' : recording) : Prop :=
  GRecordHandler s' = GRecordHandler s /\ GStartTime s' = GStartTime s /\
  exists outs, Forall2 (fun pn out => saved_at m pn.1 pn.2 out) (small_outputs_of call) outs /\
    disk s' !! trace_path = Some (default [] (disk s !! trace_path) ++
      serialize (record_with h m res (Call.arguments call) (mjoin outs) (mem_objs_of h call))).

(** The last step of every handler. *)
Lemma appends h m res call s s1 outs args small mem_obj :
  GRecordHandler s1 = Some h -> mOS h = trace_path ->
  GRecordHandler s1 = GRecordHandler s -> GStartTime s1 = GStartTime s ->
  disk s1 !! trace_path = disk s !! trace_path ->
  Forall2 (fun pn out => saved_at m pn.1 pn.2 out) (small_outputs_of call) outs ->
  args = Call.arguments call -> small = mjoin outs -> mem_obj = mem_objs_of h call ->
  holds (serialize_to (record_with h m res args small mem_obj)) s1
    (fun _ => appended h m res call s).
Proof.
  intros Hh Ho Hg Ht Hd Houts -> -> ->. eapply holds_serialize_to; [exact Hh |].
  rewrite Ho. split; [done |]. split; [done |]. exists outs. split; [done |].
  cbn [disk set_disk]. by rewrite lookup_insert_eq, Hd.
Qed.

Lemma holds_saved (b : bool) event size (data : M recording Z) h m res args small s
    (Q : APICall -> recording -> Prop) :
  GRecordHandler s = Some h ->
  (forall s0, holds data s0 (fun _ s1 => s1 = s0)) ->
  (forall s1, GRecordHandler s1 = GRecordHandler s -> GStartTime s1 = GStartTime s ->
     disk s1 !! trace_path = disk s !! trace_path ->
     Q (record_with h m res args small (if b then [mem_file_name (mLastEventId h)] else [])) s1) ->
  holds (if b then save_mem_obj event size data (record_with h m res args small [])
         else mret (record_with h m res args small [])) s Q.
Proof.
  intros Hh Hdata HQ. destruct b; [| by apply holds_ret, HQ].
  eapply holds_save_mem_obj; [exact Hh |]. intros p s1 content s2 Hp Hc.
  apply Hdata in Hp as ->. apply load_bytes_Ok in Hc as [-> _]. apply HQ; [done..|].
  cbn [disk set_disk set_app]. by rewrite lookup_insert_ne by apply trace_path_buffer.
Qed.

Lemma holds_load_pointer p s0 : holds (load_pointer p) s0 (fun _ s1 => s1 = s0).
Proof.
  apply holds_bind. intros l s1 E. apply load_bytes_Ok in E as [-> _]. by apply holds_ret.
Qed.

Lemma holds_mret_same (p : Z) s0 : holds (mret p) s0 (fun _ s1 => s1 = s0).
Proof. by apply holds_ret. Qed.

(** Closes [holds (serialize_to _) _ (fun _ => appended _ _ _ _ _)]. *)
Ltac finish Hh Ho :=
  eapply appends;
  [congruence | exact Ho | congruence | congruence | congruence
  | repeat (apply List.Forall2_cons; [cbn [fst snd]; eassumption |]); apply List.Forall2_nil
  | reflexivity | cbn [mjoin list_join app]; rewrite ?app_nil_r; reflexivity | ].

(** Collecting the binaries writes only their files. *)
Lemma collect_binaries_files binaries i n s :
  holds (collect_binaries binaries i n) s (fun _ s' =>
    GRecordHandler s' = GRecordHandler s /\ GStartTime s' = GStartTime s /\ app s' = app s /\
    forall p, (forall c l, is_digit c = true -> p <> path_join traceDir (c :: l)) ->
      disk s' !! p = disk s !! p).
Proof.
  revert i s. induction n as [|n IH]; intros i s; [by apply holds_ret |]. cbn [collect_binaries].
  apply holds_bind. intros [] s1 E. unfold collect_binary in E.
  destruct (binary_at (app s) binaries i) as [binary|]; [| done].
  destruct (DeviceTargetSpec binary) as [target|]; [| done].
  apply M_bind_Ok in E as ([] & s0 & [= <-] & [= <-]).
  eapply holds_mono; [apply IH |]. intros [] s' (Hh & Ht & Ha & Hd).
  cbn [GRecordHandler GStartTime app disk set_disk] in Hh, Ht, Ha, Hd.
  split; [done |]. split; [done |]. split; [done |]. intros p Hp. rewrite Hd by done.
  destruct (to_string_head i) as (c & l & -> & Hc).
  rewrite !lookup_insert_ne; [done | |]; apply not_eq_sym, Hp, Hc.
Qed.

(** The end of [handleSelectBinary]. *)
Lemma selection_appended h res device binaries n p s s1 :
  GRecordHandler s1 = Some h -> mOS h = trace_path ->
  GRecordHandler s1 = GRecordHandler s -> GStartTime s1 = GStartTime s ->
  disk s1 !! trace_path = disk s !! trace_path ->
  holds (record_selection (Some res) device binaries n p) s1
    (fun _ => appended h (app s1) res (Call.piextDeviceSelectBinary device binaries n p) s).
Proof.
  intros Hh Ho Hg Ht Hd. unfold record_selection. apply holds_bind. eapply holds_new_record; [exact Hh |].
  apply holds_bind. intros out s2 E. apply load_bytes_Ok in E as [-> [[? _] | [Hp Hl]]]; [done |].
  eapply (appends _ _ _ _ _ _ [[out]]); try done;
    [| unfold mem_objs_of, saves_mem_obj; by rewrite andb_false_r].
  apply List.Forall2_cons; [| apply List.Forall2_nil]. unfold saved_at. cbn.
  destruct (Z.eqb_spec p 0); [done |]. eauto.
Qed.

(** [handleSelectBinary] of a thread that runs to its end: nobody can set the flag
    between the two tests. *)
Lemma select_appended h res device binaries n p s :
  GRecordHandler s = Some h -> mOS h = trace_path ->
  GBinariesCollected s = true \/ own_name threadName ->
  holds (handleSelectBinary (Some res) device binaries n p) s
    (fun _ => appended h (app s) res (Call.piextDeviceSelectBinary device binaries n p) s).
Proof.
  intros Hh Ho Hn. unfold handleSelectBinary. apply holds_bind. intros ? ? [= <- <-].
  destruct (GBinariesCollected s) eqn:Hc; [by apply selection_appended |]. destruct Hn as [? | Hn]; [done |].
  apply holds_bind. unfold lock. intros [] s1 E. destruct (GBinariesMutex s); [done |]. injection E as <-.
  apply holds_bind. intros ? ? [= <- <-]. cbn [GBinariesCollected set_mutex]. rewrite Hc.
  apply holds_bind. intros [] s1 [= <-]. apply holds_bind.
  eapply holds_mono; [apply collect_binaries_files |]. intros [] s2 (Hg & Ht & Ha & Hd).
  cbn [GRecordHandler GStartTime app disk set_collected set_mutex] in Hg, Ht, Ha, Hd.
  apply holds_bind. intros [] s3 [= <-]. rewrite <-Ha.
  apply (selection_appended h res device binaries n p s (set_mutex false s2));
    cbn [GRecordHandler GStartTime disk set_mutex]; [congruence | done | done | done |].
  rewrite Hd; [done |]. intros c l. by apply trace_path_binary.
Qed.

Lemma handler_appended h res call s :
  GRecordHandler s = Some h -> mOS h = trace_path ->
  (Call.kind call = PiApiKind.piextDeviceSelectBinary ->
   GBinariesCollected s = true \/ own_name threadName) ->
  holds (mArgHandler h (Some res) call) s (fun _ => appended h (app s) res call s).
Proof.
  intros Hh Ho Hc.
  destruct call; cbn [mArgHandler];
    unfold basicHandler, handlePlatformsGet, handleDevicesGet, handleGetInfo,
      handleKernelGetGroupInfo, handleEnqueueMemBufferMap, handleEnqueueMemBufferRead,
      handleUSMEnqueueMemcpy;
    try (apply holds_bind; eapply holds_new_record; [exact Hh |];
         repeat (apply holds_bind, holds_add_output; intros ? ?); finish Hh Ho;
         unfold mem_objs_of, saves_mem_obj; rewrite andb_false_r; reflexivity).
  - apply select_appended; [exact Hh | exact Ho | by apply Hc].
  - apply holds_bind. eapply holds_new_record; [exact Hh |].
    apply holds_bind, holds_saved; [exact Hh | intros; apply holds_load_pointer |].
    intros s1 ? ? ?. finish Hh Ho. unfold mem_objs_of, saves_mem_obj. by rewrite andb_true_r.
  - apply holds_bind. eapply holds_new_record; [exact Hh |].
    apply holds_bind, holds_saved; [exact Hh | intros; apply holds_mret_same |].
    intros s1 ? ? ?. finish Hh Ho. unfold mem_objs_of, saves_mem_obj. by rewrite andb_true_r.
  - apply holds_bind. eapply holds_new_record; [exact Hh |]. cbv zeta.
    apply holds_bind, holds_saved; [exact Hh | intros; apply holds_mret_same |].
    intros s1 ? ? ?. finish Hh Ho. unfold mem_objs_of, saves_mem_obj. by rewrite andb_comm.
Qed.

(** ** The callback *)

(** The handler while a call is being recorded. *)
Definition handler_for (h : RecordHandler) (eventId funcId now : Z) : RecordHandler :=
  {| mOS := mOS h; mStartTime := mStartTime h; mLastEventId := eventId;
     mLastFunctionId := funcId; mTimestampBegin := mTimestampBegin h;
     mTimestampEnd := elapsed h now; mSkipMemObjects := mSkipMemObjects h |}.

Lemma callback_end skip now instance ret call s h :
  GRecordHandler s = Some h -> mOS h = trace_path ->
  (Call.kind call = PiApiKind.piextDeviceSelectBinary ->
   GBinariesCollected s = true \/ own_name threadName) ->
  holds (tpCallback skip now (function_with_args_end instance ret call)) s (fun _ s' =>
    let h' := handler_for h instance (kind_id (Call.kind call)) now in
    appended h' (app s) ret call (set_handler h' s) s').
Proof.
  intros Hh Ho Hc [] s' E. unfold tpCallback in E.
  apply M_bind_Ok in E as (? & ? & [= <- <-] & E). rewrite Hh in E.
  apply M_bind_Ok in E as ([] & s1 & E1 & E). unfold timestamp_end, with_handler in E1.
  rewrite Hh in E1. injection E1 as <-. unfold handle in E.
  apply M_bind_Ok in E as ([] & s2 & E2 & E). unfold set_last, with_handler in E2, E.
  cbn [GRecordHandler set_handler] in E2. injection E2 as <-. cbn [GRecordHandler set_handler] in E.
  eapply handler_appended in E; [exact E | done | done | done].
Qed.


(** As every argument reaches [collectArgs] as an lvalue, no argument is
    ever recorded as unsigned or as a string: pointers and C strings are
    recorded by address, everything else as a signed integer of its width. *)
Theorem collectArgs_kinds m args :
  Forall (fun a => ext_bytes a = 4 \/ ext_bytes a = 8)
    (omap (fun a => match a with Ext t _ => Some t | _ => None end) args) ->
  Forall2 (fun a r => ArgData.data r = ArgData.int_val (u64 (argument_value a)) /\
    ArgData.type r = match a with
      | Pointer _ | CString _ => ArgData.POINTER
      | _ => if argument_bytes a =? 4 then ArgData.INT32 else ArgData.INT64
      end) args (collectArgs m args).
Proof.
  induction args as [|a args IH]; intros Hx; [constructor |].
  assert (forall z, u64 (i64 z) = u64 z) as E by (intros; by apply wrap_signed).
  assert (Forall (fun a => ext_bytes a = 4 \/ ext_bytes a = 8)
    (omap (fun a => match a with Ext t _ => Some t | _ => None end) args)) as Hx'.
  { destruct a; try exact Hx. by apply Forall_cons_1 in Hx as [_ ?]. }
  constructor; [| by apply IH].
  destruct a as [p|p|z|z|z|t z]; cbn; rewrite ?E; try done.
  apply Forall_cons_1 in Hx as [[Ht | Ht] _]; by rewrite Ht.
Qed.
End rules.


Lemma collectArgs_kinds_witness :
  Forall2 (fun a r => ArgData.data r = ArgData.int_val (u64 (argument_value a)) /\
    ArgData.type r = match a with
      | Pointer _ | CString _ => ArgData.POINTER
      | _ => if argument_bytes a =? 4 then ArgData.INT32 else ArgData.INT64
      end) [UInt32 4294967295; CString 64; Ext pi_mem_flags 1]
    (collectArgs ∅ [UInt32 4294967295; CString 64; Ext pi_mem_flags 1]).
Proof.
  refine (collectArgs_kinds ∅ [UInt32 4294967295; CString 64; Ext pi_mem_flags 1] _).
  constructor; [right; reflexivity | constructor].
Defined.
