(* ===== verification/ReplayProps.v ===== *)
(** * ReplayProps: replaying what was recorded

    The replay plugin, fed with the trace a recording wrote, gives the program
    the results and the outputs the recorded run gave it. *)

From S2P Require Import Prelude Streams Trace PiCall Images Recorder RecordProps Replayer Sample.

Section replay.
Context `{Thread, Process, Protobuf APICall, PiHeaders}.
Implicit Types (r : replayer).

(** ** The next record *)

(** The bytes the next call will read from: what is left of the open trace, or
    the whole file when it is not open yet. *)
Definition pending (r : replayer) (content : bytes) : Prop :=
  GTrace r = good content \/ is_open (GTrace r) = false /\ file trace_path = Some content.

Lemma next_record_spec k rec tail r :
  fits rec -> pending r (serialize rec ++ tail) ->
  next_record k r =
  if function_id rec =? kind_id k then Ok (rec, set_GTrace (good tail) r) else Exit (-1).
Proof.
  intros Hf Hp.
  assert (exists r1, ensureTraceOpened r = Ok (tt, r1) /\ GTrace r1 = good (serialize rec ++ tail) /\
    forall s, set_GTrace s r1 = set_GTrace s r) as (r1 & E1 & Hg & Hs).
  { unfold ensureTraceOpened. destruct Hp as [E | [E Ef]].
    - exists r. by rewrite E.
    - rewrite E, Ef. by eexists. }
  unfold next_record. rewrite (M_run_bind _ _ _ _ _ E1).
  assert (zoom GTrace set_GTrace (fun s => getNextRecord (uninit s 4) s) r1 =
    Ok (rec, set_GTrace (good tail) r)) as E2.
  { unfold zoom, getNextRecord. rewrite Hg, read_record_serialize by (done || apply uninit_length).
    cbn. by rewrite Hs. }
  rewrite (M_run_bind _ _ _ _ _ E2). unfold dieIfUnexpected. by destruct (_ =? _).
Qed.

(** ** After the record, a function only touches memory and its maps *)

Definition keeps_trace {A} (m : M replayer A) : Prop :=
  forall r, holds m r (fun _ r' => GTrace r' = GTrace r).

Lemma keeps_ret {A} (a : A) : keeps_trace (mret a).
Proof. intros r. by apply holds_ret. Qed.
Lemma keeps_bind {A B} (m : M replayer A) (f : A -> M replayer B) :
  keeps_trace m -> (forall a, keeps_trace (f a)) -> keeps_trace (m ≫= f).
Proof.
  intros Hm Hf r. apply holds_bind. eapply holds_mono; [apply Hm |]. intros a r1 <-.
  eapply holds_mono; [apply Hf |]. congruence.
Qed.
Lemma keeps_lift {A} (x : outcome A) : keeps_trace (lift x).
Proof. intros r. by apply holds_lift. Qed.
Lemma keeps_run {A} (f : replayer -> outcome (A * replayer)) :
  (forall r a r', f r = Ok (a, r') -> GTrace r' = GTrace r) -> keeps_trace f.
Proof. intros Hf r a r'. apply Hf. Qed.
Lemma keeps_write p l : keeps_trace (write p l).
Proof.
  apply keeps_run. intros r a r'. unfold write. destruct l; [by intros [= <- <-] |].
  destruct (p =? 0); [done |]. by intros [= <- <-].
Qed.
Lemma keeps_new_array n : keeps_trace (new_array n).
Proof. apply keeps_run. intros r a r'. unfold new_array. destruct (can_allocate n); [| done]. by intros [= <- <-]. Qed.
Lemma keeps_new_int : keeps_trace new_int.
Proof. apply keeps_run. by intros r a r' [= <- <-]. Qed.
Lemma keeps_delete p : keeps_trace (delete_array p).
Proof.
  apply keeps_run. intros r a r'. unfold delete_array. repeat case_match; try done; by intros [= <- <-].
Qed.
Lemma keeps_new_handle p : keeps_trace (new_handle p).
Proof.
  apply keeps_bind; [apply keeps_new_int |]. intros h.
  apply keeps_bind; [apply keeps_write |]. intros _. apply keeps_ret.
Qed.
Lemma keeps_new_handles n p : keeps_trace (new_handles n p).
Proof.
  revert p. induction n as [|n IH]; intros p; [apply keeps_ret |].
  apply keeps_bind; [apply keeps_new_handle |]. intros _. apply IH.
Qed.
Lemma keeps_modify f : (forall r, GTrace (f r) = GTrace r) -> keeps_trace (modify f).
Proof. intros Hf. apply keeps_run. by intros r a r' [= <- <-]. Qed.

Ltac keeps := repeat first
  [ apply keeps_ret | apply keeps_lift | apply keeps_write | apply keeps_new_array
  | apply keeps_new_handle | apply keeps_new_handles | apply keeps_delete
  | apply keeps_modify; reflexivity
  | apply keeps_bind; [| intros ?]
  | match goal with |- keeps_trace (match ?x with _ => _ end) => destruct x end
  | apply keeps_run; intros ? ? ?; unfold at_key; case_match; by intros [= <- <-] ].

(** A function: the next record, then what it does with it, which ends with the
    recorded result and leaves the trace alone. *)
Definition answers (k : PiApiKind.t) (m : M replayer Z) : Prop :=
  exists f : APICall -> M replayer Z, m = next_record k ≫= f /\
    forall rec r, holds (f rec) r (fun v r' => v = result rec /\ GTrace r' = GTrace r).

Lemma holds_keeps {A B} (m : M replayer A) (f : A -> M replayer B) t r (Q : B -> Prop) :
  keeps_trace m -> GTrace r = t ->
  (forall a r', GTrace r' = t -> holds (f a) r' (fun v r'' => Q v /\ GTrace r'' = t)) ->
  holds (m ≫= f) r (fun v r'' => Q v /\ GTrace r'' = t).
Proof.
  intros Hm Ht Hf. apply holds_bind. eapply holds_mono; [apply Hm |]. intros a r1 E.
  apply Hf. congruence.
Qed.

(** The second argument of [dieIfUnexpected] in each function: its own kind, but
    for [piMemRetain], which names another function's. *)
Definition expected_kind (call : Call.t) : PiApiKind.t :=
  match call with
  | Call.piMemRetain _ => PiApiKind.piMemImageGetInfo
  | _ => Call.kind call
  end.

Lemma expected_own call : Call.kind call <> PiApiKind.piMemRetain -> expected_kind call = Call.kind call.
Proof. by destruct call. Qed.

(** A call can be answered from a record of the kind [k]. *)
Definition answered_from (call : Call.t) (k : PiApiKind.t) : Prop :=
  Call.kind call = k /\ Call.kind call <> PiApiKind.piMemRetain \/
  Call.kind call = PiApiKind.piMemRetain /\ k = PiApiKind.piMemImageGetInfo.

Lemma answered_from_expected call k : expected_kind call = k <-> answered_from call k.
Proof.
  unfold answered_from. destruct call; cbn [expected_kind Call.kind];
    (split; [intros <-; auto | intros [[? ?] | [? ?]]; congruence]).
Qed.

Lemma plugin_answers call : Call.kind call <> PiApiKind.piTearDown ->
  answers (expected_kind call) (piPluginInit call).
Proof.
  intros Ht. destruct call; try done; cbn [piPluginInit expected_kind Call.kind];
    (eexists; split; [reflexivity |]; intros rec r; cbv beta; unfold replayGetInfo, write_ptr;
     repeat first
       [ apply holds_keeps; [keeps | reflexivity || eassumption | intros]
       | match goal with |- holds (match ?x with _ => _ end) _ _ => destruct x end
       | apply holds_ret; by split ]).
Qed.

(** ** Calls that return *)

(** It returns, and [new] still has addresses to give. *)
Definition returns {A} (m : M replayer A) : Prop :=
  forall r, 0 < heap r -> exists a r', m r = Ok (a, r') /\ 0 < heap r'.

Lemma returns_ret {A} (a : A) : returns (mret a).
Proof. intros r Hr. by exists a, r. Qed.
Lemma returns_bind {A B} (m : M replayer A) (f : A -> M replayer B) :
  returns m -> (forall a, returns (f a)) -> returns (m ≫= f).
Proof.
  intros Hm Hf r Hr. destruct (Hm r Hr) as (a & r1 & E & Hr1). destruct (Hf a r1 Hr1) as (b & r2 & E2 & Hr2).
  exists b, r2. by rewrite (M_run_bind _ _ _ _ _ E).
Qed.
Lemma returns_lift {A} (x : outcome A) a : x = Ok a -> returns (lift x).
Proof. intros -> r Hr. by exists a, r. Qed.
Lemma returns_write p l : p <> 0 -> returns (write p l).
Proof.
  intros Hp r Hr. unfold write. destruct l; [by eexists _, _ |]. rewrite (proj2 (Z.eqb_neq _ _) Hp).
  by eexists _, _.
Qed.
Lemma returns_new_int : returns new_int.
Proof. intros r Hr. eexists _, _. split; [reflexivity |]. cbn. lia. Qed.
Lemma returns_new_handle p : p <> 0 -> returns (new_handle p).
Proof.
  intros Hp. apply returns_bind; [apply returns_new_int |]. intros h.
  apply returns_bind; [by apply returns_write | intros; apply returns_ret].
Qed.
Lemma returns_new_handles n p : 0 < p -> returns (new_handles n p).
Proof.
  revert p. induction n as [|n IH]; intros p Hp; [apply returns_ret |].
  apply returns_bind; [apply returns_new_handle; lia |]. intros _. apply IH. lia.
Qed.
Lemma returns_modify f : (forall r, heap (f r) = heap r) -> returns (modify f).
Proof. intros Hf r Hr. eexists _, _. split; [reflexivity |]. by rewrite Hf. Qed.
Lemma align_pos n : 0 <= n -> 0 < align (n + 1).
Proof. intros Hn. unfold align. assert (1 <= (n + 1 + 15) / 16) by (apply Z.div_le_lower_bound; lia). lia. Qed.
Lemma returns_new_array n : 0 <= n -> can_allocate n = true -> returns (new_array n).
Proof.
  intros Hn E r Hr. unfold new_array. rewrite E. eexists _, _. split; [reflexivity |].
  cbn [heap set_memory]. pose proof (align_pos n Hn). lia.
Qed.
(** A new array has an address to write to. *)
Lemma returns_array_bind {B} n (f : Z -> M replayer B) : 0 <= n -> can_allocate n = true ->
  (forall p, 0 < p -> returns (f p)) -> returns (new_array n ≫= f).
Proof.
  intros Hn E Hf r Hr. assert (new_array n r = Ok (heap r,
    set_memory (mem r) (heap r + align (n + 1)) ({[heap r]} ∪ arrays r) r)) as En
    by (unfold new_array; by rewrite E).
  rewrite (M_run_bind _ _ _ _ _ En). apply Hf; [done |]. cbn. pose proof (align_pos n Hn). lia.
Qed.
Lemma returns_at (sel : replayer -> gmap Z Z) set k : (forall m r, heap (set m r) = heap r) ->
  returns (fun r => let '(v, m) := at_key (sel r) k in Ok (v, set m r)).
Proof. intros Hs r Hr. unfold at_key. case_match; (eexists _, _; split; [reflexivity | by rewrite Hs]). Qed.

(** A first output that holds a [pi_uint32]. *)
Definition has_u32 (rec : APICall) : bool :=
  match small_outputs rec with s :: _ => (4 <=? length (s ++ [x00]))%nat | [] => false end.
Definition has_output (rec : APICall) : bool :=
  match small_outputs rec with _ :: _ => true | [] => false end.

(** The record holds what the function reads of it, and the pointers the
    function writes through are not null; the arrays it makes can be allocated. *)
Definition answerable (call : Call.t) (rec : APICall) : Prop :=
  match call with
  | Call.piPlatformsGet n p q | Call.piDevicesGet _ _ n p q =>
      (q = 0 \/ has_u32 rec = true) /\ 0 <= p
  | Call.piextDeviceSelectBinary _ _ _ p => has_u32 rec = true /\ p <> 0
  | Call.piPlatformGetInfo _ _ _ p q | Call.piDeviceGetInfo _ _ _ p q
  | Call.piContextGetInfo _ _ _ p q | Call.piQueueGetInfo _ _ _ p q
  | Call.piMemImageGetInfo _ _ _ p q | Call.piProgramGetInfo _ _ _ p q
  | Call.piKernelGetInfo _ _ _ p q | Call.piKernelGetGroupInfo _ _ _ _ p q =>
      has_output rec = true /\ (p <> 0 \/ q <> 0)
  | Call.piMemGetInfo _ param _ p q =>
      has_output rec = true /\ (p <> 0 \/ q <> 0) /\ (param = CL_MEM_CONTEXT -> p <> 0)
  | Call.piContextCreate _ _ _ _ _ p | Call.piQueueCreate _ _ _ p
  | Call.piMemBufferCreate _ _ _ _ p _ | Call.piProgramCreateWithBinary _ _ _ _ _ _ _ _ p
  | Call.piProgramCreate _ _ _ p | Call.piKernelCreate _ _ p
  | Call.piEnqueueKernelLaunch _ _ _ _ _ _ _ _ p | Call.piEnqueueEventsWait _ _ _ p
  | Call.piEnqueueEventsWaitWithBarrier _ _ _ p | Call.piextUSMEnqueueMemset _ _ _ _ _ _ p =>
      p <> 0
  | Call.piEnqueueMemBufferRead _ _ _ _ _ p _ _ e => mem_obj_outputs rec <> [] /\ p <> 0 /\ e <> 0
  | Call.piextUSMEnqueueMemcpy _ _ p _ _ _ _ e => p <> 0 /\ e <> 0
  | Call.piextUSMDeviceAlloc p _ _ _ n _ | Call.piextUSMHostAlloc p _ _ n _ =>
      p <> 0 /\ 0 <= n /\ can_allocate n = true
  | Call.piEnqueueMemBufferMap _ _ _ _ _ _ _ _ e q =>
      match mem_obj_outputs rec with
      | name :: _ => can_allocate (open_buffer name).1 = true
      | [] => False
      end /\ q <> 0 /\ e <> 0
  | Call.piEnqueueMemUnmap _ _ _ _ _ e => e <> 0
  | _ => True
  end.

(** The pointer a call gives back: null, or an array of the plugin that is not
    deleted yet. *)
Definition freed (call : Call.t) : option Z :=
  match call with
  | Call.piEnqueueMemUnmap _ _ p _ _ _ | Call.piextUSMFree _ p => Some p
  | _ => None
  end.
Definition frees_live (live : gset Z) (call : Call.t) : Prop :=
  match freed call with Some p => p = 0 \/ p ∈ live | None => True end.

Lemma delete_live p r : p = 0 \/ p ∈ arrays r -> 0 < heap r ->
  exists r', delete_array p r = Ok (tt, r') /\ 0 < heap r'.
Proof.
  intros Hp Hr. unfold delete_array. destruct (Z.eqb_spec p 0) as [-> | Hne]; [by exists r |].
  destruct Hp as [-> | Hp]; [done |]. rewrite bool_decide_true by done. by eexists.
Qed.
Lemma new_handle_arrays p r h r' : new_handle p r = Ok (h, r') -> arrays r' = arrays r.
Proof.
  intros E. apply M_bind_Ok in E as (h' & r1 & [= <- <-] & E).
  apply M_bind_Ok in E as ([] & r2 & E2 & [= <- <-]).
  unfold write_ptr, write in E2. destruct (le_bytes 8 _); [by injection E2 as <- |].
  destruct (p =? 0); [done |]. by injection E2 as <-.
Qed.
Lemma open_buffer_size name : 0 <= (open_buffer name).1.
Proof. unfold open_buffer. destruct (Streams.read _ _). apply le_value_range. Qed.
Lemma returns_if_null (b : bool) (m : M replayer unit) :
  (b = true -> returns m) -> returns (if b then m else mret tt).
Proof. destruct b; intros Hm; [by apply Hm | apply returns_ret]. Qed.
Lemma returns_first l : l <> [] -> returns (lift (first l)).
Proof. destruct l; [done |]. intros _. by eapply returns_lift. Qed.

Lemma has_u32_first rec : has_u32 rec = true ->
  exists v, (s ← first (small_outputs rec); as_u32 s) = Ok v.
Proof.
  unfold has_u32, first, as_u32. destruct (small_outputs rec) as [|s l]; [done |].
  cbn [mbind outcome_mbind outcome_bind]. intros ->. by eexists.
Qed.
Lemma returns_getinfo rec p q : has_output rec = true -> p <> 0 \/ q <> 0 ->
  returns (replayGetInfo rec p q).
Proof.
  unfold has_output, replayGetInfo. destruct (small_outputs rec) as [|s l] eqn:E; [done |].
  intros _ Hp. apply returns_bind; [by eapply returns_lift |]. intros out.
  apply returns_write. destruct (Z.eqb_spec p 0); lia || tauto.
Qed.
Lemma returns_count rec q : q = 0 \/ has_u32 rec = true ->
  returns (if q =? 0 then mret tt
           else v ← lift (s ← first (small_outputs rec); as_u32 s); write q v).
Proof.
  intros Hq. destruct (Z.eqb_spec q 0); [apply returns_ret |].
  destruct Hq as [-> | [v E]%has_u32_first]; [done |].
  apply returns_bind; [by eapply returns_lift |]. intros. by apply returns_write.
Qed.
Lemma returns_handles n p : 0 <= p ->
  returns (if (n >? 0) && negb (p =? 0) then new_handles (Z.to_nat n) p else mret tt).
Proof.
  intros Hp. destruct (Z.eqb_spec p 0); [rewrite andb_false_r; apply returns_ret |].
  destruct (n >? 0); [apply returns_new_handles; lia | apply returns_ret].
Qed.

Ltac returns := repeat first
  [ apply returns_ret | apply returns_modify; reflexivity | apply returns_at; reflexivity
  | apply returns_getinfo; tauto | apply returns_count; tauto | apply returns_handles; tauto
  | apply returns_new_handle; tauto | apply returns_write; tauto
  | apply returns_array_bind; [tauto | tauto | intros ? ?]
  | apply returns_bind; [| intros ?] ].

Lemma returns_lift_bind {A B} (x : outcome A) a (f : A -> M replayer B) :
  x = Ok a -> returns (f a) -> returns (lift x ≫= f).
Proof. intros Hx Hf r Hr. rewrite (lift_run _ _ _ _ Hx). by apply Hf. Qed.

Lemma map_returns call rec : Call.kind call = PiApiKind.piEnqueueMemBufferMap -> answerable call rec ->
  exists f, piPluginInit call = next_record (expected_kind call) ≫= f /\ returns (f rec).
Proof.
  intros Hk Ha. destruct call; try done. cbn [piPluginInit expected_kind Call.kind answerable] in *.
  eexists. split; [reflexivity |]. cbv beta. destruct Ha as (Hn & Hq & He).
  destruct (mem_obj_outputs rec) as [|name l]; [done |]. eapply returns_lift_bind; [reflexivity |].
  pose proof (open_buffer_size name). destruct (open_buffer name) as [size' memIS].
  apply returns_array_bind; [done | done |]. intros p Hp. unfold write_ptr.
  apply returns_bind; [apply returns_write; lia |]. intros _. returns.
Qed.

Lemma answerable_returns call rec :
  Call.kind call <> PiApiKind.piTearDown -> answerable call rec ->
  exists f, piPluginInit call = next_record (expected_kind call) ≫= f /\
    forall r, 0 < heap r -> frees_live (arrays r) call ->
      exists v r', f rec r = Ok (v, r') /\ 0 < heap r'.
Proof.
  intros Ht Ha. destruct (decide (is_Some (freed call))) as [Hf | Hf].
  - destruct call; try (by destruct Hf); cbn [piPluginInit expected_kind Call.kind answerable] in *;
      (eexists; split; [reflexivity |]; intros r Hr Hl; cbv beta).
    + destruct (returns_new_handle event Ha r Hr) as (h & r1 & E & Hr1).
      rewrite (M_run_bind _ _ _ _ _ E). rewrite <-(new_handle_arrays _ _ _ _ E) in Hl.
      destruct (delete_live mapped_ptr r1 Hl Hr1) as (r2 & E2 & Hr2).
      rewrite (M_run_bind _ _ _ _ _ E2). by eexists _, _.
    + destruct (delete_live ptr r Hl Hr) as (r2 & E2 & Hr2). rewrite (M_run_bind _ _ _ _ _ E2). by eexists _, _.
  - enough (exists f, piPluginInit call = next_record (expected_kind call) ≫= f /\ returns (f rec))
      as (f & Ef & Hr) by (exists f; split; [done | intros r Hp _; by apply Hr]).
    destruct (decide (Call.kind call = PiApiKind.piEnqueueMemBufferMap)) as [Hm | Hm];
      [by apply map_returns |].
    destruct call; try done; try (exfalso; apply Hf; by eexists);
      cbn [piPluginInit expected_kind Call.kind answerable] in *;
      (eexists; split; [reflexivity |]; cbv beta; unfold write_ptr; returns).
    + destruct Ha as [[v E]%has_u32_first _]. by eapply returns_lift.
    + apply returns_if_null. intros ?%Z.eqb_eq. returns.
    + apply returns_if_null. intros [_ ?%negb_true_iff%Z.eqb_neq]%andb_prop. returns.
    + apply returns_first; tauto.
    + destruct (open_buffer a). returns.
    + destruct (mem_obj_outputs rec); [apply returns_ret |]. destruct (open_buffer _). returns.
Qed.

Lemma plugin_step call rec tail r :
  Call.kind call <> PiApiKind.piTearDown -> fits rec -> pending r (serialize rec ++ tail) ->
  if function_id rec =? kind_id (expected_kind call) then
    holds (piPluginInit call) r (fun v r' => v = result rec /\ pending r' tail)
  else piPluginInit call r = Exit (-1).
Proof.
  intros Ht Hf Hp. destruct (plugin_answers call Ht) as (f & -> & Hk).
  pose proof (next_record_spec (expected_kind call) rec tail r Hf Hp) as E.
  destruct (function_id rec =? kind_id (expected_kind call)).
  - intros v r' Ev. rewrite (M_run_bind _ _ _ _ _ E) in Ev. apply Hk in Ev as [-> Hg].
    split; [done |]. by left.
  - unfold mbind, M_mbind. by rewrite E.
Qed.

(** C22: what happens when the call of the program and the record it meets are of
    different functions.  A call is answered from the records of its own function
    only: on any other record the plugin ends the process with status -1.  There
    are two exceptions.  [piMemRetain] ends the process on every record, its own
    included, but on those of [piMemImageGetInfo], one of which it takes for its
    own.  And [piTearDown] reads no record and always returns 0. *)
Theorem replay_mismatch call rec tail r :
  fits rec -> pending r (serialize rec ++ tail) ->
  match call with
  | Call.piTearDown _ => piPluginInit call r = Ok (0, r)
  | Call.piMemRetain _ =>
      piPluginInit call r =
      if function_id rec =? kind_id PiApiKind.piMemImageGetInfo
      then Ok (result rec, set_GTrace (good tail) r) else Exit (-1)
  | _ =>
      (function_id rec <> kind_id (Call.kind call) -> piPluginInit call r = Exit (-1)) /\
      forall v r', piPluginInit call r = Ok (v, r') ->
        function_id rec = kind_id (Call.kind call) /\ v = result rec /\ pending r' tail
  end.
Proof.
  intros Hf Hp.
  assert (Call.kind call <> PiApiKind.piTearDown -> Call.kind call <> PiApiKind.piMemRetain ->
    (function_id rec <> kind_id (Call.kind call) -> piPluginInit call r = Exit (-1)) /\
    forall v r', piPluginInit call r = Ok (v, r') ->
      function_id rec = kind_id (Call.kind call) /\ v = result rec /\ pending r' tail) as Hown.
  { intros Ht Hm. pose proof (plugin_step call rec tail r Ht Hf Hp) as Hs. rewrite expected_own in Hs by done.
    destruct (Z.eqb_spec (function_id rec) (kind_id (Call.kind call))) as [E | E].
    - split; [done |]. intros v r' [-> Hp']%Hs. done.
    - split; [done |]. intros v r' Ev. congruence. }
  destruct call; try (by apply Hown); [| done].
  pose proof (next_record_spec PiApiKind.piMemImageGetInfo rec tail r Hf Hp) as E.
  cbn [piPluginInit]. unfold piMemRetain. destruct (_ =? _).
  - by rewrite (M_run_bind _ _ _ _ _ E).
  - unfold mbind, M_mbind. by rewrite E.
Qed.
End replay.

(** ** A recorded thread *)

(** What a thread does between two trace points, and what it then calls. *)
Record event := {
  ev_call : Call.t;
  ev_result : Z;
  ev_instance : Z;
  ev_begin : Z;
  ev_end : Z;
  (** The memory when the call has returned. *)
  ev_memory : memory;
}.

Section recorded.
Context `{Thread, Plugin, PiHeaders, Protobuf APICall, Protobuf DeviceBinary}.

Definition record_event (skip : bool) (e : event) : M recording unit :=
  _ ← tpCallback skip (ev_begin e) function_with_args_begin;
  _ ← modify (set_app (ev_memory e));
  tpCallback skip (ev_end e) (function_with_args_end (ev_instance e) (ev_result e) (ev_call e)).

(** The record of an event: function, result and outputs. *)
Definition records (skip : bool) (e : event) (rec : APICall) : Prop :=
  function_id rec = kind_id (Call.kind (ev_call e)) /\ return_value rec = u32 (ev_result e) /\
  exists outs h, mSkipMemObjects h = negb skip /\ mLastEventId h = ev_instance e /\
    Forall2 (fun pn out => saved_at (ev_memory e) pn.1 pn.2 out) (small_outputs_of (ev_call e)) outs /\
    small_outputs rec = mjoin outs /\ mem_obj_outputs rec = mem_objs_of h (ev_call e).

(** The thread's trace file is opened by its own handler. *)
Definition own_trace (skip : bool) (s : recording) : Prop :=
  match GRecordHandler s with
  | Some h => mOS h = trace_path /\ mSkipMemObjects h = negb skip
  | None => True
  end.

(** The start of a call opens the trace, if it is not open. *)
Lemma begin_spec skip now s :
  own_trace skip s ->
  holds (tpCallback skip now function_with_args_begin) s (fun _ s' => own_trace skip s' /\
    is_Some (GRecordHandler s') /\
    default [] (disk s' !! trace_path) = default [] (disk s !! trace_path)).
Proof.
  intros Ho [] s1 E1. unfold tpCallback, own_trace in *. apply M_bind_Ok in E1 as (? & ? & [= <- <-] & E1).
  destruct (GRecordHandler s) as [h|] eqn:Eh.
  - apply M_bind_Ok in E1 as ([] & s0 & [= <-] & E1). unfold timestamp_begin, with_handler in E1.
    rewrite Eh in E1. by injection E1 as <-.
  - apply M_bind_Ok in E1 as ([] & s0 & E0 & E1).
    apply M_bind_Ok in E0 as ([] & s00 & [= <-] & [= <-]).
    unfold timestamp_begin, with_handler in E1. cbn [GRecordHandler set_handler] in E1.
    injection E1 as <-. split; [done |]. split; [done |].
    cbn [disk set_disk set_handler]. by rewrite lookup_insert_eq, app_nil_r.
Qed.

(** The end of a call appends its record. *)
Lemma end_spec skip e s :
  own_name threadName -> own_trace skip s -> is_Some (GRecordHandler s) ->
  holds (tpCallback skip (ev_end e)
      (function_with_args_end (ev_instance e) (ev_result e) (ev_call e))) (set_app (ev_memory e) s)
    (fun _ s' => own_trace skip s' /\ exists rec, records skip e rec /\
      disk s' !! trace_path = Some (default [] (disk s !! trace_path) ++ serialize rec)).
Proof.
  intros Hn Ho [h Hh] [] s' E. unfold own_trace in Ho. rewrite Hh in Ho. destruct Ho as [Hos Hsk].
  eapply callback_end in E as (Hg & _ & outs & Hout & Hd'); [| exact Hh | exact Hos | by right].
  cbn [GRecordHandler set_handler] in Hg. split.
  - unfold own_trace. rewrite Hg. by split.
  - eexists. split; [| cbn [disk set_handler set_app] in Hd'; by rewrite Hd'].
    split; [done |]. split; [done |]. eexists outs, _. split; [| split; [| by split]]; done.
Qed.

Lemma record_event_spec skip e s :
  own_name threadName -> own_trace skip s ->
  holds (record_event skip e) s (fun _ s' => own_trace skip s' /\ exists rec, records skip e rec /\
    disk s' !! trace_path = Some (default [] (disk s !! trace_path) ++ serialize rec)).
Proof.
  intros Hn Ho. apply holds_bind. eapply holds_mono; [by apply begin_spec |].
  intros [] s1 (Ho1 & Hh & Hd). rewrite <-Hd. apply holds_bind. intros [] s2 [= <-]. by apply end_spec.
Qed.

(** A record holds the result as the plugin answers it. *)
Lemma records_results skip es recs :
  Forall2 (records skip) es recs -> Forall (fun e => - 2 ^ 31 <= ev_result e < 2 ^ 31) es ->
  map result recs = map ev_result es.
Proof.
  intros Hrs Hres. induction Hrs as [|e rec es recs He Hrs IH]; [done |].
  apply Forall_cons_1 in Hres as [Hr Hres]. cbn [map]. rewrite IH by done. f_equal.
  destruct He as (_ & Hrv & _). unfold result. rewrite Hrv.
  rewrite signed_wrap by lia. by apply signed_small.
Qed.

(** The calls that match the records are those that match the recorded calls. *)
Lemma same_kinds {A} skip (call : A -> Call.t) calls es recs :
  Forall2 (fun c rec => function_id rec = kind_id (expected_kind (call c))) calls recs ->
  Forall2 (records skip) es recs ->
  Forall2 (fun c e => expected_kind (call c) = Call.kind (ev_call e)) calls es.
Proof.
  intros Hks Hrs. revert es Hrs. induction Hks as [|c rec calls recs Hk Hks IH]; intros es Hrs.
  - apply Forall2_nil_inv_r in Hrs as ->. constructor.
  - apply Forall2_cons_inv_r in Hrs as (e & es' & (Hk' & _) & Hrs & ->).
    constructor; [| by apply IH]. apply kind_id_inj. congruence.
Qed.

Lemma expected_records {A} `{!Process} skip (call : A -> Call.t) calls es recs :
  Forall2 (fun c e => expected_kind (call c) = Call.kind (ev_call e)) calls es ->
  Forall2 (fun c rec => answerable (call c) rec) calls recs -> Forall2 (records skip) es recs ->
  Forall2 (fun c rec => function_id rec = kind_id (expected_kind (call c)) /\ answerable (call c) rec)
    calls recs.
Proof.
  intros Hks. revert recs. induction Hks as [|c e calls es Hk Hks IH]; intros recs Ha Hrs.
  - apply Forall2_nil_inv_l in Hrs as ->. constructor.
  - apply Forall2_cons_inv_l in Hrs as (rec & recs' & (Hk' & _) & Hrs & ->).
    apply list.Forall2_cons in Ha as [Ha Has]. constructor; [| by apply IH]. split; [congruence | done].
Qed.

End recorded.

(** A record of a query, and a replay that starts with it. *)
Definition sample_record : APICall :=
  {| function_id := 4; time_start := 1; time_end := 8; return_value := 0; args := [];
     small_inputs := []; small_outputs := [ #"device name"]; mem_obj_inputs := [];
     mem_obj_outputs := [] |}.
Definition sample_files : gmap bytes bytes := <[trace_path := serialize sample_record ++ []]> ∅.

Lemma sample_pending (P : Process) : file trace_path = Some (serialize sample_record ++ []) ->
  pending sample_replayer (serialize sample_record ++ []).
Proof. intros E. right. split; [reflexivity | exact E]. Qed.

Lemma replay_mismatch_witness : let _ := sample_process sample_files in
  piPluginInit (Call.piDeviceRetain 1) sample_replayer = Exit (-1).
Proof.
  intros P. refine (proj1 (replay_mismatch (Call.piDeviceRetain 1) sample_record [] sample_replayer _ _) _).
  - vm_compute. reflexivity.
  - apply sample_pending. vm_compute. reflexivity.
  - vm_compute. discriminate.
Defined.
