(* ===== verification/ReplayData.v ===== *)
(** * ReplayData: outputs, memory objects and handles in a replay

    What the replayed functions store for the program: the outputs of the
    queries, the contents of mapped buffers, the kernels' programs; and the
    recorded calls that cannot be replayed. *)

From S2P Require Import Prelude Streams Trace PiCall Images Recorder RecordProps Replayer Sample ReplayProps.

(** ** Memory after a store *)

Lemma store_outside m p l a : ~ (p <= a < p + Z.of_nat (length l)) -> store m p l !! a = m !! a.
Proof.
  intros Ha. destruct (Z.lt_ge_cases a p); [by apply store_lookup_before |].
  apply store_lookup_after. lia.
Qed.

Lemma load_store_n m p l n : n = Z.of_nat (length l) -> load (store m p l) p n = Some l.
Proof. intros ->. apply load_store. Qed.

Lemma load_store_away m p l a n :
  p + Z.of_nat (length l) <= a \/ a + n <= p -> load (store m p l) a n = load m a n.
Proof. intros Ha. apply load_ext. intros b Hb. apply store_outside. lia. Qed.

(** ** Queries *)

(** The queries whose handler saves the outputs. *)
Inductive query : Set := QPlatform | QDevice | QContext | QKernel | QKernelGroup.

Definition query_call (k : query) (obj dev name n p q : Z) : Call.t :=
  match k with
  | QPlatform => Call.piPlatformGetInfo obj name n p q
  | QDevice => Call.piDeviceGetInfo obj name n p q
  | QContext => Call.piContextGetInfo obj name n p q
  | QKernel => Call.piKernelGetInfo obj name n p q
  | QKernelGroup => Call.piKernelGetGroupInfo obj dev name n p q
  end.

Section data.
Context `{Thread, Plugin, PiHeaders, Protobuf APICall, Protobuf DeviceBinary, Process}.
Implicit Types (r : replayer).

(** A record is next in the trace. *)
Lemma step_from call rec tail r (f : APICall -> M replayer Z) :
  piPluginInit call = next_record (expected_kind call) ≫= f -> fits rec ->
  pending r (serialize rec ++ tail) -> function_id rec = kind_id (expected_kind call) ->
  piPluginInit call r = f rec (set_GTrace (good tail) r).
Proof.
  intros -> Hf Hp Hid. pose proof (next_record_spec (expected_kind call) rec tail r Hf Hp) as E.
  rewrite Hid, Z.eqb_refl in E. by rewrite (M_run_bind _ _ _ _ _ E).
Qed.

Lemma write_run p l r : p <> 0 -> write p l r = Ok (tt, set_mem (store (mem r) p l) r).
Proof.
  intros Hp. unfold write. rewrite (proj2 (Z.eqb_neq _ _) Hp). destruct l; [| done].
  by destruct r.
Qed.

Lemma query_replayed k obj dev name n p q rec tail r out outs :
  (k = QKernel -> name <> PI_KERNEL_INFO_PROGRAM \/ p = 0) ->
  fits rec -> pending r (serialize rec ++ tail) ->
  function_id rec = kind_id (Call.kind (query_call k obj dev name n p q)) ->
  small_outputs rec = out :: outs -> p <> 0 \/ q <> 0 ->
  piPluginInit (query_call k obj dev name n p q) r =
  Ok (result rec, set_mem (store (mem r) (if p =? 0 then q else p) out) (set_GTrace (good tail) r)).
Proof.
  intros Hk Hf Hp Hid Ho Hpq.
  assert (replayGetInfo rec p q (set_GTrace (good tail) r) = Ok (tt,
    set_mem (store (mem r) (if p =? 0 then q else p) out) (set_GTrace (good tail) r))) as E.
  { unfold replayGetInfo. rewrite Ho. erewrite M_run_bind; [| reflexivity].
    rewrite write_run by (destruct (Z.eqb_spec p 0); lia). done. }
  destruct k; (erewrite step_from; [| reflexivity | done | done | exact Hid]; cbv beta;
    rewrite (M_run_bind _ _ _ _ _ E); try done).
  assert ((name =? PI_KERNEL_INFO_PROGRAM) && negb (p =? 0) = false) as Hb; [| by rewrite Hb].
  destruct (Hk eq_refl) as [Hn | ->]; [by rewrite (proj2 (Z.eqb_neq _ _) Hn) | apply andb_false_r].
Qed.

(** C23: a recorded query of a platform, device, context, kernel or kernel
    group whose value was saved is replayed with the same bytes at the address
    the program gives now, and with the recorded result; nothing else in memory
    changes, so a size asked for at the same time is not filled in. *)
Theorem query_outputs skip e rec k obj dev name n p q obj' dev' name' n' p' q' tail r :
  ev_call e = query_call k obj dev name n p q -> records skip e rec -> fits rec ->
  p <> 0 -> p' <> 0 -> 0 < n -> - 2 ^ 31 <= ev_result e < 2 ^ 31 ->
  (k = QKernel -> name' <> PI_KERNEL_INFO_PROGRAM) ->
  pending r (serialize rec ++ tail) ->
  exists value r', load (ev_memory e) p n = Some value /\
    piPluginInit (query_call k obj' dev' name' n' p' q') r = Ok (ev_result e, r') /\
    load (mem r') p' n = Some value /\
    (forall a, ~ (p' <= a < p' + n) -> mem r' !! a = mem r !! a).
Proof.
  intros He Hrec Hf Hp Hp' Hn Hres Hk Hpend.
  destruct Hrec as (Hid & Hrv & outs & h & _ & _ & Houts & Hso & _). rewrite He in Hid, Houts.
  assert (exists v rest, outs = [v] :: rest /\ load (ev_memory e) p n = Some v) as (v & os & -> & Hv).
  { assert (exists l, small_outputs_of (query_call k obj dev name n p q) = (p, n) :: l) as [l El]
      by (destruct k; by eexists).
    rewrite El in Houts. apply Forall2_cons_inv_l in Houts as (o & os & Ho & _ & ->).
    unfold saved_at in Ho. cbn [fst snd] in Ho. rewrite (proj2 (Z.eqb_neq _ _) Hp) in Ho.
    destruct Ho as (v & -> & [[? _] | Hv]); [lia |]. by exists v, os. }
  exists v. eexists. split; [done |].
  assert (result rec = ev_result e) as Hr.
  { unfold result. rewrite Hrv, signed_wrap by lia. by apply signed_small. }
  assert (length v = Z.to_nat n) as Hlv by (by eapply load_length).
  rewrite <-Hr. rewrite (query_replayed k obj' dev' name' n' p' q' rec tail r v (mjoin os));
    [| | done | done | | done | by left].
  - rewrite (proj2 (Z.eqb_neq _ _) Hp'). split; [done |]. cbn [mem set_mem set_memory]. split.
    + replace n with (Z.of_nat (length v)) by lia. apply load_store.
    + intros a Ha. apply store_outside. lia.
  - intros ->. left. by apply Hk.
  - rewrite Hid. by destruct k.
Qed.

(** ** Calls that cannot be replayed *)

(** The queries that only have the basic handler, and the transfers whose
    memory object was skipped. *)
Definition unsaved (skip : bool) (call : Call.t) : bool :=
  match call with
  | Call.piQueueGetInfo _ _ _ _ _ | Call.piMemGetInfo _ _ _ _ _
  | Call.piMemImageGetInfo _ _ _ _ _ | Call.piProgramGetInfo _ _ _ _ _ => true
  | Call.piEnqueueMemBufferMap _ _ _ _ _ _ _ _ _ _
  | Call.piEnqueueMemBufferRead _ _ _ _ _ _ _ _ _ => skip
  | _ => false
  end.

(** The replay of a queue, memory object, image or program query, and of a
    buffer map or read recorded with [--skip-mem-objects], takes the first
    element of an empty field of its record. *)
Theorem unsaved_output skip e rec call tail r :
  records skip e rec -> unsaved skip (ev_call e) = true -> Call.kind call = Call.kind (ev_call e) ->
  fits rec -> pending r (serialize rec ++ tail) -> piPluginInit call r = UB.
Proof.
  intros (Hid & _ & outs & h & Hs & _ & Houts & Hso & Hmo) Hu Hk Hf Hp. rewrite <-Hk in Hid.
  unfold mem_objs_of, saves_mem_obj in Hmo. rewrite Hs in Hmo.
  destruct (ev_call e); try discriminate Hu; cbn [small_outputs_of unsaved] in *;
    try (apply list.Forall2_nil_inv_l in Houts; subst outs; cbn in Hso);
    try (subst skip; cbn [negb andb] in Hmo);
    destruct call; try discriminate Hk;
    (erewrite step_from; [| reflexivity | done | done | exact Hid]); cbv beta;
    unfold replayGetInfo, lift; rewrite ?Hso, ?Hmo; done.
Qed.

(** A recorded [piMemRetain] stops the replay. *)
Theorem mem_retain_exits skip e rec m m' tail r :
  ev_call e = Call.piMemRetain m -> records skip e rec -> fits rec ->
  pending r (serialize rec ++ tail) -> piPluginInit (Call.piMemRetain m') r = Exit (-1).
Proof.
  intros He (Hid & _) Hf Hp. rewrite He in Hid. cbn [Call.kind] in Hid.
  pose proof (plugin_step (Call.piMemRetain m') rec tail r ltac:(done) Hf Hp) as Hs.
  assert (function_id rec <> kind_id PiApiKind.piMemImageGetInfo) as Hne.
  { rewrite Hid. by intros E%kind_id_inj. }
  cbn [expected_kind] in Hs. by rewrite (proj2 (Z.eqb_neq _ _) Hne) in Hs.
Qed.

(** ** Mapped buffers *)

Lemma align_ge n : n <= align n.
Proof.
  unfold align. pose proof (Z.div_mod (n + 15) 16 ltac:(lia)).
  pose proof (Z.mod_pos_bound (n + 15) 16 ltac:(lia)). lia.
Qed.

Lemma map_recorded skip now instance ret q b bl fl off size n l event ret_map s s' h :
  GRecordHandler s = Some h -> mOS h = trace_path -> mSkipMemObjects h = true ->
  tpCallback skip now (function_with_args_end instance ret
    (Call.piEnqueueMemBufferMap q b bl fl off size n l event ret_map)) s = Ok (tt, s') ->
  exists rec pointer content,
    disk s' !! trace_path = Some (default [] (disk s !! trace_path) ++ serialize rec) /\
    load (Recorder.piEventsWait 1 event (app s)) ret_map 8 = Some pointer /\
    (size = 0 /\ content = [] \/
     load (Recorder.piEventsWait 1 event (app s)) (le_value pointer) size = Some content) /\
    function_id rec = kind_id PiApiKind.piEnqueueMemBufferMap /\ return_value rec = u32 ret /\
    mem_obj_outputs rec = [mem_file_name instance] /\
    disk s' !! buffer_path (mem_file_name instance) = Some (le_bytes 8 size ++ content).
Proof.
  intros Hh Ho Hs E. unfold tpCallback in E.
  apply M_bind_Ok in E as (? & ? & [= <- <-] & E). rewrite Hh in E.
  apply M_bind_Ok in E as ([] & s1 & E1 & E). unfold timestamp_end, with_handler in E1.
  rewrite Hh in E1. injection E1 as <-. unfold handle, with_handler in E.
  cbn [GRecordHandler set_handler] in E. apply M_bind_Ok in E as ([] & s2 & [= <-] & E).
  cbn [mArgHandler mSkipMemObjects] in E. rewrite Hs in E. unfold handleEnqueueMemBufferMap in E.
  apply M_bind_Ok in E as (rec & s3 & E3 & E). unfold new_record, with_handler in E3.
  cbn [GRecordHandler set_handler] in E3. injection E3 as <- <-.
  apply M_bind_Ok in E as (rec' & s4 & E4 & E). unfold save_mem_obj, with_handler in E4.
  cbn [GRecordHandler set_handler] in E4.
  apply M_bind_Ok in E4 as ([] & s5 & [= <-] & E4).
  apply M_bind_Ok in E4 as (pv & s6 & E6 & E4). apply M_bind_Ok in E6 as (pointer & s7 & E7 & [= <- <-]).
  apply load_bytes_Ok in E7 as [-> [[? _] | [_ Hptr]]]; [done |].
  apply M_bind_Ok in E4 as (content & s8 & E8 & E4).
  apply load_bytes_Ok in E8 as [-> Hcontent].
  apply M_bind_Ok in E4 as ([] & s9 & [= <-] & [= <- <-]).
  unfold serialize_to, with_handler in E. cbn [GRecordHandler set_handler set_app set_disk] in E.
  injection E as <-. cbn [app set_handler set_app] in Hptr, Hcontent.
  pose proof (trace_path_buffer instance) as Hne.
  eexists _, pointer, content. cbn [disk set_disk set_app set_handler mOS mLastEventId]. rewrite Ho.
  split; [rewrite lookup_insert_eq, lookup_insert_ne by done; reflexivity |].
  split; [exact Hptr |]. split; [tauto |].
  split; [reflexivity |]. split; [reflexivity |]. split; [reflexivity |].
  rewrite lookup_insert_ne by done. by rewrite lookup_insert_eq.
Qed.

Lemma open_buffer_saved name size content :
  0 <= size < 2 ^ 64 -> file (buffer_path name) = Some (le_bytes 8 size ++ content) ->
  open_buffer name = (size, good content).
Proof.
  intros Hs Hf. unfold open_buffer. rewrite Hf. change (open_stream (Some ?c)) with (good c).
  unfold good at 1 2. rewrite (read_all (le_bytes 8 size) content) by done.
  rewrite overwrite_full by (by rewrite uninit_length).
  by rewrite le_value_le_bytes, wrap_small by lia.
Qed.

Lemma read_content content n : n = Z.of_nat (length content) -> (read n (good content)).1 = content.
Proof. intros Hn. unfold good. rewrite <-(app_nil_r content) at 1. by rewrite read_all. Qed.

(** C24: a mapped buffer.  The recorder saves the bytes the mapped region holds
    once the map has finished; in the replay the program is given the address
    of a new array that holds the same bytes. *)
Theorem buffer_map_replayed skip now instance ret q b bl fl off size n l event ret_map s s' h
    q' b' bl' fl' off' size' n' l' event' ret_map' r :
  GRecordHandler s = Some h -> mOS h = trace_path -> mSkipMemObjects h = true ->
  tpCallback skip now (function_with_args_end instance ret
    (Call.piEnqueueMemBufferMap q b bl fl off size n l event ret_map)) s = Ok (tt, s') ->
  0 < size < 2 ^ 63 -> - 2 ^ 31 <= ret < 2 ^ 31 ->
  (forall p, file p = disk s' !! p) -> can_allocate size = true ->
  0 < ret_map' -> ret_map' + 8 <= event' -> event' + 8 <= heap r -> heap r + size + 32 < 2 ^ 64 ->
  exists rec pointer content,
    load (Recorder.piEventsWait 1 event (app s)) ret_map 8 = Some pointer /\
    load (Recorder.piEventsWait 1 event (app s)) (le_value pointer) size = Some content /\
    disk s' !! trace_path = Some (default [] (disk s !! trace_path) ++ serialize rec) /\
    forall tail, fits rec -> pending r (serialize rec ++ tail) ->
    exists r', piPluginInit
        (Call.piEnqueueMemBufferMap q' b' bl' fl' off' size' n' l' event' ret_map') r = Ok (ret, r') /\
      load (mem r') ret_map' 8 = Some (le_bytes 8 (heap r)) /\
      load (mem r') (heap r) size = Some content /\ heap r ∈ arrays r'.
Proof.
  intros Hh Ho Hs E Hsize Hret Hfile Hc Hp1 Hp2 Hp3 Hp4.
  destruct (map_recorded _ _ _ _ _ _ _ _ _ _ _ _ _ _ _ _ _ Hh Ho Hs E)
    as (rec & pointer & content & Htr & Hptr & [[? _] | Hcont] & Hid & Hrv & Hmo & Hbuf); [lia |].
  exists rec, pointer, content. split; [done |]. split; [done |]. split; [done |].
  intros tail Hf Hp. pose proof (load_length _ _ _ _ Hcont) as Hlen.
  erewrite step_from; [| reflexivity | done | done | exact Hid]. cbv beta.
  rewrite Hmo. erewrite M_run_bind; [| reflexivity].
  rewrite (open_buffer_saved _ size content) by (lia || by rewrite Hfile).
  cbv beta iota. erewrite M_run_bind; [| unfold new_array; rewrite Hc; reflexivity].
  rewrite read_content by lia. erewrite M_run_bind; [| apply write_run; cbn; lia].
  unfold write_ptr. erewrite M_run_bind; [| apply write_run; lia].
  erewrite M_run_bind; [| unfold new_handle; erewrite M_run_bind; [| reflexivity];
    unfold write_ptr; erewrite M_run_bind; [| apply write_run; lia]; reflexivity].
  eexists. split.
  { unfold mret, M_mret, result. rewrite Hrv, signed_wrap, signed_small by lia. reflexivity. }
  cbn [mem heap arrays set_mem set_memory set_GTrace].
  split; [| split; [| by apply elem_of_union_l, elem_of_singleton]].
  - rewrite !load_store_away by (rewrite ?length_le_bytes; pose proof (align_ge (size + 1)); lia).
    apply load_store_n. by rewrite length_le_bytes.
  - rewrite !load_store_away by (rewrite ?length_le_bytes; pose proof (align_ge (size + 1)); lia).
    apply load_store_n. lia.
Qed.
End data.

(** ** Concrete replays *)

Definition sample_event (call : Call.t) : event :=
  {| ev_call := call; ev_result := 0; ev_instance := 1; ev_begin := 2000; ev_end := 9000;
     ev_memory := sample_memory |}.

Lemma query_outputs_witness : let _ := sample_process sample_files in
  exists value r', load sample_memory 768 11 = Some value /\
    piPluginInit (Call.piDeviceGetInfo 1 2 11 1024 0) sample_replayer = Ok (0, r') /\
    load (mem r') 1024 11 = Some value.
Proof.
  intros P.
  destruct (query_outputs false (sample_event (Call.piDeviceGetInfo 1 2 11 768 0)) sample_record
    QDevice 1 0 2 11 768 0 1 0 2 11 1024 0 [] sample_replayer) as (value & r' & H1 & H2 & H3 & _).
  - reflexivity.
  - split; [reflexivity |]. split; [reflexivity |].
    exists [[ #"device name"]; []], (handler_for (sample_handler false) 1 4 0).
    split; [reflexivity |]. split; [reflexivity |]. split; [| split; reflexivity].
    repeat apply List.Forall2_cons; [| reflexivity | apply List.Forall2_nil].
    exists #"device name". split; [reflexivity | right; vm_compute; reflexivity].
  - vm_compute. reflexivity.
  - discriminate.
  - discriminate.
  - reflexivity.
  - split; [discriminate | reflexivity].
  - discriminate.
  - apply sample_pending. vm_compute. reflexivity.
  - exists value, r'. exact (conj H1 (conj H2 H3)).
Defined.

(** A record without outputs. *)
Definition bare_record (id : Z) : APICall :=
  {| function_id := id; time_start := 1; time_end := 8; return_value := 0; args := [];
     small_inputs := []; small_outputs := []; mem_obj_inputs := []; mem_obj_outputs := [] |}.
Definition bare_files (id : Z) : gmap bytes bytes := <[trace_path := serialize (bare_record id) ++ []]> ∅.

Lemma bare_records skip call :
  sample_kind_id (Call.kind call) = function_id (bare_record (sample_kind_id (Call.kind call))) ->
  small_outputs_of call = [] -> mem_objs_of (handler_for (sample_handler skip) 1 0 0) call = [] ->
  records skip (sample_event call) (bare_record (sample_kind_id (Call.kind call))).
Proof.
  intros _ Hs Hm. split; [reflexivity |]. split; [reflexivity |].
  exists [], (handler_for (sample_handler skip) 1 0 0).
  change (ev_call (sample_event call)) with call. rewrite Hs, Hm.
  repeat split. constructor.
Qed.

Lemma unsaved_output_witness : let _ := sample_process (bare_files 13) in
  piPluginInit (Call.piQueueGetInfo 1 2 8 1024 0) sample_replayer = UB.
Proof.
  intros P.
  refine (unsaved_output false (sample_event (Call.piQueueGetInfo 1 2 8 768 0)) (bare_record 13)
    (Call.piQueueGetInfo 1 2 8 1024 0) [] sample_replayer _ eq_refl eq_refl _ _).
  - apply (bare_records false (Call.piQueueGetInfo 1 2 8 768 0)); reflexivity.
  - vm_compute. reflexivity.
  - right. split; [reflexivity | vm_compute; reflexivity].
Defined.

Lemma mem_retain_exits_witness : let _ := sample_process (bare_files 21) in
  piPluginInit (Call.piMemRetain 64) sample_replayer = Exit (-1).
Proof.
  intros P.
  refine (mem_retain_exits false (sample_event (Call.piMemRetain 32)) (bare_record 21) 32 64 []
    sample_replayer eq_refl _ _ _).
  - apply (bare_records false (Call.piMemRetain 32)); reflexivity.
  - vm_compute. reflexivity.
  - right. split; [reflexivity | vm_compute; reflexivity].
Defined.

Lemma buffer_map_replayed_witness : exists s' rec pointer content,
  tpCallback false 9000 (function_with_args_end 7 0
    (Call.piEnqueueMemBufferMap 1 2 1 1 0 8 0 0 64 256)) (sample_started false) = Ok (tt, s') /\
  load sample_memory 256 8 = Some pointer /\
  load sample_memory (le_value pointer) 8 = Some content /\
  disk s' !! trace_path = Some ([] ++ serialize rec).
Proof.
  destruct (is_ok_true (tpCallback false 9000 (function_with_args_end 7 0
    (Call.piEnqueueMemBufferMap 1 2 1 1 0 8 0 0 64 256)) (sample_started false))) as [[[] s'] E];
    [vm_compute; reflexivity |].
  set (P := sample_process (disk s')).
  destruct (buffer_map_replayed false 9000 7 0 1 2 1 1 0 8 0 0 64 256 (sample_started false) s'
    (sample_handler false) 1 2 1 1 0 8 0 0 1040 1024 sample_replayer eq_refl eq_refl eq_refl E)
    as (rec & pointer & content & H1 & H2 & H3 & _);
    try reflexivity; try (split; (discriminate || reflexivity)); try discriminate.
  exists s', rec, pointer, content. exact (conj E (conj H1 (conj H2 H3))).
Defined.
