(* ===== verification/ReplayHandles.v ===== *)
(** * ReplayHandles: the kernels and memory objects a replay creates

    The replay plugin answers two queries from maps it keeps itself: the program
    of a kernel and the context of a memory object.  The maps stay right over
    any run of plugin calls. *)

From S2P Require Import Prelude Streams Trace PiCall Replayer Sample ReplayProps ReplayData.

Section handles.
Context `{Thread, Process, Protobuf APICall, PiHeaders}.
Implicit Types (r : replayer).

(** Handle [h] was created for [v], in one of the two maps. *)
Inductive handle_map : Set := KernelPrograms | MemContexts.
Definition map_of (w : handle_map) (r : replayer) : gmap Z Z :=
  match w with KernelPrograms => GKernelProgramMap r | MemContexts => GMemContextMap r end.
Definition tracked (w : handle_map) (h v : Z) (r : replayer) : Prop :=
  map_of w r !! h = Some v /\ h < heap r.

Section tracking.
Context (w : handle_map) (h v : Z).
Abbreviation tracked := (tracked w h v).

Definition tracks {A} (m : M replayer A) : Prop :=
  forall r, tracked r -> holds m r (fun _ r' => tracked r').

Lemma tracks_ret {A} (a : A) : tracks (mret a).
Proof. intros r Hr. by apply holds_ret. Qed.
Lemma tracks_bind {A B} (m : M replayer A) (f : A -> M replayer B) :
  tracks m -> (forall a, tracks (f a)) -> tracks (m ≫= f).
Proof.
  intros Hm Hf r Hr. apply holds_bind. eapply holds_mono; [by apply Hm |]. intros a r1 Hr1.
  by apply Hf.
Qed.
Lemma tracks_lift {A} (x : outcome A) : tracks (lift x).
Proof. intros r Hr. by apply holds_lift. Qed.
Lemma tracks_run {A} (f : replayer -> outcome (A * replayer)) :
  (forall r a r', f r = Ok (a, r') ->
     map_of w r' = map_of w r /\ heap r <= heap r') -> tracks f.
Proof. intros Hf r [Hr Hh] a r' E. apply Hf in E as [Hm Hle]. split; [congruence | lia]. Qed.

Ltac by_run := intros ? ? ?; repeat case_match; try done; intros [= <- <-]; destruct w;
  split; try done; cbn; try lia.

Lemma tracks_write p l : tracks (write p l).
Proof. apply tracks_run. unfold write. by_run. Qed.
Lemma tracks_new_int : tracks new_int.
Proof. apply tracks_run. unfold new_int. by_run. Qed.
Lemma tracks_delete p : tracks (delete_array p).
Proof. apply tracks_run. unfold delete_array. by_run. Qed.

(** Arrays have no negative length. *)
Lemma tracks_new_array n : 0 <= n -> tracks (new_array n).
Proof.
  intros Hn. apply tracks_run. unfold new_array. by_run; pose proof (align_ge (n + 1)); lia.
Qed.
Lemma tracks_new_handle p : tracks (new_handle p).
Proof.
  apply tracks_bind; [apply tracks_new_int |]. intros.
  apply tracks_bind; [apply tracks_write |]. intros. apply tracks_ret.
Qed.
Lemma tracks_new_handles n p : tracks (new_handles n p).
Proof.
  revert p. induction n as [|n IH]; intros p; [apply tracks_ret |].
  apply tracks_bind; [apply tracks_new_handle |]. intros. apply IH.
Qed.
Lemma tracks_next_record k : tracks (next_record k).
Proof.
  apply tracks_bind; [| intros []; apply tracks_bind; [| intros rec; apply tracks_bind]].
  - apply tracks_run. unfold ensureTraceOpened. by_run.
  - apply tracks_run. unfold zoom. intros r a r' E. apply outcome_bind_Ok in E as ([a' s] & _ & E).
    injection E as <- <-. by destruct w.
  - apply tracks_run. unfold dieIfUnexpected. by_run.
  - intros. apply tracks_ret.
Qed.

(** A new handle is none of the old ones. *)
Lemma new_handle_fresh p r a r' :
  tracked r -> new_handle p r = Ok (a, r') -> tracked r' /\ a <> h /\ a = heap r /\ heap r < heap r'.
Proof.
  intros Hr E. split; [by eapply tracks_new_handle |].
  apply M_bind_Ok in E as (a1 & r1 & [= <- <-] & E).
  apply M_bind_Ok in E as ([] & r2 & E & [= <- <-]). destruct Hr as [_ Hh].
  assert (heap r2 = heap r + 16) as Hr2.
  { unfold write_ptr, write in E. cbn in E. destruct (p =? 0); [done |]. by injection E as <-. }
  repeat split; lia.
Qed.

Lemma tracks_insert_kernel p value (f : Z -> M replayer Z) : (forall a, tracks (f a)) ->
  tracks (k ← new_handle p;
          _ ← modify (fun r => set_kernel_program (<[k := value]> (GKernelProgramMap r)) r); f k).
Proof.
  intros Hf r Hr. apply holds_bind. intros a r1 E.
  destruct (new_handle_fresh _ _ _ _ Hr E) as ([Hm Hh] & Hne & _).
  apply holds_bind. intros [] r2 [= <-]. apply Hf. split; [| done].
  destruct w; cbn in *; [by rewrite lookup_insert_ne | done].
Qed.
Lemma tracks_insert_mem p value (f : Z -> M replayer Z) : (forall a, tracks (f a)) ->
  tracks (k ← new_handle p;
          _ ← modify (fun r => set_mem_context (<[k := value]> (GMemContextMap r)) r); f k).
Proof.
  intros Hf r Hr. apply holds_bind. intros a r1 E.
  destruct (new_handle_fresh _ _ _ _ Hr E) as ([Hm Hh] & Hne & _).
  apply holds_bind. intros [] r2 [= <-]. apply Hf. split; [| done].
  destruct w; cbn in *; [done | by rewrite lookup_insert_ne].
Qed.

Lemma tracks_at_kernel k : tracks (fun r => let '(x, m) := at_key (GKernelProgramMap r) k in
                                           Ok (x, set_kernel_program m r)).
Proof.
  intros r [Hm Hh] a r'. unfold at_key. destruct (GKernelProgramMap r !! k) eqn:E;
    intros [= <- <-]; (split; [| done]); destruct w; cbn in *; try done.
  rewrite lookup_insert_ne; [done | congruence].
Qed.
Lemma tracks_at_mem k : tracks (fun r => let '(x, m) := at_key (GMemContextMap r) k in
                                        Ok (x, set_mem_context m r)).
Proof.
  intros r [Hm Hh] a r'. unfold at_key. destruct (GMemContextMap r !! k) eqn:E;
    intros [= <- <-]; (split; [| done]); destruct w; cbn in *; try done.
  rewrite lookup_insert_ne; [done | congruence].
Qed.

(** The sizes of allocations are [size_t]. *)
Definition sizes_ok (call : Call.t) : Prop :=
  match call with
  | Call.piextUSMDeviceAlloc _ _ _ _ n _ | Call.piextUSMHostAlloc _ _ _ n _ => 0 <= n
  | _ => True
  end.

Ltac tracks := repeat first
  [ apply tracks_next_record | apply tracks_ret | apply tracks_lift | apply tracks_write
  | apply tracks_new_handles | apply tracks_delete
  | apply tracks_insert_kernel; intros ? | apply tracks_insert_mem; intros ?
  | apply tracks_new_handle | apply tracks_new_array; assumption
  | apply tracks_at_kernel | apply tracks_at_mem
  | apply tracks_bind; [| intros ?]
  | match goal with |- tracks (match open_buffer ?x with _ => _ end) =>
      pose proof (open_buffer_size x); destruct (open_buffer x) end
  | match goal with |- tracks (match ?x with _ => _ end) => destruct x end ].

Lemma plugin_tracks call : sizes_ok call -> tracks (piPluginInit call).
Proof.
  intros Hs. destruct call; cbn [piPluginInit sizes_ok] in *;
    first [apply tracks_ret | apply tracks_bind; [apply tracks_next_record | intros rec; cbv beta]];
    unfold replayGetInfo, write_ptr; tracks.
Qed.

Lemma run_tracks calls : Forall sizes_ok calls -> tracks (mapM piPluginInit calls).
Proof.
  induction 1 as [|call calls Hc Hcs IH]; cbn [mapM]; [apply tracks_ret |].
  apply tracks_bind; [by apply plugin_tracks |]. intros x.
  apply tracks_bind; [apply IH |]. intros vs. apply tracks_ret.
Qed.
End tracking.

(** C25: the handle [piKernelCreate] stores stays bound to the kernel's program:
    after any run of plugin calls, asking the kernel for its program stores that
    program, whatever the trace recorded. *)
Theorem kernel_program prog kname ret_kernel r v r1 calls vs r2 rec tail n p q :
  piKernelCreate prog kname ret_kernel r = Ok (v, r1) ->
  Forall sizes_ok calls -> mapM piPluginInit calls r1 = Ok (vs, r2) ->
  fits rec -> pending r2 (serialize rec ++ tail) ->
  function_id rec = kind_id PiApiKind.piKernelGetInfo -> has_output rec = true -> p <> 0 ->
  exists kernel r3,
    load (mem r1) ret_kernel 8 = Some (le_bytes 8 kernel) /\
    piPluginInit (Call.piKernelGetInfo kernel PI_KERNEL_INFO_PROGRAM n p q) r2 = Ok (result rec, r3) /\
    load (mem r3) p 8 = Some (le_bytes 8 prog).
Proof.
  intros E Hs Er Hf Hp Hid Ho Hpn. unfold piKernelCreate in E.
  apply M_bind_Ok in E as (rec0 & r01 & E0 & E). apply M_bind_Ok in E as (k & r02 & E1 & E).
  apply M_bind_Ok in E as ([] & r03 & [= <-] & [= _ <-]).
  assert (k = heap r01 /\ heap r02 = heap r01 + 16 /\
    load (mem r02) ret_kernel 8 = Some (le_bytes 8 k)) as (-> & Hheap & Hload).
  { apply M_bind_Ok in E1 as (a1 & r11 & [= <- <-] & E1).
    apply M_bind_Ok in E1 as ([] & r12 & E1 & [= <- <-]).
    unfold write_ptr, write in E1. cbn [le_bytes] in E1. destruct (ret_kernel =? 0); [done |].
    injection E1 as <-. split; [done |]. split; [done |]. cbn [mem set_mem set_memory].
    apply (load_store_n _ _ (le_bytes 8 (heap r01))). by rewrite length_le_bytes. }
  assert (tracked KernelPrograms (heap r01) prog r2) as [Hm _].
  { eapply run_tracks; [exact Hs | | exact Er]. split; [apply lookup_insert_eq |]. cbn. lia. }
  exists (heap r01). unfold has_output in Ho.
  destruct (small_outputs rec) as [|out outs] eqn:Hso; [done |]. cbn [map_of] in Hm.
  set (m1 := store (mem r2) p out). set (r2' := set_mem m1 (set_GTrace (good tail) r2)).
  eexists. split; [exact Hload |]. split.
  - erewrite step_from; [| reflexivity | done | done | exact Hid]. cbv beta.
    assert (replayGetInfo rec p q (set_GTrace (good tail) r2) = Ok (tt, r2')) as Eg.
    { unfold replayGetInfo. rewrite Hso. erewrite M_run_bind; [| reflexivity].
      rewrite (proj2 (Z.eqb_neq _ _) Hpn). by apply write_run. }
    rewrite (M_run_bind _ _ _ _ _ Eg). rewrite Z.eqb_refl, (proj2 (Z.eqb_neq _ _) Hpn). cbn [andb negb].
    assert ((program ← (fun r => let '(x, m) := at_key (GKernelProgramMap r) (heap r01) in
                              Ok (x, set_kernel_program m r)); write_ptr p program) r2' =
      Ok (tt, set_mem (store (mem r2') p (le_bytes 8 prog)) r2')) as Ew.
    { erewrite M_run_bind; [| unfold at_key, r2'; cbn; rewrite Hm; reflexivity].
      unfold write_ptr. by rewrite write_run. }
    rewrite (M_run_bind _ _ _ _ _ Ew). reflexivity.
  - cbn [mem set_mem set_memory]. apply load_store_n. by rewrite length_le_bytes.
Qed.
End handles.

(** A kernel is created from program 77 and asked for it. *)
Definition kernel_query_record : APICall :=
  {| function_id := 33; time_start := 1; time_end := 8; return_value := 0; args := [];
     small_inputs := []; small_outputs := [le_bytes 8 1]; mem_obj_inputs := [];
     mem_obj_outputs := [] |}.
Definition kernel_files : gmap bytes bytes :=
  <[trace_path := serialize (bare_record 31) ++ serialize kernel_query_record ++ []]> ∅.

Lemma kernel_program_witness : let _ := sample_process kernel_files in
  exists r1 kernel r3,
    piKernelCreate 77 0 1024 sample_replayer = Ok (0, r1) /\
    piPluginInit (Call.piKernelGetInfo kernel PI_KERNEL_INFO_PROGRAM 8 2048 0) r1 = Ok (0, r3) /\
    load (mem r3) 2048 8 = Some (le_bytes 8 77).
Proof.
  intros P.
  destruct (is_ok_true (piKernelCreate 77 0 1024 sample_replayer)) as [[v r1] E];
    [vm_compute; reflexivity |].
  assert (v = 0 /\ GTrace r1 = good (serialize kernel_query_record ++ [])) as [-> Hg].
  { assert (match piKernelCreate 77 0 1024 sample_replayer with
            | Ok (v, r1) => v = 0 /\ GTrace r1 = good (serialize kernel_query_record ++ [])
            | _ => False end) as X by (vm_compute; split; reflexivity).
    rewrite E in X. exact X. }
  destruct (kernel_program 77 0 1024 sample_replayer 0 r1 [] [] r1 kernel_query_record [] 8 2048 0 E
    (Forall_nil_2 _) eq_refl ltac:(vm_compute; reflexivity) (or_introl Hg) eq_refl eq_refl
    ltac:(discriminate)) as (kernel & r3 & _ & H1 & H2).
  exists r1, kernel, r3. exact (conj E (conj H1 H2)).
Defined.
