(* ===== verification/SelectBinary.v ===== *)
(** * SelectBinary: threads that select a binary at the same time

    [handleSelectBinary] of lib/plugin_record/record_handler.cpp guards the
    collection of the device binaries with [GBinariesCollected] and
    [GBinariesMutex].  Here its statements are steps of any number of threads
    on the shared flag and mutex, without the files: [select_step_advance] says that
    these are the steps of Recorder.select_step, which has the statements. *)

From S2P Require Import Prelude Streams Trace PiCall Images Recorder.

(** Where a thread is in the handler. *)
Inductive pc : Set :=
  | Check      (* if (!GBinariesCollected) *)
  | Lock       (* std::lock_guard lock{GBinariesMutex} *)
  | Recheck    (* if (GBinariesCollected) *)
  | SetFlag    (* GBinariesCollected = true *)
  | Collect    (* the loop that writes the binaries, then the end of the block *)
  | Record_    (* the record is filled and serialized *)
  | Returned   (* after serialize(call, os) *)
  | Dropped    (* after the return under the lock *).

#[global] Instance pc_eq_dec : EqDecision pc.
Proof. solve_decision. Defined.

Record state := {
  GBinariesCollected : bool;
  GBinariesMutex : option nat;
  collections : nat;
  threads : list pc;
}.

Definition start (n : nat) : state :=
  {| GBinariesCollected := false; GBinariesMutex := None; collections := 0;
     threads := replicate n Check |}.

(** One statement of a thread that is alone on the shared state: the new flag,
    mutex, number of collections and place, when the thread is not blocked. *)
Definition advance (i : nat) (p : pc) (s : state) : option (bool * option nat * nat * pc) :=
  let flag := GBinariesCollected s in
  let mutex := GBinariesMutex s in
  let n := collections s in
  match p with
  | Check => Some (flag, mutex, n, if flag then Record_ else Lock)
  | Lock => match mutex with None => Some (flag, Some i, n, Recheck) | Some _ => None end
  | Recheck => if flag then Some (flag, None, n, Dropped) else Some (flag, mutex, n, SetFlag)
  | SetFlag => Some (true, mutex, n, Collect)
  | Collect => Some (flag, None, S n, Record_)
  | Record_ => Some (flag, mutex, n, Returned)
  | Returned | Dropped => None
  end.

Inductive step : state -> state -> Prop :=
  | step_thread s i p flag mutex n p' :
      threads s !! i = Some p -> advance i p s = Some (flag, mutex, n, p') ->
      step s {| GBinariesCollected := flag; GBinariesMutex := mutex; collections := n;
                threads := <[i := p']> (threads s) |}.

(** ** The invariant *)

Definition inside (p : pc) : Prop := p = Recheck \/ p = SetFlag \/ p = Collect.

Record invariant (s : state) : Prop := {
  (** The mutex is held exactly by the thread inside the block. *)
  inv_mutex i p : threads s !! i = Some p -> inside p -> GBinariesMutex s = Some i;
  inv_owner i : GBinariesMutex s = Some i -> exists p, threads s !! i = Some p /\ inside p;
  (** Only a thread before the flag can set it. *)
  inv_flag i : threads s !! i = Some SetFlag -> GBinariesCollected s = false;
  (** Whoever is past the block, or collecting, has seen the flag set. *)
  inv_seen i p : threads s !! i = Some p ->
    p = Collect \/ p = Record_ \/ p = Returned \/ p = Dropped -> GBinariesCollected s = true;
  (** The binaries are collected once, by the thread that set the flag. *)
  inv_collections :
    collections s =
    if GBinariesCollected s then (if decide (Collect ∈ threads s) then 0 else 1)%nat else 0%nat;
}.

Lemma invariant_start n : invariant (start n).
Proof.
  assert (forall i p, replicate n Check !! i = Some p -> p = Check) as Hc
    by (intros i p [-> _]%lookup_replicate_1; done).
  constructor; cbn.
  - intros i p ->%Hc. by intros [|[|]].
  - done.
  - by intros i ?%Hc.
  - intros i p ->%Hc. by intros [|[|[|]]].
  - done.
Qed.

Lemma lookup_threads (l : list pc) i p p' j q :
  l !! i = Some p -> <[i := p']> l !! j = Some q ->
  (j = i /\ q = p') \/ (j <> i /\ l !! j = Some q).
Proof.
  intros Hi Hj. destruct (decide (j = i)) as [->|Hne].
  - left. rewrite list_lookup_insert_eq in Hj by (by eapply lookup_lt_Some). by simplify_eq.
  - right. by rewrite list_lookup_insert_ne in Hj.
Qed.

Lemma collecting_insert (l : list pc) i p p' :
  l !! i = Some p -> p <> Collect -> p' <> Collect -> Collect ∈ <[i := p']> l <-> Collect ∈ l.
Proof.
  intros Hi Hp Hp'. rewrite !list_elem_of_lookup. split.
  - intros (j & Hj). destruct (lookup_threads l i p p' j Collect Hi Hj) as [[-> ?] | [? ?]]; [done |]. eauto.
  - intros (j & Hj). exists j. rewrite list_lookup_insert_ne; [done |]. congruence.
Qed.

(** The only thread inside is the owner of the mutex. *)
Lemma alone s i p j q :
  invariant s -> threads s !! i = Some p -> inside p -> threads s !! j = Some q -> inside q -> i = j.
Proof.
  intros Hs Hi Hp Hj Hq. pose proof (inv_mutex s Hs i p Hi Hp). pose proof (inv_mutex s Hs j q Hj Hq).
  congruence.
Qed.

Lemma no_collector s i p :
  invariant s -> threads s !! i = Some p -> inside p -> p <> Collect -> Collect ∉ threads s.
Proof.
  intros Hs Hi Hp Hne (j & Hj)%list_elem_of_lookup.
  assert (i = j) as -> by (eapply alone; eauto; by right; right). congruence.
Qed.

Lemma invariant_step s s' : invariant s -> step s s' -> invariant s'.
Proof.
  intros Hs Hst. destruct Hst as [s i p flag mutex n p' Hi Ha].
  pose proof (inv_mutex s Hs) as Hm. pose proof (inv_flag s Hs) as Hf.
  pose proof (inv_seen s Hs) as Hseen. pose proof (inv_collections s Hs) as Hc.
  constructor; cbn [GBinariesCollected GBinariesMutex collections threads].
  - intros j q Hj Hq. destruct (lookup_threads _ _ _ _ _ _ Hi Hj) as [[-> ->] | [Hne Hj']].
    + destruct p; cbn in Ha; repeat case_match; simplify_eq; try done;
        try (by destruct Hq as [|[|]]); apply (Hm i _ Hi); unfold inside; auto.
    + specialize (Hm j q Hj' Hq). destruct p; cbn in Ha; repeat case_match; simplify_eq; try done;
        exfalso; apply Hne; eapply alone; eauto; unfold inside; auto.
  - intros j Hj. pose proof (inv_owner s Hs) as Ho.
    assert (i < length (threads s))%nat as Hlt by (by eapply lookup_lt_Some).
    destruct (decide (j = i)) as [-> | Hne].
    + exists p'. rewrite list_lookup_insert_eq by done. split; [done |].
      destruct p; cbn in Ha; repeat case_match; simplify_eq; unfold inside; auto;
        destruct (Ho i ltac:(done)) as (q & Hq & Hins); rewrite Hi in Hq; injection Hq as <-;
        by destruct Hins as [|[|]].
    + rewrite list_lookup_insert_ne by done. apply Ho.
      destruct p; cbn in Ha; repeat case_match; simplify_eq; done.
  - intros j Hj. destruct (lookup_threads _ _ _ _ _ _ Hi Hj) as [[-> Hq] | [Hne Hj']].
    + destruct p; cbn in Ha; repeat case_match; simplify_eq; done.
    + specialize (Hf j Hj'). destruct p; cbn in Ha; repeat case_match; simplify_eq; try done.
      exfalso; apply Hne. eapply alone; [done | exact Hj' | | exact Hi |]; unfold inside; auto.
  - intros j q Hj Hq. destruct (lookup_threads _ _ _ _ _ _ Hi Hj) as [[-> ->] | [Hne Hj']].
    + destruct p; cbn in Ha; repeat case_match; simplify_eq; try done;
        try (by destruct Hq as [|[|[|]]]); by eapply Hseen; eauto.
    + specialize (Hseen j q Hj' Hq). destruct p; cbn in Ha; repeat case_match; simplify_eq; done.
  - assert (p <> SetFlag -> p <> Collect -> flag = GBinariesCollected s /\ n = collections s /\
      p' <> Collect) as Hother
      by (intros; destruct p; cbn in Ha; repeat case_match; simplify_eq; by repeat split).
    destruct (decide (p = SetFlag)) as [-> | Hp1]; [| destruct (decide (p = Collect)) as [-> | Hp2]].
    + cbn in Ha. simplify_eq. rewrite (Hf i Hi) in Hc. rewrite decide_True; [done |].
      apply list_elem_of_lookup. exists i. apply list_lookup_insert_eq. by eapply lookup_lt_Some.
    + cbn in Ha. simplify_eq. rewrite (Hseen i Collect Hi) in * by auto.
      rewrite decide_True in Hc by (apply list_elem_of_lookup; eauto). rewrite Hc.
      rewrite decide_False; [done |]. intros (j & Hj)%list_elem_of_lookup.
      destruct (lookup_threads _ _ _ _ _ _ Hi Hj) as [[_ ?] | [Hne Hj']]; [done |].
      apply Hne. eapply alone; [done | exact Hj' | | exact Hi |]; unfold inside; auto.
    + destruct (Hother Hp1 Hp2) as (-> & -> & Hp'). rewrite Hc. destruct (GBinariesCollected s); [| done].
      apply decide_ext. symmetry. by apply collecting_insert with p.
Qed.

Lemma reachable_invariant n s : rtc step (start n) s -> invariant s.
Proof.
  intros Hr. pose proof (invariant_start n) as Hi. revert Hi.
  induction Hr as [|s1 s2 s3 Hst Hr IH]; [done |]. intros Hi. by apply IH, (invariant_step s1).
Qed.

Lemma reachable_threads n s : rtc step (start n) s -> length (threads s) = n.
Proof.
  intros Hr. assert (forall s s', step s s' -> length (threads s') = length (threads s)) as Hst
    by (intros ? ? []; apply length_insert).
  enough (length (threads s) = length (threads (start n))) as -> by apply length_replicate.
  induction Hr as [|s1 s2 s3 H12 Hr IH]; [done |]. rewrite IH. by apply Hst.
Qed.

(** ** Theorems *)

Definition finished (p : pc) : Prop := p = Returned \/ p = Dropped.

(** The statements a thread still has to run, at most. *)
Definition remaining (p : pc) : nat :=
  match p with
  | Check => 6 | Lock => 5 | Recheck => 4 | SetFlag => 3 | Collect => 2 | Record_ => 1
  | Returned | Dropped => 0
  end.
Fixpoint work (l : list pc) : nat :=
  match l with [] => 0 | p :: l => remaining p + work l end.

Lemma work_insert l i p p' : l !! i = Some p -> (remaining p' < remaining p)%nat ->
  (work (<[i := p']> l) < work l)%nat.
Proof.
  revert i. induction l as [|q l IH]; intros [|i] Hi Hr; try done; cbn in *.
  - simplify_eq. lia.
  - apply Nat.add_lt_mono_l. by apply IH.
Qed.

Lemma step_work s s' : step s s' -> (work (threads s') < work (threads s))%nat.
Proof.
  intros [s1 i p flag mutex n p' Hi Ha]. apply (work_insert _ _ _ _ Hi).
  destruct p; cbn in Ha; repeat case_match; simplify_eq; cbn; lia.
Qed.

Lemma progress s : invariant s -> Forall finished (threads s) \/ exists s', step s s'.
Proof.
  intros Hs. assert (forall p, Decision (finished p)) as Hdec by (intros; unfold finished; apply _).
  destruct (decide (Forall finished (threads s))) as [|Hn]; [by left | right].
  assert (exists i p, threads s !! i = Some p /\ ~ finished p) as (i & p & Hi & Hp).
  { apply not_Forall_Exists, list.Exists_exists in Hn as (p & (i & Hi)%list_elem_of_lookup & Hp); eauto. }
  assert (forall i p, threads s !! i = Some p -> is_Some (advance i p s) -> exists s', step s s') as Hgo.
  { intros j q Hj [[[[flag mutex] n] q'] Ha]. eexists. by eapply step_thread. }
  destruct p; try (by exfalso; apply Hp; unfold finished; auto);
    try (by eapply Hgo; [exact Hi |]; cbn; try destruct (GBinariesCollected s); eexists).
  destruct (GBinariesMutex s) as [j|] eqn:Em.
  - destruct (inv_owner s Hs j Em) as (q & Hj & Hq). eapply Hgo; [exact Hj |].
    destruct Hq as [-> | [-> | ->]]; cbn; try destruct (GBinariesCollected s); by eexists.
  - eapply Hgo; [exact Hi |]. cbn. rewrite Em. by eexists.
Qed.

Lemma finishes s : invariant s -> exists s', rtc step s s' /\ Forall finished (threads s').
Proof.
  remember (work (threads s)) as w eqn:Ew. revert s Ew.
  induction w as [w IH] using lt_wf_ind. intros s -> Hs.
  destruct (progress s Hs) as [Hf | [s1 Hst]]; [by exists s |].
  destruct (IH (work (threads s1)) (step_work _ _ Hst) s1 eq_refl (invariant_step _ _ Hs Hst))
    as (s' & Hr & Hf). exists s'. split; [by eapply rtc_l | done].
Qed.

(** C17: however the threads interleave, no two of them are ever in the guarded
    block, the binaries are never collected twice, and whatever has happened so
    far every thread can still leave the handler; when all have, the binaries
    have been collected exactly once. *)
Theorem collected_once n s :
  rtc step (start n) s -> (0 < n)%nat ->
  (forall i j p q, threads s !! i = Some p -> threads s !! j = Some q ->
     inside p -> inside q -> i = j) /\
  (collections s <= 1)%nat /\
  (Forall finished (threads s) -> collections s = 1%nat) /\
  exists s', rtc step s s' /\ Forall finished (threads s').
Proof.
  intros Hr Hn. pose proof (reachable_invariant n s Hr) as Hs.
  pose proof (inv_collections s Hs) as Hc. split; [| split; [| split]].
  - intros i j p q Hi Hj Hp Hq. by eapply alone.
  - rewrite Hc. repeat case_match; lia.
  - intros Hf. rewrite list.Forall_forall in Hf.
    assert (exists p, threads s !! 0%nat = Some p) as [p Hp].
    { apply lookup_lt_is_Some_2. by rewrite (reachable_threads n). }
    assert (p ∈ threads s) as Hin by (apply list_elem_of_lookup; eauto).
    rewrite (inv_seen s Hs 0%nat p Hp) in Hc by (destruct (Hf p Hin); auto).
    rewrite decide_False in Hc; [done |]. intros Hcol. by destruct (Hf _ Hcol).
  - by apply finishes.
Qed.

(** Runs a schedule, the threads that move next. *)
Fixpoint play (schedule : list nat) (s : state) : option state :=
  match schedule with
  | [] => Some s
  | i :: schedule =>
      p ← threads s !! i;
      '(flag, mutex, n, p') ← advance i p s;
      play schedule {| GBinariesCollected := flag; GBinariesMutex := mutex; collections := n;
                       threads := <[i := p']> (threads s) |}
  end.

Lemma play_reaches schedule s s' : play schedule s = Some s' -> rtc step s s'.
Proof.
  revert s. induction schedule as [|i schedule IH]; intros s E; [injection E as ->; apply rtc_refl |].
  cbn [play] in E. apply bind_Some in E as (p & Hp & E).
  apply bind_Some in E as ([[[flag mutex] n] p'] & Ha & E).
  eapply rtc_l; [by eapply step_thread | by apply IH].
Qed.

Lemma collected_once_witness :
  rtc step (start 1) {| GBinariesCollected := false; GBinariesMutex := Some 0%nat;
                        collections := 0; threads := [Recheck] |} /\
  exists s', rtc step {| GBinariesCollected := false; GBinariesMutex := Some 0%nat;
                         collections := 0; threads := [Recheck] |} s' /\
    Forall finished (threads s').
Proof.
  assert (rtc step (start 1) {| GBinariesCollected := false; GBinariesMutex := Some 0%nat;
                                collections := 0; threads := [Recheck] |}) as Hr
    by (apply (play_reaches [0; 0]%nat); vm_compute; reflexivity).
  split; [exact Hr |].
  exact (proj2 (proj2 (proj2 (collected_once 1 _ Hr (le_n 1))))).
Defined.

(** ** The statements of the handler are these steps *)

Section statements.
Context `{Thread, Plugin, PiHeaders, Protobuf APICall, Protobuf DeviceBinary}.

Definition place_of (p : select_pc) : pc :=
  match p with
  | Recorder.Check => Check | Recorder.Lock => Lock | Recorder.Recheck => Recheck
  | Recorder.SetFlag => SetFlag | Recorder.Collect _ => Collect | Recorder.Fill => Record_
  end.
Definition place_after (p : select_pc) (next : option select_pc) : pc :=
  match next with
  | Some p' => place_of p'
  | None => match p with Recorder.Fill => Returned | _ => Dropped end
  end.

(** The flag is the same, and the mutex is held by somebody in both or in none. *)
Definition agree (s : recording) (flag : bool) (mutex : option nat) : Prop :=
  Recorder.GBinariesCollected s = flag /\ Recorder.GBinariesMutex s = bool_decide (is_Some mutex).

Definition keeps_shared {A} (m : M recording A) : Prop := forall s, holds m s (fun _ s' =>
  Recorder.GBinariesCollected s' = Recorder.GBinariesCollected s /\
  Recorder.GBinariesMutex s' = Recorder.GBinariesMutex s).

Lemma binary_shared binaries i : keeps_shared (collect_binary binaries i).
Proof.
  intros s [] s' E. unfold collect_binary in E. destruct (binary_at (app s) binaries i) as [x|]; [| done].
  destruct (DeviceTargetSpec x); [| done]. by apply M_bind_Ok in E as ([] & ? & [= <-] & [= <-]).
Qed.

Lemma selection_shared res a b c d : keeps_shared (record_selection res a b c d).
Proof.
  intros s [] s' E. unfold record_selection in E. apply M_bind_Ok in E as (call & s1 & E1 & E).
  unfold new_record, with_handler in E1. destruct (GRecordHandler s) as [h|]; [| done].
  apply M_bind_Ok in E1 as (r & s2 & [_ ->]%lift_Ok & E1).
  apply M_bind_Ok in E1 as (? & ? & [= <- <-] & [= <- <-]).
  apply M_bind_Ok in E as (out & s3 & E3 & E).
  assert (s3 = s) as ->.
  { unfold load_bytes in E3. cbn in E3. destruct (d =? 0); [done |]. destruct (load _ _ _); [| done].
    by injection E3. }
  unfold serialize_to, with_handler in E. destruct (GRecordHandler s); [| done]. by injection E as <-.
Qed.

(** A statement of a thread [i] is a step of the thread here, or one more binary
    of the loop. *)
Lemma select_step_advance i res a b c d p s st :
  agree s (GBinariesCollected st) (GBinariesMutex st) ->
  holds (select_step res a b c d p) s (fun next s' =>
    (exists flag mutex n, advance i (place_of p) st = Some (flag, mutex, n, place_after p next) /\
       agree s' flag mutex) \/
    place_after p next = place_of p /\ agree s' (GBinariesCollected st) (GBinariesMutex st)).
Proof.
  intros [Hf Hm] next s' E. destruct p; cbn [select_step place_of advance] in *.
  - apply M_bind_Ok in E as (? & ? & [= <- <-] & [= <- <-]). left. rewrite <-Hf.
    exists (Recorder.GBinariesCollected s), (GBinariesMutex st), (collections st). split; [by destruct (Recorder.GBinariesCollected s) | by split].
  - apply M_bind_Ok in E as ([] & s1 & E1 & [= <- <-]). unfold lock in E1.
    destruct (Recorder.GBinariesMutex s) eqn:Hx; [done |]. injection E1 as <-. left.
    destruct (GBinariesMutex st) as [j|]; [by rewrite bool_decide_eq_true_2 in Hm by (by exists j) |].
    eexists _, _, _. split; [reflexivity |]. split; [done |]. by rewrite bool_decide_eq_true_2 by by eexists.
  - apply M_bind_Ok in E as (? & ? & [= <- <-] & E). rewrite Hf in E. left. destruct (GBinariesCollected st).
    + apply M_bind_Ok in E as ([] & s1 & [= <-] & [= <- <-]). eexists _, _, _. split; [reflexivity |].
      split; [done |]. by rewrite bool_decide_eq_false_2 by by intros [].
    + injection E as <- <-. eexists _, _, _. by split.
  - apply M_bind_Ok in E as ([] & s1 & [= <-] & [= <- <-]). left. eexists _, _, _. by split.
  - destruct (_ <? _).
    + apply M_bind_Ok in E as ([] & s1 & [Hf1 Hm1]%binary_shared & [= <- <-]). right. split; [done |].
      split; congruence.
    + apply M_bind_Ok in E as ([] & s1 & [= <-] & [= <- <-]). left. eexists _, _, _. split; [reflexivity |].
      split; [done |]. by rewrite bool_decide_eq_false_2 by by intros [].
  - apply M_bind_Ok in E as ([] & s1 & [Hf1 Hm1]%selection_shared & [= <- <-]). left. eexists _, _, _.
    split; [reflexivity |]. split; congruence.
Qed.
End statements.
