(* ===== verification/Tracer.v ===== *)
(** * Tracer: the native process tracer

    lib/utils/Tracer.cpp: the decoding of wait statuses, the seccomp filter, the
    strings read from and written to the traced process, and the worker loop
    that calls the file handlers at traced system calls (x86-64 Linux). *)

From S2P Require Import Prelude Streams.

(** ** The operating system *)

(** [ptrace] on a stopped process of state [T]: its memory and its user area
    (the registers by their offset).  [POKETEXT] is [None] when it fails. *)
Class Ptrace (T : Type) := {
  tracee_memory : T -> memory;
  tracee_user : T -> Z -> Z;
  PEEKDATA : Z -> T -> Z;
  POKETEXT : Z -> Z -> T -> option T;
  POKEUSER : Z -> Z -> T -> T;
  peek_mapped t a l : load (tracee_memory t) a 8 = Some l -> PEEKDATA a t = i64 (le_value l);
  peek_unmapped t a : load (tracee_memory t) a 8 = None -> PEEKDATA a t = -1;
  poke_mapped t a l w : load (tracee_memory t) a 8 = Some l -> exists t', POKETEXT a w t = Some t' /\
    tracee_memory t' = store (tracee_memory t) a (le_bytes 8 w) /\ tracee_user t' = tracee_user t;
  poke_unmapped t a w : load (tracee_memory t) a 8 = None -> POKETEXT a w t = None;
  pokeuser_memory t r v : tracee_memory (POKEUSER r v t) = tracee_memory t;
  pokeuser_user t r v : tracee_user (POKEUSER r v t) r = v;
  pokeuser_other t r v r' : r' <> r -> tracee_user (POKEUSER r v t) r' = tracee_user t r';
}.

(** ** Wait statuses *)

Inductive ResultType : Set := success | signal | fail | exited.
Record WaitResult := { mType : ResultType; mCode : Z; mStatus : Z }.

#[global] Instance ResultType_eq_dec : EqDecision ResultType.
Proof. solve_decision. Defined.

(** <sys/wait.h> *)
Definition WTERMSIG (status : Z) : Z := Z.land status 127.
Definition WEXITSTATUS (status : Z) : Z := Z.shiftr (Z.land status 65280) 8.
Definition WSTOPSIG (status : Z) : Z := WEXITSTATUS status.
Definition WIFEXITED (status : Z) : bool := WTERMSIG status =? 0.
(** [((signed char)((status & 0x7f) + 1) >> 1) > 0] *)
Definition WIFSIGNALED (status : Z) : bool :=
  Z.shiftr (signed 8 (Z.land status 127 + 1)) 1 >? 0.
Definition WIFSTOPPED (status : Z) : bool := Z.land status 255 =? 127.
Definition WIFCONTINUED (status : Z) : bool := status =? 65535.

Definition SIGINT := 2.
Definition SIGILL := 4.
Definition SIGTRAP := 5.
Definition SIGABRT := 6.
Definition SIGFPE := 8.
Definition SIGSEGV := 11.
Definition SIGTERM := 15.
Definition PTRACE_EVENT_SECCOMP := 7.

(** What [wait] makes of [waitpid]'s answer: [None] is -1. *)
Definition wait (answer : option Z) : WaitResult :=
  match answer with
  | None => {| mType := fail; mCode := 0; mStatus := 0 |}
  | Some status =>
      if WIFEXITED status then
        {| mType := exited; mCode := WEXITSTATUS status; mStatus := status |}
      else if WIFSIGNALED status then
        {| mType := signal; mCode := WTERMSIG status; mStatus := status |}
      else if WIFSTOPPED status then
        let sig := WSTOPSIG status in
        if existsb (Z.eqb sig) [SIGTERM; SIGSEGV; SIGINT; SIGILL; SIGABRT; SIGFPE] then
          {| mType := signal; mCode := sig; mStatus := status |}
        else {| mType := success; mCode := sig; mStatus := status |}
      else if WIFCONTINUED status then {| mType := success; mCode := 0; mStatus := status |}
      else {| mType := fail; mCode := 0; mStatus := status |}
  end.

Definition isSeccomp (r : WaitResult) : bool :=
  Z.shiftr (mStatus r) 8 =? Z.lor SIGTRAP (Z.shiftl PTRACE_EVENT_SECCOMP 8).

(** ** The seccomp filter *)

Definition NR_stat := 4.
Definition NR_openat := 257.
Definition NR_newfstatat := 262.

(** The instructions [traceMe] uses, and the two actions it returns. *)
Inductive bpf : Set :=
  | BPF_LD_NR
  | BPF_JEQ (k : Z) (jt jf : nat)
  | BPF_RET (trace : bool).

Definition filter : list bpf :=
  [ BPF_LD_NR;
    BPF_JEQ NR_newfstatat 0 1; BPF_RET true;
    BPF_JEQ NR_openat 0 1; BPF_RET true;
    BPF_JEQ NR_stat 0 1; BPF_RET true;
    BPF_RET false ].

(** A program counter that leaves the program is not accepted by the kernel. *)
Fixpoint run_filter (fuel : nat) (prog : list bpf) (pc : nat) (acc nr : Z) : option bool :=
  match fuel with
  | O => None
  | S fuel =>
      match prog !! pc with
      | Some BPF_LD_NR => run_filter fuel prog (S pc) nr nr
      | Some (BPF_JEQ k jt jf) =>
          run_filter fuel prog (S pc + (if acc =? k then jt else jf)) acc nr
      | Some (BPF_RET trace) => Some trace
      | None => None
      end
  end.

(** ** Strings of the traced process *)

Section tracer.
Context {T : Type} `{Ptrace T}.

(** The characters of a word up to its NUL, and whether there is one. *)
Fixpoint until_nul (l : bytes) : bytes * bool :=
  match l with
  | [] => ([], false)
  | c :: l =>
      if bool_decide (c = x00) then ([], true)
      else let '(r, b) := until_nul l in (c :: r, b)
  end.

(** The loop of [readString]; [None] is running out of fuel. *)
Fixpoint readString (fuel : nat) (addr : Z) (t : T) : option bytes :=
  match fuel with
  | O => None
  | S fuel =>
      let '(chars, isComplete) := until_nul (le_bytes 8 (PEEKDATA addr t)) in
      if isComplete then Some chars
      else result ← readString fuel (addr + 8) t; Some (chars ++ result)
  end.

Definition PATH_MAX := 4096.
(** [sizeof(long) * RSP] and so on: the offsets of the registers. *)
Definition RSP := 8 * 19.
Definition RSI := 8 * 13.
Definition RDI := 8 * 14.
Definition ORIG_RAX := 8 * 15.

(** One word: [garbage] is what the uninitialised [buf] holds. *)
Definition word_of (str garbage : bytes) : bytes :=
  let chars := take 8 (str ++ [x00]) in chars ++ drop (length chars) garbage.

(** The loop of [writeString]: [str] is what is left of the string. *)
Fixpoint write_words (fuel : nat) (garbage : Z -> bytes) (str : bytes) (stackAddr : Z)
    : M T unit := fun t =>
  match fuel with
  | O => UB
  | S fuel =>
      match POKETEXT stackAddr (le_value (word_of str (garbage stackAddr))) t with
      | None => Throw #"failed to poke data "
      | Some t =>
          if (length str <? 8)%nat then Ok (tt, t)
          else write_words fuel garbage (drop 8 str) (stackAddr + 8) t
      end
  end.

(** [S (length str / 8)] words hold the string and its NUL. *)
Definition writeString (garbage : Z -> bytes) (reg : Z) (str : bytes) : M T unit := fun t =>
  let fileAddr := tracee_user t RSP - (128 + PATH_MAX) in
  (_ ← write_words (S (length str / 8)) garbage str fileAddr;
   modify (POKEUSER reg fileAddr)) t.

(** ** The worker *)

(** A file handler: the name, and [replaceFilename]. *)
Definition file_handler := bytes -> (bytes -> M T unit) -> M T unit.

(** The two handlers that are installed, and the tracee's exit code. *)
Record tracer := { mOpenFileHandler : file_handler; mStatHandler : file_handler }.
Definition new_tracer : tracer :=
  {| mOpenFileHandler := fun _ _ => mret tt; mStatHandler := fun _ _ => mret tt |}.
Definition onFileOpen (handler : file_handler) (tr : tracer) : tracer :=
  {| mOpenFileHandler := handler; mStatHandler := mStatHandler tr |}.
Definition onStat (handler : file_handler) (tr : tracer) : tracer :=
  {| mOpenFileHandler := mOpenFileHandler tr; mStatHandler := handler |}.

(** The handler objects of the calls: [replaceFilename] writes the name through the
    register they were made with. *)
Definition OpenHandlerImpl (garbage : Z -> bytes) (fileNameReg : Z) : bytes -> M T unit :=
  fun newFile => writeString garbage fileNameReg newFile.
Definition StatHandlerImpl (garbage : Z -> bytes) (fileNameReg : Z) : bytes -> M T unit :=
  fun newFile => writeString garbage fileNameReg newFile.

(** Reads the name a register points to; endless for a name without NUL. *)
Definition name_at (fuel : nat) (reg : Z) : M T bytes := fun t =>
  match readString fuel (tracee_user t reg) t with Some s => Ok (s, t) | None => UB end.

(** The switch over the system call of a seccomp stop. *)
Definition dispatch (fuel : nat) (garbage : Z -> bytes) (tr : tracer) (call : Z) : M T unit :=
  if call =? NR_stat then
    filename ← name_at fuel RDI; mStatHandler tr filename (StatHandlerImpl garbage RDI)
  else if call =? NR_newfstatat then
    filename ← name_at fuel RSI; mStatHandler tr filename (StatHandlerImpl garbage RSI)
  else if call =? NR_openat then
    filename ← name_at fuel RSI; mOpenFileHandler tr filename (OpenHandlerImpl garbage RSI)
  else mret tt.
Definition at_syscall (fuel : nat) (garbage : Z -> bytes) (tr : tracer) : M T unit :=
  t ← get; dispatch fuel garbage tr (tracee_user t ORIG_RAX).

(** The loop of [mWorker] over the stops of the tracee, each the answer of
    [waitpid] and the state it stops in: the exit code and the states the
    tracee is continued in. *)
Fixpoint worker (fuel : nat) (garbage : Z -> bytes) (tr : tracer) (stops : list (option Z * T))
    : outcome (Z * list T) :=
  match stops with
  | [] => Throw #"Failed to continue tracee"
  | (answer, t) :: stops =>
      let res := wait answer in
      if bool_decide (mType res = success) then
        t' ← (if isSeccomp res then '(_, t) ← at_syscall fuel garbage tr t; Ok t else Ok t);
        '(code, resumed) ← worker fuel garbage tr stops;
        Ok (code, t' :: resumed)
      else if bool_decide (mType res = fail) then Throw #"errno"
      else Ok (mCode res, [])
  end.
End tracer.

(** ** Starting the tracee *)

(** [traceMe]: whether the two [prctl] calls succeed. *)
Definition traceMe (no_new_privs seccomp : bool) : outcome unit :=
  if negb no_new_privs then Throw #"errno"
  else if negb seccomp then Throw #"errno"
  else Ok tt.

(** The child of [fork]: [child] returns only when it fails to replace the
    process, and then exits itself or falls through. *)
Definition fork_child (no_new_privs seccomp : bool) (child : outcome unit) : outcome unit :=
  _ ← traceMe no_new_privs seccomp; _ ← child; Exit 0.
(** [start] of [launch]: what [execve] returns, if it does. *)
Definition exec_failed (err : Z) : outcome unit := if err =? 0 then Ok tt else Exit err.

(** The parent of [fork] up to the worker: the first stop of the tracee, and
    whether PTRACE_O_TRACESECCOMP can be set. *)
Definition fork_parent (answer : option Z) (setopt : bool) : outcome unit :=
  let res := wait answer in
  if bool_decide (mType res = success) then
    if setopt then Ok tt else Throw #"Failed to set option"
  else if bool_decide (mType res = fail) then Throw #"errno"
  else Throw #"Process immediately exited".

(** [launch], [start] and [wait] in the parent: the exit code of the tracee, and
    the states it was continued in. *)
Definition run_traced {T} `{Ptrace T} (fuel : nat) (garbage : Z -> bytes) (tr : tracer)
    (answer : option Z) (setopt : bool) (stops : list (option Z * T)) : outcome (Z * list T) :=
  _ ← fork_parent answer setopt; worker fuel garbage tr stops.

(** ** Replacing the file name of a call *)

(** What is left of a word after the characters and the NUL. *)
Lemma until_nul_chars (s tl : bytes) :
  x00 ∉ s -> until_nul (s ++ tl) = (s ++ (until_nul tl).1, (until_nul tl).2).
Proof.
  induction s as [|c s IH]; intros Hs; [apply surjective_pairing |].
  apply not_elem_of_cons in Hs as [Hc Hs]. cbn [app until_nul].
  rewrite bool_decide_eq_false_2 by congruence. by rewrite IH.
Qed.

Lemma until_nul_short (s garbage : bytes) :
  x00 ∉ s -> (length s < 8)%nat -> until_nul (word_of s garbage) = (s, true).
Proof.
  intros Hs Hl. unfold word_of. rewrite (take_ge (s ++ [x00])) by (rewrite length_app; cbn; lia).
  rewrite <-app_assoc, until_nul_chars by done. cbn. by rewrite app_nil_r.
Qed.

Lemma until_nul_long (s garbage : bytes) :
  x00 ∉ s -> (8 <= length s)%nat -> length garbage = 8%nat ->
  until_nul (word_of s garbage) = (take 8 s, false).
Proof.
  intros Hs Hl Hg. unfold word_of. rewrite take_app_le by lia.
  rewrite until_nul_chars.
  - rewrite (drop_ge garbage) by (rewrite length_take; lia). cbn. by rewrite app_nil_r.
  - intros Hin. apply Hs. rewrite <-(take_drop 8 s). apply elem_of_app. by left.
Qed.

Lemma length_word_of s garbage : length garbage = 8%nat -> length (word_of s garbage) = 8%nat.
Proof.
  intros Hg. unfold word_of. rewrite length_app, length_drop, Hg, length_take, length_app.
  change (length [x00]) with 1%nat. lia.
Qed.

(** The word a peek gives back is the one that was poked. *)
Lemma le_bytes_i64 l : length l = 8%nat -> le_bytes 8 (i64 (le_value l)) = l.
Proof.
  intros Hl. rewrite <-(le_bytes_le_value l) at 2. rewrite Hl.
  enough (forall n a b, wrap (8 * Z.of_nat n) a = wrap (8 * Z.of_nat n) b ->
    le_bytes n a = le_bytes n b) as Hext.
  { apply Hext. by rewrite wrap_signed. }
  intros n a b E. rewrite <-!le_value_le_bytes in E.
  rewrite <-(le_bytes_le_value (le_bytes n a)), <-(le_bytes_le_value (le_bytes n b)).
  by rewrite E, !length_le_bytes.
Qed.

Section replace.
Context {T : Type} `{Ptrace T} (garbage : Z -> bytes).
Context (garbage_word : forall a, length (garbage a) = 8%nat).

(** [n] words from [p] on are mapped in [t]. *)
Definition mapped (p : Z) (n : nat) (t : T) : Prop :=
  forall a, p <= a < p + 8 * Z.of_nat n -> is_Some (tracee_memory t !! a).

Lemma PEEKDATA_memory a t t' :
  tracee_memory t = tracee_memory t' -> PEEKDATA a t = PEEKDATA a t'.
Proof.
  intros E. destruct (load (tracee_memory t) a 8) as [l|] eqn:Hl.
  - rewrite (peek_mapped t a l) by done. symmetry. apply peek_mapped. by rewrite <-E.
  - rewrite peek_unmapped by done. symmetry. apply peek_unmapped. by rewrite <-E.
Qed.

Lemma readString_memory fuel a t t' :
  tracee_memory t = tracee_memory t' -> readString fuel a t = readString fuel a t'.
Proof.
  intros E. revert a. induction fuel as [|fuel IH]; intros a; [done |]. cbn [readString].
  rewrite (PEEKDATA_memory a t t') by done. by rewrite IH.
Qed.

(** More fuel reads the same string. *)
Lemma readString_mono fuel fuel' a (t : T) s :
  (fuel <= fuel')%nat -> readString fuel a t = Some s -> readString fuel' a t = Some s.
Proof.
  revert fuel' a s. induction fuel as [|fuel IH]; intros fuel' a s Hf E; [done |].
  destruct fuel' as [|fuel']; [lia |]. cbn [readString] in *.
  destruct (until_nul _) as [chars []]; [done |].
  destruct (readString fuel (a + 8) t) as [s'|] eqn:Es; [| done].
  rewrite (IH fuel' _ _ ltac:(lia) Es). exact E.
Qed.

(** What is read has no NUL. *)
Lemma readString_no_nul fuel a (t : T) s : readString fuel a t = Some s -> x00 ∉ s.
Proof.
  assert (forall l, x00 ∉ (until_nul l).1) as Hu.
  { induction l as [|c l IH]; [apply not_elem_of_nil |]. cbn [until_nul]. case_bool_decide as Hc.
    - apply not_elem_of_nil.
    - destruct (until_nul l) as [r b]. cbn in *. apply not_elem_of_cons. by split; [congruence |]. }
  revert a s. induction fuel as [|fuel IH]; intros a s E; [done |]. cbn [readString] in E.
  pose proof (Hu (le_bytes 8 (PEEKDATA a t))) as Hc.
  destruct (until_nul _) as [chars []]; cbn in Hc; [by injection E as <- |].
  destruct (readString fuel (a + 8) t) as [s'|] eqn:Es; [| done]. cbn in E. injection E as <-.
  apply not_elem_of_app. split; [done | by eapply IH].
Qed.

(** One poke of a mapped word. *)
Lemma poke_word p l t : mapped p 1 t -> length l = 8%nat ->
  exists t', POKETEXT p (le_value l) t = Some t' /\
    tracee_memory t' = store (tracee_memory t) p l /\ tracee_user t' = tracee_user t.
Proof.
  intros Hm Hl. destruct (load_mapped (tracee_memory t) p 8) as [old Hold].
  { intros a Ha. apply Hm. lia. }
  destruct (poke_mapped t p old (le_value l) Hold) as (t' & Ht' & Hmem & Hus).
  exists t'. rewrite <-Hl, le_bytes_le_value in Hmem. done.
Qed.

(** A word in memory is what a peek sees. *)
Lemma peek_word p l t :
  length l = 8%nat -> (forall i, (i < 8)%nat -> tracee_memory t !! (p + Z.of_nat i) = l !! i) ->
  le_bytes 8 (PEEKDATA p t) = l.
Proof.
  intros Hl Hm. rewrite (peek_mapped t p l); [by apply le_bytes_i64 |].
  change 8 with (Z.of_nat 8). rewrite <-Hl. apply load_spec. by rewrite Hl.
Qed.

(** [words s] words hold [s] and its NUL. *)
Definition words (s : bytes) : nat := S (length s / 8).

Lemma words_drop s : (8 <= length s)%nat -> words s = S (words (drop 8 s)).
Proof.
  intros Hl. unfold words. rewrite length_drop.
  replace (length s) with (length s - 8 + 1 * 8)%nat at 1 by lia.
  rewrite Nat.div_add by lia. lia.
Qed.
Lemma words_short s : (length s < 8)%nat -> words s = 1%nat.
Proof. intros Hl. unfold words. by rewrite Nat.div_small. Qed.

(** What the loop of [writeString] leaves in the traced process. *)
Definition written (s : bytes) (p : Z) (t t' : T) : Prop :=
  tracee_user t' = tracee_user t /\
  (forall a, a < p \/ p + 8 * Z.of_nat (words s) <= a ->
     tracee_memory t' !! a = tracee_memory t !! a) /\
  readString (words s) p t' = Some s.

Lemma store_word_frame p l (m : memory) a :
  length l = 8%nat -> a < p \/ p + 8 <= a -> store m p l !! a = m !! a.
Proof.
  intros Hl [|]; [by apply store_lookup_before |]. apply store_lookup_after. lia.
Qed.

Lemma write_words_step s p t t1 t' :
  (8 <= length s)%nat -> x00 ∉ s ->
  tracee_memory t1 = store (tracee_memory t) p (word_of s (garbage p)) ->
  tracee_user t1 = tracee_user t ->
  written (drop 8 s) (p + 8) t1 t' -> written s p t t'.
Proof.
  intros Hl Hs Hmem Hus (Hus' & Hframe & Hread). split; [by rewrite Hus' |].
  pose proof (length_word_of s _ (garbage_word p)) as Hw. rewrite (words_drop s) by done.
  split.
  - intros a Ha. rewrite Hframe by lia. rewrite Hmem. apply store_word_frame; [done | lia].
  - cbn [readString]. rewrite (peek_word p (word_of s (garbage p))); [| done |].
    + rewrite until_nul_long by done. rewrite Hread. cbn. by rewrite take_drop.
    + intros i Hi. rewrite Hframe by lia. rewrite Hmem. apply store_lookup. lia.
Qed.

Lemma write_words_last s p t t' :
  (length s < 8)%nat -> x00 ∉ s ->
  tracee_memory t' = store (tracee_memory t) p (word_of s (garbage p)) ->
  tracee_user t' = tracee_user t -> written s p t t'.
Proof.
  intros Hl Hs Hmem Hus. split; [done |].
  pose proof (length_word_of s _ (garbage_word p)) as Hw. rewrite words_short by done. split.
  - intros a Ha. rewrite Hmem. apply store_word_frame; [done | lia].
  - cbn [readString]. rewrite (peek_word p (word_of s (garbage p))); [| done |].
    + by rewrite until_nul_short.
    + intros i Hi. rewrite Hmem. apply store_lookup. lia.
Qed.

Lemma write_words_spec s p t :
  x00 ∉ s -> mapped p (words s) t ->
  exists t', write_words (words s) garbage s p t = Ok (tt, t') /\ written s p t t'.
Proof.
  remember (words s) as n eqn:Hn. revert s p t Hn.
  induction n as [|n IH]; intros s p t Hn Hs Hm; [done |].
  destruct (poke_word p (word_of s (garbage p)) t) as (t1 & Ht1 & Hmem & Hus).
  { intros a Ha. apply Hm. lia. } { by apply length_word_of. }
  cbn [write_words]. rewrite Ht1. destruct (Nat.ltb_spec (length s) 8) as [Hl | Hl].
  - exists t1. split; [done | by apply write_words_last].
  - rewrite words_drop in Hn by done. injection Hn as Hn.
    destruct (IH (drop 8 s) (p + 8) t1) as (t' & Ht' & Hw); [done | | |].
    + intros Hin. apply Hs. rewrite <-(take_drop 8 s). apply elem_of_app. by right.
    + intros a Ha. rewrite Hmem. apply store_mapped, Hm. lia.
    + exists t'. split; [done | by eapply write_words_step].
Qed.

(** What [writeString] does to the traced process. *)
Lemma writeString_spec (reg : Z) (name : bytes) (t : T)
    (fileAddr := tracee_user t RSP - (128 + PATH_MAX)) :
  x00 ∉ name -> mapped fileAddr (words name) t ->
  exists t', writeString garbage reg name t = Ok (tt, t') /\
    tracee_user t' reg = fileAddr /\
    (forall r, r <> reg -> tracee_user t' r = tracee_user t r) /\
    readString (words name) (tracee_user t' reg) t' = Some name /\
    forall a, a < fileAddr \/ fileAddr + 8 * Z.of_nat (words name) <= a ->
      tracee_memory t' !! a = tracee_memory t !! a.
Proof.
  intros Hs Hm. destruct (write_words_spec name fileAddr t Hs Hm) as (t1 & Ht1 & Hus & Hfr & Hrd).
  exists (POKEUSER reg fileAddr t1). rewrite pokeuser_user, pokeuser_memory.
  split; [unfold writeString; fold fileAddr; by erewrite M_run_bind by exact Ht1 |].
  split; [done |]. split; [| split; [| done]].
  - intros r Hr. by rewrite pokeuser_other, Hus.
  - rewrite <-Hrd. apply readString_memory, pokeuser_memory.
Qed.

(** A name the system accepts is written below the red zone. *)
Lemma words_PATH_MAX name : Z.of_nat (length name) < PATH_MAX -> (words name <= 512)%nat.
Proof.
  intros Hl. unfold words, PATH_MAX in *. pose proof (Nat.Div0.div_lt_upper_bound (length name) 8 512).
  lia.
Qed.

(** C26: [replaceFilename] makes the traced process see the new name: for a
    name without NUL and a stack mapped below its red zone, [writeString] ends,
    the argument register then points to memory from which [readString] reads
    that name back, the words written are the only memory that changed, and a
    name shorter than PATH_MAX leaves the red zone and the stack untouched. *)
Theorem replaceFilename_read (reg : Z) (name : bytes) (t : T)
    (fileAddr := tracee_user t RSP - (128 + PATH_MAX)) :
  x00 ∉ name -> mapped fileAddr (words name) t ->
  exists t', writeString garbage reg name t = Ok (tt, t') /\
    tracee_user t' reg = fileAddr /\
    readString (words name) (tracee_user t' reg) t' = Some name /\
    (forall a, a < fileAddr \/ fileAddr + 8 * Z.of_nat (words name) <= a ->
       tracee_memory t' !! a = tracee_memory t !! a) /\
    (Z.of_nat (length name) < PATH_MAX -> forall a, tracee_user t RSP - 128 <= a ->
       tracee_memory t' !! a = tracee_memory t !! a).
Proof.
  intros Hs Hm. destruct (writeString_spec reg name t Hs Hm) as (t' & Ht' & Hreg & _ & Hrd & Hfr).
  exists t'. do 4 (split; [done |]). intros Hl a Ha. apply Hfr. right.
  apply words_PATH_MAX in Hl. unfold fileAddr, PATH_MAX. lia.
Qed.
End replace.

(** ** Dispatch *)

Lemma run_filter_jeq fuel prog pc acc nr k jt jf :
  prog !! pc = Some (BPF_JEQ k jt jf) ->
  run_filter (S fuel) prog pc acc nr =
  run_filter fuel prog (S pc + (if acc =? k then jt else jf)) acc nr.
Proof. intros E. cbn [run_filter]. by rewrite E. Qed.

Lemma run_filter_spec nr :
  run_filter 8 filter 0 0 nr = Some (bool_decide (nr ∈ [NR_stat; NR_newfstatat; NR_openat])).
Proof.
  change (run_filter 8 filter 0 0 nr) with (run_filter 7 filter 1 nr nr).
  repeat (erewrite run_filter_jeq by done; case_match;
    [rewrite bool_decide_eq_true_2; [done | rewrite !elem_of_cons; lia] |]).
  rewrite bool_decide_eq_false_2; [done | rewrite !elem_of_cons, elem_of_nil; lia].
Qed.

(** The register of a call's path argument. *)
Definition path_register (nr : Z) : Z := if nr =? NR_stat then RDI else RSI.
Definition handler_of {T} (tr : tracer (T := T)) (nr : Z) : file_handler :=
  if nr =? NR_openat then mOpenFileHandler tr else mStatHandler tr.

Lemma at_file_call {T} `{Ptrace T} fuel garbage (tr : tracer) (t : T) name
    (nr := tracee_user t ORIG_RAX) :
  nr ∈ [NR_stat; NR_newfstatat; NR_openat] ->
  readString fuel (tracee_user t (path_register nr)) t = Some name ->
  at_syscall fuel garbage tr t = handler_of tr nr name (writeString garbage (path_register nr)) t.
Proof.
  change (at_syscall fuel garbage tr t) with (dispatch fuel garbage tr nr t). generalize nr. clear nr.
  intros nr. unfold dispatch, mbind, M_mbind, name_at, path_register, handler_of.
  intros [<- | [<- | [<- | []]]]%list_elem_of_In E; cbn in E |- *; by rewrite E.
Qed.

Lemma at_other_call {T} `{Ptrace T} fuel garbage (tr : tracer) (t : T) :
  tracee_user t ORIG_RAX ∉ [NR_stat; NR_newfstatat; NR_openat] ->
  at_syscall fuel garbage tr t = Ok (tt, t).
Proof.
  change (at_syscall fuel garbage tr t) with (dispatch fuel garbage tr (tracee_user t ORIG_RAX) t).
  generalize (tracee_user t ORIG_RAX). intros nr. rewrite !elem_of_cons, elem_of_nil. intros Hn.
  unfold dispatch. by rewrite !(proj2 (Z.eqb_neq _ _)) by tauto.
Qed.

(** C27: the seccomp filter stops the tracee at exactly the system calls the
    worker handles: [stat], [newfstatat] and [openat].  At another call nothing
    is read or changed; at these the name is read from the register of the
    call's path argument (the first of [stat], the second of the others), and
    the handler of the call gets it with a [replaceFilename] for that register. *)
Theorem filter_dispatch {T} `{Ptrace T} (fuel : nat) (garbage : Z -> bytes) (tr : tracer) (t : T)
    (nr := tracee_user t ORIG_RAX)
    (reg := path_register nr)
    (handler := handler_of tr nr) :
  run_filter 8 filter 0 0 nr = Some (bool_decide (nr ∈ [NR_stat; NR_newfstatat; NR_openat])) /\
  (run_filter 8 filter 0 0 nr = Some false -> at_syscall fuel garbage tr t = Ok (tt, t)) /\
  (forall name, run_filter 8 filter 0 0 nr = Some true ->
     readString fuel (tracee_user t reg) t = Some name ->
     at_syscall fuel garbage tr t = handler name (writeString garbage reg) t).
Proof.
  rewrite run_filter_spec. split; [done |]. split.
  - intros [= Hn%bool_decide_eq_false]. by apply at_other_call.
  - intros name [= Hn%bool_decide_eq_true]. by apply at_file_call.
Qed.

(** The status of a tracee stopped by [sig], in ptrace event [event]. *)
Definition stop_status (event sig : Z) : Z := 127 + 256 * (sig + 256 * event).

Lemma land_7f z : Z.land z 127 = z mod 128.
Proof. exact (Z.land_ones z 7 ltac:(lia)). Qed.
Lemma land_ff z : Z.land z 255 = z mod 256.
Proof. exact (Z.land_ones z 8 ltac:(lia)). Qed.

Lemma WEXITSTATUS_spec z : WEXITSTATUS z = (z / 256) mod 256.
Proof.
  unfold WEXITSTATUS. rewrite Z.shiftr_land. change (Z.shiftr 65280 8) with 255.
  by rewrite land_ff, Z.shiftr_div_pow2.
Qed.

Lemma existsb_elem z l : existsb (Z.eqb z) l = bool_decide (z ∈ l).
Proof.
  apply eq_true_iff_eq. rewrite existsb_exists, bool_decide_eq_true. split.
  - by intros (x & Hx%list_elem_of_In & ->%Z.eqb_eq).
  - intros Hin. exists z. by rewrite Z.eqb_refl, <-list_elem_of_In.
Qed.

(** A stop is an ordinary one unless its signal is one of the listed ones. *)
Lemma wait_stop event sig :
  0 <= sig < 256 ->
  wait (Some (stop_status event sig)) =
  {| mType := if decide (sig ∈ [SIGTERM; SIGSEGV; SIGINT; SIGILL; SIGABRT; SIGFPE])
              then signal else success;
     mCode := sig; mStatus := stop_status event sig |}.
Proof.
  intros Hs. unfold wait, WIFEXITED, WIFSIGNALED, WIFSTOPPED, WTERMSIG, WSTOPSIG.
  rewrite WEXITSTATUS_spec, land_7f, land_ff. unfold stop_status.
  replace ((127 + 256 * (sig + 256 * event)) mod 128) with 127
    by (symmetry; etrans; [| exact (Z_mod_plus_full 127 (2 * (sig + 256 * event)) 128)]; f_equal; lia).
  replace ((127 + 256 * (sig + 256 * event)) mod 256) with 127
    by (symmetry; rewrite (Z.mul_comm 256); exact (Z_mod_plus_full 127 (sig + 256 * event) 256)).
  replace ((127 + 256 * (sig + 256 * event)) / 256) with (sig + event * 256).
  2:{ rewrite (Z.mul_comm 256 (sig + _)), Z.div_add by lia. change (127 / 256) with 0. lia. }
  rewrite Z_mod_plus_full, (Z.mod_small sig) by lia. rewrite existsb_elem.
  change (127 =? 0) with false. change (_ >? 0) with false. change (127 =? 127) with true.
  case_decide; [by rewrite bool_decide_eq_true_2 | by rewrite bool_decide_eq_false_2].
Qed.

Lemma wait_exit code : 0 <= code < 256 ->
  wait (Some (256 * code)) = {| mType := exited; mCode := code; mStatus := 256 * code |}.
Proof.
  intros Hc. unfold wait, WIFEXITED, WTERMSIG. rewrite WEXITSTATUS_spec, land_7f.
  rewrite (Z.mul_comm 256), Z.div_mul, (Z.mod_small code) by lia.
  replace ((code * 256) mod 128) with 0; [done |].
  replace (code * 256) with (0 + (2 * code) * 128) by lia. by rewrite Z_mod_plus_full.
Qed.

(** What the handlers make of an ordinary stop. *)
Definition handle_stop {T} `{Ptrace T} fuel garbage (tr : tracer) (stop : Z * Z * T) : outcome T :=
  let '(event, sig, t) := stop in
  if decide (event = PTRACE_EVENT_SECCOMP /\ sig = SIGTRAP)
  then '(_, t') ← at_syscall fuel garbage tr t; Ok t' else Ok t.

Lemma isSeccomp_stop event sig r :
  0 <= sig < 256 -> mStatus r = stop_status event sig ->
  isSeccomp r = bool_decide (event = PTRACE_EVENT_SECCOMP /\ sig = SIGTRAP).
Proof.
  intros Hs Hr. unfold isSeccomp. rewrite Hr, Z.shiftr_div_pow2 by lia. unfold stop_status.
  change (2 ^ 8) with 256. rewrite (Z.mul_comm 256 (sig + _)), Z.div_add by lia.
  change (127 / 256) with 0. change (Z.lor _ _) with 1797.
  unfold PTRACE_EVENT_SECCOMP, SIGTRAP.
  destruct (Z.eqb_spec (0 + (sig + 256 * event)) 1797);
    [rewrite bool_decide_eq_true_2 by lia | rewrite bool_decide_eq_false_2 by lia]; done.
Qed.

(** C28: the worker runs until the tracee ends: when the tracee stops any number
    of times with signals other than the six listed ones and then exits with
    [code], the worker ends with [code], having run the handlers at exactly the
    seccomp stops and continued the tracee in the state they left. *)
Theorem worker_exit {T} `{Ptrace T} (fuel : nat) (garbage : Z -> bytes) (tr : tracer)
    (stops : list (Z * Z * T)) (resumed : list T) (code : Z) (last : T)
    (later : list (option Z * T)) :
  Forall (fun '(_, sig, _) => 0 <= sig < 256 /\
    sig ∉ [SIGTERM; SIGSEGV; SIGINT; SIGILL; SIGABRT; SIGFPE]) stops ->
  0 <= code < 256 ->
  Forall2 (fun stop t' => handle_stop fuel garbage tr stop = Ok t') stops resumed ->
  worker fuel garbage tr
    (map (fun '(event, sig, t) => (Some (stop_status event sig), t)) stops ++
     (Some (256 * code), last) :: later) = Ok (code, resumed).
Proof.
  intros Hstops Hc Hres. induction Hres as [| [[event sig] t] t' stops resumed Ht' Hres IH].
  { cbn [map app worker]. by rewrite wait_exit. }
  apply list.Forall_cons in Hstops as [[Hsig Hnin] Hstops]. cbn [map app worker].
  rewrite wait_stop by done. rewrite decide_False by done. cbn [mType mCode].
  rewrite bool_decide_eq_true_2 by done. rewrite (isSeccomp_stop event sig) by done.
  unfold handle_stop in Ht'. rewrite IH by done.
  destruct (decide (_ /\ _)) as [E | E].
  - rewrite bool_decide_eq_true_2 by done. by rewrite Ht'.
  - rewrite bool_decide_eq_false_2 by done. by injection Ht' as ->.
Qed.

(** ** A concrete traced process *)

Module Tracee.

(** Byte-addressed memory, and a register file. *)
Record process := { mem : memory; user : Z -> Z }.

#[export] Program Instance process_Ptrace : Ptrace process := {
tracee_memory := mem;
tracee_user := user;
PEEKDATA a t := match load (mem t) a 8 with Some l => i64 (le_value l) | None => -1 end;
POKETEXT a w t :=
  match load (mem t) a 8 with
  | Some _ => Some {| mem := store (mem t) a (le_bytes 8 w); user := user t |}
  | None => None
  end;
POKEUSER r v t := {| mem := mem t; user := fun r' => if r' =? r then v else user t r' |};
}.
Next Obligation. intros t a l Hl. cbn. by rewrite Hl. Qed.
Next Obligation. intros t a Hl. cbn. by rewrite Hl. Qed.
Next Obligation. intros t a l w Hl. cbn. rewrite Hl. by eexists. Qed.
Next Obligation. intros t a w Hl. cbn. by rewrite Hl. Qed.
Next Obligation. done. Qed.
Next Obligation. intros t r v. cbn. by rewrite Z.eqb_refl. Qed.
Next Obligation. intros t r v r' Hr. cbn. by rewrite (proj2 (Z.eqb_neq _ _)). Qed.

(** A stack at 5000 whose 24 bytes below PATH_MAX are mapped, the name a.so at
  9000, and the registers of [openat]. *)
Definition stopped : process :=
{| mem := store (store ∅ 776 (repeat x00 24)) 9000 (#"a.so" ++ repeat x00 4);
   user := fun r => if r =? RSP then 5000 else if r =? RSI then 9000
                    else if r =? ORIG_RAX then NR_openat else 0 |}.
Definition garbage (a : Z) : bytes := repeat xff 8.
(** Replaces every opened name. *)
Definition replacing : tracer (T := process) :=
onFileOpen (fun _ replaceFilename => replaceFilename #"/pack/1_a") new_tracer.

End Tracee.

Import Tracee.

Lemma replaceFilename_read_witness : exists t',
  writeString garbage RSI #"/pack/1_a" stopped = Ok (tt, t') /\ tracee_user t' RSI = 776.
Proof.
  destruct (replaceFilename_read garbage (fun _ => eq_refl) RSI #"/pack/1_a" stopped)
    as (t' & Ht' & Hreg & _).
  - apply (bool_decide_unpack _). vm_compute. exact I.
  - intros a Ha. change (776 <= a < 776 + 8 * 2) in Ha.
    assert (Forall (fun a => is_Some (mem stopped !! a)) (seqZ 776 16)) as Hall.
    { apply (bool_decide_unpack _). vm_compute. exact I. }
    rewrite list.Forall_forall in Hall. apply Hall, elem_of_seqZ. lia.
  - exists t'. split; [exact Ht' | exact Hreg].
Defined.

Lemma filter_dispatch_witness :
  run_filter 8 filter 0 0 NR_openat = Some true /\
  at_syscall 2 garbage replacing stopped = writeString garbage RSI #"/pack/1_a" stopped /\
  at_syscall 2 garbage replacing (POKEUSER ORIG_RAX 0 stopped) =
  Ok (tt, POKEUSER ORIG_RAX 0 stopped).
Proof.
  split; [vm_compute; reflexivity |]. split.
  - destruct (filter_dispatch 2 garbage replacing stopped) as (_ & _ & Hname).
    apply (Hname #"a.so"); vm_compute; reflexivity.
  - destruct (filter_dispatch 2 garbage replacing (POKEUSER ORIG_RAX 0 stopped)) as (_ & Hno & _).
    apply Hno. vm_compute. reflexivity.
Defined.

Lemma worker_exit_witness : exists t',
  worker 2 garbage replacing
    [(Some (stop_status PTRACE_EVENT_SECCOMP SIGTRAP), stopped); (Some (256 * 3), t')] =
  Ok (3, [t']) /\ readString 2 (tracee_user t' RSI) t' = Some #"/pack/1_a".
Proof.
  destruct (is_ok_true (at_syscall 2 garbage replacing stopped)) as [[[] t'] Ht'];
    [vm_compute; reflexivity |].
  exists t'. split.
  - apply (worker_exit 2 garbage replacing [(PTRACE_EVENT_SECCOMP, SIGTRAP, stopped)] [t'] 3 t' []).
    + repeat constructor; try done. apply (bool_decide_unpack _). vm_compute. exact I.
    + lia.
    + constructor; [| constructor]. unfold handle_stop. rewrite decide_True by done.
      by rewrite Ht'.
  - vm_compute in Ht'. injection Ht' as <-. vm_compute. reflexivity.
Defined.
