(* ===== verification/Files.v ===== *)
(** * Files: the file system, JSON documents and the search path

    What the commands use of [std::filesystem], [std::ifstream],
    [std::ofstream] and nlohmann::json, and [which] of lib/utils/utils.cpp.
    Links and the components [.] and [..] are not resolved: a file is named by
    the spelling of its path, up to repeated and trailing separators. *)

From S2P Require Import Prelude Streams Options.

(** ** The file system *)

Inductive node : Set :=
  | Directory
  | Regular (content : bytes)
  | Special.
#[global] Instance node_eq_dec : EqDecision node.
Proof. solve_decision. Defined.

Abbreviation filesystem := (gmap bytes node).

(** A path without repeated and trailing separators. *)
Fixpoint squeeze (p : bytes) : bytes :=
  match p with
  | [] => []
  | c :: p =>
      let r := squeeze p in
      if is_slash c && match r with [] => true | d :: _ => is_slash d end then r else c :: r
  end.
Definition canonical (p : bytes) : bytes :=
  match squeeze p, p with [], _ :: _ => #"/" | r, _ => r end.

Definition node_at (fs : filesystem) (p : bytes) : option node :=
  if bool_decide (canonical p = #"/") then Some Directory else fs !! canonical p.

Definition exists_ (fs : filesystem) (p : bytes) : bool := bool_decide (is_Some (node_at fs p)).
Definition is_directory (fs : filesystem) (p : bytes) : bool :=
  bool_decide (node_at fs p = Some Directory).
Definition is_regular_file (fs : filesystem) (p : bytes) : bool :=
  match node_at fs p with Some (Regular _) => true | _ => false end.

(** Whether an entry can be made at [p]: a relative name is in the current
    directory. *)
Definition parent_exists (fs : filesystem) (p : bytes) : bool :=
  match parent_path (canonical p) with [] => true | d => is_directory fs d end.

(** [create_directory]: whether a directory was made. *)
Definition create_directory (p : bytes) : M filesystem bool := fun fs =>
  match node_at fs p with
  | Some Directory => Ok (false, fs)
  | Some _ => Throw #"filesystem error: cannot create directory"
  | None =>
      if negb (bool_decide (p = [])) && parent_exists fs p
      then Ok (true, <[canonical p := Directory]> fs)
      else Throw #"filesystem error: cannot create directory"
  end.

(** Whether [q] is [p] or below it. *)
Definition within (p q : bytes) : bool :=
  bool_decide (q = p) || bool_decide (take (S (length p)) q = p ++ #"/").
Definition remove_all (p : bytes) : M filesystem unit :=
  modify (base.filter (fun kv => within (canonical p) kv.1 = false)).

(** [copy_file] without options: an existing target is an error. *)
Definition copy_file (from to : bytes) : M filesystem unit := fun fs =>
  match node_at fs from, node_at fs to with
  | Some (Regular content), None =>
      if parent_exists fs to then Ok (tt, <[canonical to := Regular content]> fs)
      else Throw #"filesystem error: cannot copy file"
  | _, _ => Throw #"filesystem error: cannot copy file"
  end.

(** An [ofstream] on [p], [content] written, and closed: a file that cannot be
    opened is left as it is, without an error. *)
Definition write_file (p content : bytes) (fs : filesystem) : filesystem :=
  match node_at fs p with
  | Some (Regular _) => <[canonical p := Regular content]> fs
  | None => if parent_exists fs p then <[canonical p := Regular content]> fs else fs
  | Some _ => fs
  end.

(** What an [ifstream] on [p] reads. *)
Definition read_file (fs : filesystem) (p : bytes) : option bytes :=
  match node_at fs p with Some (Regular content) => Some content | _ => None end.

(** ** Searching text *)

Fixpoint is_prefix (p s : bytes) : bool :=
  match p, s with
  | [], _ => true
  | c :: p, d :: s => bool_decide (c = d) && is_prefix p s
  | _ :: _, [] => false
  end.
(** [find(needle) != npos] *)
Fixpoint contains (needle s : bytes) : bool :=
  is_prefix needle s || match s with [] => false | _ :: s => contains needle s end.
(** [find(c)]: the text before the first [c], and the text behind it. *)
Fixpoint split_at (c : byte) (s : bytes) : option (bytes * bytes) :=
  match s with
  | [] => None
  | d :: s =>
      if bool_decide (d = c) then Some ([], s)
      else '(a, b) ← split_at c s; Some (d :: a, b)
  end.

(** [path::filename] and [path::stem]. *)
Definition filename (p : bytes) : bytes :=
  match split_at "/"%byte (rev p) with Some (a, _) => rev a | None => p end.
Definition stem (p : bytes) : bytes :=
  let f := filename p in
  if bool_decide (f = #"." \/ f = #"..") then f
  else match split_at "."%byte (rev f) with
       | Some (_, b) => match b with [] => f | _ => rev b end
       | None => f
       end.

(** ** [which] *)

(** The loop over the directories of PATH, [path] the text from
    [lastSeparator] on; [fuel] bounds the number of separators. *)
Fixpoint which_loop (fuel : nat) (fs : filesystem) (path executable : bytes) : outcome bytes :=
  match fuel with
  | O => UB
  | S fuel =>
      let next := split_at ":"%byte path in
      let dir := match next with Some (dir, _) => dir | None => path end in
      let cand := path_join dir executable in
      if exists_ fs cand then Ok cand
      else match next with
           | Some (_, rest) => which_loop fuel fs rest executable
           | None => Throw (#"Executable not found " ++ executable)
           end
  end.

(** [PATH] is [None] when it is not set: a [string_view] of a null pointer. *)
Definition which (PATH : option bytes) (executable : bytes) (fs : filesystem) : outcome bytes :=
  match PATH with
  | None => UB
  | Some path => which_loop (S (length path)) fs path executable
  end.

(** * Theorems *)

(** ** Paths *)

(** A name: one component. *)
Definition simple (n : bytes) : Prop := n <> [] /\ "/"%byte ∉ n.
(** The entry [n] of the directory [c]. *)
Definition child (c n : bytes) : bytes := if bool_decide (c = #"/") then c ++ n else c ++ #"/" ++ n.

Lemma is_slash_false c : c <> "/"%byte -> is_slash c = false.
Proof. intros Hc. by apply bool_decide_eq_false_2. Qed.

Lemma squeeze_simple n : "/"%byte ∉ n -> squeeze n = n.
Proof.
  induction n as [|c n IH]; intros Hn; [done |]. apply not_elem_of_cons in Hn as [Hc Hn].
  cbn [squeeze]. by rewrite IH, is_slash_false.
Qed.

(** The shape of a squeezed path decides whether a separator in front is kept. *)
Definition kept (r : bytes) : bool := match r with [] => true | d :: _ => is_slash d end.

Lemma squeeze_cons c p :
  squeeze (c :: p) = if is_slash c && kept (squeeze p) then squeeze p else c :: squeeze p.
Proof. done. Qed.

Lemma squeeze_trailing p : squeeze (p ++ #"/") = squeeze p.
Proof. induction p as [|c p IH]; [done |]. cbn [app]. by rewrite !squeeze_cons, IH. Qed.

Lemma squeeze_child p n :
  simple n -> squeeze (p ++ #"/" ++ n) =
  match squeeze p with [] => #"/" ++ n | r => r ++ #"/" ++ n end.
Proof.
  intros [Hne Hn]. induction p as [|c p IH].
  - cbn [app squeeze]. change (#"/" ++ n) with ("/"%byte :: n). rewrite squeeze_cons.
    rewrite squeeze_simple by done. destruct n as [|d n]; [done |].
    apply not_elem_of_cons in Hn as [Hd _]. cbn [kept]. by rewrite (is_slash_false d), andb_false_r by congruence.
  - change ((c :: p) ++ #"/" ++ n) with (c :: (p ++ #"/" ++ n)). rewrite !squeeze_cons, IH.
    destruct (squeeze p) as [|d r]; cbn [kept app]; [| by destruct (is_slash c && is_slash d)].
    change (kept (#"/" ++ n)) with true. by destruct (is_slash c).
Qed.

Lemma is_slash_true c : is_slash c = true -> c = "/"%byte.
Proof. by intros Hc%bool_decide_eq_true. Qed.

Lemma squeeze_last p : list.last (squeeze p) <> Some "/"%byte.
Proof.
  induction p as [|c p IH]; [done |]. rewrite squeeze_cons.
  destruct (is_slash c) eqn:Hc, (squeeze p) as [|d r] eqn:E; cbn [andb kept].
  - done.
  - apply is_slash_true in Hc. subst. by destruct (is_slash d).
  - intros Hl. by injection Hl as ->.
  - done.
Qed.

Lemma canonical_child d n : d <> [] -> simple n -> canonical (path_join d n) = child (canonical d) n.
Proof.
  intros Hd Hn. assert (canonical (d ++ #"/" ++ n) = child (canonical d) n) as E.
  { unfold canonical. rewrite squeeze_child by done. destruct d as [|c d]; [done |].
    pose proof (squeeze_last (c :: d)) as Hlast. cbn [app].
    destruct (squeeze (c :: d)) as [|e r] eqn:Er; [done |]. unfold child.
    rewrite bool_decide_eq_false_2; [done |]. intros Hr. by rewrite Hr in Hlast. }
  pose proof Hn as [Hne Ha]. unfold path_join. destruct n as [|a n]; [done |].
  apply not_elem_of_cons in Ha as [Ha _].
  rewrite bool_decide_eq_false_2 by (intros [=]; congruence).
  case_bool_decide as Hs; [| done]. destruct Hs as [| Hs]; [done |].
  apply last_Some in Hs as [d' ->]. rewrite <-E. unfold canonical.
  rewrite <-app_assoc. change ([ "/"%byte] ++ a :: n) with (#"/" ++ a :: n).
  rewrite !squeeze_child by done. rewrite squeeze_trailing. by destruct (squeeze d').
Qed.

Lemma squeeze_idem p : squeeze (squeeze p) = squeeze p.
Proof.
  induction p as [|c p IH]; [done |]. rewrite squeeze_cons.
  destruct (is_slash c && kept (squeeze p)) eqn:E; [done |]. by rewrite squeeze_cons, IH, E.
Qed.

Lemma canonical_idem p : canonical (canonical p) = canonical p.
Proof.
  unfold canonical. pose proof (squeeze_idem p) as E.
  destruct p as [|c p]; [done |]. destruct (squeeze (c :: p)) as [|e r]; [done |]. by rewrite E.
Qed.

Lemma canonical_nonempty p : p <> [] -> canonical p <> [].
Proof. unfold canonical. by destruct p, (squeeze _). Qed.

Lemma canonical_last p : canonical p = #"/" \/ list.last (canonical p) <> Some "/"%byte.
Proof.
  unfold canonical. pose proof (squeeze_last p) as Hl.
  destruct p as [|c p]; [by right |]. destruct (squeeze (c :: p)); [by left | by right].
Qed.

Lemma length_child c n : simple n -> (length c < length (child c n))%nat /\ (1 < length (child c n))%nat.
Proof.
  intros [Hn _]. unfold child. destruct n as [|a n]; [done |].
  case_bool_decide as E; [subst c |]; rewrite !length_app; cbn [length]; cbn; lia.
Qed.

Lemma child_ne_root c n : simple n -> child c n <> #"/".
Proof. intros Hn E. pose proof (length_child c n Hn). rewrite E in *. cbn in *. lia. Qed.
Lemma child_ne c n : simple n -> child c n <> c.
Proof. intros Hn E. pose proof (length_child c n Hn). rewrite E in *. lia. Qed.
#[global] Instance child_inj c : Inj (=) (=) (child c).
Proof. intros n n'. unfold child. case_bool_decide; intros E; simplify_list_eq; congruence. Qed.

Lemma drop_while_app (p : byte -> bool) l l' :
  Forall (fun c => p c = true) l -> drop_while p (l ++ l') = drop_while p l'.
Proof. induction 1 as [|c l Hc Hl IH]; [done |]. cbn [app drop_while]. by rewrite Hc. Qed.

Lemma drop_while_last l :
  list.last l <> Some "/"%byte -> drop_while is_slash (rev l) = rev l.
Proof.
  destruct l as [|c l] using rev_ind; [done |]. rewrite last_snoc, rev_app_distr. intros Hc.
  cbn. rewrite is_slash_false; [done | congruence].
Qed.

Lemma parent_child d n :
  d <> [] -> simple n -> parent_path (child (canonical d) n) = canonical d.
Proof.
  intros Hd [Hne Hn]. pose proof (canonical_nonempty d Hd) as Hc.
  assert (Forall (fun c => negb (is_slash c) = true) (rev n)) as Hf.
  { apply list.Forall_forall. intros c Hin. rewrite is_slash_false; [done |]. intros ->.
    apply Hn, list_elem_of_In, in_rev. by apply list_elem_of_In. }
  unfold parent_path, child. destruct (canonical_last d) as [-> | Hl].
  - rewrite bool_decide_eq_true_2 by done. rewrite rev_app_distr, drop_while_app by done. done.
  - rewrite bool_decide_eq_false_2 by (intros E; by rewrite E in Hl).
    rewrite !rev_app_distr, <-app_assoc, drop_while_app by done.
    change (drop_while is_slash (drop_while _ (rev #"/" ++ rev (canonical d))))
      with (drop_while is_slash (rev (canonical d))).
    rewrite drop_while_last, rev_involutive by done. by destruct (canonical d).
Qed.

Lemma node_at_ne fs d : canonical d <> #"/" -> node_at fs d = fs !! canonical d.
Proof. intros Hc. unfold node_at. by rewrite bool_decide_eq_false_2. Qed.

(** What is found at, and made in, a directory. *)
Lemma node_at_child fs d n :
  d <> [] -> simple n -> node_at fs (path_join d n) = fs !! child (canonical d) n.
Proof.
  intros Hd Hn. unfold node_at. rewrite canonical_child by done.
  by rewrite bool_decide_eq_false_2 by (by apply child_ne_root).
Qed.

Lemma parent_exists_child fs d n :
  d <> [] -> simple n -> parent_exists fs (path_join d n) = is_directory fs d.
Proof.
  intros Hd Hn. unfold parent_exists. rewrite canonical_child, parent_child by done.
  pose proof (canonical_nonempty d Hd). destruct (canonical d) as [|c l] eqn:E; [done |].
  rewrite <-E. unfold is_directory, node_at. by rewrite canonical_idem.
Qed.

(** A new file in a directory is read back. *)
Lemma write_file_new fs d n content :
  d <> [] -> simple n -> is_directory fs d = true -> fs !! child (canonical d) n <> Some Directory ->
  fs !! child (canonical d) n <> Some Special ->
  write_file (path_join d n) content fs = <[child (canonical d) n := Regular content]> fs.
Proof.
  intros Hd Hn Hdir H1 H2. unfold write_file.
  rewrite node_at_child, parent_exists_child, canonical_child, Hdir by done.
  by destruct (fs !! _) as [[] |].
Qed.

(** A write leaves directories and other files alone. *)
Lemma write_file_directory fs p q content :
  is_directory fs q = true -> is_directory (write_file p content fs) q = true.
Proof.
  unfold is_directory, write_file. rewrite !bool_decide_eq_true. intros Hq.
  assert (node_at fs p <> Some Directory ->
    node_at (<[canonical p := Regular content]> fs) q = Some Directory) as Hother.
  { intros Hp. destruct (decide (canonical p = canonical q)) as [E |].
    - destruct Hp. unfold node_at in *. by rewrite E.
    - unfold node_at in *. case_bool_decide; [done |]. by rewrite lookup_insert_ne. }
  destruct (node_at fs p) as [[] |] eqn:E; try done; [by apply Hother |].
  destruct (parent_exists fs p); [by apply Hother | done].
Qed.

Lemma write_file_other fs p q content :
  canonical p <> canonical q -> node_at (write_file p content fs) q = node_at fs q.
Proof.
  intros Hpq. unfold write_file.
  assert (node_at (<[canonical p := Regular content]> fs) q = node_at fs q) as E.
  { unfold node_at. case_bool_decide; [done |]. by apply lookup_insert_ne. }
  destruct (node_at fs p) as [[] |]; [done.. |]. by destruct (parent_exists fs p).
Qed.

Lemma read_file_child fs d n :
  d <> [] -> simple n ->
  read_file fs (path_join d n) =
  match fs !! child (canonical d) n with Some (Regular content) => Some content | _ => None end.
Proof. intros Hd Hn. unfold read_file. by rewrite node_at_child. Qed.

Lemma split_at_None c s : c ∉ s -> split_at c s = None.
Proof.
  induction s as [|d s IH]; intros Hs; [done |]. apply not_elem_of_cons in Hs as [Hd Hs].
  cbn [split_at]. rewrite bool_decide_eq_false_2 by congruence. by rewrite IH.
Qed.

Lemma split_at_app c s t : c ∉ s -> split_at c (s ++ c :: t) = Some (s, t).
Proof.
  induction s as [|d s IH]; intros Hs; cbn [app split_at].
  - by rewrite bool_decide_eq_true_2.
  - apply not_elem_of_cons in Hs as [Hd Hs]. rewrite bool_decide_eq_false_2 by congruence.
    by rewrite IH.
Qed.

Lemma split_at_Some c s a b : split_at c s = Some (a, b) -> s = a ++ c :: b /\ c ∉ a.
Proof.
  revert a. induction s as [|d s IH]; intros a E; [done |]. cbn [split_at] in E.
  case_bool_decide as Hd; [simplify_eq; split; [done | apply not_elem_of_nil] |].
  destruct (split_at c s) as [[a' b'] |]; [| done]. injection E as <- <-.
  destruct (IH a' eq_refl) as [-> Ha]. split; [done |]. apply not_elem_of_cons. auto.
Qed.
Lemma split_at_not c s : split_at c s = None -> c ∉ s.
Proof.
  intros E Hin. apply list_elem_of_split in Hin as (a & b & ->).
  revert E. induction a as [|d a IH]; cbn [app split_at]; [by rewrite bool_decide_eq_true_2 |].
  case_bool_decide; [done |]. by destruct (split_at c (a ++ c :: b)) as [[] |].
Qed.

Lemma filename_no_slash p : "/"%byte ∉ filename p.
Proof.
  unfold filename. destruct (split_at _ _) as [[a b] |] eqn:E.
  - apply split_at_Some in E as [_ Ha]. intros Hin. apply Ha, list_elem_of_In, in_rev.
    by apply list_elem_of_In.
  - apply split_at_not in E. intros Hin. apply E, list_elem_of_In. apply -> in_rev.
    by apply list_elem_of_In.
Qed.
Lemma stem_no_slash p : "/"%byte ∉ stem p.
Proof.
  unfold stem. pose proof (filename_no_slash p) as Hf. case_bool_decide; [done |].
  destruct (split_at _ _) as [[a b] |] eqn:E; [| done]. destruct b as [|c b]; [done |].
  apply split_at_Some in E as [E _]. intros Hin. apply Hf.
  apply list_elem_of_In, in_rev. rewrite E. apply in_app_iff. right. right.
  apply in_rev. by apply list_elem_of_In in Hin.
Qed.

(** The parts of a name have its characters. *)
Lemma filename_chars p c : c ∈ filename p -> c ∈ p.
Proof.
  unfold filename. destruct (split_at _ _) as [[a b] |] eqn:E; [| done].
  apply split_at_Some in E as [E _]. intros Hc%list_elem_of_In%in_rev%list_elem_of_In.
  apply list_elem_of_In, in_rev. rewrite E. apply in_app_iff. left. by apply list_elem_of_In.
Qed.
Lemma stem_chars p c : c ∈ stem p -> c ∈ p.
Proof.
  unfold stem. intros Hc. apply filename_chars. case_bool_decide; [done |].
  destruct (split_at _ _) as [[a b] |] eqn:E; [| done]. destruct b as [|d b]; [done |].
  apply split_at_Some in E as [E _]. apply list_elem_of_In, in_rev. rewrite E.
  apply list_elem_of_In, in_rev in Hc.
  apply in_app_iff. right. right. exact Hc.
Qed.

(** The value of PATH that lists [dirs]. *)
Fixpoint path_variable (dir : bytes) (dirs : list bytes) : bytes :=
  match dirs with [] => dir | d :: dirs => dir ++ ":"%byte :: path_variable d dirs end.

Lemma length_path_variable dir dirs : (length dirs <= length (path_variable dir dirs))%nat.
Proof.
  revert dir. induction dirs as [|d dirs IH]; intros dir; cbn [path_variable length]; [lia |].
  rewrite length_app. cbn [length]. specialize (IH d). lia.
Qed.

Lemma which_loop_first fuel dir dirs executable fs :
  Forall (fun d => ":"%byte ∉ d) (dir :: dirs) -> (length dirs < fuel)%nat ->
  which_loop fuel fs (path_variable dir dirs) executable =
  match List.find (exists_ fs) (map (fun d => path_join d executable) (dir :: dirs)) with
  | Some cand => Ok cand
  | None => Throw (#"Executable not found " ++ executable)
  end.
Proof.
  revert fuel dir. induction dirs as [|d dirs IH]; intros fuel dir Hd Hf;
    (destruct fuel as [|fuel]; [cbn in Hf; lia |]);
    apply list.Forall_cons in Hd as [Hdir Hd]; cbn [path_variable which_loop map List.find].
  - rewrite split_at_None by done. by destruct (exists_ _ _).
  - rewrite split_at_app by done. destruct (exists_ fs (path_join dir executable)); [done |].
    apply IH; [done | cbn [length] in Hf; lia].
Qed.

(** [which] finds the program in the first directory of PATH that has it,
    an empty entry being the current directory, and throws exactly when no
    directory has it; it always ends. *)
Theorem which_first (dir : bytes) (dirs : list bytes) (executable : bytes) (fs : filesystem) :
  Forall (fun d => ":"%byte ∉ d) (dir :: dirs) ->
  which (Some (path_variable dir dirs)) executable fs =
  match List.find (exists_ fs) (map (fun d => path_join d executable) (dir :: dirs)) with
  | Some cand => Ok cand
  | None => Throw (#"Executable not found " ++ executable)
  end.
Proof.
  intros Hd. apply which_loop_first; [done |].
  pose proof (length_path_variable dir dirs). lia.
Qed.

Lemma which_first_witness :
  which (Some #"/usr/local/bin::/usr/bin") #"app" (<[ #"/usr/bin/app" := Regular [] ]> ∅) =
  Ok #"/usr/bin/app".
Proof.
  refine (which_first #"/usr/local/bin" [ []; #"/usr/bin"] #"app" _ _).
  apply (bool_decide_unpack _). vm_compute. exact I.
Defined.
