(* ===== verification/Json.v ===== *)
(** * Json: the documents the commands keep

    The values of nlohmann::json and the operations the commands use on them.
    The text of a document is the library's: printing and parsing are a class
    with the law that a printed document parses to itself. *)

From S2P Require Import Prelude Streams Trace.

#[local] Set Warnings "-register-all".

Inductive json : Type :=
  | Null
  | Boolean (b : bool)
  | Number (literal : bytes)
  | String (s : bytes)
  | Array (l : list json)
  (** A [std::map]: the keys ascend. *)
  | Object (l : list (bytes * json)).

(** [dump(indent)], which throws on text that is not UTF-8, and [operator>>],
    [None] being a parse error.  The law is for documents without numbers, which
    are all the commands write. *)
Fixpoint plain (j : json) : bool :=
  match j with
  | Null | Boolean _ | String _ => true
  | Number _ => false
  | Array l => forallb plain l
  | Object l => forallb (fun kv => plain kv.2) l
  end.

Class JsonText := {
  dump : Z -> json -> outcome bytes;
  parse : bytes -> option json;
  parse_dump n j text : plain j = true -> dump n j = Ok text -> parse text = Some j;
}.

(** The order of the keys: bytes as unsigned characters. *)
Fixpoint text_ltb (a b : bytes) : bool :=
  match a, b with
  | _, [] => false
  | [], _ :: _ => true
  | x :: a, y :: b => (b2z x <? b2z y) || ((b2z x =? b2z y) && text_ltb a b)
  end.

Fixpoint insert_key (k : bytes) (v : json) (l : list (bytes * json)) : list (bytes * json) :=
  match l with
  | [] => [(k, v)]
  | (k', v') :: l' =>
      if bool_decide (k = k') then (k, v) :: l'
      else if text_ltb k k' then (k, v) :: l
      else (k', v') :: insert_key k v l'
  end.
Fixpoint find_key (k : bytes) (l : list (bytes * json)) : option json :=
  match l with
  | [] => None
  | (k', v) :: l => if bool_decide (k = k') then Some v else find_key k l
  end.

(** [j[k] = v]; a null value becomes an object. *)
Definition set_key (k : bytes) (v : json) (j : json) : outcome json :=
  match j with
  | Null => Ok (Object [(k, v)])
  | Object l => Ok (Object (insert_key k v l))
  | _ => Throw #"[json.exception.type_error.305] cannot use operator[] with a string argument"
  end.
(** [j[k]] read: a missing key reads as null. *)
Definition at_key (k : bytes) (j : json) : outcome json :=
  match j with
  | Null => Ok Null
  | Object l => Ok (default Null (find_key k l))
  | _ => Throw #"[json.exception.type_error.305] cannot use operator[] with a string argument"
  end.
(** [push_back] *)
Definition push_back (v : json) (j : json) : outcome json :=
  match j with
  | Null => Ok (Array [v])
  | Array l => Ok (Array (l ++ [v]))
  | _ => Throw #"[json.exception.type_error.308] cannot use push_back()"
  end.
(** [get<std::string>] and [get<bool>] *)
Definition get_string (j : json) : outcome bytes :=
  match j with String s => Ok s | _ => Throw #"[json.exception.type_error.302] type must be string" end.
Definition get_bool (j : json) : outcome bool :=
  match j with Boolean b => Ok b | _ => Throw #"[json.exception.type_error.302] type must be boolean" end.
(** What a range-based [for] visits. *)
Definition elements (j : json) : list json :=
  match j with Null => [] | Array l => l | Object l => map snd l | _ => [j] end.
(** [items()] of an object; the commands use it on nothing else. *)
Definition items (j : json) : list (bytes * json) :=
  match j with Object l => l | _ => [] end.
Definition contains_key (k : bytes) (j : json) : bool :=
  match j with Object l => bool_decide (is_Some (find_key k l)) | _ => false end.

Definition strings (l : list bytes) : json := Array (map String l).

(** ** Lemmas *)

Lemma find_insert k v k' l :
  find_key k' (insert_key k v l) = if bool_decide (k' = k) then Some v else find_key k' l.
Proof.
  induction l as [|[k1 v1] l IH]; [done |]. cbn [insert_key].
  destruct (decide (k = k1)) as [-> | Hk].
  - rewrite (bool_decide_eq_true_2 (k1 = k1)) by done. cbn [find_key].
    destruct (decide (k' = k1)) as [-> |]; [by rewrite bool_decide_eq_true_2 |].
    by rewrite !bool_decide_eq_false_2.
  - rewrite (bool_decide_eq_false_2 (k = k1)) by done.
    destruct (text_ltb k k1); cbn [find_key]; [done |]. rewrite IH.
    destruct (decide (k' = k1)) as [-> |]; [| by rewrite (bool_decide_eq_false_2 (k' = k1))].
    rewrite (bool_decide_eq_true_2 (k1 = k1)) by done.
    by rewrite bool_decide_eq_false_2.
Qed.

(** Assignments to an object that is still null start one. *)
Lemma set_key_Object k v l : set_key k v (Object l) = Ok (Object (insert_key k v l)).
Proof. done. Qed.

Lemma plain_strings l : plain (strings l) = true.
Proof. by induction l. Qed.

Lemma plain_insert k v l :
  plain v = true -> plain (Object l) = true -> plain (Object (insert_key k v l)) = true.
Proof.
  intros Hv. induction l as [|[k1 v1] l IH]; intros Hl; cbn in *; [by rewrite Hv |].
  apply andb_true_iff in Hl as [H1 Hl]. case_bool_decide; [cbn; by rewrite Hv, Hl |].
  destruct (text_ltb k k1); cbn; [by rewrite Hv, H1, Hl |]. by rewrite H1, IH.
Qed.

(** ** A concrete text format *)

(** Documents as trees of the countable library. *)
Fixpoint to_tree (j : json) : gen_tree (bool + bytes) :=
  match j with
  | Null => GenNode 0 []
  | Boolean b => GenLeaf (inl b)
  | Number s => GenNode 1 [GenLeaf (inr s)]
  | String s => GenLeaf (inr s)
  | Array l => GenNode 2 (map to_tree l)
  | Object l => GenNode 3 (map (fun kv => GenNode 4 [GenLeaf (inr kv.1); to_tree kv.2]) l)
  end.
Fixpoint from_tree (t : gen_tree (bool + bytes)) : json :=
  match t with
  | GenNode 0 _ => Null
  | GenLeaf (inl b) => Boolean b
  | GenNode 1 [GenLeaf (inr s)] => Number s
  | GenLeaf (inr s) => String s
  | GenNode 2 l => Array (map from_tree l)
  | GenNode 3 l => Object (map (fun t =>
      match t with GenNode 4 [GenLeaf (inr k); v] => (k, from_tree v) | _ => ([], Null) end) l)
  | _ => Null
  end.

Fixpoint from_to_tree (j : json) : from_tree (to_tree j) = j.
Proof.
  destruct j as [| | | | l | l]; cbn; [done.. | |]; f_equal.
  - induction l as [|j l IH]; cbn; [done |]. by rewrite from_to_tree, IH.
  - induction l as [|[k j] l IH]; cbn; [done |]. by rewrite from_to_tree, IH.
Qed.

#[global] Program Instance tree_text : JsonText := {
  dump _ j := Ok (code_bytes (to_tree j));
  parse text := Some (from_tree (decode_bytes (GenNode 0 []) (text ++ [x00])));
}.
Next Obligation. intros n j text _ [= <-]. by rewrite decode_code_bytes, from_to_tree. Qed.
