(* ===== verification/Launch.v ===== *)
(** * Launch: the commands record and replay

    src/record.cpp and src/replay.cpp up to the start of the traced program and
    from its end on.  The program itself, and the tracer that runs it (Tracer),
    are a parameter. *)

From S2P Require Import Prelude Streams Options Files Json Tracer.

(** ** include/constants.hpp *)

Definition kSkipMemObjsEnvVar := #"DPCPP_TRACE_SKIP_MEM_OBJECTS".
Definition kTracePathEnvVar := #"DPCPP_TRACE_DATA_PATH".
Definition kFilesConfigName := #"files_config.json".
Definition kPackedDataPath := #"pack".
Definition kReplayConfigName := #"replay_config.json".
Definition kReplayFileMapConfigName := #"replay_file_map.json".
Definition kReplayCommand := #"command".
Definition kReplayExecutable := #"executable".
Definition kReplayArguments := #"arguments".
Definition kRecordMode := #"recordMode".
Definition kRecordModeTraceOnly := #"traceOnly".
Definition kRecordModeDefault := #"default".
Definition kRecordModeFull := #"full".
Definition kHasOpenCLPlugin := #"hasOpenCLPlugin".
Definition kHasLevelZeroPlugin := #"hasLevelZeroPlugin".
Definition kHasCUDAPlugin := #"hasCUDAPlugin".
Definition kHasROCmPlugin := #"hasROCmPlugin".
Definition kOpenCLPluginName := #"libpi_opencl.so".
Definition kLevelZeroPluginName := #"libpi_level_zero.so".
Definition kCUDAPluginName := #"libpi_cuda.so".
Definition kROCmPluginName := #"libpi_rocm.so".

(** ** The surroundings *)

(** The environment of the command itself, and whether [dlopen] finds a library. *)
Class System := {
  getenv : bytes -> option bytes;
  canLoadLibrary : bytes -> bool;
}.

(** What [launch] starts. *)
Record process := {
  executable : bytes;
  arguments : list bytes;
  environment : list bytes;
}.

(** A JSON file read, and written with the indentation [n]. *)
Definition load_json `{JsonText} (p : bytes) (fs : filesystem) : outcome json :=
  match read_file fs p ≫= parse with Some j => Ok j | None => Throw #"[json.exception.parse_error.101] parse error" end.
Definition store_json `{JsonText} (n : Z) (j : json) (p : bytes) : M filesystem unit :=
  text ← lift (dump n j); modify (write_file p text).

(** A call that does not return. *)
Definition otherwise (x : outcome unit) : M filesystem unit := lift x.

Section launch.
Context `{JsonText, System}.

(** ** record *)

(** The assignments to [replayConfig]. *)
Definition set_keys (l : list (bytes * json)) (j : json) : outcome json :=
  foldl (fun j kv => j ← j; set_key kv.1 kv.2 j) (Ok j) l.

Definition record_config (o : options) (exe : bytes) : list (bytes * json) :=
  [ (kHasOpenCLPlugin, Boolean (canLoadLibrary kOpenCLPluginName));
    (kHasLevelZeroPlugin, Boolean (canLoadLibrary kLevelZeroPluginName));
    (kHasCUDAPlugin, Boolean (canLoadLibrary kCUDAPluginName));
    (kHasROCmPlugin, Boolean (canLoadLibrary kROCmPluginName));
    (kRecordMode, String (if record_skip_mem_objects o then kRecordModeTraceOnly
                          else kRecordModeDefault));
    (kReplayCommand, String (input o));
    (kReplayExecutable, String exe);
    (kReplayArguments, strings (args o)) ].

(** [(opts.location() / ".." / "lib").string() + ":"] *)
Definition library_path (o : options) : bytes :=
  #"LD_LIBRARY_PATH=" ++ path_join (path_join (location o) #"..") #"lib" ++ #":".

(** From the start of [record] to [tracer.launch]. *)
Definition record_prepare (o : options) : M filesystem process :=
  fs ← get;
  _ ← (if exists_ fs (output o) then
         if record_override_trace o then remove_all (output o) else otherwise Terminate
       else mret tt);
  created ← create_directory (output o);
  _ ← (if created : bool then mret tt else otherwise Terminate);
  created ← create_directory (path_join (output o) kBuffersPath);
  _ ← (if created : bool then mret tt else otherwise (Exit 1));
  _ ← modify (write_file (path_join (output o) #"env") (concat (map (fun e => e ++ [x0a]) (env o))));
  fs ← get;
  exe ← lift (if exists_ fs (input o) then Ok (input o) else which (getenv #"PATH") (input o) fs);
  replayConfig ← lift (set_keys (record_config o exe) Null);
  _ ← store_json 4 replayConfig (path_join (output o) kReplayConfigName);
  mret {| executable := exe;
          arguments := input o :: args o;
          environment := env o ++
            [ #"XPTI_TRACE_ENABLE=1";
              #"XPTI_FRAMEWORK_DISPATCHER=libxptifw.so";
              #"LD_PRELOAD=libsystem_intercept.so";
              #"XPTI_SUBSCRIBERS=libgraph_dump.so,libplugin_record.so";
              library_path o ++ default [] (getenv #"LD_LIBRARY_PATH");
              kTracePathEnvVar ++ #"=" ++ output o ] ++
            (if record_skip_mem_objects o then [kSkipMemObjsEnvVar ++ #"=1"] else []) |}.

(** From the end of the program on: [files] are the names its [openat] calls
    gave to the handler, in order. *)
Definition record_finish (o : options) (files : list bytes) (code : Z) : M filesystem unit :=
  _ ← store_json 4 (match files with [] => Null | _ => strings files end)
        (path_join (output o) kFilesConfigName);
  if code =? 0 then mret tt
  else otherwise (Throw (#"Child application exited with code " ++ to_string code)).

(** [run] is the traced program: the names opened, and the exit code. *)
Definition record (run : process -> M filesystem (list bytes * Z)) (o : options)
    : M filesystem unit :=
  p ← record_prepare o;
  '(files, code) ← run p;
  record_finish o files code.

(** ** replay *)

(** [std::getline] over a file. *)
Fixpoint lines (cur : bytes) (s : bytes) : list bytes :=
  match s with
  | [] => match cur with [] => [] | _ => [cur] end
  | c :: s => if bool_decide (c = x0a) then cur :: lines [] s else lines (cur ++ [c]) s
  end.

(** The variables of a packed trace, and what its LD_LIBRARY_PATH adds. *)
Fixpoint packed_env (l : list bytes) : list bytes * bytes :=
  match l with
  | [] => ([], [])
  | line :: l =>
      let '(env, path) := packed_env l in
      if is_prefix #"LD_LIBRARY_PATH=" line then (env, drop 16 line ++ path)
      else (line :: env, path)
  end.

Definition plugins (config : json) : outcome (bool * bool * bool * bool) :=
  opencl ← (at_key kHasOpenCLPlugin config ≫= get_bool);
  level_zero ← (at_key kHasLevelZeroPlugin config ≫= get_bool);
  cuda ← (at_key kHasCUDAPlugin config ≫= get_bool);
  rocm ← (at_key kHasROCmPlugin config ≫= get_bool);
  Ok (opencl, level_zero, cuda, rocm).

Definition overrides (p : bool * bool * bool * bool) : list bytes :=
  let '(opencl, level_zero, cuda, rocm) := p in
  (if opencl then [ #"SYCL_OVERRIDE_PI_OPENCL=libplugin_replay.so"] else []) ++
  (if level_zero then [ #"SYCL_OVERRIDE_PI_LEVEL_ZERO=libplugin_replay.so"] else []) ++
  (if cuda then [ #"SYCL_OVERRIDE_PI_CUDA=libplugin_replay.so"] else []) ++
  (if rocm then [ #"SYCL_OVERRIDE_PI_ROCM=libplugin_replay.so"] else []).

(** The file a packed trace has in place of [name]; empty for none.  A library
    is looked up by the last component of its name among all keys in order. *)
Definition findSuitableReplacement (basePath : bytes) (replayFileMap : json) (name : bytes)
    : outcome bytes :=
  if contains #".so" name then
    match List.find (fun el => contains (filename name) el.1) (items replayFileMap) with
    | Some el => v ← get_string el.2; Ok (path_join basePath v)
    | None => Ok []
    end
  else if contains_key name replayFileMap then
    v ← (at_key name replayFileMap ≫= get_string); Ok (path_join basePath v)
  else Ok [].

(** The handler installed for both kinds of calls. *)
Definition replace_handler {T} (basePath : bytes) (replayFileMap : json) : file_handler (T := T) :=
  fun filename replaceFilename =>
    replacement ← lift (findSuitableReplacement basePath replayFileMap filename);
    match replacement with [] => mret tt | _ => replaceFilename replacement end.

(** [replay] prints the command, or launches it with the replacements of a
    packed trace: the directory and the map. *)
Inductive action : Type :=
  | Printed (text : bytes)
  | Launched (p : process) (packed : option (bytes * json)).

Definition continued (l : bytes) : bytes := l ++ #" \" ++ [x0a].
Definition print_command (out ld : bytes) (over : list bytes) (exe : bytes) (execArgs : list bytes)
    : bytes :=
  continued out ++ continued (ld ++ #"$LD_LIBRARY_PATH") ++
  continued #"LD_PRELOAD=libsystem_intercept.so" ++ concat (map continued over) ++
  exe ++ concat (map (fun a => #" " ++ a ++ #" ") (drop 1 execArgs)) ++ [x0a].

(** What [replay] and the command [debug] work out first: the command to print,
    or the process to start, and whether the trace is packed. *)
Inductive plan : Type :=
  | PrintCommand (text : bytes)
  | Start (p : process) (packed : bool).

Definition launch_plan (o : options) (fs : filesystem) : outcome plan :=
  let hasCLI := negb (is_directory fs (input o)) in
  let tracePath := if hasCLI then output o else input o in
  replayConfig ← load_json (path_join tracePath kReplayConfigName) fs;
  mode ← (at_key kRecordMode replayConfig ≫= get_string);
  let packed := bool_decide (mode = kRecordModeFull) in
  if hasCLI && packed then
    Throw #"Command line arguments are not supported for packed reproducers"
  else
    '(exe, execArgs) ←
      (if hasCLI then
         exe ← (if exists_ fs (input o) then Ok (input o)
                else which (getenv #"PATH") (input o) fs);
         Ok (exe, input o :: args o)
       else
         exe ← (if packed then Ok (path_join (path_join (input o) kPackedDataPath) #"0")
                else at_key kReplayExecutable replayConfig ≫= get_string);
         command ← (at_key kReplayCommand replayConfig ≫= get_string);
         jsonArgs ← at_key kReplayArguments replayConfig;
         rest ← mapM get_string (elements jsonArgs);
         Ok (exe, command :: rest));
    let outPath := kTracePathEnvVar ++ #"=" ++ tracePath in
    over ← plugins replayConfig;
    if print_only o then
      Ok (PrintCommand (print_command outPath (library_path o) (overrides over) exe execArgs))
    else
      let '(vars, path) :=
        if packed then packed_env (lines [] (default [] (read_file fs (path_join tracePath #"env"))))
        else (base.filter (fun e => is_prefix #"LD_LIBRARY_PATH" e = false) (env o),
              default [] (getenv #"LD_LIBRARY_PATH")) in
      Ok (Start {| executable := exe; arguments := execArgs;
                   environment := vars ++ [ #"LD_PRELOAD=libsystem_intercept.so"] ++
                     overrides over ++ [library_path o ++ path; outPath] |} packed).

Definition replay (o : options) (fs : filesystem) : outcome action :=
  plan ← launch_plan o fs;
  match plan with
  | PrintCommand text => Ok (Printed text)
  | Start p packed =>
      let tracePath := if is_directory fs (input o) then input o else output o in
      if packed then
        fileMap ← load_json (path_join tracePath kReplayFileMapConfigName) fs;
        Ok (Launched p (Some (path_join tracePath kPackedDataPath, fileMap)))
      else Ok (Launched p None)
  end.
End launch.

(** * Theorems *)

(** ** The configuration *)

Section configuration.
Context `{JsonText, System}.

(** Assignments keep the last value of every key. *)
Lemma set_keys_Object l m :
  plain (Object m) = true -> forallb (fun kv => plain kv.2) l = true ->
  exists m', set_keys l (Object m) = Ok (Object m') /\ plain (Object m') = true /\
    forall k, find_key k m' =
      match find_key k (rev l) with Some v => Some v | None => find_key k m end.
Proof.
  unfold set_keys. revert m. induction l as [|[k v] l IH]; intros m Hm Hl.
  { by exists m. }
  cbn in Hl. apply andb_true_iff in Hl as [Hv Hl].
  destruct (IH (insert_key k v m)) as (m' & Hm' & Hp & Hf); [by apply plain_insert | done |].
  exists m'. split; [exact Hm' |]. split; [done |]. intros k'. rewrite Hf. cbn [rev].
  assert (forall r, find_key k' (r ++ [(k, v)]) =
    match find_key k' r with Some x => Some x | None => if bool_decide (k' = k) then Some v else None end)
    as ->.
  { induction r as [|[k1 v1] r IHr]; [done |]. cbn. by destruct (bool_decide (k' = k1)). }
  rewrite find_insert. by destruct (find_key k' (rev l)), (bool_decide (k' = k)).
Qed.

(** What [record] writes into its configuration. *)
Lemma record_config_keys o exe :
  exists m, set_keys (record_config o exe) Null = Ok (Object m) /\ plain (Object m) = true /\
    Forall (fun kv => at_key kv.1 (Object m) = Ok kv.2) (record_config o exe).
Proof.
  destruct (set_keys_Object (tl (record_config o exe))
    [(kHasOpenCLPlugin, Boolean (canLoadLibrary kOpenCLPluginName))]) as (m & Hm & Hp & Hf).
  - done.
  - cbn -[strings]. by rewrite plain_strings.
  - exists m. split; [exact Hm |]. split; [done |].
    unfold record_config. repeat (apply list.Forall_cons; split; [cbn [fst snd at_key]; by rewrite Hf |]).
    constructor.
Qed.

Lemma mapM_get_string l : mapM get_string (elements (strings l)) = Ok l.
Proof.
  induction l as [|s l IH]; [done |]. cbn in *. by rewrite IH.
Qed.
End configuration.

(** ** The directory of a trace *)

(** Every entry is in a directory. *)
Definition tree (fs : filesystem) : Prop :=
  forall d n x, d <> [] -> simple n -> fs !! child (canonical d) n = Some x -> is_directory fs d = true.

(** A directory [d] whose entries are at most those named in [l]. *)
Definition fresh_directory (fs : filesystem) (d : bytes) (l : list bytes) : Prop :=
  is_directory fs d = true /\ canonical d <> #"/" /\
  forall n, simple n -> n ∉ l -> fs !! child (canonical d) n = None.

Lemma within_child c n : c <> #"/" -> within c (child c n) = true.
Proof.
  intros Hc. unfold within, child. rewrite (bool_decide_eq_false_2 (c = _)) by done.
  apply orb_true_iff. right. apply bool_decide_eq_true.
  rewrite take_app_ge by lia. f_equal. by replace (S (length c) - length c)%nat with 1%nat by lia.
Qed.

Lemma no_children fs d :
  tree fs -> d <> [] -> node_at fs d = None ->
  canonical d <> #"/" /\ forall n, simple n -> fs !! child (canonical d) n = None.
Proof.
  intros Ht Hd Hn. split.
  - intros E. unfold node_at in Hn. by rewrite bool_decide_eq_true_2 in Hn.
  - intros n Hs. destruct (fs !! _) as [x|] eqn:E; [| done].
    pose proof (Ht d n x Hd Hs E) as Hdir. unfold is_directory in Hdir. rewrite Hn in Hdir.
    by apply bool_decide_eq_true in Hdir.
Qed.

Lemma remove_all_spec fs d :
  canonical d <> #"/" ->
  exists fs', remove_all d fs = Ok (tt, fs') /\ node_at fs' d = None /\
    forall n, fs' !! child (canonical d) n = None.
Proof.
  intros Hc. eexists. split; [done |]. split.
  - rewrite node_at_ne by done. apply map_lookup_filter_None. right.
    intros x _. cbn. unfold within. by rewrite bool_decide_eq_true_2.
  - intros n. apply map_lookup_filter_None. right. intros x _. cbn. by rewrite within_child.
Qed.

Lemma create_directory_fresh fs d fs' :
  create_directory d fs = Ok (true, fs') -> canonical d <> #"/" ->
  (forall n, simple n -> fs !! child (canonical d) n = None) -> fresh_directory fs' d [].
Proof.
  intros E Hc Hn. unfold create_directory in E.
  destruct (node_at fs d) as [[] |]; simplify_eq. destruct (_ && parent_exists fs d); simplify_eq.
  split; [| split; [done |]].
  - unfold is_directory. rewrite node_at_ne by done.
    rewrite lookup_insert_eq. by apply bool_decide_eq_true.
  - intros n Hs _. rewrite lookup_insert_ne by (intros Ec; exact (child_ne _ _ Hs (eq_sym Ec))).
    by apply Hn.
Qed.

Lemma fresh_insert fs d l n x :
  fresh_directory fs d l -> simple n -> fresh_directory (<[child (canonical d) n := x]> fs) d (n :: l).
Proof.
  intros (Hdir & Hc & Hl) Hs. split; [| split; [done |]].
  - unfold is_directory in *. rewrite node_at_ne in * by done.
    by rewrite lookup_insert_ne by (by apply child_ne).
  - intros n' Hs' [Hne Hnin]%not_elem_of_cons. rewrite lookup_insert_ne; [by apply Hl |].
    intros E%(inj _). congruence.
Qed.

(** A write to a name the directory does not have. *)
Lemma fresh_write fs d l n content :
  fresh_directory fs d l -> d <> [] -> simple n -> n ∉ l ->
  write_file (path_join d n) content fs = <[child (canonical d) n := Regular content]> fs.
Proof.
  intros (Hdir & Hc & Hl) Hd Hs Hn. apply write_file_new; [done.. | |]; by rewrite Hl.
Qed.

Lemma simple_name n : bool_decide (n <> []) && forallb (fun c => negb (is_slash c)) n = true -> simple n.
Proof.
  intros [Hn Hf]%andb_true_iff. apply bool_decide_eq_true in Hn. split; [done |].
  intros Hin. rewrite forallb_forall in Hf. apply list_elem_of_In in Hin.
  by specialize (Hf _ Hin).
Qed.
Ltac simple_tac := apply simple_name; vm_compute; reflexivity.

Section commands.
Context `{JsonText, System}.

(** After the output directory has been made, it is empty. *)
Lemma prepare_output o fs fs' created :
  tree fs -> output o <> [] ->
  (_ ← (if exists_ fs (output o) then
          if record_override_trace o then remove_all (output o) else otherwise Terminate
        else mret tt);
   create_directory (output o)) fs = Ok (created, fs') ->
  created = true -> fresh_directory fs' (output o) [].
Proof.
  intros Ht Ho (u & fsa & Ha & Hc)%M_bind_Ok ->.
  enough (canonical (output o) <> #"/" /\
    forall n, simple n -> fsa !! child (canonical (output o)) n = None) as [H1 H2]
    by (by eapply create_directory_fresh).
  assert (node_at fsa (output o) = None) as Hn.
  { unfold create_directory in Hc. by destruct (node_at fsa (output o)) as [[] |]. }
  assert (canonical (output o) <> #"/") as Hroot.
  { intros E. unfold node_at in Hn. by rewrite bool_decide_eq_true_2 in Hn. }
  split; [done |]. intros n Hs. unfold exists_ in Ha. case_bool_decide as Hex.
  - destruct (record_override_trace o); [| done].
    destruct (remove_all_spec fs (output o) Hroot) as (fs'' & Hr & _ & Hch).
    rewrite Hr in Ha. simplify_eq. apply Hch.
  - injection Ha as _ <-. by apply no_children.
Qed.

(** What [record] has done when it launches the program. *)
Lemma record_prepare_spec o fs p fs1 :
  tree fs -> output o <> [] -> record_prepare o fs = Ok (p, fs1) ->
  is_directory fs1 (output o) = true /\ canonical (output o) <> #"/" /\
  exists m text, read_file fs1 (path_join (output o) kReplayConfigName) = Some text /\
    parse text = Some (Object m) /\ plain (Object m) = true /\
    Forall (fun kv => at_key kv.1 (Object m) = Ok kv.2) (record_config o (executable p)) /\
    arguments p = input o :: args o.
Proof.
  intros Ht Ho Hp. unfold record_prepare in Hp.
  apply M_bind_Ok in Hp as (fs' & s0 & [= <- <-] & Hp).
  apply M_bind_Ok in Hp as (u & fsa & Ha & Hp).
  apply M_bind_Ok in Hp as (created & fsb & Hb & Hp).
  apply M_bind_Ok in Hp as ([] & fsc & Hc & Hp).
  destruct created; [| done]. injection Hc as <-.
  assert (fresh_directory fsb (output o) []) as Hfresh.
  { eapply prepare_output; [done | done | | done]. apply M_bind_Ok. by exists u, fsa. }
  apply M_bind_Ok in Hp as (created & fsd & Hd & Hp).
  apply M_bind_Ok in Hp as ([] & fse & He & Hp). destruct created; [| done]. injection He as <-.
  assert (fresh_directory fsd (output o) [kBuffersPath]) as Hfresh2.
  { unfold create_directory in Hd. assert (simple kBuffersPath) as Hs by simple_tac.
    rewrite node_at_child, canonical_child in Hd by done.
    destruct (fsb !! _) as [[] |]; simplify_eq. destruct (_ && parent_exists _ _); simplify_eq.
    by apply fresh_insert. }
  apply M_bind_Ok in Hp as ([] & fsf & Hf & Hp). injection Hf as <-.
  apply M_bind_Ok in Hp as (fs' & s0 & [= <- <-] & Hp).
  apply M_bind_Ok in Hp as (exe & s0 & [_ ->]%lift_Ok & Hp).
  rewrite (fresh_write _ _ [kBuffersPath]) in Hp
    by (done || simple_tac || (apply (bool_decide_unpack _); vm_compute; exact I)).
  apply (fresh_insert _ _ _ #"env" (Regular (concat (map (fun e => e ++ [x0a]) (env o)))))
    in Hfresh2; [| simple_tac].
  apply M_bind_Ok in Hp as (j & s0 & [Hj ->]%lift_Ok & Hp).
  apply M_bind_Ok in Hp as ([] & s0 & Hs & Hp). injection Hp as <- <-.
  apply M_bind_Ok in Hs as (text & s1 & [Htext ->]%lift_Ok & Hs). injection Hs as <-.
  destruct (record_config_keys o exe) as (m & Hm & Hplain & Hkeys).
  rewrite Hm in Hj. injection Hj as <-.
  split; [apply write_file_directory, Hfresh2 |]. split; [apply Hfresh2 |]. exists m, text.
  split; [| split; [by eapply parse_dump | done]].
  rewrite (fresh_write _ _ [ #"env"; kBuffersPath])
    by (done || simple_tac || (apply (bool_decide_unpack _); vm_compute; exact I)).
  rewrite read_file_child, lookup_insert_eq by (done || simple_tac). done.
Qed.

Lemma load_json_ok pth fs text j : read_file fs pth = Some text -> parse text = Some j ->
  load_json pth fs = Ok j.
Proof. intros Hr Hp. unfold load_json. rewrite Hr. cbn. by rewrite Hp. Qed.

(** [record], then [replay] of the trace without a command line: when the
    traced program leaves the trace's configuration alone, [replay] launches the
    program that [record] launched, with the arguments it had, on the trace, the
    replay plugin standing in for exactly the plugins [record] could load and
    the user's LD_LIBRARY_PATH behind the tool's own. *)
Theorem record_then_launch (o o' : options) (fs0 fs1 fs2 : filesystem) (p : process) :
  tree fs0 -> output o <> [] -> record_prepare o fs0 = Ok (p, fs1) ->
  is_directory fs2 (output o) = true ->
  read_file fs2 (path_join (output o) kReplayConfigName) =
  read_file fs1 (path_join (output o) kReplayConfigName) ->
  input o' = output o -> print_only o' = false ->
  replay o' fs2 = Ok (Launched
    {| executable := executable p;
       arguments := arguments p;
       environment :=
         base.filter (fun e => is_prefix #"LD_LIBRARY_PATH" e = false) (env o') ++
         [ #"LD_PRELOAD=libsystem_intercept.so"] ++
         overrides (canLoadLibrary kOpenCLPluginName, canLoadLibrary kLevelZeroPluginName,
                    canLoadLibrary kCUDAPluginName, canLoadLibrary kROCmPluginName) ++
         [library_path o' ++ default [] (getenv #"LD_LIBRARY_PATH");
          kTracePathEnvVar ++ #"=" ++ output o] |} None).
Proof.
  intros Ht Ho Hp Hdir Hread Hin Hpr.
  destruct (record_prepare_spec o fs0 p fs1 Ht Ho Hp) as (_ & _ & m & text & Hfile & Htext & _ & Hkeys & Hargs).
  unfold replay, launch_plan. rewrite Hin, Hdir. cbn [negb].
  rewrite <-Hread in Hfile. rewrite (load_json_ok _ _ _ _ Hfile Htext).
  unfold record_config in Hkeys. rewrite !list.Forall_cons in Hkeys.
  destruct Hkeys as (H1 & H2 & H3 & H4 & Hmode & Hcmd & Hexe & Hrest & _).
  cbn [fst snd] in *. unfold plugins. cbn [mbind outcome_mbind outcome_bind].
  rewrite Hmode, Hcmd, Hexe, Hrest, H1, H2, H3, H4.
  cbn [mbind outcome_mbind outcome_bind get_string].
  rewrite bool_decide_eq_false_2 by (by destruct (record_skip_mem_objects o)). cbn [andb].
  cbn [mbind outcome_mbind outcome_bind get_string get_bool].
  rewrite mapM_get_string. cbn [outcome_bind]. by rewrite Hpr, Hargs.
Qed.
End commands.

(** ** A concrete trace *)

(** Every entry has its directory, checked. *)
Lemma tree_check fs :
  forallb (fun kv => bool_decide (parent_path kv.1 = []) || is_directory fs (parent_path kv.1))
    (map_to_list fs) = true -> tree fs.
Proof.
  intros Hf d n x Hd Hn E. rewrite forallb_forall in Hf.
  apply elem_of_map_to_list, list_elem_of_In in E. apply Hf in E. cbn [fst] in E.
  rewrite parent_child in E by done. apply orb_true_iff in E as [E%bool_decide_eq_true | E].
  - by destruct (canonical_nonempty d Hd).
  - unfold is_directory, node_at in *. by rewrite canonical_idem in E.
Qed.

Definition sample_system : System :=
  {| getenv v := if bool_decide (v = #"PATH") then Some #"/bin" else None;
     canLoadLibrary l := bool_decide (l = kOpenCLPluginName) |}.
Definition sample_fs : filesystem :=
  <[ #"/bin" := Directory]> (<[ #"/bin/app" := Regular #"program"]>
    (<[ #"/data" := Regular #"numbers"]> ∅)).
Definition record_options : options := set_mArguments [ #"-n"] (set_paths #"app" #"/trace" new_options).
Definition replay_options : options := set_paths #"/trace" [] new_options.

Lemma record_then_launch_witness : let _ := sample_system in
  exists p fs, record_prepare record_options sample_fs = Ok (p, fs) /\
    replay replay_options fs = Ok (Launched
      {| executable := executable p;
         arguments := arguments p;
         environment :=
           [ #"LD_PRELOAD=libsystem_intercept.so"; #"SYCL_OVERRIDE_PI_OPENCL=libplugin_replay.so";
             #"LD_LIBRARY_PATH=../lib:"; #"DPCPP_TRACE_DATA_PATH=/trace"] |} None).
Proof.
  intros S.
  destruct (is_ok_true (record_prepare record_options sample_fs)) as [[p fs] E];
    [vm_compute; reflexivity |].
  assert (tree sample_fs) as Ht by (apply tree_check; vm_compute; reflexivity).
  exists p, fs. split; [exact E |].
  refine (record_then_launch record_options replay_options sample_fs fs fs p Ht _ E _ eq_refl
    eq_refl eq_refl).
  - discriminate.
  - assert (fs = match record_prepare record_options sample_fs with Ok (_, fs) => fs | _ => ∅ end)
      as -> by (by rewrite E).
    vm_compute. reflexivity.
Defined.
