(* ===== verification/Archive.v ===== *)
(** * Archive: the commands pack and unpack

    src/pack.cpp copies the files a recorded program opened into the trace and
    can write the whole trace as one compressed file; src/unpack.cpp makes the
    directory again. *)

From S2P Require Import Prelude Streams Trace Options Files Json Tracer Launch.

(** What a process can map: the user half of the address space. *)
Definition mappable (b : bytes) : Prop := Z.of_nat (length b) < 2 ^ 47.
#[global] Instance mappable_dec b : Decision (mappable b) := Z_lt_dec _ _.

(** What the commands rely on of lib/utils/Compression.cpp, which Resources
    shows of it.  A file that is compressed has been mapped. *)
Class Compression := {
  compress : bytes -> bytes;
  uncompress : bytes -> outcome bytes;
  uncompress_compress b : mappable b -> uncompress (compress b) = Ok b;
}.

(** [recursive_directory_iterator] with [fs::relative]: the paths below a
    directory, relative to it, in an order that is the file system's. *)
Class Walk := { walk : filesystem -> bytes -> list bytes }.

(** ** pack *)

(** The directories that are not packed. *)
Definition unpacked (cand : bytes) : bool :=
  is_prefix #"/dev" cand || is_prefix #"/sys" cand || is_prefix #"/proc" cand.

Definition packed_name (counter : Z) (cand : bytes) : bytes :=
  to_string counter ++ #"_" ++ stem cand.

Section pack.
Context `{JsonText}.

(** The loop over [recordFiles]: the map that replay uses. *)
Fixpoint pack_files (dir : bytes) (elements : list json) (counter : Z) (replayMap : json)
    : M filesystem json :=
  match elements with
  | [] => mret replayMap
  | element :: elements =>
      cand ← lift (get_string element);
      fs ← get;
      if unpacked cand then pack_files dir elements counter replayMap
      else if negb (is_regular_file fs cand) then pack_files dir elements counter replayMap
      else
        let newFileName := packed_name counter cand in
        _ ← copy_file cand (path_join (path_join dir kPackedDataPath) newFileName);
        replayMap ← lift (set_key cand (String newFileName) replayMap);
        pack_files dir elements (counter + 1) replayMap
  end.

(** [pack] up to the archive; EXIT_FAILURE is 1. *)
Definition pack_trace (dir : bytes) : M filesystem unit :=
  fs ← get;
  _ ← (if exists_ fs dir then mret tt else otherwise (Exit 1));
  _ ← (if exists_ fs (path_join dir kPackedDataPath) then otherwise (Exit 1) else mret tt);
  _ ← create_directory (path_join dir kPackedDataPath);
  recordFiles ← (fs ← get; lift (load_json (path_join dir kFilesConfigName) fs));
  replayConfig ← (fs ← get; lift (load_json (path_join dir kReplayConfigName) fs));
  executable ← lift (at_key kReplayExecutable replayConfig ≫= get_string);
  _ ← copy_file executable (path_join (path_join dir kPackedDataPath) #"0");
  replayMap ← lift (set_key executable (String #"0") Null);
  replayMap ← pack_files dir (elements recordFiles) 1 replayMap;
  _ ← store_json 2 replayMap (path_join dir kReplayFileMapConfigName);
  replayConfig ← lift (set_key kRecordMode (String kRecordModeFull) replayConfig);
  store_json 4 replayConfig (path_join dir kReplayConfigName).

(** ** The archive *)

Context `{Compression, Walk}.

(** An entry of the archive: its kind, its path, and a file's data. *)
Inductive entry : Type :=
  | DirEntry (path : bytes)
  | FileEntry (path content : bytes).

(** [sized s]: the length of [s] as a [uint64_t], and [s]. *)
Definition sized (s : bytes) : bytes := le_bytes 8 (Z.of_nat (length s)) ++ s.
Definition entry_bytes (e : entry) : bytes :=
  match e with
  | DirEntry path => x00 :: sized path
  | FileEntry path content => x01 :: sized path ++ sized (compress content)
  end.

(** What is written for a path of the walk; other files are left out. *)
Definition entry_of (fs : filesystem) (dir path : bytes) : list entry :=
  match node_at fs (path_join dir path) with
  | Some Directory => [DirEntry path]
  | Some (Regular content) => [FileEntry path content]
  | _ => []
  end.
Definition archive_entries (fs : filesystem) (dir : bytes) : list entry :=
  walk fs dir ≫= entry_of fs dir.
(** The version, and the entries. *)
Definition archive (es : list entry) : bytes := x00 :: (es ≫= entry_bytes).

(** The output is open while the directory is walked: an output inside the
    trace would be seen by the walk, with what has been flushed to it. *)
Definition pack (o : options) : M filesystem unit :=
  _ ← pack_trace (input o);
  match output o with
  | [] => mret tt
  | _ =>
      _ ← modify (write_file (output o) []);
      modify (fun fs => write_file (output o) (archive (archive_entries fs (input o))) fs)
  end.

(** ** unpack *)

(** A [uint64_t] or [n] bytes at the position; the mapping ends where [l] does. *)
Definition read_bytes (n : Z) (l : bytes) : outcome (bytes * bytes) :=
  if n <=? Z.of_nat (length l) then Ok (take (Z.to_nat n) l, drop (Z.to_nat n) l) else UB.
Definition read_sized (l : bytes) : outcome (bytes * bytes) :=
  '(size, l) ← read_bytes 8 l; read_bytes (le_value size) l.

(** The loop of [parseV0] from a position on; [fuel] bounds the bytes left. *)
Fixpoint parseV0 (fuel : nat) (l : bytes) (output : bytes) : M filesystem unit :=
  match fuel, l with
  | _, [] => mret tt
  | O, _ => lift UB
  | S fuel, kind :: l =>
      if bool_decide (kind = x00) then
        '(path, l) ← lift (read_sized l);
        _ ← create_directory (path_join output path);
        parseV0 fuel l output
      else if bool_decide (kind = x01) then
        '(path, l) ← lift (read_sized l);
        '(data, l) ← lift (read_sized l);
        buf ← lift (uncompress data);
        _ ← modify (write_file (path_join output path) buf);
        parseV0 fuel l output
      else parseV0 fuel l output
  end.

Definition unpack (o : options) : M filesystem unit :=
  fs ← get;
  _ ← (if exists_ fs (input o) then mret tt else otherwise (Exit 1));
  _ ← (if exists_ fs (output o) then otherwise (Exit 1) else mret tt);
  _ ← create_directory (output o);
  fs ← get;
  match read_file fs (input o) with
  | None => otherwise (Throw #"Failed to open file")
  | Some [] => otherwise UB (* the mapping of an empty file *)
  | Some (version :: l) =>
      if bool_decide (version = x00) then parseV0 (length l) l (output o)
      else otherwise (Exit 1)
  end.
End pack.

(** * Theorems *)

(** ** Paths of several components *)

Definition rel_text (cs : list bytes) : bytes :=
  match cs with [] => [] | c :: cs => c ++ (cs ≫= fun n => #"/" ++ n) end.
Definition path_of (d : bytes) (cs : list bytes) : bytes := foldl path_join d cs.
Definition loc (d : bytes) (cs : list bytes) : bytes := foldl child (canonical d) cs.

Lemma rel_text_snoc cs n : cs <> [] -> rel_text (cs ++ [n]) = rel_text cs ++ #"/" ++ n.
Proof.
  destruct cs as [|c cs]; [done |]. intros _. cbn [rel_text app]. rewrite bind_app. cbn [mbind list_bind].
  by rewrite app_nil_r, <-app_assoc.
Qed.

Lemma simple_head n : simple n -> exists c n', n = c :: n' /\ c <> "/"%byte.
Proof. intros [Hn Hs]. destruct n as [|c n]; [done |]. exists c, n. split; [done |]. set_solver. Qed.

Lemma simple_last n : simple n -> list.last n <> Some "/"%byte.
Proof. intros [_ Hs] Hl. apply Hs. apply last_Some in Hl as [l ->]. set_solver. Qed.

Lemma last_app_ne (l n : bytes) : n <> [] -> list.last (l ++ n) = list.last n.
Proof.
  intros Hn. rewrite last_app. destruct (list.last n) eqn:E; [done |]. by apply last_None in E.
Qed.

Lemma path_join_rel d r : list.head r <> Some "/"%byte ->
  path_join d r = d ++ r \/ path_join d r = d ++ #"/" ++ r.
Proof.
  intros Hr. unfold path_join. rewrite (bool_decide_eq_false_2 (list.head r = _)) by done.
  case_bool_decide; auto.
Qed.

(** A relative path that begins and ends with a name. *)
Lemma rel_text_ends cs : cs <> [] -> Forall simple cs ->
  rel_text cs <> [] /\ list.head (rel_text cs) <> Some "/"%byte /\
  list.last (rel_text cs) <> Some "/"%byte.
Proof.
  intros Hne Hs. destruct cs as [|c cs]; [done |]. clear Hne.
  apply list.Forall_cons in Hs as [Hc Hs]. destruct (simple_head c Hc) as (a & c' & -> & Ha).
  split; [done |]. split; [cbn; congruence |].
  destruct cs as [|b cs] using rev_ind; [cbn [rel_text mbind list_bind]; rewrite app_nil_r; by apply simple_last |].
  apply Forall_app in Hs as [_ Hb]. apply Forall_inv in Hb.
  change (rel_text ((a :: c') :: cs ++ [b])) with (rel_text (((a :: c') :: cs) ++ [b])).
  rewrite rel_text_snoc, app_assoc, last_app_ne by (done || by destruct Hb). by apply simple_last.
Qed.

Lemma path_of_rel d cs : cs <> [] -> Forall simple cs -> path_join d (rel_text cs) = path_of d cs.
Proof.
  intros Hne Hs. induction cs as [|n cs IH] using rev_ind; [done |]. clear Hne.
  apply Forall_app in Hs as [Hs Hn]. apply Forall_inv in Hn.
  destruct (decide (cs = [])) as [-> | Hcs]; [cbn; by rewrite app_nil_r |].
  unfold path_of. rewrite foldl_app. cbn [foldl]. fold (path_of d cs). rewrite <-IH by done.
  rewrite rel_text_snoc by done. destruct (rel_text_ends cs Hcs Hs) as (Hr & Hh & Hl).
  destruct (simple_head n Hn) as (a & n' & -> & Ha).
  destruct (rel_text cs) as [|b r] eqn:Er; [done |].
  assert (list.last (path_join d (b :: r)) <> Some "/"%byte) as Hjl.
  { destruct (path_join_rel d (b :: r) Hh) as [-> | ->]; rewrite ?app_assoc; by rewrite last_app_ne. }
  assert (path_join d (b :: r) <> []) as Hj.
  { destruct (path_join_rel d (b :: r) Hh) as [-> | ->]; by destruct d. }
  assert (path_join (path_join d (b :: r)) (a :: n') = path_join d (b :: r) ++ #"/" ++ a :: n') as ->.
  { unfold path_join at 1. rewrite (bool_decide_eq_false_2 (list.head (a :: n') = _)) by (intros [=]; done).
    rewrite bool_decide_eq_false_2; [done |]. by intros [|]. }
  unfold path_join. cbn [app]. rewrite !(bool_decide_eq_false_2 (list.head _ = _)) by done.
  case_bool_decide; by rewrite <-?app_assoc.
Qed.

Lemma path_of_nonempty d cs : d <> [] -> path_of d cs <> [].
Proof.
  revert d. induction cs as [|n cs IH]; intros d Hd; [done |]. apply IH. unfold path_join.
  case_bool_decide as E; [by intros -> | case_bool_decide; by destruct d].
Qed.

Lemma canonical_path_of d cs : d <> [] -> Forall simple cs -> canonical (path_of d cs) = loc d cs.
Proof.
  intros Hd. induction cs as [|n cs IH] using rev_ind; intros Hs; [done |].
  apply Forall_app in Hs as [Hs Hn]. apply Forall_inv in Hn. unfold path_of, loc in *.
  rewrite !foldl_app. cbn [foldl]. rewrite canonical_child by (done || by apply path_of_nonempty).
  by rewrite IH.
Qed.

Lemma loc_snoc d cs n : loc d (cs ++ [n]) = child (loc d cs) n.
Proof. unfold loc. by rewrite foldl_app. Qed.

Lemma parent_loc d cs n :
  d <> [] -> Forall simple cs -> simple n -> parent_path (loc d (cs ++ [n])) = loc d cs.
Proof.
  intros Hd Hs Hn. rewrite loc_snoc, <-canonical_path_of by done.
  by apply parent_child; [apply path_of_nonempty |].
Qed.

Lemma length_loc d cs : Forall simple cs -> (length (canonical d) <= length (loc d cs))%nat.
Proof.
  induction cs as [|n cs IH] using rev_ind; intros Hs; [done |].
  apply Forall_app in Hs as [Hs Hn]. apply Forall_inv in Hn. rewrite loc_snoc.
  pose proof (length_child (loc d cs) n Hn). specialize (IH Hs). lia.
Qed.

Lemma loc_inj d cs cs' :
  d <> [] -> Forall simple cs -> Forall simple cs' -> loc d cs = loc d cs' -> cs = cs'.
Proof.
  intros Hd. revert cs'. induction cs as [|n cs IH] using rev_ind; intros cs' Hs Hs' E.
  - destruct cs' as [|n cs'] using rev_ind; [done |]. exfalso.
    apply Forall_app in Hs' as [Hs' Hn]. apply Forall_inv in Hn. rewrite loc_snoc in E.
    pose proof (length_child (loc d cs') n Hn). pose proof (length_loc d cs' Hs').
    change (loc d []) with (canonical d) in E. rewrite E in *. lia.
  - apply Forall_app in Hs as [Hs Hn]. apply Forall_inv in Hn.
    destruct cs' as [|n' cs' _] using rev_ind.
    + exfalso. rewrite loc_snoc in E. pose proof (length_child (loc d cs) n Hn).
      pose proof (length_loc d cs Hs). change (loc d []) with (canonical d) in E. rewrite E in *. lia.
    + apply Forall_app in Hs' as [Hs' Hn']. apply Forall_inv in Hn'.
      pose proof (f_equal parent_path E) as Ep. rewrite !parent_loc in Ep by done.
      apply IH in Ep as <-; [| done..]. rewrite !loc_snoc in E. apply (inj _) in E. by subst.
Qed.

Lemma loc_ne_root d cs : cs <> [] -> Forall simple cs -> loc d cs <> #"/".
Proof.
  destruct cs as [|n cs _] using rev_ind; intros Hne Hs; [done |].
  apply Forall_app in Hs as [_ Hn]. apply Forall_inv in Hn. rewrite loc_snoc. by apply child_ne_root.
Qed.

Lemma node_at_path_of fs d cs :
  d <> [] -> cs <> [] -> Forall simple cs -> node_at fs (path_of d cs) = fs !! loc d cs.
Proof.
  intros Hd Hne Hs. rewrite node_at_ne; rewrite canonical_path_of by done; [done |].
  by apply loc_ne_root.
Qed.

(** Nothing is below a directory that does not exist. *)
Lemma absent_below fs d cs :
  tree fs -> d <> [] -> node_at fs d = None -> cs <> [] -> Forall simple cs -> fs !! loc d cs = None.
Proof.
  intros Ht Hd Hn. induction cs as [|n cs IH] using rev_ind; intros Hne Hs; [done |].
  apply Forall_app in Hs as [Hs Hsn]. apply Forall_inv in Hsn.
  destruct (fs !! loc d (cs ++ [n])) as [x|] eqn:E; [| done]. exfalso.
  rewrite loc_snoc, <-canonical_path_of in E by done.
  apply Ht in E; [| by apply path_of_nonempty | done]. unfold is_directory in E.
  apply bool_decide_eq_true in E. destruct (decide (cs = [])) as [-> | Hcs]; [cbn in E; congruence |].
  rewrite node_at_path_of in E by done. by rewrite IH in E.
Qed.

(** ** The format *)

Section format.
Context `{JsonText, Compression, Walk}.

Definition fits (s : bytes) : Prop := Z.of_nat (length s) < 2 ^ 64.
Definition entry_fits (e : entry) : Prop :=
  match e with
  | DirEntry path => fits path
  | FileEntry path content => fits path /\ fits (compress content) /\ mappable content
  end.

#[global] Instance entry_fits_dec e : Decision (entry_fits e).
Proof. destruct e; unfold entry_fits, fits; apply _. Defined.

Lemma read_bytes_app s l : read_bytes (Z.of_nat (length s)) (s ++ l) = Ok (s, l).
Proof.
  unfold read_bytes. rewrite (proj2 (Z.leb_le _ _)) by (rewrite length_app; lia).
  by rewrite Nat2Z.id, take_app_length, drop_app_length.
Qed.

Lemma read_sized_sized s l : fits s -> read_sized (sized s ++ l) = Ok (s, l).
Proof.
  intros Hs. unfold read_sized, sized. rewrite <-app_assoc.
  change 8 with (Z.of_nat 8) at 1. rewrite <-(length_le_bytes 8 (Z.of_nat (length s))) at 1.
  rewrite read_bytes_app. cbn [mbind outcome_mbind outcome_bind].
  rewrite le_value_le_bytes, wrap_small by (unfold fits in Hs; lia). apply read_bytes_app.
Qed.

(** What reading an entry does. *)
Fixpoint restore (es : list entry) (output : bytes) : M filesystem unit :=
  match es with
  | [] => mret tt
  | DirEntry path :: es =>
      _ ← create_directory (path_join output path); restore es output
  | FileEntry path content :: es =>
      _ ← modify (write_file (path_join output path) content); restore es output
  end.

Lemma parseV0_restore es output fuel fs :
  Forall entry_fits es -> (length (es ≫= entry_bytes) <= fuel)%nat ->
  parseV0 fuel (es ≫= entry_bytes) output fs = restore es output fs.
Proof.
  intros Hes. revert fuel fs. induction Hes as [|e es He Hes IH]; intros fuel fs Hf; [by destruct fuel |].
  change ((e :: es) ≫= entry_bytes) with (entry_bytes e ++ (es ≫= entry_bytes)) in *.
  destruct fuel as [|fuel].
  { exfalso. rewrite length_app in Hf. destruct e; cbn in Hf; lia. }
  rewrite length_app in Hf. destruct e as [path | path content]; cbn [entry_bytes app length entry_fits] in *.
  - cbn [parseV0 restore]. rewrite bool_decide_eq_true_2 by done.
    rewrite (lift_run _ _ _ _ (read_sized_sized _ _ He)).
    unfold mbind, M_mbind.
    destruct (create_directory (path_join output path) fs) as [[b fs'] | | | | |]; [| done..].
    apply IH. lia.
  - destruct He as (Hp & Hc & Hm). cbn [parseV0 restore].
    rewrite bool_decide_eq_false_2, bool_decide_eq_true_2, <-app_assoc by done.
    rewrite (lift_run _ _ _ _ (read_sized_sized _ _ Hp)).
    rewrite (lift_run _ _ _ _ (read_sized_sized _ _ Hc)).
    rewrite (lift_run _ _ _ _ (uncompress_compress content Hm)).
    apply IH. rewrite !length_app in Hf. lia.
Qed.
End format.

(** ** Restoring a directory *)

Section restoring.
Context `{JsonText, Compression, Walk}.
(** The directory [dir] of [src] that was packed, and where it is restored. *)
Context (src : filesystem) (dir out : bytes) (dir_nonempty : dir <> []) (out_nonempty : out <> []).

(** What a walk visits: every path once, and a directory before what is in it. *)
Record listing (css : list (list bytes)) : Prop := {
  listing_names : Forall (fun cs => cs <> [] /\ Forall simple cs) css;
  listing_nodup : NoDup css;
  listing_parents pre cs n post :
    css = pre ++ (cs ++ [n]) :: post -> cs <> [] ->
    cs ∈ pre /\ node_at src (path_of dir cs) = Some Directory;
}.

(** What is kept of an entry: not devices and the like. *)
Definition kept_node (x : option node) : option node :=
  match x with Some Special => None | x => x end.

(** The entries [pre] are restored, and nothing else is below [out]. *)
Record restored (pre : list (list bytes)) (fs : filesystem) : Prop := {
  restored_root : canonical out <> #"/" /\ fs !! canonical out = Some Directory;
  restored_in cs : cs ∈ pre -> fs !! loc out cs = kept_node (node_at src (path_of dir cs));
  restored_out cs : cs <> [] -> Forall simple cs -> cs ∉ pre -> fs !! loc out cs = None;
}.

Lemma restored_insert pre fs cs x :
  restored pre fs -> Forall (fun cs => cs <> [] /\ Forall simple cs) pre -> cs ∉ pre ->
  cs <> [] -> Forall simple cs -> node_at src (path_of dir cs) = Some x -> x <> Special ->
  restored (pre ++ [cs]) (<[loc out cs := x]> fs).
Proof.
  intros [[Hr Hroot] Hin Hout] Hpre Hnew Hne Hs Hx Hsp.
  assert (forall cs', Forall simple cs' -> cs' <> cs -> loc out cs <> loc out cs') as Hloc.
  { intros cs' Hs' Hcs E. apply Hcs. symmetry. by eapply loc_inj. }
  split.
  - split; [done |]. rewrite lookup_insert_ne; [done |]. change (canonical out) with (loc out []).
    apply Hloc; [constructor | done].
  - intros cs' [Hcs' | ->%list_elem_of_singleton]%elem_of_app.
    + rewrite lookup_insert_ne; [by apply Hin |]. rewrite list.Forall_forall in Hpre.
      apply Hloc; [by apply Hpre | congruence].
    + rewrite lookup_insert_eq, Hx. by destruct x.
  - intros cs' Hne' Hs' [Hn1 Hn2]%not_elem_of_app. rewrite lookup_insert_ne; [by apply Hout |].
    apply Hloc; [done |]. intros ->. by apply Hn2, list_elem_of_singleton.
Qed.

(** The directory an entry is made in is there. *)
Lemma restored_parent pre fs cs n :
  restored pre fs -> Forall simple cs -> simple n ->
  (cs <> [] -> cs ∈ pre /\ node_at src (path_of dir cs) = Some Directory) ->
  parent_exists fs (path_of out (cs ++ [n])) = true.
Proof.
  intros [[Hr Hroot] Hin Hout] Hs Hn Hpar. unfold path_of. rewrite foldl_app. cbn [foldl].
  fold (path_of out cs). rewrite parent_exists_child by (done || by apply path_of_nonempty).
  apply bool_decide_eq_true. destruct (decide (cs = [])) as [-> | Hcs].
  - cbn. by rewrite node_at_ne.
  - destruct (Hpar Hcs) as [Hcin Hd]. by rewrite node_at_path_of, Hin, Hd by done.
Qed.

Lemma restore_entry pre fs cs n rest :
  restored pre fs -> Forall (fun cs => cs <> [] /\ Forall simple cs) pre -> cs ++ [n] ∉ pre ->
  Forall simple (cs ++ [n]) ->
  (cs <> [] -> cs ∈ pre /\ node_at src (path_of dir cs) = Some Directory) ->
  exists fs', restore (entry_of src dir (rel_text (cs ++ [n])) ++ rest) out fs = restore rest out fs' /\
    restored (pre ++ [cs ++ [n]]) fs'.
Proof.
  intros Hr Hpre Hnew Hs Hpar. assert (cs ++ [n] <> []) as Hne by by destruct cs.
  pose proof Hs as [Hs0 Hn%Forall_inv]%Forall_app.
  unfold entry_of. rewrite path_of_rel by done.
  pose proof (restored_out _ _ Hr _ Hne Hs Hnew) as Hnone.
  pose proof (restored_parent pre fs cs n Hr Hs0 Hn Hpar) as Hparent.
  destruct (node_at src (path_of dir (cs ++ [n]))) as [[| content |] |] eqn:Hx.
  - exists (<[loc out (cs ++ [n]) := Directory]> fs). split; [| by apply restored_insert].
    cbn [app restore]. rewrite (M_run_bind _ _ _ true (<[loc out (cs ++ [n]) := Directory]> fs)); [done |].
    unfold create_directory.
    rewrite path_of_rel, node_at_path_of, Hnone, Hparent, canonical_path_of by done.
    rewrite bool_decide_eq_false_2 by (by apply path_of_nonempty). done.
  - exists (<[loc out (cs ++ [n]) := Regular content]> fs). split; [| by apply restored_insert].
    cbn [app restore]. rewrite (M_run_bind _ _ _ tt (<[loc out (cs ++ [n]) := Regular content]> fs)); [done |].
    unfold modify, write_file.
    by rewrite path_of_rel, node_at_path_of, Hnone, Hparent, canonical_path_of by done.
  - exists fs. split; [done |]. split; [by apply Hr | |].
    + intros cs' [Hcs' | ->%list_elem_of_singleton]%elem_of_app; [by apply Hr |]. by rewrite Hnone, Hx.
    + intros cs' ?? [? _]%not_elem_of_app. by apply Hr.
  - exists fs. split; [done |]. split; [by apply Hr | |].
    + intros cs' [Hcs' | ->%list_elem_of_singleton]%elem_of_app; [by apply Hr |]. by rewrite Hnone, Hx.
    + intros cs' ?? [? _]%not_elem_of_app. by apply Hr.
Qed.

Lemma restore_listing css pre post fs :
  listing css -> css = pre ++ post -> restored pre fs ->
  exists fs', restore (map rel_text post ≫= entry_of src dir) out fs = Ok (tt, fs') /\
    restored css fs'.
Proof.
  intros [Hnames Hdup Hpar]. revert pre fs. induction post as [|cs post IH]; intros pre fs E Hr.
  { exists fs. split; [done |]. by rewrite E, app_nil_r. }
  pose proof Hnames as Hn. rewrite E in Hn. apply Forall_app in Hn as [Hpre Hpost].
  apply list.Forall_cons in Hpost as [[Hne Hs] _].
  destruct cs as [|n cs _] using rev_ind; [done |].
  destruct (restore_entry pre fs cs n (map rel_text post ≫= entry_of src dir)) as (fs1 & E1 & Hr1);
    [done | done | | done | by eapply Hpar |].
  { rewrite E in Hdup. apply list.NoDup_app in Hdup as (_ & Hd & _). intros Hin. apply (Hd _ Hin). by left. }
  destruct (IH (pre ++ [cs ++ [n]]) fs1) as (fs' & E' & Hr'); [by rewrite <-app_assoc | done |].
  exists fs'. split; [| done]. by rewrite <-E'.
Qed.
End restoring.

Section archives.
Context `{JsonText, Compression, Walk}.

Lemma write_file_read p content fs :
  is_regular_file (write_file p content fs) p = true ->
  read_file (write_file p content fs) p = Some content.
Proof.
  unfold is_regular_file, read_file, write_file. destruct (decide (canonical p = #"/")) as [E | E].
  { assert (forall fs', node_at fs' p = Some Directory) as Hroot
      by (intros fs'; unfold node_at; by rewrite bool_decide_eq_true_2).
    by rewrite !Hroot. }
  destruct (node_at fs p) as [[] |] eqn:Hp; rewrite ?Hp; try done.
  - by rewrite !node_at_ne, !lookup_insert_eq by done.
  - destruct (parent_exists fs p); rewrite ?Hp; [| done].
    by rewrite !node_at_ne, !lookup_insert_eq by done.
Qed.

Lemma node_at_inj fs p q : node_at fs p <> node_at fs q -> canonical p <> canonical q.
Proof. intros Hn E. apply Hn. unfold node_at. by rewrite E. Qed.

(** The directory [unpack] makes. *)
Lemma unpack_root src dir fs out :
  tree fs -> out <> [] -> node_at fs out = None -> parent_exists fs out = true ->
  create_directory out fs = Ok (true, <[canonical out := Directory]> fs) /\
  restored src dir out [] (<[canonical out := Directory]> fs).
Proof.
  intros Ht Ho Hn Hp. split.
  { unfold create_directory. by rewrite Hn, Hp, bool_decide_eq_false_2. }
  assert (canonical out <> #"/") as Hr.
  { intros E. unfold node_at in Hn. by rewrite bool_decide_eq_true_2 in Hn. }
  split.
  - by rewrite lookup_insert_eq.
  - intros cs Hcs. by apply not_elem_of_nil in Hcs.
  - intros cs Hne Hs _. rewrite lookup_insert_ne; [by apply absent_below |].
    change (canonical out) with (loc out []). intros E. apply loc_inj in E; [| done..]. by subst.
Qed.

(** C3: a packed trace is unpacked as it was.  [pack] with an output walks the
    trace and writes an archive; on any file system that has the archive's
    bytes, [unpack] into a directory that does not exist ends normally, and
    that directory then has the directories and the files, with their contents,
    that the walk of the packed trace found, and nothing else.  The archive is
    not inside the trace it is made of. *)
Theorem unpack_pack (o o' : options) (fs0 fst fs1 fs : filesystem) (css : list (list bytes))
    (src := write_file (output o) [] fst) :
  pack_trace (input o) fs0 = Ok (tt, fst) -> pack o fs0 = Ok (tt, fs1) ->
  input o <> [] -> output o <> [] -> within (canonical (input o)) (canonical (output o)) = false ->
  is_regular_file fs1 (output o) = true ->
  walk src (input o) = map rel_text css -> listing src (input o) css ->
  Forall entry_fits (archive_entries src (input o)) ->
  tree fs -> read_file fs (input o') = read_file fs1 (output o) ->
  output o' <> [] -> exists_ fs (output o') = false -> parent_exists fs (output o') = true ->
  exists fs', unpack o' fs = Ok (tt, fs') /\
    forall cs, cs <> [] -> Forall simple cs ->
      node_at fs' (path_join (output o') (rel_text cs)) =
      if bool_decide (cs ∈ css) then kept_node (node_at src (path_join (input o) (rel_text cs)))
      else None.
Proof.
  intros Hpack Hp Hi Ho _ Hreg Hwalk Hlist Hfits Ht Hread Ho' Hex Hpar.
  unfold pack in Hp. rewrite (M_run_bind _ _ _ _ _ Hpack) in Hp.
  assert (fs1 = write_file (output o) (archive (archive_entries src (input o))) src) as ->.
  { clear -Hp Ho. subst src. destruct (output o); [done |]. by injection Hp as <-. }
  rewrite write_file_read in Hread by done.
  unfold exists_ in Hex. apply bool_decide_eq_false, eq_None_not_Some in Hex.
  destruct (unpack_root src (input o) fs (output o') Ht Ho' Hex Hpar) as [Hc Hr].
  destruct (restore_listing src (input o) (output o') Ho' css [] css _ Hlist eq_refl Hr)
    as (fs' & Hfs' & Hres).
  assert (canonical (output o') <> canonical (input o')) as Hne.
  { apply (node_at_inj fs). rewrite Hex. unfold read_file in Hread. by destruct (node_at fs (input o')). }
  assert (forall fs2, read_file (<[canonical (output o') := fs2]> fs) (input o') = read_file fs (input o'))
    as Hread'.
  { intros x. unfold read_file, node_at. by rewrite lookup_insert_ne. }
  exists fs'. split.
  - unfold unpack. rewrite (M_run_bind _ _ _ fs fs) by done.
    assert (exists_ fs (input o') = true) as ->.
    { apply bool_decide_eq_true. unfold read_file in Hread. by destruct (node_at fs (input o')). }
    assert (exists_ fs (output o') = false) as -> by (apply bool_decide_eq_false; by rewrite Hex; intros []).
    rewrite (M_run_bind _ _ _ tt fs), (M_run_bind _ _ _ tt fs), (M_run_bind _ _ _ _ _ Hc) by done.
    rewrite (M_run_bind _ _ _ (<[canonical (output o') := Directory]> fs)
      (<[canonical (output o') := Directory]> fs)) by done.
    rewrite Hread', Hread. unfold archive. rewrite bool_decide_eq_true_2 by done.
    rewrite parseV0_restore by done. unfold archive_entries. by rewrite Hwalk.
  - intros cs Hne' Hs. rewrite !path_of_rel, node_at_path_of by done. case_bool_decide as Hin.
    + by apply Hres.
    + by apply Hres.
Qed.
End archives.

(** ** A concrete archive *)

(** [listing], checked. *)
Fixpoint parents_check (src : filesystem) (dir : bytes) (seen css : list (list bytes)) : bool :=
  match css with
  | [] => true
  | cs :: css =>
      let up := removelast cs in
      (bool_decide (up = []) ||
       (bool_decide (up ∈ seen) && bool_decide (node_at src (path_of dir up) = Some Directory))) &&
      parents_check src dir (seen ++ [cs]) css
  end.

Lemma parents_check_spec src dir seen css pre cs n post :
  parents_check src dir seen css = true -> css = pre ++ (cs ++ [n]) :: post -> cs <> [] ->
  cs ∈ seen ++ pre /\ node_at src (path_of dir cs) = Some Directory.
Proof.
  revert seen pre. induction css as [|c css IH]; intros seen pre Hc E Hne; [by destruct pre |].
  cbn [parents_check] in Hc. apply andb_true_iff in Hc as [Hc Hrest].
  destruct pre as [|p pre]; injection E as -> E.
  - rewrite removelast_last in Hc. apply orb_true_iff in Hc as [Hc%bool_decide_eq_true | Hc]; [done |].
    apply andb_true_iff in Hc as [H1%bool_decide_eq_true H2%bool_decide_eq_true].
    by rewrite app_nil_r.
  - destruct (IH (seen ++ [p]) pre Hrest E Hne) as [H1 H2]. by rewrite <-app_assoc in H1.
Qed.

Lemma listing_check src dir css :
  forallb (fun cs => bool_decide (cs <> []) &&
    forallb (fun n => bool_decide (n <> []) && forallb (fun c => negb (is_slash c)) n) cs) css &&
  bool_decide (NoDup css) && parents_check src dir [] css = true -> listing src dir css.
Proof.
  intros [[Hn Hd%bool_decide_eq_true]%andb_true_iff Hp]%andb_true_iff. split; [| done |].
  - apply list.Forall_forall. intros cs Hcs%list_elem_of_In. rewrite forallb_forall in Hn.
    apply Hn, andb_true_iff in Hcs as [H1%bool_decide_eq_true H2]. split; [done |].
    apply list.Forall_forall. intros n Hin%list_elem_of_In. rewrite forallb_forall in H2.
    by apply simple_name, H2.
  - intros pre cs n post. exact (parents_check_spec src dir [] css pre cs n post Hp).
Qed.

(** A recorded trace whose program read one file. *)
Definition sample_names : list (list bytes) :=
  [ [ #"files_config.json"]; [ #"pack"]; [ #"pack"; #"0"]; [ #"pack"; #"1_numbers"];
    [ #"replay_config.json"]; [ #"replay_file_map.json"] ].
#[local] Instance sample_compression : Compression :=
  {| compress b := b; uncompress b := Ok b; uncompress_compress b _ := eq_refl |}.
#[local] Instance sample_walk : Walk := { walk _ _ := map rel_text sample_names }.

Definition sample_files_config : json := strings [ #"/numbers.txt"; #"/dev/null"; #"/gone"].
Definition sample_replay_config : json :=
  Object [(kReplayCommand, String #"app"); (kReplayExecutable, String #"/app")].
Definition sample_trace : filesystem :=
  <[ #"/app" := Regular #"program"]> (<[ #"/numbers.txt" := Regular #"1 2 3"]>
    (<[ #"/trace" := Directory]>
      (<[ #"/trace/files_config.json" := Regular (code_bytes (to_tree sample_files_config))]>
        (<[ #"/trace/replay_config.json" := Regular (code_bytes (to_tree sample_replay_config))]> ∅)))).
Definition pack_options : options := set_paths #"/trace" #"/trace.pack" new_options.
Definition unpack_options : options := set_paths #"/trace.pack" #"/restored" new_options.

Definition final (x : outcome (unit * filesystem)) : filesystem :=
  match x with Ok (_, fs) => fs | _ => ∅ end.
Lemma final_Ok x : is_ok x = true -> x = Ok (tt, final x).
Proof. by destruct x as [[[] fs] | | | | |]. Qed.

Lemma unpack_pack_witness :
  let fs1 := final (pack pack_options sample_trace) in
  exists fs', unpack unpack_options fs1 = Ok (tt, fs') /\
    node_at fs' #"/restored/pack/1_numbers" = Some (Regular #"1 2 3").
Proof.
  intros fs1.
  destruct (unpack_pack pack_options unpack_options sample_trace
    (final (pack_trace #"/trace" sample_trace)) fs1 fs1 sample_names) as (fs' & E & H).
  - apply final_Ok. vm_compute. reflexivity.
  - apply final_Ok. vm_compute. reflexivity.
  - discriminate.
  - discriminate.
  - vm_compute. reflexivity.
  - vm_compute. reflexivity.
  - reflexivity.
  - apply listing_check. vm_compute. reflexivity.
  - apply (bool_decide_unpack _). vm_compute. exact I.
  - apply tree_check. vm_compute. reflexivity.
  - reflexivity.
  - discriminate.
  - vm_compute. reflexivity.
  - vm_compute. reflexivity.
  - exists fs'. split; [exact E |].
    assert (Forall simple [ #"pack"; #"1_numbers"]) as Hs by (repeat constructor; simple_tac).
    refine (eq_trans (H [ #"pack"; #"1_numbers"] _ Hs) _); [discriminate |].
    vm_compute. reflexivity.
Defined.
