(* ===== verification/Resources.v ===== *)
(** * Resources: buffers, mapped files and compression

    lib/utils/MappedFile.cpp, lib/utils/Compression.cpp, include/utils/Buffer.hpp
    and include/utils/MemoryView.hpp on zstd and the calls of the system, with
    the lifetimes of the mappings as [pack] and [unpack] have them. *)

From S2P Require Import Prelude Streams Trace Options Files Json Tracer Launch Archive.

(** ** zstd *)

(** A call gives what it stores at the destination, or an error code, which is a
    negated small number as a [size_t].  The laws are those of the manual: the
    bound is enough, and a frame of one call has the size of its content and
    decompresses to it. *)
Class Zstd := {
  ZSTD_compressBound : Z -> Z;
  ZSTD_compressCCtx (dstCapacity : Z) (src : bytes) (level : Z) : bytes + Z;
  ZSTD_getFrameContentSize : bytes -> Z;
  ZSTD_decompressDCtx (dstCapacity : Z) (src : bytes) : bytes + Z;
  bound_range n : 0 <= n < 2 ^ 47 -> 0 <= ZSTD_compressBound n < 2 ^ 63 - 1;
  bound_enough src n level :
    mappable src -> ZSTD_compressBound (Z.of_nat (length src)) <= n -> exists f, ZSTD_compressCCtx n src level = inl f;
  compressed_size src n level f :
    ZSTD_compressCCtx n src level = inl f -> Z.of_nat (length f) <= n;
  content_size src n level f :
    ZSTD_compressCCtx n src level = inl f -> ZSTD_getFrameContentSize f = Z.of_nat (length src);
  decompressed src n n' level f :
    ZSTD_compressCCtx n src level = inl f -> Z.of_nat (length src) <= n' ->
    ZSTD_decompressDCtx n' f = inl src;
}.

(** ** Buffers *)

(** The [max_size] of a [std::vector<uint8_t>]. *)
Definition max_size : Z := 2 ^ 63 - 1.
(** [Buffer::resize] and its constructor. *)
Definition resize (size : Z) (mData : bytes) : outcome bytes :=
  if max_size <? size then Throw #"vector::_M_default_append"
  else Ok (take (Z.to_nat size) mData ++ replicate (Z.to_nat size - length mData) x00).
Definition new_buffer (size : Z) : outcome bytes := resize size [].

Section resources.
Context `{Zstd}.

(** The private [compress] and [uncompress], on the bytes at [ptr]. *)
Definition compress_data (src : bytes) : outcome bytes :=
  let maxSize := ZSTD_compressBound (Z.of_nat (length src)) in
  buf ← new_buffer maxSize;
  match ZSTD_compressCCtx maxSize src 3 with
  | inl got => resize (Z.of_nat (length got)) (overwrite got buf)
  | inr compSize => resize compSize buf
  end.

Definition uncompress_data (src : bytes) : outcome bytes :=
  let maxSize := ZSTD_getFrameContentSize src in
  buf ← new_buffer maxSize;
  match ZSTD_decompressDCtx maxSize src with
  | inl got =>
      if maxSize =? Z.of_nat (length got) then Ok (overwrite got buf) else Terminate
  | inr decSize => if maxSize =? decSize then Ok buf else Terminate
  end.

Lemma new_buffer_length n buf : new_buffer n = Ok buf -> length buf = Z.to_nat n.
Proof.
  unfold new_buffer, resize. destruct (max_size <? n); [done |]. intros [= <-].
  rewrite length_app, length_replicate, length_take. cbn [length]. lia.
Qed.
Lemma new_buffer_ok n : n <= max_size -> exists buf, new_buffer n = Ok buf.
Proof.
  intros Hn. unfold new_buffer, resize. destruct (Z.ltb_spec max_size n); [lia |]. by eexists.
Qed.

(** Compressing gives exactly the frame zstd makes. *)
Lemma compress_data_frame src : mappable src ->
  exists f, compress_data src = Ok f /\
    ZSTD_compressCCtx (ZSTD_compressBound (Z.of_nat (length src))) src 3 = inl f.
Proof.
  intros Hs. unfold mappable in Hs. pose proof (bound_range (Z.of_nat (length src)) ltac:(lia)) as Hb.
  unfold compress_data. set (n := ZSTD_compressBound _) in *.
  destruct (bound_enough src n 3) as [f Hf]; [done | lia |].
  destruct (new_buffer_ok n) as [buf Hbuf]; [unfold max_size; lia |]. rewrite Hbuf, Hf. cbn.
  apply new_buffer_length in Hbuf. pose proof (compressed_size _ _ _ _ Hf) as Hl. exists f.
  split; [| done]. unfold resize, overwrite. destruct (Z.ltb_spec max_size (Z.of_nat (length f)));
    [unfold max_size in *; lia |].
  rewrite Nat2Z.id, take_app_length. rewrite length_app, length_drop.
  replace (length f - _)%nat with 0%nat by lia. by rewrite app_nil_r.
Qed.

(** The round trip, through the buffers. *)
Lemma uncompress_compress_data src : mappable src ->
  exists f, compress_data src = Ok f /\ uncompress_data f = Ok src.
Proof.
  intros Hs. destruct (compress_data_frame src Hs) as (f & Hc & Hf). exists f. split; [done |].
  unfold uncompress_data. rewrite (content_size _ _ _ _ Hf). unfold mappable in Hs.
  destruct (new_buffer_ok (Z.of_nat (length src))) as [buf Hbuf]; [unfold max_size; lia |].
  rewrite Hbuf. cbn. rewrite (decompressed _ _ _ _ _ Hf) by lia. rewrite Z.eqb_refl.
  f_equal. apply overwrite_full. apply new_buffer_length in Hbuf. lia.
Qed.

(** What Archive relies on.  The result for a file no process can map is of no
    meaning: mapping it has failed before. *)
Definition compressed (b : bytes) : bytes := match compress_data b with Ok f => f | _ => [] end.
Lemma uncompress_compressed b : mappable b -> uncompress_data (compressed b) = Ok b.
Proof.
  intros (f & E & Hf)%uncompress_compress_data. unfold compressed. by rewrite E.
Qed.
#[export] Instance zstd_compression : Compression :=
  {| Archive.compress := compressed; uncompress := uncompress_data;
     uncompress_compress := uncompress_compressed |}.

(** ** Mapped files *)

(** The open descriptors with what their files hold, and the mapped memory. *)
Record kernel := { descriptors : gmap Z bytes; space : memory }.

(** Where the system puts a new descriptor and [size] bytes of a new mapping,
    and which files may be read. *)
Class Placement := {
  may_read : bytes -> bool;
  new_descriptor : gmap Z bytes -> Z;
  place : memory -> Z -> option Z;
  new_descriptor_free d : 0 <= new_descriptor d /\ d !! new_descriptor d = None;
  place_free m size p : place m size = Some p ->
    0 < p /\ p mod 4096 = 0 /\ forall a, p <= a < p + size -> m !! a = None;
}.

Context `{Placement}.

Definition pages (size : Z) : Z := (size + 4095) / 4096 * 4096.

(** [open] for reading, [close], [mmap] and [munmap]; an argument that is not
    valid changes nothing. *)
Definition open_ (fs : filesystem) (p : bytes) : M kernel Z := fun k =>
  match read_file fs p with
  | Some content =>
      if may_read p then
        let fd := new_descriptor (descriptors k) in
        Ok (fd, {| descriptors := <[fd := content]> (descriptors k); space := space k |})
      else Ok (-1, k)
  | None => Ok (-1, k)
  end.
Definition close (fd : Z) : M kernel unit :=
  modify (fun k => {| descriptors := base.delete fd (descriptors k); space := space k |}).

Definition MAP_FAILED : Z := -1.
Definition mmap (size fd : Z) : M kernel Z := fun k =>
  match descriptors k !! fd, place (space k) (pages size) with
  | Some content, Some p =>
      if size =? 0 then Ok (MAP_FAILED, k)
      else
        let page := take (Z.to_nat (pages size))
                      (content ++ replicate (Z.to_nat (pages size)) x00) in
        Ok (p, {| descriptors := descriptors k; space := store (space k) p page |})
  | _, _ => Ok (MAP_FAILED, k)
  end.
Definition munmap (p size : Z) : M kernel unit :=
  modify (fun k =>
    if (size =? 0) || negb (p mod 4096 =? 0) then k
    else {| descriptors := descriptors k;
            space := base.filter (fun x => ~ (p <= x.1 < p + pages size)) (space k) |}).

Definition file_size (fs : filesystem) (p : bytes) : outcome Z :=
  match read_file fs p with
  | Some content => Ok (Z.of_nat (length content))
  | None => Throw #"filesystem error: cannot get file size"
  end.

Record MappedFile := { mPtr : Z; mSize : Z; mFileDescriptor : Z }.

(** The constructor, the destructor, and the bytes from [begin] to [end]. *)
Definition new_mapping (fs : filesystem) (p : bytes) : M kernel MappedFile :=
  size ← lift (file_size fs p);
  fd ← open_ fs p;
  if fd =? -1 then lift (Throw #"Failed to open file")
  else
    ptr ← mmap size fd;
    if ptr =? 0 then lift (Throw #"Failed to map file")
    else mret {| mPtr := ptr; mSize := size; mFileDescriptor := fd |}.
Definition destroy (m : MappedFile) : M kernel unit :=
  _ ← munmap (mPtr m) (mSize m); close (mFileDescriptor m).
Definition view (m : MappedFile) : M kernel bytes := fun k =>
  match load (space k) (mPtr m) (mSize m) with Some b => Ok (b, k) | None => UB end.

(** [compress] of a mapping: the parameter is a copy, with the same members, and
    is destroyed on return. *)
Definition compress (in_ : MappedFile) : M kernel bytes :=
  data ← view in_;
  buf ← lift (compress_data data);
  _ ← destroy in_;
  mret buf.

(** The data [pack] writes for a file. *)
Definition file_data (fs : filesystem) (p pathStr : bytes) : M kernel bytes :=
  mapping ← new_mapping fs p;
  compBuf ← compress mapping;
  _ ← (if bool_decide (pathStr = #"replay_config.json") then
         _ ← lift (uncompress_data compBuf); mret tt
       else mret tt);
  _ ← destroy mapping;
  mret compBuf.

(** What [unpack] reads: the archive is mapped while [parseV0] runs. *)
Definition mapped_archive {A : Type} (fs : filesystem) (p : bytes) (parse : bytes -> outcome A) : M kernel A :=
  mapping ← new_mapping fs p;
  b ← view mapping;
  a ← lift (parse b);
  _ ← destroy mapping;
  mret a.

(** *** Theorems *)

Lemma pages_spec size : 0 <= size -> size <= pages size.
Proof.
  intros Hs. unfold pages. pose proof (Z.div_mod (size + 4095) 4096).
  pose proof (Z.mod_pos_bound (size + 4095) 4096). lia.
Qed.

Lemma filter_free (m : memory) p n :
  (forall a, p <= a < p + n -> m !! a = None) ->
  base.filter (fun x => ~ (p <= x.1 < p + n)) m = m.
Proof.
  intros Hf. apply map_filter_id. intros a b Ha Hin. cbn in Hin. by rewrite Hf in Ha.
Qed.

Lemma filter_store (m : memory) p l :
  (forall a, p <= a < p + Z.of_nat (length l) -> m !! a = None) ->
  base.filter (fun x => ~ (p <= x.1 < p + Z.of_nat (length l))) (store m p l) = m.
Proof.
  intros Hf. apply map_eq. intros a.
  destruct (decide (p <= a < p + Z.of_nat (length l))) as [Ha | Ha].
  - rewrite (Hf a Ha). apply map_lookup_filter_None. right. intros b _. cbn. tauto.
  - assert (store m p l !! a = m !! a) as E.
    { destruct (decide (a < p)); [by apply store_lookup_before | apply store_lookup_after; lia]. }
    destruct (m !! a) as [b |] eqn:Em.
    + apply map_lookup_filter_Some. by rewrite E.
    + apply map_lookup_filter_None. by left.
Qed.

(** A mapping [m] of [content] that has been made in the state [k], giving [k1]:
    its destruction gives [k] back, and so does a second one. *)
Record mapped_from (content : bytes) (k k1 : kernel) (m : MappedFile) : Prop := {
  mapped_view : view m k1 = Ok (content, k1);
  mapped_destroy : destroy m k1 = Ok (tt, k);
  mapped_destroy_again : destroy m k = Ok (tt, k);
  mapped_descriptor : mFileDescriptor m = new_descriptor (descriptors k);
}.

(** A file that may be read and that there is place for. *)
Definition can_map (fs : filesystem) (p content : bytes) (k : kernel) : Prop :=
  read_file fs p = Some content /\ may_read p = true /\
  (content <> [] -> is_Some (place (space k) (pages (Z.of_nat (length content))))).

Lemma new_mapping_spec fs p content k :
  can_map fs p content k ->
  exists m k1, new_mapping fs p k = Ok (m, k1) /\ mapped_from content k k1 m.
Proof.
  intros (Hread & Hmay & Hplace). set (fd := new_descriptor (descriptors k)).
  destruct (new_descriptor_free (descriptors k)) as [Hfd Hfree]. fold fd in Hfd, Hfree.
  assert (base.delete fd (<[fd := content]> (descriptors k)) = descriptors k) as Hdel
    by (by rewrite delete_insert_eq, delete_id).
  set (ko := {| descriptors := <[fd := content]> (descriptors k); space := space k |}).
  assert (file_size fs p = Ok (Z.of_nat (length content))) as Hsz by (unfold file_size; by rewrite Hread).
  assert (open_ fs p k = Ok (fd, ko)) as Hopen by (unfold open_; by rewrite Hread, Hmay).
  unfold new_mapping. rewrite (lift_run _ _ _ _ Hsz), (M_run_bind _ _ _ _ _ Hopen).
  rewrite (proj2 (Z.eqb_neq fd (-1))) by lia. unfold mbind, M_mbind, mmap.
  cbn [outcome_mbind outcome_bind mbind]. subst ko. cbn [descriptors space]. rewrite lookup_insert_eq.
  destruct content as [|c content].
  { cbn [length Z.of_nat Z.eqb].
    exists {| mPtr := MAP_FAILED; mSize := 0; mFileDescriptor := fd |},
      {| descriptors := <[fd := []]> (descriptors k); space := space k |}.
    split; [by destruct (place _ _) |].
    split; [done | | | done]; unfold destroy, munmap, close, modify, mbind, M_mbind, mbind, outcome_mbind;
      cbn [outcome_bind mPtr mSize mFileDescriptor descriptors space Z.eqb orb].
    - rewrite Hdel. by destruct k.
    - rewrite delete_id by done. by destruct k. }
  destruct (Hplace ltac:(done)) as [q Hq]. rewrite Hq. clear Hplace Hread.
  set (l := c :: content) in *. set (size := Z.of_nat (length l)) in *.
  assert (0 < size) as Hsize by (subst size l; cbn; lia).
  destruct (place_free _ _ _ Hq) as (Hq0 & Hq1 & Hq2). pose proof (pages_spec size) as Hpages.
  set (page := take _ _). assert (Z.of_nat (length page) = pages size) as Hpage.
  { subst page. rewrite length_take, length_app, length_replicate. lia. }
  rewrite (proj2 (Z.eqb_neq size 0)) by lia. cbn [mbind outcome_mbind outcome_bind]. rewrite (proj2 (Z.eqb_neq q 0)) by lia.
  eexists _, _. split; [reflexivity |].
  assert (forall d (m : memory), munmap q size {| descriptors := d; space := m |} =
    Ok (tt, {| descriptors := d; space := base.filter (fun x => ~ (q <= x.1 < q + pages size)) m |})) as Hun.
  { intros d m. unfold munmap, modify. cbn [descriptors space]. rewrite Hq1, (proj2 (Z.eqb_neq size 0)) by lia.
    done. }
  split; unfold destroy, view; cbn [mPtr mSize mFileDescriptor space descriptors].
  - assert (load (store (space k) q page) q size = Some l) as ->; [| done].
    apply load_spec. intros i Hi. rewrite store_lookup by (subst size; lia).
    subst page. rewrite lookup_take_lt by (subst size; lia). by rewrite lookup_app_l.
  - rewrite (M_run_bind _ _ _ _ _ (Hun _ _)). unfold close, modify. cbn [descriptors space].
    rewrite Hdel, <-Hpage, filter_store by (by rewrite Hpage). by destruct k.
  - destruct k as [d sp]. rewrite (M_run_bind _ _ _ _ _ (Hun _ _)). unfold close, modify.
    cbn [descriptors space] in *. rewrite delete_id, filter_free by done. done.
  - done.
Qed.

Lemma compress_mapped content k k1 m :
  mapped_from content k k1 m -> mappable content -> compress m k1 = Ok (compressed content, k).
Proof.
  intros [Hv Hd _ _] (f & Hf & _)%uncompress_compress_data. unfold compress, compressed.
  by rewrite Hf, (M_run_bind _ _ _ _ _ Hv), (lift_run _ _ _ _ Hf), (M_run_bind _ _ _ _ _ Hd).
Qed.

(** C38: [pack] compresses a file from a mapping that is destroyed twice, as a
    copy of it is passed by value.  As [pack] opens no file in between, the
    system is as it was: no descriptor and no memory is lost, and none of another
    owner is given up.  The archive's entry of the file has what was compressed,
    and that uncompresses to the content of the file. *)
Theorem file_data_resources fs p pathStr content k :
  can_map fs p content k -> mappable content ->
  exists f, file_data fs p pathStr k = Ok (f, k) /\ uncompress_data f = Ok content /\
    entry_bytes (FileEntry pathStr content) = x01 :: sized pathStr ++ sized f.
Proof.
  intros Hc Hm. destruct (new_mapping_spec _ _ _ _ Hc) as (m & k1 & Hnew & Hmap).
  pose proof (uncompress_compressed content Hm) as Hu. exists (compressed content). split; [| done].
  unfold file_data. rewrite (M_run_bind _ _ _ _ _ Hnew).
  rewrite (M_run_bind _ _ _ _ _ (compress_mapped _ _ _ _ Hmap Hm)).
  assert ((if bool_decide (pathStr = #"replay_config.json")
           then _ ← lift (uncompress_data (compressed content)); mret tt else mret tt) k = Ok (tt, k))
    as Hdec by (case_bool_decide; [by rewrite (lift_run _ _ _ _ Hu) | done]).
  by rewrite (M_run_bind _ _ _ _ _ Hdec), (M_run_bind _ _ _ _ _ (mapped_destroy_again _ _ _ _ Hmap)).
Qed.

(** What [unpack] parses is the content of the archive. *)
Lemma mapped_archive_reads {A : Type} fs p content k (parse : bytes -> outcome A) a :
  can_map fs p content k -> parse content = Ok a -> mapped_archive fs p parse k = Ok (a, k).
Proof.
  intros Hc Hp. destruct (new_mapping_spec _ _ _ _ Hc) as (m & k1 & Hnew & [Hv Hd _ _]).
  unfold mapped_archive.
  by rewrite (M_run_bind _ _ _ _ _ Hnew), (M_run_bind _ _ _ _ _ Hv), (lift_run _ _ _ _ Hp),
    (M_run_bind _ _ _ _ _ Hd).
Qed.

(** Between the two destructions the descriptor is free: a file opened there
    gets it, and the second destruction closes that file. *)
Lemma second_destruction_closes fs p q content content' k :
  can_map fs p content k -> mappable content -> read_file fs q = Some content' -> may_read q = true ->
  exists fd k', (mapping ← new_mapping fs p; _ ← compress mapping; fd ← open_ fs q;
                 _ ← destroy mapping; mret fd) k = Ok (fd, k') /\
    0 <= fd /\ descriptors k' !! fd = None.
Proof.
  intros Hc Hm Hq Hmay. destruct (new_mapping_spec _ _ _ _ Hc) as (m & k1 & Hnew & Hmap).
  destruct (new_descriptor_free (descriptors k)) as [Hfd _]. set (fd := new_descriptor _) in *.
  assert (open_ fs q k = Ok (fd, {| descriptors := <[fd := content']> (descriptors k); space := space k |}))
    as Hopen by (unfold open_; by rewrite Hq, Hmay).
  rewrite (M_run_bind _ _ _ _ _ Hnew), (M_run_bind _ _ _ _ _ (compress_mapped _ _ _ _ Hmap Hm)).
  rewrite (M_run_bind _ _ _ _ _ Hopen). eexists fd, _. split; [reflexivity |]. split; [done |].
  cbn [descriptors]. rewrite (mapped_descriptor _ _ _ _ Hmap). apply lookup_delete_eq.
Qed.
End resources.

(** ** A concrete system *)

(** Stores what it is given: the frame is the content. *)
#[local] Program Instance stored : Zstd := {
  ZSTD_compressBound n := n;
  ZSTD_compressCCtx n src _ := if Z.of_nat (length src) <=? n then inl src else inr (2 ^ 64 - 70);
  ZSTD_getFrameContentSize f := Z.of_nat (length f);
  ZSTD_decompressDCtx n f := if Z.of_nat (length f) <=? n then inl f else inr (2 ^ 64 - 70);
}.
Next Obligation. cbn. lia. Qed.
Next Obligation. intros src n level _ Hn. cbn in *. exists src. by rewrite (proj2 (Z.leb_le _ _)). Qed.
Next Obligation. intros src n level f E. cbn in *. destruct (Z.leb_spec (Z.of_nat (length src)) n); by simplify_eq. Qed.
Next Obligation. intros src n level f E. cbn in *. destruct (Z.leb_spec (Z.of_nat (length src)) n); by simplify_eq. Qed.
Next Obligation.
  intros src n n' level f E Hn. cbn in *. destruct (Z.leb_spec (Z.of_nat (length src)) n); simplify_eq.
  by rewrite (proj2 (Z.leb_le _ _)).
Qed.

(** Everything is placed behind what is there. *)
#[local] Program Instance behind : Placement := {
  may_read _ := true;
  new_descriptor d := 1 + max_key d;
  place m _ := Some (4096 * (1 + max_key m));
}.
Next Obligation.
  intros d. cbn. pose proof (max_key_nonneg d). split; [lia |]. apply above_max_key. lia.
Qed.
Next Obligation.
  intros m size p [= <-]. pose proof (max_key_nonneg m). split; [lia |]. split.
  - by rewrite Z.mul_comm, Z.mod_mul by lia.
  - intros a Ha. apply above_max_key. lia.
Qed.

(** Standard input is open. *)
Definition sample_kernel : kernel := {| descriptors := {[0 := []]}; space := ∅ |}.

Lemma file_data_resources_witness : exists f,
  file_data sample_fs #"/data" #"replay_config.json" sample_kernel = Ok (f, sample_kernel) /\
  uncompress_data f = Ok #"numbers".
Proof.
  destruct (file_data_resources sample_fs #"/data" #"replay_config.json" #"numbers" sample_kernel)
    as (f & E & Hu & _).
  - split; [vm_compute; reflexivity |]. split; [reflexivity |]. intros _. eexists. reflexivity.
  - unfold mappable. vm_compute. reflexivity.
  - exists f. exact (conj E Hu).
Defined.
