(* ===== verification/Packing.v ===== *)
(** * Packing: what replay finds in a packed trace

    The copies [pack_trace] of Archive makes, and the replacements
    [findSuitableReplacement] of Launch picks among them. *)

From S2P Require Import Prelude Streams Trace Options Files Json Tracer Launch Archive.

(** ** Copies *)

(** Every file of [fs] is in [fs'] with its content. *)
Definition extends (fs fs' : filesystem) : Prop :=
  forall p c, read_file fs p = Some c -> read_file fs' p = Some c.

Lemma extends_trans fs1 fs2 fs3 : extends fs1 fs2 -> extends fs2 fs3 -> extends fs1 fs3.
Proof. intros H1 H2 p c Hp. by apply H2, H1. Qed.

Lemma extends_insert fs p x : node_at fs p = None -> extends fs (<[canonical p := x]> fs).
Proof.
  intros Hp q c Hq. unfold read_file in *.
  assert (canonical p <> canonical q) as Hne by (apply (node_at_inj fs); rewrite Hp; by destruct (node_at fs q)).
  unfold node_at in *. by rewrite lookup_insert_ne.
Qed.

Lemma copy_file_spec from to fs fs' : copy_file from to fs = Ok (tt, fs') ->
  exists c, read_file fs from = Some c /\ fs' = <[canonical to := Regular c]> fs /\
    node_at fs to = None /\ extends fs fs' /\ read_file fs' to = Some c.
Proof.
  unfold copy_file. intros E. destruct (node_at fs from) as [[| c |] |] eqn:Ef; try done.
  destruct (node_at fs to) eqn:Et; [done |]. destruct (parent_exists fs to); simplify_eq.
  exists c. unfold read_file at 1. rewrite Ef. repeat split; [by apply extends_insert |].
  unfold read_file. rewrite node_at_ne; [by rewrite lookup_insert_eq |].
  intros Er. unfold node_at in Et. by rewrite bool_decide_eq_true_2 in Et.
Qed.

Section packing.
Context `{JsonText} (dir : bytes) (dir_nonempty : dir <> []).

Definition packed_path (n : bytes) : bytes := path_join (path_join dir kPackedDataPath) n.

(** An entry of the map: the key's file has a copy in the packed directory. *)
Definition copied (fs : filesystem) (kv : bytes * json) : Prop :=
  exists n c, kv.2 = String n /\ simple n /\ read_file fs kv.1 = Some c /\
    read_file fs (packed_path n) = Some c.

Lemma copied_extends fs fs' kv : extends fs fs' -> copied fs kv -> copied fs' kv.
Proof. intros He (n & c & Hv & Hs & H1 & H2). exists n, c. auto. Qed.

(** Only names of the packed directory change. *)
Definition only_packed (fs fs' : filesystem) : Prop :=
  forall q, (forall n, simple n -> q <> canonical (packed_path n)) -> fs' !! q = fs !! q.

Lemma packed_name_simple counter cand : simple (packed_name counter cand).
Proof.
  unfold packed_name. split; [by destruct (to_string counter) |].
  rewrite !not_elem_of_app. split; [apply to_string_no_slash |]. split; [| apply stem_no_slash].
  apply (bool_decide_unpack _). vm_compute. exact I.
Qed.

Lemma Forall_insert_key (P : bytes * json -> Prop) k v l :
  P (k, v) -> Forall P l -> Forall P (insert_key k v l).
Proof.
  intros Hkv. induction 1 as [|[k' v'] l Hp Hl IH]; [by constructor |]. cbn [insert_key].
  case_bool_decide; [by constructor |]. destruct (text_ltb k k'); [by repeat constructor |].
  by constructor.
Qed.

(** What the loop over the recorded files does. *)
Lemma pack_files_spec l counter m fs j fs' :
  pack_files dir l counter (Object m) fs = Ok (j, fs') -> Forall (copied fs) m ->
  exists m', j = Object m' /\ extends fs fs' /\ only_packed fs fs' /\ Forall (copied fs') m' /\
    (forall k, is_Some (find_key k m) -> is_Some (find_key k m')) /\
    (forall name, String name ∈ l -> unpacked name = false -> is_Some (read_file fs name) ->
       is_Some (find_key name m')).
Proof.
  revert counter m fs. induction l as [|el l IH]; intros counter m fs E Hm; cbn [pack_files] in E.
  { injection E as <- <-. exists m. split_and!; [done | by intros p c | by intros q | done | done |].
    intros name Hn. by apply not_elem_of_nil in Hn. }
  apply M_bind_Ok in E as (cand & s & [Hel ->]%lift_Ok & E).
  apply M_bind_Ok in E as (? & ? & [= <- <-] & E).
  assert (el = String cand) as -> by (by destruct el; simplify_eq/=).
  assert (forall m' fs', (forall name, String name ∈ l -> unpacked name = false ->
      is_Some (read_file fs' name) -> is_Some (find_key name m')) -> extends fs fs' ->
    (unpacked cand = false -> is_Some (read_file fs cand) -> is_Some (find_key cand m')) ->
    forall name, String name ∈ String cand :: l -> unpacked name = false ->
      is_Some (read_file fs name) -> is_Some (find_key name m')) as Hcons.
  { intros m' fs1 Hl He Hc name [[= <-] | Hin]%elem_of_cons Hu [c Hr]; [by apply Hc |].
    apply Hl; [done | done |]. rewrite (He _ _ Hr). done. }
  destruct (unpacked cand) eqn:Hu.
  { destruct (IH _ _ _ E Hm) as (m' & -> & He & Ho & Hc & Hk & Hn). exists m'.
    split_and!; try done. apply (Hcons m' fs); [done | by intros p c | congruence]. }
  destruct (is_regular_file fs cand) eqn:Hreg; cbn [negb] in E.
  2:{ destruct (IH _ _ _ E Hm) as (m' & -> & He & Ho & Hc & Hk & Hn). exists m'.
      split_and!; try done. apply (Hcons m' fs); [done | by intros p c |]. intros _ [c Hr].
      unfold read_file in Hr. unfold is_regular_file in Hreg. by destruct (node_at fs cand) as [[] |]. }
  apply M_bind_Ok in E as ([] & fs1 & Hcopy & E).
  apply copy_file_spec in Hcopy as (c & Hcand & Hfs1 & Hnone & He1 & Hto).
  apply M_bind_Ok in E as (j1 & s & [[= <-] ->]%lift_Ok & E).
  assert (Forall (copied fs1) (insert_key cand (String (packed_name counter cand)) m)) as Hm1.
  { apply Forall_insert_key.
    - exists (packed_name counter cand), c. split_and!; [done | apply packed_name_simple | by apply He1 | done].
    - eapply list.Forall_impl; [exact Hm |]. intros kv. by apply copied_extends. }
  destruct (IH _ _ _ E Hm1) as (m' & -> & He & Ho & Hc & Hk & Hn). exists m'.
  assert (is_Some (find_key cand m')) as Hin.
  { apply Hk. rewrite find_insert, bool_decide_eq_true_2 by done. done. }
  split_and!; [done | by eapply extends_trans | | done | |].
  - intros q Hq. rewrite Ho by done. rewrite Hfs1. apply lookup_insert_ne. symmetry.
    apply Hq, packed_name_simple.
  - intros k Hs. apply Hk. rewrite find_insert. by case_bool_decide.
  - by apply (Hcons m' fs1).
Qed.

(** The keys and values of the map: the executable's, and those of the files. *)
Definition named (e : bytes) (l : list json) (kv : bytes * json) : Prop :=
  kv = (e, String #"0") \/
  exists counter, kv.2 = String (packed_name counter kv.1) /\ String kv.1 ∈ l /\ unpacked kv.1 = false.

Lemma pack_files_named e l0 l counter m fs j fs' :
  pack_files dir l counter (Object m) fs = Ok (j, fs') ->
  (forall x, x ∈ l -> x ∈ l0) -> Forall (named e l0) m ->
  forall m', j = Object m' -> Forall (named e l0) m'.
Proof.
  revert counter m fs. induction l as [|el l IH]; intros counter m fs E Hl Hm m' Hj; cbn [pack_files] in E.
  { injection E as <- <-. by injection Hj as <-. }
  assert (forall x, x ∈ l -> x ∈ l0) as Hl' by (intros x Hx; apply Hl; by right).
  apply M_bind_Ok in E as (cand & s & [Hel ->]%lift_Ok & E).
  apply M_bind_Ok in E as (? & ? & [= <- <-] & E).
  assert (el = String cand) as -> by (by destruct el; simplify_eq/=).
  destruct (unpacked cand) eqn:Hu; [by eapply IH |].
  destruct (is_regular_file fs cand); cbn [negb] in E; [| by eapply IH].
  apply M_bind_Ok in E as ([] & fs1 & _ & E).
  apply M_bind_Ok in E as (j1 & s & [[= <-] ->]%lift_Ok & E).
  eapply IH; [exact E | done | | done]. apply Forall_insert_key; [| done].
  right. exists counter. split; [done |]. split; [apply Hl; left | done].
Qed.

Lemma plain_copied fs m : Forall (copied fs) m -> plain (Object m) = true.
Proof.
  intros Hm. cbn. induction Hm as [|[k v] m (n & c & Hv & _) Hm IH]; [done |].
  cbn [forallb snd] in *. by rewrite Hv, IH.
Qed.

Lemma find_key_Forall (P : bytes * json -> Prop) k l v :
  Forall P l -> find_key k l = Some v -> P (k, v).
Proof.
  induction 1 as [|[k' v'] l Hp Hl IH]; intros E; [done |]. cbn [find_key] in E.
  case_bool_decide; [by simplify_eq | by apply IH].
Qed.

(** The packed copies are not the trace's own files. *)
Lemma packed_path_ne n k :
  simple n -> simple k -> canonical (packed_path n) <> canonical (path_join dir k).
Proof.
  intros Hn Hk E. assert (simple kPackedDataPath) as Hp by simple_tac.
  apply (f_equal parent_path) in E. unfold packed_path in E.
  assert (path_join dir kPackedDataPath <> []) as Hne by (by apply (path_of_nonempty dir [kPackedDataPath])).
  rewrite (canonical_child (path_join dir kPackedDataPath)), (canonical_child dir k) in E by done.
  rewrite !parent_child, canonical_child in E by done. by apply (child_ne (canonical dir) kPackedDataPath).
Qed.

Lemma packed_path_ne_dir n : simple n -> canonical (packed_path n) <> canonical dir.
Proof.
  intros Hn E. assert (simple kPackedDataPath) as Hp by simple_tac. unfold packed_path in E.
  assert (path_join dir kPackedDataPath <> []) as Hne by (by apply (path_of_nonempty dir [kPackedDataPath])).
  rewrite canonical_child, canonical_child in E by done.
  pose proof (length_child (child (canonical dir) kPackedDataPath) n Hn).
  pose proof (length_child (canonical dir) kPackedDataPath Hp). rewrite E in *. lia.
Qed.

Lemma read_file_insert fs p q x : canonical p <> canonical q ->
  read_file (<[canonical p := x]> fs) q = read_file fs q.
Proof. intros Hne. unfold read_file, node_at. by rewrite lookup_insert_ne. Qed.

Lemma write_file_old p content old fs :
  read_file fs p = Some old -> write_file p content fs = <[canonical p := Regular content]> fs.
Proof. unfold read_file, write_file. by destruct (node_at fs p) as [[] |]. Qed.

Lemma load_json_extends p fs fs' j : extends fs fs' -> load_json p fs = Ok j -> load_json p fs' = Ok j.
Proof.
  intros He. unfold load_json. destruct (read_file fs p) eqn:Hr; [| done]. by rewrite (He _ _ Hr).
Qed.

(** How the files change until the two documents are written. *)
Record grows (fs fs' : filesystem) : Prop := {
  grows_extends : extends fs fs';
  grows_same q : q <> canonical (path_join dir kPackedDataPath) ->
    (forall n, simple n -> q <> canonical (packed_path n)) -> fs' !! q = fs !! q;
}.

Lemma grows_trans fs1 fs2 fs3 : grows fs1 fs2 -> grows fs2 fs3 -> grows fs1 fs3.
Proof.
  intros [E1 S1] [E2 S2]. split; [by eapply extends_trans |]. intros q H1 H2.
  by rewrite S2, S1.
Qed.
Lemma grows_root fs : node_at fs (path_join dir kPackedDataPath) = None ->
  grows fs (<[canonical (path_join dir kPackedDataPath) := Directory]> fs).
Proof. intros Hn. split; [by apply extends_insert |]. intros q Hq _. by rewrite lookup_insert_ne. Qed.
Lemma grows_copy from n fs fs' :
  simple n -> copy_file from (packed_path n) fs = Ok (tt, fs') -> grows fs fs'.
Proof.
  intros Hn (c & _ & -> & _ & He & _)%copy_file_spec. split; [done |]. intros q _ Hq.
  rewrite lookup_insert_ne; [done |]. symmetry. by apply Hq.
Qed.

Lemma grows_child fs fs' k : grows fs fs' -> simple k -> k <> kPackedDataPath ->
  fs' !! child (canonical dir) k = fs !! child (canonical dir) k.
Proof.
  intros [_ Hs] Hk Hne. assert (simple kPackedDataPath) as Hp by simple_tac.
  rewrite <-canonical_child by done. apply Hs.
  - rewrite !canonical_child by done. by intros E%(inj _).
  - intros n Hn. by apply not_eq_sym, packed_path_ne.
Qed.
Lemma grows_directory fs fs' : grows fs fs' -> is_directory fs dir = is_directory fs' dir.
Proof.
  intros [_ Hs]. assert (simple kPackedDataPath) as Hp by simple_tac.
  unfold is_directory, node_at. rewrite Hs; [done | |].
  - rewrite canonical_child by done. by apply not_eq_sym, child_ne.
  - intros n Hn. by apply not_eq_sym, packed_path_ne_dir.
Qed.

(** [pack_trace] up to the two documents it writes. *)
Lemma pack_trace_spec fs0 fs1 files config :
  pack_trace dir fs0 = Ok (tt, fs1) ->
  load_json (path_join dir kFilesConfigName) fs0 = Ok files ->
  load_json (path_join dir kReplayConfigName) fs0 = Ok config ->
  exists e c m text_map config' text_config fs,
    at_key kReplayExecutable config = Ok (String e) /\
    set_key kRecordMode (String kRecordModeFull) config = Ok config' /\
    dump 2 (Object m) = Ok text_map /\ dump 4 config' = Ok text_config /\
    fs1 = write_file (path_join dir kReplayConfigName) text_config
            (write_file (path_join dir kReplayFileMapConfigName) text_map fs) /\
    is_directory fs dir = true /\ grows fs0 fs /\ Forall (copied fs) m /\
    Forall (named e (elements files)) m /\
    read_file fs e = Some c /\ read_file fs (packed_path #"0") = Some c /\
    (forall name, String name ∈ elements files -> unpacked name = false ->
       is_Some (read_file fs0 name) -> is_Some (find_key name m)).
Proof.
  intros Hp Hfiles Hconfig. unfold pack_trace in Hp.
  assert (simple kPackedDataPath) as Hpk by simple_tac. assert (simple #"0") as H0 by simple_tac.
  apply M_bind_Ok in Hp as (? & ? & [= <- <-] & Hp).
  apply M_bind_Ok in Hp as ([] & s & Hs & Hp). destruct (exists_ fs0 dir); [| done]. injection Hs as <-.
  apply M_bind_Ok in Hp as ([] & s & Hs & Hp).
  destruct (exists_ fs0 (path_join dir kPackedDataPath)) eqn:Hex; [done |]. injection Hs as <-.
  apply bool_decide_eq_false, eq_None_not_Some in Hex.
  apply M_bind_Ok in Hp as (b & fsa & Hcreate & Hp). unfold create_directory in Hcreate.
  rewrite Hex in Hcreate. destruct (_ && parent_exists _ _) eqn:Hpar in Hcreate; simplify_eq.
  apply andb_true_iff in Hpar as [_ Hpar]. rewrite parent_exists_child in Hpar by done.
  pose proof (grows_root fs0 Hex) as Ga. revert Ga Hp.
  generalize (<[canonical (path_join dir kPackedDataPath) := Directory]> fs0) as fsa. intros fsa Ga Hp.
  pose proof (load_json_extends _ _ _ _ (grows_extends _ _ Ga) Hfiles) as Hfa.
  pose proof (load_json_extends _ _ _ _ (grows_extends _ _ Ga) Hconfig) as Hca.
  apply M_bind_Ok in Hp as (? & ? & Hl & Hp). apply M_bind_Ok in Hl as (? & ? & [= <- <-] & Hl).
  apply lift_Ok in Hl as [Hj ->]. rewrite Hfa in Hj. injection Hj as <-.
  apply M_bind_Ok in Hp as (? & ? & Hl & Hp). apply M_bind_Ok in Hl as (? & ? & [= <- <-] & Hl).
  apply lift_Ok in Hl as [Hj ->]. rewrite Hca in Hj. injection Hj as <-.
  apply M_bind_Ok in Hp as (e & ? & [He ->]%lift_Ok & Hp).
  apply outcome_bind_Ok in He as (je & He & Hje). destruct je; simplify_eq/=.
  apply M_bind_Ok in Hp as ([] & fsb & Hcopy & Hp).
  pose proof (grows_copy _ _ _ _ H0 Hcopy) as Gb.
  apply copy_file_spec in Hcopy as (c & Hc & _ & _ & Heb & Hc').
  apply M_bind_Ok in Hp as (? & ? & [[= <-] ->]%lift_Ok & Hp).
  apply M_bind_Ok in Hp as (j & fsc & Hpack & Hp).
  destruct (pack_files_spec _ _ _ _ _ _ Hpack) as (m & -> & Hec & Ho & Hm & Hk & Hn).
  { constructor; [| constructor]. exists #"0", c. split_and!; [done | done | by apply Heb | done]. }
  apply M_bind_Ok in Hp as ([] & fsd & Hst & Hp).
  apply M_bind_Ok in Hst as (t1 & ? & [Ht1 ->]%lift_Ok & Hst). injection Hst as <-.
  apply M_bind_Ok in Hp as (config' & ? & [Hc1 ->]%lift_Ok & Hp).
  apply M_bind_Ok in Hp as (t2 & ? & [Ht2 ->]%lift_Ok & Hp). injection Hp as <-.
  assert (grows fs0 fsc) as G.
  { apply (grows_trans _ fsa); [done |]. apply (grows_trans _ fsb); [done |]. split; [done |]. auto. }
  exists e, c, m, t1, config', t2, fsc. split_and!; try done.
  - by rewrite <-(grows_directory _ _ G).
  - eapply pack_files_named; [exact Hpack | done | | done]. constructor; [by left | constructor].
  - by apply Hec, Heb.
  - by apply Hec.
  - intros name Hin Hu [c' Hr]. apply Hn; [done | done |]. exists c'.
    apply Heb, (grows_extends _ _ Ga), Hr.
Qed.

(** Writing the two documents, both read back, and what they leave alone. *)
Lemma write_documents fs t1 t2 old :
  is_directory fs dir = true ->
  fs !! child (canonical dir) kReplayFileMapConfigName = None ->
  read_file fs (path_join dir kReplayConfigName) = Some old ->
  let fs' := write_file (path_join dir kReplayConfigName) t2
               (write_file (path_join dir kReplayFileMapConfigName) t1 fs) in
  read_file fs' (path_join dir kReplayFileMapConfigName) = Some t1 /\
  read_file fs' (path_join dir kReplayConfigName) = Some t2 /\
  forall n, simple n -> read_file fs' (packed_path n) = read_file fs (packed_path n).
Proof.
  intros Hd Hmap Hcfg. assert (simple kReplayFileMapConfigName) as Hs1 by simple_tac.
  assert (simple kReplayConfigName) as Hs2 by simple_tac.
  assert (canonical (path_join dir kReplayFileMapConfigName) <> canonical (path_join dir kReplayConfigName))
    as Hne by (rewrite !canonical_child by done; by intros E%(inj _)).
  rewrite (write_file_new fs) by (done || by rewrite Hmap).
  rewrite <-(canonical_child dir kReplayFileMapConfigName) by done.
  rewrite (write_file_old _ _ old) by (by rewrite read_file_insert). cbn zeta.
  split_and!.
  - rewrite read_file_insert by done. by rewrite read_file_child, canonical_child, lookup_insert_eq by done.
  - by rewrite read_file_child, canonical_child, lookup_insert_eq by done.
  - intros n Hn. by rewrite !read_file_insert by (by apply not_eq_sym, packed_path_ne).
Qed.

(** A name outside the trace. *)
Definition outside (name : bytes) : Prop := within (canonical dir) (canonical name) = false.

Lemma within_below c q n : c <> #"/" -> within c q = true -> within c (child q n) = true.
Proof.
  intros Hc Hw. unfold within in Hw.
  apply orb_true_iff in Hw as [->%bool_decide_eq_true | Hw%bool_decide_eq_true]; [by apply within_child |].
  apply orb_true_iff. right. apply bool_decide_eq_true. rewrite <-Hw.
  assert (S (length c) <= length q)%nat as Hl.
  { apply (f_equal length) in Hw. rewrite length_take, length_app in Hw.
    change (length #"/") with 1%nat in Hw. lia. }
  unfold child. case_bool_decide; by rewrite take_app_le.
Qed.

Lemma outside_packed name : canonical dir <> #"/" -> outside name ->
  canonical name <> canonical (path_join dir kPackedDataPath) /\
  (forall n, simple n -> canonical name <> canonical (packed_path n)) /\
  (forall k, simple k -> canonical name <> canonical (path_join dir k)).
Proof.
  intros Hc Ho. assert (forall q, within (canonical dir) q = true -> canonical name <> q) as Hne.
  { intros q Hq E. unfold outside in Ho. congruence. }
  assert (simple kPackedDataPath) as Hp by simple_tac.
  assert (path_join dir kPackedDataPath <> []) as Hpk by (by apply (path_of_nonempty dir [kPackedDataPath])).
  split_and!.
  - apply Hne. rewrite canonical_child by done. by apply within_child.
  - intros n Hn. apply Hne. unfold packed_path. rewrite !canonical_child by done.
    by apply within_below, within_child.
  - intros k Hk. apply Hne. rewrite canonical_child by done. by apply within_child.
Qed.

(** What a packed trace holds, and what its map does to a name that is not a
    library's: a recorded file that was there is replaced by its copy; a name
    that was not packed is left. *)
Record packed_trace (fs0 fs1 : filesystem) (e : bytes) (files : json) (m : list (bytes * json)) : Prop := {
  packed_map : load_json (path_join dir kReplayFileMapConfigName) fs1 = Ok (Object m);
  packed_mode : exists config', load_json (path_join dir kReplayConfigName) fs1 = Ok config' /\
    at_key kRecordMode config' = Ok (String kRecordModeFull);
  packed_executable : exists c, read_file fs1 (packed_path #"0") = Some c /\
    forall c', read_file fs0 e = Some c' -> c' = c;
  packed_names : Forall (named e (elements files)) m;
  packed_copy name c : String name ∈ elements files -> unpacked name = false ->
    read_file fs0 name = Some c -> exists n, find_key name m = Some (String n) /\ simple n /\
      read_file fs1 (packed_path n) = Some c;
  packed_only name : is_Some (find_key name m) -> canonical dir <> #"/" -> outside name ->
    is_Some (read_file fs0 name);
}.

Lemma pack_makes_trace fs0 fs1 files config :
  pack_trace dir fs0 = Ok (tt, fs1) ->
  load_json (path_join dir kFilesConfigName) fs0 = Ok files ->
  load_json (path_join dir kReplayConfigName) fs0 = Ok config -> plain config = true ->
  exists_ fs0 (path_join dir kReplayFileMapConfigName) = false ->
  exists e m, at_key kReplayExecutable config = Ok (String e) /\ packed_trace fs0 fs1 e files m.
Proof.
  intros Hp Hfiles Hconfig Hplain Hmap.
  destruct (pack_trace_spec _ _ _ _ Hp Hfiles Hconfig) as
    (e & c & m & t1 & config' & t2 & fs & He & Hset & Hd1 & Hd2 & -> & Hdir & G & Hm & Hnm & Hc & Hc' & Hn).
  assert (simple kReplayFileMapConfigName) as Hs1 by simple_tac.
  assert (exists old, read_file fs (path_join dir kReplayConfigName) = Some old) as [old Hold].
  { unfold load_json in Hconfig. destruct (read_file fs0 _) as [old|] eqn:Ho in Hconfig; [| done].
    exists old. by apply (grows_extends _ _ G). }
  destruct (write_documents fs t1 t2 old Hdir) as (H1 & H2 & H3); [| done |].
  { rewrite (grows_child _ _ _ G) by done. apply bool_decide_eq_false, eq_None_not_Some in Hmap.
    by rewrite <-node_at_child. }
  exists e, m. split; [done |]. split.
  - eapply load_json_ok; [exact H1 |]. by eapply parse_dump; [eapply plain_copied |].
  - exists config'. destruct config as [| | | | | l]; simplify_eq/=. split.
    + eapply load_json_ok; [exact H2 |]. eapply parse_dump; [| done]. by apply (plain_insert _ _ l).
    + by rewrite find_insert, bool_decide_eq_true_2.
  - exists c. rewrite H3 by simple_tac. split; [done |]. intros c0 Hc0.
    apply (grows_extends _ _ G) in Hc0. congruence.
  - done.
  - intros name cn Hin Hu Hr. destruct (Hn name Hin Hu) as [v Hv]; [by exists cn |].
    destruct (find_key_Forall _ _ _ _ Hm Hv) as (n & c0 & Hvn & Hsn & Hrn & Hrp). cbn in Hvn, Hrn.
    subst v. apply (grows_extends _ _ G) in Hr. exists n. rewrite H3 by done. split_and!; congruence.
  - intros name [v Hv] Hroot Ho. destruct (outside_packed name Hroot Ho) as (Ha & Hb & _).
    destruct (find_key_Forall _ _ _ _ Hm Hv) as (n & c0 & _ & _ & Hrn & _). cbn in Hrn.
    exists c0. rewrite <-Hrn. unfold read_file, node_at. case_bool_decide; [done |].
    by rewrite (grows_same _ _ G).
Qed.

Lemma replaced_by_copy m name n : contains #".so" name = false ->
  find_key name m = Some (String n) ->
  findSuitableReplacement (path_join dir kPackedDataPath) (Object m) name = Ok (packed_path n).
Proof.
  intros Hso Hk. unfold findSuitableReplacement. rewrite Hso. cbn [contains_key at_key]. rewrite Hk.
  by rewrite bool_decide_eq_true_2.
Qed.
Lemma not_replaced m name : contains #".so" name = false -> find_key name m = None ->
  findSuitableReplacement (path_join dir kPackedDataPath) (Object m) name = Ok [].
Proof.
  intros Hso Hk. unfold findSuitableReplacement. rewrite Hso. cbn [contains_key]. rewrite Hk.
  by rewrite bool_decide_eq_false_2 by (by intros []).
Qed.

Lemma find_key_In k (m : list (bytes * json)) v : find_key k m = Some v -> In (k, v) m.
Proof.
  induction m as [|[k' v'] m IH]; [done |]. cbn [find_key].
  case_bool_decide; [intros [= ->]; left; by simplify_eq | right; by apply IH].
Qed.

(** A library is replaced by the first packed file whose name has the library's
    file name in it. *)
Lemma find_first (f : bytes -> bool) (m : list (bytes * json)) k v :
  List.find (fun el => f el.1) m = Some (k, v) -> find_key k m = Some v /\ f k = true.
Proof.
  induction m as [|[k' v'] m IH]; [done |]. cbn [List.find find_key fst].
  destruct (f k') eqn:E; [intros [= -> ->]; by rewrite bool_decide_eq_true_2 |].
  intros Hf. destruct (IH Hf) as [Hk Hfk]. by rewrite bool_decide_eq_false_2 by congruence.
Qed.
Lemma library_replaced m name k n : contains #".so" name = true ->
  List.find (fun el => contains (filename name) el.1) m = Some (k, String n) ->
  findSuitableReplacement (path_join dir kPackedDataPath) (Object m) name = Ok (packed_path n).
Proof. intros Hso Hk. unfold findSuitableReplacement. cbn [items]. by rewrite Hso, Hk. Qed.
Lemma library_not_replaced m name : contains #".so" name = true ->
  List.find (fun el => contains (filename name) el.1) m = None ->
  findSuitableReplacement (path_join dir kPackedDataPath) (Object m) name = Ok [].
Proof. intros Hso Hk. unfold findSuitableReplacement. cbn [items]. by rewrite Hso, Hk. Qed.

(** What replay finds in a packed trace.  When [pack] has ended, the
    configuration says the trace is packed, the packed directory has the
    recorded executable as its file 0, and every file the program opened that
    was a regular file then, outside the three excluded trees and not a library,
    is replaced by a copy with the content it had, wherever its name is looked
    up. *)
Theorem packed_file_replaced fs0 fs1 files config :
  pack_trace dir fs0 = Ok (tt, fs1) ->
  load_json (path_join dir kFilesConfigName) fs0 = Ok files ->
  load_json (path_join dir kReplayConfigName) fs0 = Ok config -> plain config = true ->
  exists_ fs0 (path_join dir kReplayFileMapConfigName) = false ->
  exists m config' e,
    load_json (path_join dir kReplayFileMapConfigName) fs1 = Ok m /\
    load_json (path_join dir kReplayConfigName) fs1 = Ok config' /\
    at_key kRecordMode config' = Ok (String kRecordModeFull) /\
    at_key kReplayExecutable config = Ok (String e) /\
    is_Some (read_file fs1 (packed_path #"0")) /\
    (forall c, read_file fs0 e = Some c -> read_file fs1 (packed_path #"0") = Some c) /\
    forall name c, String name ∈ elements files -> unpacked name = false ->
      read_file fs0 name = Some c -> contains #".so" name = false ->
      exists copy, findSuitableReplacement (path_join dir kPackedDataPath) m name = Ok copy /\
        read_file fs1 copy = Some c.
Proof.
  intros Hp Hfiles Hconfig Hplain Hmap.
  destruct (pack_makes_trace _ _ _ _ Hp Hfiles Hconfig Hplain Hmap) as (e & m & He & P).
  destruct (packed_mode _ _ _ _ _ P) as (config' & Hc & Hmode).
  destruct (packed_executable _ _ _ _ _ P) as (c & Hr & Hsame).
  exists (Object m), config', e. split_and!; try done; [by apply (packed_map _ _ _ _ _ P) | |].
  - intros c0 Hc0. by rewrite (Hsame _ Hc0).
  - intros name cn Hin Hu Hrn Hso. destruct (packed_copy _ _ _ _ _ P name cn Hin Hu Hrn) as (n & Hk & _ & Hcopy).
    exists (packed_path n). split; [by apply replaced_by_copy | done].
Qed.
End packing.

Lemma packed_file_replaced_witness :
  let fs1 := final (pack_trace #"/trace" sample_trace) in
  exists m copy, load_json #"/trace/replay_file_map.json" fs1 = Ok m /\
    findSuitableReplacement #"/trace/pack" m #"/numbers.txt" = Ok copy /\
    read_file fs1 copy = Some #"1 2 3".
Proof.
  intros fs1.
  destruct (packed_file_replaced #"/trace" ltac:(discriminate) sample_trace fs1
    sample_files_config sample_replay_config) as (m & config' & e & Hm & _ & _ & _ & _ & _ & H).
  - apply final_Ok. vm_compute. reflexivity.
  - vm_compute. reflexivity.
  - vm_compute. reflexivity.
  - vm_compute. reflexivity.
  - vm_compute. reflexivity.
  - destruct (H #"/numbers.txt" #"1 2 3") as (copy & Hc & Hr);
      [left | vm_compute; reflexivity | vm_compute; reflexivity | vm_compute; reflexivity |].
    exists m, copy. exact (conj Hm (conj Hc Hr)).
Defined.
