(* ===== verification/HostDebugger.v ===== *)
(** * HostDebugger: the debugger on LLDB

    lib/debug/host/HostDebugger.{hpp,cpp}: the implementation of
    [AbstractDebugger] for programs on the host.  LLDB is a class: its thread
    list, register contexts, memory, breakpoints and run control are operations
    on the state [L] of the target's process. *)

From S2P Require Import Prelude Hex Streams Debugger GdbProtocol.

(** ** What is used of LLDB *)

(** [lldb::StateType] *)
Inductive StateType : Set :=
  | eStateInvalid | eStateUnloaded | eStateConnected | eStateAttaching | eStateLaunching
  | eStateStopped | eStateRunning | eStateStepping | eStateCrashed | eStateDetached
  | eStateExited | eStateSuspended.
#[global] Instance StateType_eq_dec : EqDecision StateType.
Proof. solve_decision. Defined.

(** [lldb::StopReason] *)
Inductive LLDBStopReason : Set :=
  | eStopReasonInvalid | eStopReasonNone | eStopReasonTrace | eStopReasonBreakpoint
  | eStopReasonWatchpoint | eStopReasonSignal | eStopReasonException | eStopReasonExec
  | eStopReasonPlanComplete | eStopReasonThreadExiting | eStopReasonInstrumentation
  | eStopReasonProcessorTrace | eStopReasonFork | eStopReasonVFork | eStopReasonVForkDone.

(** [lldb::Encoding] *)
Inductive Encoding : Set :=
  | eEncodingInvalid | eEncodingUint | eEncodingSint | eEncodingIEEE754 | eEncodingVector.

(** [lldb::Format]: the formats the code names, and the others. *)
Inductive Format : Set :=
  | eFormatBinary | eFormatDecimal | eFormatHex | eFormatFloat | eFormatVectorOfSInt8
  | eFormatVectorOfUInt8 | eFormatVectorOfSInt16 | eFormatVectorOfUInt16
  | eFormatVectorOfSInt32 | eFormatVectorOfUInt32 | eFormatVectorOfFloat32
  | eFormatVectorOfUInt64 | eFormatVectorOfUInt128 | eFormatOther.

(** [lldb::ByteOrder] *)
Inductive ByteOrder : Set :=
  | eByteOrderInvalid | eByteOrderBig | eByteOrderPDP | eByteOrderLittle.

(** [lldb_private::RegisterInfo]: [value_regs] is whether the pointer is set, a
    register that is part of others. *)
Record RegisterInfo := {
  name : bytes;
  alt_name : option bytes;
  byte_size : Z;
  byte_offset : Z;
  encoding : Encoding;
  format : Format;
  value_regs : bool;
}.

(** [ProcessInstanceInfo] and its [ArchSpec]. *)
Record ProcessInstanceInfo := {
  GetProcessID : Z; GetParentProcessID : Z; GetUserID : Z; GetGroupID : Z;
  GetEffectiveUserID : Z; GetEffectiveGroupID : Z;
  arch_valid : bool; GetByteOrder : ByteOrder; getTriple : bytes; getOSName : bytes;
  GetTargetABI : bytes; GetAddressByteSize : Z;
}.

(** [L] is the state of the process behind the target, [T] a thread.  The
    register table of a thread is fixed.  [ReadRegister] and [ReadMemory] are
    [None] when they fail. *)
Class LLDB (L T : Type) := {
  FindThreadByID : Z -> L -> option T;
  GetThreadAtIndex : Z -> L -> option T;
  GetSize : L -> Z;
  GetID : T -> Z;
  GetRegisterCount : T -> Z;
  GetRegisterInfoAtIndex : T -> Z -> option RegisterInfo;
  ReadRegister : T -> RegisterInfo -> L -> option bytes;
  WriteRegister : T -> RegisterInfo -> bytes -> L -> L;
  GetState : L -> StateType;
  GetStopReason : T -> L -> LLDBStopReason;
  GetStopInfoValue : T -> L -> Z;
  WaitForProcessToStop : L -> StateType * L;
  (** Whether the run lock can be taken: the process is stopped. *)
  TryLock : L -> bool;
  ReadMemory : Z -> Z -> L -> option bytes;
  WriteMemory : Z -> bytes -> L -> L;
  CreateBreakpoint : Z -> L -> option Z * L;
  RemoveBreakpointByID : Z -> L -> L;
  SetSelectedThreadByID : Z -> L -> L;
  ResumeSynchronous : L -> bool * L;
  SetResumeSignal : T -> Z -> L -> L;
  HasThreadScope : T -> L -> bool;
  QueueThreadPlanForStepSingleInstruction : T -> L -> bool * L;
  getArchName : L -> bytes;
  GetProcessInfo : L -> option ProcessInstanceInfo;
  GetAuxvData : L -> bytes;
}.

(** ** State *)

(** [mTarget] is empty until [launch]; the breakpoints are kept by their id. *)
Record HostDebugger (L : Type) := {
  mTarget : option L;
  mExecutablePath : bytes;
  mBreakpoints : gmap Z Z;
}.
Arguments mTarget {L}.
Arguments mExecutablePath {L}.
Arguments mBreakpoints {L}.
Arguments Build_HostDebugger {L}.

Definition new_debugger {L} : HostDebugger L :=
  {| mTarget := None; mExecutablePath := []; mBreakpoints := ∅ |}.
Definition set_target {L} (l : L) (h : HostDebugger L) : HostDebugger L :=
  {| mTarget := Some l; mExecutablePath := mExecutablePath h; mBreakpoints := mBreakpoints h |}.
Definition set_mBreakpoints {L} (b : gmap Z Z) (h : HostDebugger L) : HostDebugger L :=
  {| mTarget := mTarget h; mExecutablePath := mExecutablePath h; mBreakpoints := b |}.

(** ** Memory *)

(** [memcpy(dst.data() + off, src, n)]. *)
Definition memcpy (dst : bytes) (off : Z) (src : bytes) (n : Z) : outcome bytes :=
  if (off + n <=? Z.of_nat (length dst)) && (n <=? Z.of_nat (length src))
  then Ok (take (Z.to_nat off) dst ++ take (Z.to_nat n) src ++ drop (Z.to_nat (off + n)) dst)
  else UB.
(** [n] bytes at [src.data() + off]. *)
Definition bytes_at (src : bytes) (off n : Z) : outcome bytes :=
  if (n =? 0) || (off + n <=? Z.of_nat (length src))
  then Ok (take (Z.to_nat n) (drop (Z.to_nat off) src)) else UB.

Section host.
Context {L T : Type} `{LLDB L T}.
Abbreviation S := (HostDebugger L).

(** A call through [mTarget], and one that changes the process. *)
Definition process {A} (f : L -> A) : M S A := fun h =>
  match mTarget h with Some l => Ok (f l, h) | None => UB end.
Definition change {A} (f : L -> A * L) : M S A := fun h =>
  match mTarget h with Some l => let '(a, l) := f l in Ok (a, set_target l h) | None => UB end.
Definition change_ (f : L -> L) : M S unit := change (fun l => (tt, f l)).
(** Dereferences a pointer. *)
Definition deref {S A} (p : option A) : M S A := lift (match p with Some a => Ok a | None => UB end).

(** The first lines of the functions that take a thread. *)
Definition find_thread (threadId : Z) : M S (option T) :=
  process (fun l => if threadId =? 0 then GetThreadAtIndex 0 l else FindThreadByID threadId l).

(** ** Registers *)

Definition register_numbers (t : T) : list Z := seqZ 0 (GetRegisterCount t).

(** The loop of [getRegistersData] over the register numbers. *)
Fixpoint registers_data (t : T) (l : L) (regs : list Z) (buffer : bytes) : outcome bytes :=
  match regs with
  | [] => Ok buffer
  | regNum :: regs =>
      match GetRegisterInfoAtIndex t regNum with
      | None => Ok []
      | Some regInfo =>
          if value_regs regInfo then registers_data t l regs buffer
          else match ReadRegister t regInfo l with
               | None => Ok []
               | Some regValue =>
                   let end_ := u32 (byte_offset regInfo + byte_size regInfo) in
                   buffer ← (if end_ >=? Z.of_nat (length buffer) then resize buffer end_
                             else Ok buffer);
                   buffer ← memcpy buffer (byte_offset regInfo) regValue (byte_size regInfo);
                   registers_data t l regs buffer
               end
      end
  end.

Definition host_getRegistersData (threadId : Z) : M S bytes :=
  t ← (find_thread threadId ≫= deref);
  data ← process (fun l => registers_data t l (register_numbers t) []);
  lift data.

Definition host_readRegister (threadId regNum : Z) : M S bytes :=
  t ← (find_thread threadId ≫= deref);
  if regNum >? GetRegisterCount t then mret []
  else
    regInfo ← deref (GetRegisterInfoAtIndex t regNum);
    value ← process (ReadRegister t regInfo);
    match value with
    | None => mret []
    | Some regValue =>
        buffer ← lift (resize [] (byte_size regInfo));
        lift (memcpy buffer 0 regValue (byte_size regInfo))
    end.

(** The loop of [writeRegistersData]. *)
Fixpoint write_registers (t : T) (regs : list Z) (data : bytes) : M S unit :=
  match regs with
  | [] => mret tt
  | regNum :: regs =>
      match GetRegisterInfoAtIndex t regNum with
      | None => lift Terminate
      | Some regInfo =>
          if value_regs regInfo then write_registers t regs data
          else
            raw ← lift (bytes_at data (byte_offset regInfo) (byte_size regInfo));
            _ ← change_ (WriteRegister t regInfo raw);
            write_registers t regs data
      end
  end.

Definition host_writeRegistersData (data : bytes) (tid : Z) : M S unit :=
  t ← (find_thread tid ≫= deref); write_registers t (register_numbers t) data.

(** ** Waiting and stopping *)

(** The loop of [wait]: [None] when [fuel] iterations did not end it. *)
Fixpoint wait_loop (fuel : nat) : M S (option Z) :=
  match fuel with
  | O => mret None
  | Datatypes.S fuel =>
      type ← change WaitForProcessToStop;
      if negb (bool_decide (type = eStateExited)) || negb (bool_decide (type = eStateCrashed))
      then wait_loop fuel
      else mret (Some 0)
  end.

(** The functions with empty bodies. *)
Definition host_attach (pid : Z) : M S unit := mret tt.
Definition host_detach : M S unit := mret tt.
Definition host_start : M S unit := mret tt.
Definition host_kill : M S unit := mret tt.
Definition host_interrupt : M S unit := mret tt.

Definition host_isAttached : M S bool := fun h => Ok (bool_decide (is_Some (mTarget h)), h).

Definition stop_type (r : LLDBStopReason) : StopReason.Type_ :=
  match r with
  | eStopReasonInvalid => StopReason.exit
  | eStopReasonTrace => StopReason.trace
  | eStopReasonNone | eStopReasonBreakpoint | eStopReasonPlanComplete => StopReason.breakpoint
  | eStopReasonWatchpoint => StopReason.watchpoint
  | eStopReasonSignal => StopReason.signal
  | eStopReasonException => StopReason.exception
  | eStopReasonFork => StopReason.fork
  | eStopReasonVFork => StopReason.vfork
  | eStopReasonVForkDone => StopReason.vfork_done
  | _ => StopReason.none
  end.

(** The code is the signal number as an [int]. *)
Definition host_getStopReason (threadId : Z) : M S StopReason.t :=
  thread ← find_thread threadId;
  stateType ← process GetState;
  let returning type := mret {| StopReason.type := type; StopReason.code := 0 |} in
  match stateType with
  | eStateExited | eStateInvalid | eStateUnloaded => returning StopReason.exit
  | eStateAttaching | eStateLaunching | eStateRunning | eStateStepping | eStateDetached =>
      returning StopReason.none
  | _ =>
      t ← deref thread;
      realReason ← process (GetStopReason t);
      match realReason with
      | eStopReasonSignal =>
          value ← process (GetStopInfoValue t);
          mret {| StopReason.type := StopReason.signal; StopReason.code := i32 value |}
      | _ => returning (stop_type realReason)
      end
  end.

Definition host_getNumThreads : M S Z := process GetSize.
Definition host_getThreadIDAtIndex (threadIdx : Z) : M S Z :=
  t ← (process (GetThreadAtIndex (u32 threadIdx)) ≫= deref); mret (GetID t).

(** ** Memory *)

Definition host_readMemory (addr len : Z) : M S bytes :=
  locked ← process TryLock;
  if locked : bool then
    buf ← lift (resize [] len);
    actual ← process (ReadMemory addr len);
    match actual with
    | None => mret []
    | Some stored => lift (resize (stored ++ drop (length stored) buf) (Z.of_nat (length stored)))
    end
  else mret [].

Definition host_writeMemory (addr len : Z) (data : bytes) : M S unit :=
  locked ← process TryLock;
  if locked : bool then
    data ← lift (bytes_at data 0 len); change_ (WriteMemory addr data)
  else mret tt.

Definition host_getExecutablePath : M S bytes := fun h => Ok (mExecutablePath h, h).

(** ** The target description *)

Definition getEncodingNameOrEmpty (e : Encoding) : bytes :=
  match e with
  | eEncodingUint => #"uint"
  | eEncodingSint => #"sint"
  | eEncodingIEEE754 => #"ieee754"
  | eEncodingVector => #"vector"
  | eEncodingInvalid => []
  end.

Definition getFormatNameOrEmpty (f : Format) : bytes :=
  match f with
  | eFormatBinary => #"binary"
  | eFormatDecimal => #"decimal"
  | eFormatHex => #"hex"
  | eFormatFloat => #"float"
  | eFormatVectorOfSInt8 => #"vector-sint8"
  | eFormatVectorOfUInt8 => #"vector-uint8"
  | eFormatVectorOfSInt16 => #"vector-sint16"
  | eFormatVectorOfUInt16 => #"vector-uint16"
  | eFormatVectorOfSInt32 => #"vector-sint32"
  | eFormatVectorOfUInt32 => #"vector-uint32"
  | eFormatVectorOfFloat32 => #"vector-float32"
  | eFormatVectorOfUInt64 => #"vector-uint64"
  | eFormatVectorOfUInt128 => #"vector-uint128"
  | eFormatOther => []
  end.

(** [name="value" ] *)
Definition attribute (name value : bytes) : bytes :=
  name ++ #"=" ++ [x22] ++ value ++ [x22] ++ #" ".
(** An attribute that is left out when it is empty. *)
Definition attribute_if (name value : bytes) : bytes :=
  match value with [] => [] | _ => attribute name value end.

Definition register_element (regIndex : Z) (regInfo : RegisterInfo) : bytes :=
  #"<reg " ++ attribute #"name" (name regInfo) ++
  attribute #"bitsize" (to_string (u32 (byte_size regInfo * 8))) ++
  attribute #"regnum" (to_string regIndex) ++
  attribute #"offset" (to_string (byte_offset regInfo)) ++
  attribute_if #"altname" (default [] (alt_name regInfo)) ++
  attribute_if #"encoding" (getEncodingNameOrEmpty (encoding regInfo)) ++
  attribute_if #"format" (getFormatNameOrEmpty (format regInfo)) ++
  #"/>" ++ [x0a].

Fixpoint register_elements (t : T) (regs : list Z) : outcome bytes :=
  match regs with
  | [] => Ok []
  | regIndex :: regs =>
      match GetRegisterInfoAtIndex t regIndex with
      | None => UB
      | Some regInfo =>
          rest ← register_elements t regs; Ok (register_element regIndex regInfo ++ rest)
      end
  end.

Definition version (tag : bytes) (close : bytes) : bytes :=
  tag ++ #" version=" ++ [x22] ++ #"1.0" ++ [x22] ++ close ++ #">" ++ [x0a].

Definition host_getGDBTargetXML : M S bytes :=
  arch ← process getArchName;
  t ← (process (GetThreadAtIndex 0) ≫= deref);
  elements ← lift (register_elements t (register_numbers t));
  mret (version #"<?xml" #"?" ++ version #"<target" [] ++
        #"<architecture>" ++ arch ++ #"</architecture>" ++ [x0a] ++
        #"<feature>" ++ [x0a] ++ elements ++ #"</feature>" ++ [x0a] ++ #"</target>").

Definition host_getProcessInfo : M S ProcessInfo := fun h =>
  match mTarget h with
  | None => Terminate
  | Some l =>
      match GetProcessInfo l with
      | None => Terminate
      | Some info =>
          if negb (arch_valid info) then Terminate
          else
            let endian := match GetByteOrder info with
                          | eByteOrderLittle => #"little"
                          | eByteOrderBig => #"big"
                          | eByteOrderPDP => #"pdp"
                          | eByteOrderInvalid => []
                          end in
            Ok ({| pid := GetProcessID info; parentPID := GetParentProcessID info;
                   realUID := GetUserID info; realGID := GetGroupID info;
                   effectiveUID := GetEffectiveUserID info;
                   effectiveGID := GetEffectiveGroupID info; triple := getTriple info;
                   ostype := getOSName info; endian := endian; targetABI := GetTargetABI info;
                   pointerSize := GetAddressByteSize info |}, h)
      end
  end.

(** ** Breakpoints *)

Definition host_createSoftwareBreakpoint (address : Z) : M S unit := fun h =>
  match mTarget h with
  | None => Ok (tt, h)
  | Some _ =>
      (bp ← change (CreateBreakpoint address);
       match bp with
       | Some id => modify (fun h => set_mBreakpoints (<[address := id]> (mBreakpoints h)) h)
       | None => mret tt
       end) h
  end.

Definition host_removeSoftwareBreakpoint (address : Z) : M S unit := fun h =>
  match mTarget h with
  | None => Ok (tt, h)
  | Some _ =>
      match mBreakpoints h !! address with
      | Some id =>
          (_ ← change_ (RemoveBreakpointByID id);
           modify (fun h => set_mBreakpoints (base.delete address (mBreakpoints h)) h)) h
      | None => Ok (tt, h)
      end
  end.

(** ** Running *)

(** The signal is not used. *)
Definition host_resume (signal tid : Z) : M S unit :=
  _ ← change_ (SetSelectedThreadByID tid);
  success ← change ResumeSynchronous;
  if success : bool then mret tt else lift Terminate.

(** The context is the thread's, so its pointers are set. *)
Definition resumeNewPlan (t : T) : M S unit :=
  _ ← change_ (SetSelectedThreadByID (GetID t));
  _ ← change ResumeSynchronous;
  mret tt.

Definition host_stepInstruction (tid signal : Z) : M S unit :=
  thread ← find_thread tid;
  match thread with
  | None => lift Terminate
  | Some t =>
      _ ← (if signal =? 0 then mret tt else change_ (SetResumeSignal t signal));
      scope ← process (HasThreadScope t);
      if negb scope then lift Terminate
      else
        success ← change (QueueThreadPlanForStepSingleInstruction t);
        if success : bool then resumeNewPlan t else lift Terminate
  end.

Definition host_getAuxvData : M S bytes := process GetAuxvData.

(** [attach] and [detach] do nothing. *)
#[global] Instance host_debugger : AbstractDebugger S := {|
  getRegistersData := host_getRegistersData;
  writeRegistersData := host_writeRegistersData;
  readRegister := host_readRegister;
  getGDBTargetXML := host_getGDBTargetXML;
  getProcessInfo := host_getProcessInfo;
  getExecutablePath := host_getExecutablePath;
  attach := host_attach;
  isAttached := host_isAttached;
  detach := host_detach;
  getNumThreads := host_getNumThreads;
  getThreadIDAtIndex := host_getThreadIDAtIndex;
  getStopReason := host_getStopReason;
  createSoftwareBreakpoint := host_createSoftwareBreakpoint;
  removeSoftwareBreakpoint := host_removeSoftwareBreakpoint;
  resume := host_resume;
  stepInstruction := host_stepInstruction;
  readMemory := host_readMemory;
  writeMemory := host_writeMemory;
  getAuxvData := host_getAuxvData;
|}.
End host.

(** ** Launching *)

(** What [launch] calls in the child, in order: the gdb-remote server of LLDB,
    its socket and its main loop. *)
Inductive server_call : Set :=
  | LaunchProcess | TcpListen | Accept | InitializeConnection | IsConnected | MainLoopRun.

(** [canonical] throws when the path cannot be resolved, [set_launch_info] is
    the executable, the arguments and the flags; the others are whether the call
    succeeds. *)
Class Launcher (L : Type) := {
  fs_canonical : bytes -> outcome bytes;
  CreateTarget : option L;
  set_launch_info : bytes -> list bytes -> L -> L;
  server_ok : server_call -> L -> bool;
  GetOrCreateModule : bytes -> L -> bool;
  CreateProcess : L -> bool;
  ConnectRemote : L -> bool;
  wait_for_stop : L -> L;
}.

(** The branch of the child: it does not return. *)
Definition launch_child {L} `{Launcher L} (l : L) : M (HostDebugger L) unit :=
  if forallb (fun c => server_ok c l)
       [LaunchProcess; TcpListen; Accept; InitializeConnection; IsConnected; MainLoopRun]
  then lift (Exit 0) else lift Terminate.

(** The rest of the parent. *)
Definition launch_parent {L} `{Launcher L} (executable : bytes) (l : L) : M (HostDebugger L) unit :=
  if negb (GetOrCreateModule executable l) then lift Terminate
  else if negb (CreateProcess l) then lift Terminate
  else if negb (ConnectRemote l) then lift Terminate
  else modify (set_target (wait_for_stop l)).

(** [launch]; [pid] is what [fork] returns.  [cEnv] is built from [env] and not
    used. *)
Definition host_launch {L} `{Launcher L} (pid : Z) (executable : bytes) (args env : list bytes)
    : M (HostDebugger L) unit :=
  path ← lift (fs_canonical executable);
  _ ← modify (fun h => {| mTarget := mTarget h; mExecutablePath := path;
                          mBreakpoints := mBreakpoints h |});
  match CreateTarget with
  | None => lift Terminate
  | Some l =>
      match args with
      | [] => lift UB (* args.front() *)
      | _ =>
          let l := set_launch_info executable args l in
          if pid =? 0 then launch_child l else launch_parent executable l
      end
  end.
