(* ===== verification/SampleHost.v ===== *)
(** * SampleHost: a concrete process under LLDB

    An instance of the classes HostDebugger is written against, for the concrete
    inputs at which its theorems are exercised.  Nothing here models code of the
    repository. *)

From S2P Require Import Prelude Hex Debugger GdbProtocol Sim HostDebugger.

(** One thread, its registers by name, four bytes of memory at 4096, and the
    breakpoints by id. *)
Record lldb := {
  l_state : StateType;
  l_reason : LLDBStopReason;
  l_registers : gmap bytes bytes;
  l_breakpoints : gmap Z Z;
}.
Definition set_registers (v : gmap bytes bytes) (l : lldb) : lldb :=
  {| l_state := l_state l; l_reason := l_reason l; l_registers := v;
     l_breakpoints := l_breakpoints l |}.
Definition set_breakpoints (v : gmap Z Z) (l : lldb) : lldb :=
  {| l_state := l_state l; l_reason := l_reason l; l_registers := l_registers l;
     l_breakpoints := v |}.

(** An id that is not used. *)
Definition next_id (m : gmap Z Z) : Z := 1 + max_key m.
Lemma next_id_fresh m : m !! next_id m = None.
Proof. apply above_max_key. unfold next_id. lia. Qed.

Definition sample_register (n : bytes) (size offset : Z) (part : bool) : RegisterInfo :=
  {| name := n; alt_name := None; byte_size := size; byte_offset := offset;
     encoding := eEncodingUint; format := eFormatHex; value_regs := part |}.
Definition sample_table : list RegisterInfo :=
  [sample_register #"a" 2 0 false; sample_register #"al" 1 0 true; sample_register #"pc" 3 4 false].

#[global] Instance sample_lldb : LLDB lldb unit := {|
  FindThreadByID n l := if n =? 7 then Some tt else None;
  GetThreadAtIndex i l := if i =? 0 then Some tt else None;
  GetSize l := 1;
  GetID _ := 7;
  GetRegisterCount _ := 3;
  GetRegisterInfoAtIndex _ n := sample_table !! Z.to_nat n;
  ReadRegister _ r l := l_registers l !! name r;
  WriteRegister _ r v l := set_registers (<[name r := v]> (l_registers l)) l;
  GetState := l_state;
  GetStopReason _ := l_reason;
  GetStopInfoValue _ l := 11;
  WaitForProcessToStop l := (eStateExited, l);
  TryLock l := true;
  ReadMemory a n l := Some (take (Z.to_nat n) (drop (Z.to_nat (a - 4096)) #"code"));
  WriteMemory a d l := l;
  CreateBreakpoint a l :=
    let id := next_id (l_breakpoints l) in
    (Some id, set_breakpoints (<[id := a]> (l_breakpoints l)) l);
  RemoveBreakpointByID i l := set_breakpoints (base.delete i (l_breakpoints l)) l;
  SetSelectedThreadByID i l := l;
  ResumeSynchronous l := (true, l);
  SetResumeSignal _ s l := l;
  HasThreadScope _ l := true;
  QueueThreadPlanForStepSingleInstruction _ l := (true, l);
  getArchName l := #"x86_64";
  GetProcessInfo l := None;
  GetAuxvData l := [];
|}.

Definition sample_process : lldb :=
  {| l_state := eStateStopped; l_reason := eStopReasonSignal;
     l_registers := <[ #"a" := [x01; x02]]> (<[ #"al" := [x01]]> (<[ #"pc" := [x0a; x0b; x0c]]> ∅));
     l_breakpoints := ∅ |}.
#[global] Instance sample_launcher : Launcher lldb := {|
  fs_canonical p := Ok p; CreateTarget := Some sample_process; set_launch_info _ _ l := l;
  server_ok _ _ := true; GetOrCreateModule _ _ := true; CreateProcess _ := true;
  ConnectRemote _ := true; wait_for_stop l := l;
|}.
Definition sample_host : HostDebugger lldb :=
  {| mTarget := Some sample_process; mExecutablePath := #"/bin/app"; mBreakpoints := ∅ |}.
Definition host_session : session (HostDebugger lldb) sim_files :=
  {| proto := new_protocol; server := addDebugger sample_host new_server;
     files := {| sim_content := []; sim_offset := 0 |} |}.
