(* ===== verification/HostRegisters.v ===== *)
(** * HostRegisters: the register file of a thread

    What getRegistersData, writeRegistersData and readRegister of
    HostDebugger do with the table of registers LLDB has for a thread. *)

From S2P Require Import Prelude Regex Hex Debugger GdbProtocol GdbProps GdbPackets HostDebugger Sim SampleHost.

(** ** Slices of a buffer *)

Definition slice (o n : Z) (b : bytes) : bytes := take (Z.to_nat n) (drop (Z.to_nat o) b).

Lemma slice_app_l o n a b :
  0 <= o -> 0 <= n -> o + n <= Z.of_nat (length a) -> slice o n (a ++ b) = slice o n a.
Proof.
  intros Ho Hn Hl. unfold slice. rewrite drop_app_le by lia.
  rewrite take_app_le; [done |]. rewrite length_drop. lia.
Qed.
Lemma slice_app_r o n a b :
  Z.of_nat (length a) <= o -> slice o n (a ++ b) = slice (o - Z.of_nat (length a)) n b.
Proof.
  intros Hl. unfold slice. rewrite drop_app_ge by lia. do 2 f_equal. lia.
Qed.
Lemma slice_take o n k b : 0 <= o -> 0 <= n -> o + n <= k -> slice o n (take (Z.to_nat k) b) = slice o n b.
Proof.
  intros Ho Hn Hk. unfold slice. rewrite take_drop_commute, take_take, take_drop_commute.
  do 2 f_equal. lia.
Qed.

Lemma memcpy_Ok dst off src :
  0 <= off -> off + Z.of_nat (length src) <= Z.of_nat (length dst) ->
  memcpy dst off src (Z.of_nat (length src)) =
  Ok (take (Z.to_nat off) dst ++ src ++ drop (Z.to_nat (off + Z.of_nat (length src))) dst).
Proof.
  intros Ho Hl. unfold memcpy. rewrite !(proj2 (Z.leb_le _ _)) by lia. cbn [andb].
  by rewrite Nat2Z.id, firstn_all.
Qed.

(** A copy puts the source in its place and leaves the rest alone. *)
Lemma memcpy_spec dst off src dst' :
  0 <= off -> memcpy dst off src (Z.of_nat (length src)) = Ok dst' ->
  length dst' = length dst /\ slice off (Z.of_nat (length src)) dst' = src /\
  forall o n, 0 <= o -> 0 <= n -> o + n <= Z.of_nat (length dst) ->
    o + n <= off \/ off + Z.of_nat (length src) <= o -> slice o n dst' = slice o n dst.
Proof.
  intros Ho E.
  assert (off + Z.of_nat (length src) <= Z.of_nat (length dst)) as Hl.
  { unfold memcpy in E. destruct (Z.leb_spec (off + Z.of_nat (length src)) (Z.of_nat (length dst))); [done |].
    done. }
  rewrite memcpy_Ok in E by done. injection E as <-. set (e := Z.to_nat (off + _)).
  assert (length (take (Z.to_nat off) dst) = Z.to_nat off) as Ht by (rewrite length_take; lia).
  split; [| split].
  - rewrite !length_app, Ht, length_drop. subst e. lia.
  - rewrite slice_app_r by lia. rewrite Ht, Z2Nat.id, Z.sub_diag by done.
    rewrite slice_app_l by lia. unfold slice. by rewrite Nat2Z.id, firstn_all.
  - intros o n Hon Hn Hle [Hd | Hd].
    + rewrite slice_app_l by lia. by apply slice_take.
    + rewrite !slice_app_r by lia. rewrite Ht. unfold slice. rewrite drop_drop. do 2 f_equal.
      subst e. lia.
Qed.

Lemma resize_grow v n :
  Z.of_nat (length v) <= n < 2 ^ 63 -> resize v n = Ok (v ++ replicate (Z.to_nat n - length v) x00).
Proof.
  intros Hn. unfold resize. destruct (Z.gtb_spec n (2 ^ 63 - 1)); [lia |].
  by rewrite take_ge by lia.
Qed.

#[global] Instance encoding_eq_dec : EqDecision Encoding.
Proof. solve_decision. Defined.
#[global] Instance format_eq_dec : EqDecision Format.
Proof. solve_decision. Defined.
#[global] Instance register_eq_dec : EqDecision RegisterInfo.
Proof. solve_decision. Defined.

Section registers.
Context {L T : Type} `{LLDB L T}.
Implicit Types (t : T) (l : L) (r : RegisterInfo) (h : HostDebugger L).

Definition end_of r : Z := byte_offset r + byte_size r.

(** The registers among [regs] that are not part of others. *)
Definition own t (regs : list Z) : list RegisterInfo :=
  base.filter (fun r => value_regs r = false) (omap (GetRegisterInfoAtIndex t) regs).
Definition own_registers t : list RegisterInfo := own t (register_numbers t).

(** LLDB describes every register of a table; the register file fits a 32-bit
    size. *)
Record table t : Prop := {
  table_info n : n ∈ register_numbers t -> is_Some (GetRegisterInfoAtIndex t n);
  table_range r : r ∈ own_registers t -> 0 <= byte_offset r /\ 0 <= byte_size r /\ end_of r < 2 ^ 32;
}.

Definition apart r r' : Prop := end_of r <= byte_offset r' \/ end_of r' <= byte_offset r.

(** A register is read with the size the table gives it. *)
Definition readable t l r : Prop :=
  exists v, ReadRegister t r l = Some v /\ Z.of_nat (length v) = byte_size r.

Lemma own_cons t n regs r :
  GetRegisterInfoAtIndex t n = Some r ->
  own t (n :: regs) = if value_regs r then own t regs else r :: own t regs.
Proof.
  intros Hr. unfold own. change (omap ?f (n :: regs)) with
    (match f n with Some y => y :: omap f regs | None => omap f regs end). cbn beta. rewrite Hr.
  rewrite filter_cons. destruct (value_regs r); [by rewrite decide_False | by rewrite decide_True].
Qed.

(** ** Reading the register file *)

Definition max_end (rs : list RegisterInfo) : Z := foldr Z.max 0 (map end_of rs).

Lemma max_end_ge rs r : r ∈ rs -> end_of r <= max_end rs.
Proof. unfold max_end. induction 1; cbn; lia. Qed.
Lemma max_end_snoc rs r : max_end (rs ++ [r]) = Z.max (max_end rs) (Z.max (end_of r) 0).
Proof. unfold max_end. induction rs as [|a rs IH]; cbn in *; lia. Qed.
Lemma max_end_pos rs : 0 <= max_end rs.
Proof. unfold max_end. induction rs; cbn; lia. Qed.

(** The buffer when the registers [rs] have been copied into it. *)
Record laid_out t l (rs : list RegisterInfo) (b : bytes) : Prop := {
  laid_out_length : Z.of_nat (length b) = max_end rs;
  laid_out_value r : r ∈ rs -> ReadRegister t r l = Some (slice (byte_offset r) (byte_size r) b);
}.

Lemma copy_register t l rs b r v :
  laid_out t l rs b -> Forall (fun r => 0 <= byte_offset r /\ 0 <= byte_size r) rs ->
  Forall (apart r) rs -> 0 <= byte_offset r /\ 0 <= byte_size r /\ end_of r < 2 ^ 32 ->
  ReadRegister t r l = Some v -> Z.of_nat (length v) = byte_size r ->
  exists b',
    (b ← (if u32 (byte_offset r + byte_size r) >=? Z.of_nat (length b)
          then resize b (u32 (byte_offset r + byte_size r)) else Ok b);
     memcpy b (byte_offset r) v (byte_size r)) = Ok b' /\ laid_out t l (rs ++ [r]) b'.
Proof.
  intros [Hlen Hval] Hrs Hap (Ho & Hs & He) Hv Hlv. fold (end_of r).
  assert (0 <= end_of r) as He0 by (unfold end_of; lia).
  rewrite wrap_small by lia.
  assert (exists b1, (if end_of r >=? Z.of_nat (length b) then resize b (end_of r) else Ok b) =
      Ok (b ++ b1) /\ Z.of_nat (length (b ++ b1)) = Z.max (max_end rs) (end_of r)) as (b1 & -> & Hb1).
  { destruct (Z.geb_spec (end_of r) (Z.of_nat (length b))).
    - rewrite resize_grow by lia. eexists. split; [done |]. rewrite length_app, length_replicate. lia.
    - exists []. rewrite app_nil_r. split; [done |]. lia. }
  cbn [mbind outcome_mbind outcome_bind]. unfold end_of in *.
  destruct (memcpy (b ++ b1) (byte_offset r) v (byte_size r)) as [b' | | | | |] eqn:E;
    rewrite <-Hlv in E; [| rewrite memcpy_Ok in E by lia; done ..].
  apply memcpy_spec in E as (Hl' & Hin & Hout); [| done]. exists b'. split; [done |]. split.
  - rewrite Hl', max_end_snoc, Hb1. unfold end_of. lia.
  - intros r' [Hr' | ->%list_elem_of_singleton]%elem_of_app; [| by rewrite <-Hlv, Hin].
    rewrite list.Forall_forall in Hrs, Hap. pose proof (Hrs r' Hr'). pose proof (max_end_ge rs r' Hr').
    specialize (Hap r' Hr'). unfold apart, end_of in *.
    rewrite Hout, slice_app_l by lia. by apply Hval.
Qed.

Lemma registers_data_laid_out t l regs rs b :
  laid_out t l rs b -> Forall (fun n => is_Some (GetRegisterInfoAtIndex t n)) regs ->
  Forall (fun r => 0 <= byte_offset r /\ 0 <= byte_size r /\ end_of r < 2 ^ 32) (rs ++ own t regs) ->
  Forall (readable t l) (own t regs) ->
  (forall pre r post, rs ++ own t regs = pre ++ r :: post -> Forall (apart r) pre) ->
  exists b', registers_data t l regs b = Ok b' /\ laid_out t l (rs ++ own t regs) b'.
Proof.
  revert rs b. induction regs as [|n regs IH]; intros rs b Hb Hi Hr Hread Hap.
  { exists b. split; [done |]. unfold own. cbn. by rewrite app_nil_r. }
  apply list.Forall_cons in Hi as [[r Hn] Hi]. cbn [registers_data]. rewrite Hn.
  rewrite (own_cons _ _ _ _ Hn) in *. destruct (value_regs r); [by apply IH |].
  apply list.Forall_cons in Hread as [(v & Hv & Hlv) Hread]. rewrite Hv.
  pose proof Hr as [Hrs [Hr1 _]%list.Forall_cons]%Forall_app.
  destruct (copy_register t l rs b r v) as (b' & E & Hb'); try done.
  - eapply list.Forall_impl; [exact Hrs |]. cbn. tauto.
  - by eapply Hap.
  - assert (forall x y (f : bytes -> outcome bytes), x ≫= (fun b => memcpy b (byte_offset r) v (byte_size r)) = Ok y ->
      x ≫= (fun b => memcpy b (byte_offset r) v (byte_size r) ≫= f) = f y) as Hbind.
    { intros x y f Hx. apply outcome_bind_Ok in Hx as (a & -> & Ha). cbn. by rewrite Ha. }
    cbn zeta. rewrite (Hbind _ _ _ E).
    destruct (IH (rs ++ [r]) b' Hb' Hi) as (b2 & E2 & Hb2); rewrite <-?app_assoc; [done.. |].
    exists b2. by rewrite <-app_assoc in Hb2.
Qed.
(** Registers that are not part of others do not share bytes. *)
Definition separate t : Prop :=
  forall pre r post, own_registers t = pre ++ r :: post -> Forall (apart r) pre.

Lemma find_thread_run h l t tid :
  mTarget h = Some l -> (if tid =? 0 then GetThreadAtIndex 0 l else FindThreadByID tid l) = Some t ->
  (find_thread tid ≫= deref) h = Ok (t, h).
Proof.
  intros Hl Ht. rewrite (M_run_bind _ _ _ (Some t) h); [done |].
  unfold find_thread, process. by rewrite Hl, Ht.
Qed.

Lemma process_run {A} (f : L -> A) h l : mTarget h = Some l -> process f h = Ok (f l, h).
Proof. unfold process. by intros ->. Qed.

Lemma getRegistersData_laid_out t tid h l :
  mTarget h = Some l -> (if tid =? 0 then GetThreadAtIndex 0 l else FindThreadByID tid l) = Some t ->
  table t -> separate t -> Forall (readable t l) (own_registers t) ->
  exists data, getRegistersData tid h = Ok (data, h) /\ laid_out t l (own_registers t) data.
Proof.
  intros Hl Ht [Hinfo Hrange] Hsep Hread.
  destruct (registers_data_laid_out t l (register_numbers t) [] []) as (data & E & Hd).
  - split; [done |]. intros r Hr. by apply not_elem_of_nil in Hr.
  - by apply list.Forall_forall.
  - apply list.Forall_forall. exact Hrange.
  - done.
  - exact Hsep.
  - exists data. split; [| done]. cbn [getRegistersData host_debugger]. unfold host_getRegistersData.
    rewrite (M_run_bind _ _ _ _ _ (find_thread_run h l t tid Hl Ht)).
    rewrite (M_run_bind _ _ _ _ _ (process_run _ h l Hl)). unfold lift. by rewrite E.
Qed.

(** ** Writing the register file *)

(** The bytes of the data for a register, and whether the data has them. *)
Definition part r (data : bytes) : bytes := slice (byte_offset r) (byte_size r) data.
Definition covers (data : bytes) r : bool :=
  (byte_size r =? 0) || (end_of r <=? Z.of_nat (length data)).

Lemma write_registers_spec t regs data h l :
  mTarget h = Some l -> Forall (fun n => is_Some (GetRegisterInfoAtIndex t n)) regs ->
  write_registers t regs data h =
  if forallb (covers data) (own t regs)
  then Ok (tt, set_target (foldl (fun l r => WriteRegister t r (part r data) l) l (own t regs)) h)
  else UB.
Proof.
  intros Hl Hi. revert h l Hl. induction Hi as [|n regs [r Hn] Hi IH]; intros h l Hl.
  { cbn. destruct h as [tgt p b]. cbn in *. by rewrite Hl. }
  cbn [write_registers]. rewrite Hn, (own_cons _ _ _ _ Hn). destruct (value_regs r); [by apply IH |].
  cbn [forallb foldl]. unfold bytes_at, covers at 1, end_of.
  destruct (_ || _); [| done]. rewrite (lift_run _ _ _ _ eq_refl). cbn [andb].
  rewrite (M_run_bind _ _ _ tt (set_target (WriteRegister t r (part r data) l) h))
    by (unfold change_, change; by rewrite Hl).
  by erewrite IH.
Qed.

(** C18: the bounds of a write of the register file.  The data is copied at the
    offsets of the table, without a look at its length: the call writes every
    register that is not part of another when the data reaches to the end of
    each, and is undefined otherwise. *)
Theorem writeRegistersData_bounds t tid h l data :
  mTarget h = Some l -> (if tid =? 0 then GetThreadAtIndex 0 l else FindThreadByID tid l) = Some t ->
  table t ->
  writeRegistersData data tid h =
  if forallb (covers data) (own_registers t)
  then Ok (tt, set_target
         (foldl (fun l r => WriteRegister t r (part r data) l) l (own_registers t)) h)
  else UB.
Proof.
  intros Hl Ht [Hinfo _]. cbn [writeRegistersData host_debugger]. unfold host_writeRegistersData.
  rewrite (M_run_bind _ _ _ _ _ (find_thread_run h l t tid Hl Ht)).
  apply write_registers_spec; [done |]. by apply list.Forall_forall.
Qed.

(** LLDB documents what a write of a register does: the register reads as it was
    written, and the others of the table are as they were. *)
Definition writes_kept t : Prop := forall r v l, r ∈ own_registers t -> Z.of_nat (length v) = byte_size r ->
  ReadRegister t r (WriteRegister t r v l) = Some v /\
  forall r', r' ∈ own_registers t -> r' <> r -> ReadRegister t r' (WriteRegister t r v l) = ReadRegister t r' l.

Lemma restored t l l2 (saved : list (RegisterInfo * bytes)) : writes_kept t ->
  Forall (fun rv => rv.1 ∈ own_registers t /\ ReadRegister t rv.1 l = Some rv.2 /\
    Z.of_nat (length rv.2) = byte_size rv.1) saved ->
  forall r, r ∈ own_registers t -> r ∈ map fst saved \/ ReadRegister t r l2 = ReadRegister t r l ->
  ReadRegister t r (foldl (fun l rv => WriteRegister t rv.1 rv.2 l) l2 saved) = ReadRegister t r l.
Proof.
  intros Hw Hsaved. revert l2. induction Hsaved as [|[r v] saved (Hin & Hr & Hv) Hsaved IH]; intros l2 r' Hr' Hcase.
  { destruct Hcase as [?%elem_of_nil | ?]; done. }
  cbn [foldl fst snd] in *. destruct (Hw r v l2 Hin Hv) as [Hown Hother]. apply IH; [done |].
  destruct (decide (r' = r)) as [-> | Hne]; [right; congruence |]. rewrite Hother by done.
  destruct Hcase as [[? | ?]%elem_of_cons | ?]; tauto.
Qed.

(** C19: the register file read from a thread and written back later, as a
    debugger does that saves the registers.  Whatever the process is then, the
    call writes the registers that are not part of others, each once and in the
    order of their numbers, each with exactly the value it had when the file was
    read, and nothing else; and if a register keeps what is written to it, all of
    them read afterwards as they did then. *)
Theorem registers_roundtrip t tid h l data h' h2 l2 :
  mTarget h = Some l -> (if tid =? 0 then GetThreadAtIndex 0 l else FindThreadByID tid l) = Some t ->
  table t -> separate t -> Forall (readable t l) (own_registers t) ->
  getRegistersData tid h = Ok (data, h') ->
  mTarget h2 = Some l2 -> (if tid =? 0 then GetThreadAtIndex 0 l2 else FindThreadByID tid l2) = Some t ->
  h' = h /\ exists saved l3,
    map fst saved = own_registers t /\ Forall (fun rv => ReadRegister t rv.1 l = Some rv.2) saved /\
    l3 = foldl (fun l rv => WriteRegister t rv.1 rv.2 l) l2 saved /\
    writeRegistersData data tid h2 = Ok (tt, set_target l3 h2) /\
    (writes_kept t -> forall r, r ∈ own_registers t -> ReadRegister t r l3 = ReadRegister t r l).
Proof.
  intros Hl Ht Htab Hsep Hread E Hl2 Ht2.
  destruct (getRegistersData_laid_out t tid h l Hl Ht Htab Hsep Hread) as (data' & E' & [Hlen Hval]).
  rewrite E in E'. injection E' as <- ->. split; [done |].
  exists (map (fun r => (r, part r data)) (own_registers t)). eexists. split_and!.
  - rewrite map_map. apply map_id.
  - apply list.Forall_forall. intros rv (r & -> & Hr)%list_elem_of_fmap. by apply Hval.
  - reflexivity.
  - cbn [writeRegistersData host_debugger]. unfold host_writeRegistersData.
    rewrite (M_run_bind _ _ _ _ _ (find_thread_run h2 l2 t tid Hl2 Ht2)).
    rewrite (write_registers_spec _ _ _ _ l2) by (done || by apply list.Forall_forall, Htab).
    fold (own_registers t).
    assert (forallb (covers data) (own_registers t) = true) as ->.
    { apply forallb_forall. intros r Hr%list_elem_of_In. unfold covers. apply orb_true_iff. right.
      apply Z.leb_le. rewrite Hlen. by apply max_end_ge. }
    by rewrite foldl_fmap.
  - intros Hw r Hr. apply restored; [done | | done |].
    + apply list.Forall_forall. intros rv (r' & -> & Hr')%list_elem_of_fmap. cbn [fst snd].
      split; [done |]. split; [by apply Hval |]. rewrite list.Forall_forall in Hread.
      destruct (Hread r' Hr') as (v & Hv & Hlv). specialize (Hval r' Hr'). unfold part. congruence.
    + left. rewrite map_map. cbn [fst]. by rewrite map_id.
Qed.

(** ** One register *)

(** C20: the bounds of a register read.  A register of the table is read with
    its own bytes; a number above the count gives nothing; but the count itself
    passes the check, and the null description LLDB has for it is used. *)
Theorem readRegister_bounds t tid h l n :
  mTarget h = Some l -> (if tid =? 0 then GetThreadAtIndex 0 l else FindThreadByID tid l) = Some t ->
  0 <= GetRegisterCount t -> GetRegisterInfoAtIndex t (GetRegisterCount t) = None ->
  (forall n, 0 <= n < GetRegisterCount t ->
    exists r, GetRegisterInfoAtIndex t n = Some r /\ readable t l r /\ byte_size r < 2 ^ 32) ->
  0 <= n ->
  (n < GetRegisterCount t -> exists r v, GetRegisterInfoAtIndex t n = Some r /\
     ReadRegister t r l = Some v /\ readRegister tid n h = Ok (v, h)) /\
  (n = GetRegisterCount t -> readRegister tid n h = UB) /\
  (GetRegisterCount t < n -> readRegister tid n h = Ok ([], h)).
Proof.
  intros Hl Ht Hc Hnone Hinfo Hn. cbn [readRegister host_debugger]. unfold host_readRegister.
  rewrite (M_run_bind _ _ _ _ _ (find_thread_run h l t tid Hl Ht)).
  split; [| split].
  - intros Hlt. destruct (Hinfo n) as (r & Hr & (v & Hv & Hlv) & Hs); [done |]. exists r, v.
    split; [done |]. split; [done |]. destruct (Z.gtb_spec n (GetRegisterCount t)); [lia |].
    rewrite Hr. rewrite (M_run_bind _ _ _ r h) by done.
    rewrite (M_run_bind _ _ _ _ _ (process_run _ h l Hl)), Hv.
    assert (0 <= byte_size r) by lia.
    rewrite (lift_run _ _ _ _ (resize_grow [] (byte_size r) ltac:(cbn; lia))). cbn [app length].
    rewrite <-Hlv. unfold lift. rewrite memcpy_Ok by (rewrite ?length_replicate; lia).
    cbn [mbind outcome_mbind outcome_bind]. rewrite drop_ge by (rewrite length_replicate; lia).
    by rewrite app_nil_r.
  - intros ->. destruct (Z.gtb_spec (GetRegisterCount t) (GetRegisterCount t)); [lia |].
    by rewrite Hnone.
  - intros Hgt. by destruct (Z.gtb_spec n (GetRegisterCount t)); [| lia].
Qed.
End registers.

(** ** The reply to [g] *)

Section packets.
Context {L T : Type} `{LLDB L T} `{Ctre} {F : Type} `{!GdbProtocol.Files F}.

Lemma classify_g d1 d2 : is_hex d1 = true -> is_hex d2 = true -> classify (frame #"g" d1 d2) = Q_g.
Proof.
  intros Hx Hy. change #"g" with (mjoin [ #"g"]).
  apply (classify_frame Q_g [RText #"g"] [ #"g"] [[]]); [done | | done..]. row.
Qed.

(** C8: the [g] packet.  For a thread whose registers are read in full and do
    not overlap, the payload decodes to a register file that ends with its last
    register and has every register that is not part of another at the offset
    that the target description gives it. *)
Theorem g_packet (s : session (HostDebugger L) F) h l t d1 d2 :
  is_hex d1 = true -> is_hex d2 = true -> active (server s) = Some h -> mTarget h = Some l ->
  (let tid := mCurrentThreadIndex (proto s) in
   if tid =? 0 then GetThreadAtIndex 0 l else FindThreadByID tid l) = Some t ->
  table t -> separate t -> Forall (readable t l) (own_registers t) -> 0 < max_end (own_registers t) ->
  exists reply_ payload data,
    processPacket (frame #"g" d1 d2) s = Ok (reply_, s) /\
    unframe reply_ = Some (mAck (proto s), payload) /\ decode payload = Ok data /\
    Z.of_nat (length data) = max_end (own_registers t) /\
    forall r, r ∈ own_registers t -> ReadRegister t r l = Some (part r data).
Proof.
  intros Hx Hy Hs Hl Ht Htab Hsep Hread Hpos.
  destruct (getRegistersData_laid_out t _ h l Hl Ht Htab Hsep Hread) as (data & E & [Hlen Hval]).
  exists (createResponse (encode data) (mAck (proto s))), (encode data), data.
  split; [| split; [| split; [| split]]]; auto using decode_encode.
  - unfold processPacket. rewrite classify_g by done. unfold process_g.
    rewrite (M_run_bind _ _ _ (mCurrentThreadIndex (proto s)) s) by done.
    rewrite (M_run_bind _ _ _ _ _ (debugger_read _ s h data Hs E)).
    destruct data as [|b data]; [cbn in Hlen; lia |]. done.
  - apply unframe_createResponse, encode_no_hash.
Qed.
End packets.

(** ** At the concrete process *)

Lemma sample_own : own_registers (tt : unit) =
  [sample_register #"a" 2 0 false; sample_register #"pc" 3 4 false].
Proof. reflexivity. Qed.

Lemma sample_is_table : table (tt : unit).
Proof.
  split.
  - intros n Hn. unfold register_numbers in Hn. apply elem_of_seqZ in Hn.
    cbn [GetRegisterCount sample_lldb] in Hn.
    assert (n = 0 \/ n = 1 \/ n = 2) as [-> | [-> | ->]] by lia; vm_compute; by eexists.
  - intros r. rewrite sample_own.
    intros [-> | [-> | Hr%not_elem_of_nil]%elem_of_cons]%elem_of_cons; [.. | done];
      vm_compute; repeat split; congruence.
Qed.

Lemma sample_separate : separate (tt : unit).
Proof.
  intros pre r post E. rewrite sample_own in E.
  destruct pre as [|r1 [|r2 pre]]; [constructor | | by destruct pre].
  injection E as <- <- _. constructor; [| constructor]. right. vm_compute. congruence.
Qed.

Lemma sample_readable : Forall (readable (tt : unit) sample_process) (own_registers (tt : unit)).
Proof. rewrite sample_own. repeat constructor; eexists; vm_compute; done. Qed.

Lemma sample_keeps : writes_kept (tt : unit).
Proof.
  intros r v l Hr Hv. cbn -[sample_process]. split; [by rewrite lookup_insert_eq |].
  intros r' Hr' Hne. rewrite lookup_insert_ne; [done |].
  rewrite sample_own in Hr, Hr'. intros E. apply Hne.
  apply elem_of_cons in Hr as [-> | Hr]; apply elem_of_cons in Hr' as [-> | Hr'];
    try (apply list_elem_of_singleton in Hr as ->); try (apply list_elem_of_singleton in Hr' as ->);
    done || (vm_compute in E; discriminate).
Qed.

Lemma writeRegistersData_bounds_witness :
  writeRegistersData [x01; x02; x03; x04] 7 sample_host = UB /\
  is_ok (writeRegistersData [x01; x02; x03; x04; x05; x06; x07] 7 sample_host) = true.
Proof.
  split.
  - refine (eq_trans (writeRegistersData_bounds (tt : unit) 7 sample_host sample_process _ eq_refl
      eq_refl sample_is_table) _). vm_compute. reflexivity.
  - refine (eq_trans (f_equal is_ok (writeRegistersData_bounds (tt : unit) 7 sample_host
      sample_process _ eq_refl eq_refl sample_is_table)) _). vm_compute. reflexivity.
Defined.

(** The registers are saved, the process runs and changes them, and they are
    restored. *)
Definition changed_process : lldb := set_registers (<[ #"pc" := [x99; x99; x99]]> (l_registers sample_process)) sample_process.
Lemma registers_roundtrip_witness :
  getRegistersData 7 sample_host = Ok ([x01; x02; x00; x00; x0a; x0b; x0c], sample_host) /\
  exists l3,
    writeRegistersData [x01; x02; x00; x00; x0a; x0b; x0c] 7 (set_target changed_process sample_host) =
      Ok (tt, set_target l3 (set_target changed_process sample_host)) /\
    ReadRegister tt (sample_register #"pc" 3 4 false) l3 = Some [x0a; x0b; x0c].
Proof.
  assert (getRegistersData 7 sample_host = Ok ([x01; x02; x00; x00; x0a; x0b; x0c], sample_host)) as E
    by (vm_compute; reflexivity).
  split; [exact E |].
  destruct (registers_roundtrip (H := sample_lldb) (tt : unit) 7 sample_host sample_process _ sample_host
    (set_target changed_process sample_host) changed_process eq_refl eq_refl sample_is_table sample_separate
    sample_readable E eq_refl eq_refl) as (_ & saved & l3 & _ & _ & _ & H1 & H2).
  exists l3. split; [exact H1 |]. rewrite (H2 sample_keeps); [vm_compute; reflexivity |].
  rewrite sample_own. right. left.
Defined.

Lemma readRegister_bounds_witness :
  readRegister 7 3 sample_host = UB /\ readRegister 7 4 sample_host = Ok ([], sample_host).
Proof.
  assert (forall n, 0 <= n < 3 -> exists r, GetRegisterInfoAtIndex (tt : unit) n = Some r /\
    readable tt sample_process r /\ byte_size r < 2 ^ 32) as Hi.
  { intros n Hn. assert (n = 0 \/ n = 1 \/ n = 2) as [-> | [-> | ->]] by lia;
      (eexists; split; [vm_compute; reflexivity |]; split; [eexists; vm_compute; done | vm_compute; done]). }
  assert (0 <= 3) as H3 by lia. assert (0 <= 4) as H4 by lia.
  split.
  - exact (proj1 (proj2 (readRegister_bounds (tt : unit) 7 sample_host sample_process 3 eq_refl eq_refl
      H3 eq_refl Hi H3)) eq_refl).
  - refine (proj2 (proj2 (readRegister_bounds (tt : unit) 7 sample_host sample_process 4 eq_refl eq_refl
      H3 eq_refl Hi H4)) _). reflexivity.
Defined.

Lemma g_packet_witness :
  exists reply_ payload data,
    processPacket (frame #"g" "6"%byte "7"%byte) host_session = Ok (reply_, host_session) /\
    unframe reply_ = Some (true, payload) /\ decode payload = Ok data /\
    Z.of_nat (length data) = 7 /\ part (sample_register #"pc" 3 4 false) data = [x0a; x0b; x0c].
Proof.
  destruct (g_packet host_session sample_host sample_process (tt : unit) "6"%byte "7"%byte)
    as (r & p & d & H1 & H2 & H3 & H4 & H5);
    [reflexivity | reflexivity | reflexivity | reflexivity | reflexivity
    | exact sample_is_table | exact sample_separate | exact sample_readable
    | vm_compute; reflexivity |].
  exists r, p, d. split; [exact H1 |]. split; [exact H2 |]. split; [exact H3 |]. split; [exact H4 |].
  assert (sample_register #"pc" 3 4 false ∈ own_registers (tt : unit)) as Hin
    by (rewrite sample_own; right; left).
  pose proof (H5 _ Hin) as E. vm_compute in E. injection E as E. symmetry. exact E.
Defined.
