(* ===== verification/HostProps.v ===== *)
(** * HostProps: running, stopping and breakpoints under LLDB

    The GDB protocol of GdbProtocol served by the debugger of HostDebugger. *)

From S2P Require Import Prelude Regex Hex Debugger GdbProtocol GdbProps GdbPackets.
From S2P Require Import HostDebugger HostRegisters Sim SampleHost.

(** ** Waiting *)

Section waiting.
Context {L T : Type} `{LLDB L T}.

(** [wait] never returns: the condition of its loop holds for every state
    the process can be in, so on a launched process any number of iterations
    ends with the loop still running. *)
Theorem wait_runs_forever (h : HostDebugger L) fuel :
  mTarget h <> None -> exists h', wait_loop fuel h = Ok (None, h') /\ mTarget h' <> None.
Proof.
  revert h. induction fuel as [|fuel IH]; intros h Ht; [by exists h |].
  destruct (mTarget h) as [l|] eqn:El; [| done]. cbn [wait_loop].
  destruct (WaitForProcessToStop l) as [type l'] eqn:Ew.
  rewrite (M_run_bind _ _ _ type (set_target l' h)) by (unfold change; by rewrite El, Ew).
  assert (negb (bool_decide (type = eStateExited)) || negb (bool_decide (type = eStateCrashed)) = true)
    as -> by (by destruct type). by apply IH.
Qed.
End waiting.

(** ** Stop replies *)

Section stopping.
Context {L T : Type} `{LLDB L T} `{Ctre} {F : Type} `{!GdbProtocol.Files F}.
Implicit Types (s : session (HostDebugger L) F).

(** What the client is told about a stop of a thread. *)
Definition stop_text (l : L) (t : T) : bytes :=
  match GetState l with
  | eStateConnected | eStateStopped | eStateCrashed | eStateSuspended =>
      match GetStopReason t l with
      | eStopReasonSignal => #"S" ++ fmt_02x (i32 (GetStopInfoValue t l))
      | eStopReasonNone | eStopReasonBreakpoint | eStopReasonPlanComplete => #"T05swbreak:;"
      | eStopReasonTrace | eStopReasonWatchpoint | eStopReasonException | eStopReasonFork
      | eStopReasonVFork | eStopReasonVForkDone => #"S05"
      | eStopReasonInvalid | eStopReasonExec | eStopReasonThreadExiting
      | eStopReasonInstrumentation | eStopReasonProcessorTrace => #"W00"
      end
  | _ => #"W00"
  end.

Lemma stop_reply_host s h l t :
  active (server s) = Some h -> mTarget h = Some l ->
  (let tid := mCurrentThreadIndex (proto s) in
   if tid =? 0 then GetThreadAtIndex 0 l else FindThreadByID tid l) = Some t ->
  stop_reply s = Ok (createResponse (stop_text l t) (mAck (proto s)), s).
Proof.
  intros Hs Hl Ht. unfold stop_reply. rewrite (M_run_bind _ _ _ (mCurrentThreadIndex (proto s)) s) by done.
  enough (exists r, getStopReason (mCurrentThreadIndex (proto s)) h = Ok (r, h) /\
    encodeStopReason r = stop_text l t) as (r & E & <-)
    by (by rewrite (M_run_bind _ _ _ _ _ (debugger_read _ s h r Hs E))).
  cbn [getStopReason host_debugger]. unfold host_getStopReason.
  rewrite (M_run_bind _ _ _ (Some t) h)
    by (unfold find_thread; rewrite (process_run _ h l Hl); cbn zeta in Ht; by rewrite Ht).
  rewrite (M_run_bind _ _ _ _ _ (process_run _ h l Hl)). unfold stop_text.
  destruct (GetState l); try (by eexists);
    (rewrite (M_run_bind _ _ _ t h) by done; rewrite (M_run_bind _ _ _ _ _ (process_run _ h l Hl));
     destruct (GetStopReason t l); try (by eexists);
     rewrite (M_run_bind _ _ _ _ _ (process_run _ h l Hl)); by eexists).
Qed.

(** C21: continuing a program under LLDB.  [vCont;C] resumes the process,
    whatever the signal, and the reply tells the reason of the next stop: a signal with its number, a breakpoint as one, the end of the process
    as [W00] whatever its exit status, but also an exec, a thread that exits and
    the instrumentation stops as the end of the process. *)
Theorem continue_reply (s : session (HostDebugger L) F) h l t sig tid d1 d2 :
  is_hex d1 = true -> is_hex d2 = true -> sig_ok sig -> u64_ok tid ->
  active (server s) = Some h -> mTarget h = Some l ->
  (ResumeSynchronous (SetSelectedThreadByID tid l)).1 = true ->
  (let l' := (ResumeSynchronous (SetSelectedThreadByID tid l)).2 in
   let tid := mCurrentThreadIndex (proto s) in
   if tid =? 0 then GetThreadAtIndex 0 l' else FindThreadByID tid l') = Some t ->
  let l' := (ResumeSynchronous (SetSelectedThreadByID tid l)).2 in
  processPacket (command_packet (ContinueSignal sig tid) d1 d2) s =
  Ok (createResponse (stop_text l' t) (mAck (proto s)), with_active (set_target l' h) s).
Proof.
  intros Hx Hy Hsig Htid Hs Hl Hres Ht l'.
  rewrite command_spec by (done || by split). cbn [command_effect].
  assert (resume sig tid h = Ok (tt, set_target l' h)) as E.
  { cbn [resume host_debugger]. unfold host_resume.
    rewrite (M_run_bind _ _ _ tt (set_target (SetSelectedThreadByID tid l) h))
      by (unfold change_, change; by rewrite Hl).
    rewrite (M_run_bind _ _ _ true (set_target l' h)); [done |].
    unfold change, set_target at 1. cbn [mTarget]. subst l'.
    destruct (ResumeSynchronous _) as [b l'] eqn:E. cbn [fst snd] in *. by subst b. }
  rewrite (M_run_bind _ _ _ _ _ (debugger_run _ s h tt _ Hs E)).
  rewrite (stop_reply_host _ (set_target l' h) l' t); [done | | done | done].
  by apply (active_with_active _ h).
Qed.
End stopping.

(** ** Breakpoints *)

(** Breakpoints in LLDB: the address of every one that is set, by id. *)
Class Breakpoints (L T : Type) `{LLDB L T} := {
  breakpoints : L -> gmap Z Z;
  create_set a l : exists id, (CreateBreakpoint a l).1 = Some id /\ breakpoints l !! id = None /\
    breakpoints (CreateBreakpoint a l).2 = <[id := a]> (breakpoints l);
  remove_unset id l : breakpoints (RemoveBreakpointByID id l) = base.delete id (breakpoints l);
}.

Section breakpoint_sets.
Context {L T : Type} `{Breakpoints L T} `{Ctre} {F : Type} `{!GdbProtocol.Files F}.
Implicit Types (s : session (HostDebugger L) F) (h : HostDebugger L) (A : gset Z).

(** The addresses where the process stops. *)
Definition stops (l : L) (a : Z) : Prop := exists id, breakpoints l !! id = Some a.

(** The specification: a set of addresses. *)
Inductive breakpoint_request : Set :=
  | Insert (addr kind : Z)
  | Remove (addr kind : Z).
Definition request_set (A : gset Z) (r : breakpoint_request) : gset Z :=
  match r with Insert a _ => {[a]} ∪ A | Remove a _ => A ∖ {[a]} end.
Definition request_packet (r : breakpoint_request) (d : byte * byte) : bytes :=
  match r with
  | Insert a k => command_packet (InsertBreakpoint a k) d.1 d.2
  | Remove a k => command_packet (RemoveBreakpoint a k) d.1 d.2
  end.
Definition request_addr (r : breakpoint_request) : Z :=
  match r with Insert a _ | Remove a _ => a end.

(** The map of the debugger and the breakpoints of LLDB agree, and both are the
    set. *)
Record refines h A : Prop := {
  refines_target : is_Some (mTarget h);
  refines_map a : a ∈ A <-> is_Some (mBreakpoints h !! a);
  refines_lldb l id a : mTarget h = Some l ->
    breakpoints l !! id = Some a <-> mBreakpoints h !! a = Some id;
}.

Lemma refines_insert h A a :
  refines h A -> a ∉ A ->
  exists h', createSoftwareBreakpoint a h = Ok (tt, h') /\ refines h' ({[a]} ∪ A).
Proof.
  intros [[l Hl] Hmap Hb] Ha. destruct (create_set a l) as (id & Hid & Hnone & Hset).
  cbn [createSoftwareBreakpoint host_debugger]. unfold host_createSoftwareBreakpoint. rewrite Hl.
  destruct (CreateBreakpoint a l) as [bp l'] eqn:E. cbn [fst snd] in *. subst bp.
  rewrite (M_run_bind _ _ _ (Some id) (set_target l' h)) by (unfold change; by rewrite Hl, E).
  eexists. split; [done |]. split; [by eexists | |]; cbn [set_mBreakpoints set_target mBreakpoints mTarget].
  - intros b. rewrite lookup_insert_is_Some', elem_of_union, elem_of_singleton, Hmap.
    intuition congruence.
  - intros l2 id' b [= <-]. rewrite Hset. specialize (Hb l).
    destruct (decide (id' = id)) as [-> | Hne], (decide (b = a)) as [-> | Hna];
      rewrite ?lookup_insert_eq, ?lookup_insert_ne by done; [done | | | by apply Hb].
    + split; [congruence |]. intros Hid'. apply Hb in Hid'; [congruence | done].
    + split; [| congruence]. intros Hi%Hb; [| done]. destruct Ha. apply Hmap. by eexists.
Qed.

Lemma refines_remove h A a :
  refines h A -> exists h', removeSoftwareBreakpoint a h = Ok (tt, h') /\ refines h' (A ∖ {[a]}).
Proof.
  intros [[l Hl] Hmap Hb]. cbn [removeSoftwareBreakpoint host_debugger].
  unfold host_removeSoftwareBreakpoint. rewrite Hl.
  destruct (mBreakpoints h !! a) as [id|] eqn:Ha.
  - rewrite (M_run_bind _ _ _ tt (set_target (RemoveBreakpointByID id l) h))
      by (unfold change_, change; by rewrite Hl).
    eexists. split; [done |]. split; [by eexists | |];
      cbn [set_mBreakpoints set_target mBreakpoints mTarget].
    + intros b. rewrite elem_of_difference, elem_of_singleton, Hmap, lookup_delete_is_Some.
      intuition congruence.
    + intros l2 id' b [= <-]. rewrite remove_unset. specialize (Hb l).
      destruct (decide (id' = id)) as [-> | Hne].
      * rewrite lookup_delete_eq. split; [done |].
        intros [Hab Hi]%lookup_delete_Some. apply Hb in Hi; [| done]. apply Hb in Ha; [| done]. congruence.
      * rewrite lookup_delete_ne by done. rewrite Hb by done. rewrite lookup_delete_Some.
        split; [| tauto]. intros Hi. split; [congruence | done].
  - exists h. split; [done |]. split; [by exists l | | done].
    intros b. rewrite elem_of_difference, elem_of_singleton, Hmap. split; [tauto |].
    intros Hi. split; [done |]. intros ->. rewrite Ha in Hi. by destruct Hi.
Qed.

(** Serving one request. *)
Lemma refines_request s h A r d :
  active (server s) = Some h -> refines h A -> (match r with Insert a _ => a ∉ A | _ => True end) ->
  u64_ok (request_addr r) -> is_hex d.1 = true -> is_hex d.2 = true ->
  exists h', processPacket (request_packet r d) s =
      Ok (createResponse #"OK" (mAck (proto s)), with_active h' s) /\ refines h' (request_set A r).
Proof.
  intros Hs Hr Hnew Hu Hx Hy. destruct r as [a k | a k]; cbn [request_packet request_set].
  - destruct (refines_insert h A a Hr Hnew) as (h' & E & Hr'). exists h'. split; [| done].
    rewrite command_spec by done. cbn [command_effect].
    by rewrite (M_run_bind _ _ _ _ _ (debugger_run _ s h tt _ Hs E)).
  - destruct (refines_remove h A a Hr) as (h' & E & Hr'). exists h'. split; [| done].
    rewrite command_spec by done. cbn [command_effect].
    by rewrite (M_run_bind _ _ _ _ _ (debugger_run _ s h tt _ Hs E)).
Qed.

(** A client that does not insert a breakpoint where one is inserted. *)
Fixpoint orderly A (rs : list breakpoint_request) : Prop :=
  match rs with
  | [] => True
  | r :: rs => (match r with Insert a _ => a ∉ A | _ => True end) /\ orderly (request_set A r) rs
  end.

(** The packets served in order: the replies, and the state left. *)
Fixpoint serve (packets : list bytes) : M (session (HostDebugger L) F) (list bytes) :=
  match packets with
  | [] => mret []
  | p :: packets => r ← processPacket p; rest ← serve packets; mret (r :: rest)
  end.

(** C7: breakpoints refine a set of addresses.  Served from a state where the
    debugger's map and LLDB's breakpoints are the set [A], the [Z] and [z]
    packets of a client that does not insert a breakpoint twice are all
    answered OK, and afterwards the process stops at exactly the addresses of
    the set the requests leave. *)
Theorem breakpoints_refine (s : session (HostDebugger L) F) h A (rs : list (breakpoint_request * (byte * byte))) :
  active (server s) = Some h -> refines h A -> orderly A (map fst rs) ->
  Forall (fun r => u64_ok (request_addr r.1) /\ is_hex r.2.1 = true /\ is_hex r.2.2 = true) rs ->
  exists s' h' l', serve (map (fun r => request_packet r.1 r.2) rs) s =
      Ok (map (fun _ => createResponse #"OK" (mAck (proto s))) rs, s') /\
    active (server s') = Some h' /\ refines h' (foldl request_set A (map fst rs)) /\
    mTarget h' = Some l' /\ forall a, stops l' a <-> a ∈ foldl request_set A (map fst rs).
Proof.
  intros Hs Hr Ho Hf. revert s h A Hs Hr Ho. induction Hf as [|[r d] rs (Hu & Hx & Hy) Hf IH];
    intros s h A Hs Hr Ho.
  - destruct Hr as [[l Hl] Hmap Hb] eqn:Er. exists s, h, l. split; [done |]. split; [done |].
    split; [done |]. split; [done |]. intros a. cbn. rewrite Hmap. unfold stops.
    split; intros [id Hid]; exists id; by apply (Hb l).
  - destruct Ho as [Hnew Ho]. cbn [map fst] in *.
    destruct (refines_request s h A r d Hs Hr Hnew Hu Hx Hy) as (h1 & E1 & Hr1).
    destruct (IH (with_active h1 s) h1 (request_set A r)) as (s' & h' & l' & E & Hs' & Hrest);
      [by apply (active_with_active _ h) | done | done |].
    exists s', h', l'. split; [| by split].
    cbn [serve snd]. rewrite (M_run_bind _ _ _ _ _ E1). by rewrite (M_run_bind _ _ _ _ _ E).
Qed.

(** A breakpoint that is inserted twice stays: the map keeps the id of the
    second one only, so that after it has been removed the process still stops
    at the address, and no later request can change that. *)
Theorem double_insert_stays h A a :
  refines h A -> a ∉ A ->
  exists h' l', (_ ← createSoftwareBreakpoint a; _ ← createSoftwareBreakpoint a;
                 removeSoftwareBreakpoint a) h = Ok (tt, h') /\
    mTarget h' = Some l' /\ stops l' a /\ mBreakpoints h' !! a = None /\
    removeSoftwareBreakpoint a h' = Ok (tt, h').
Proof.
  intros Hr Ha. destruct (refines_insert h A a Hr Ha) as (h1 & E1 & [[l1 Hl1] Hmap1 Hb1]).
  rewrite (M_run_bind _ _ _ _ _ E1).
  assert (is_Some (mBreakpoints h1 !! a)) as [id Hid]
    by (apply Hmap1, elem_of_union_l; by apply elem_of_singleton).
  destruct (create_set a l1) as (id' & Hid' & Hnone & Hset).
  destruct (CreateBreakpoint a l1) as [bp l2] eqn:E. cbn [fst snd] in *. subst bp.
  set (h2 := set_mBreakpoints (<[a := id']> (mBreakpoints h1)) (set_target l2 h1)).
  assert (createSoftwareBreakpoint a h1 = Ok (tt, h2)) as E2.
  { cbn [createSoftwareBreakpoint host_debugger]. unfold host_createSoftwareBreakpoint. rewrite Hl1.
    rewrite (M_run_bind _ _ _ (Some id') (set_target l2 h1)) by (unfold change; by rewrite Hl1, E). done. }
  rewrite (M_run_bind _ _ _ _ _ E2).
  set (l3 := RemoveBreakpointByID id' l2).
  set (h3 := set_mBreakpoints (base.delete a (mBreakpoints h2)) (set_target l3 h2)).
  assert (removeSoftwareBreakpoint a h2 = Ok (tt, h3)) as E3.
  { cbn [removeSoftwareBreakpoint host_debugger]. unfold host_removeSoftwareBreakpoint.
    change (mTarget h2) with (Some l2). change (mBreakpoints h2) with (<[a := id']> (mBreakpoints h1)).
    rewrite lookup_insert_eq. done. }
  exists h3, l3. split; [exact E3 |]. split; [done |]. split; [| split].
  - exists id. subst l3. rewrite remove_unset, Hset. apply (Hb1 l1) in Hid; [| done].
    rewrite lookup_delete_ne by congruence. by rewrite lookup_insert_ne by congruence.
  - apply lookup_delete_eq.
  - cbn [removeSoftwareBreakpoint host_debugger]. unfold host_removeSoftwareBreakpoint.
    change (mTarget h3) with (Some l3).
    change (mBreakpoints h3) with (base.delete a (mBreakpoints h2)). by rewrite lookup_delete_eq.
Qed.
End breakpoint_sets.

(** ** At the concrete process *)

#[local] Program Instance sample_breakpoints : Breakpoints lldb unit := {| breakpoints := l_breakpoints |}.
Next Obligation.
  intros a l. exists (next_id (l_breakpoints l)). split; [done |]. split; [apply next_id_fresh | done].
Qed.
Next Obligation. done. Qed.

Lemma sample_refines : refines sample_host ∅.
Proof.
  split.
  - by eexists.
  - intros a. cbn. rewrite lookup_empty. split; [by intros ?%not_elem_of_empty | by intros []].
  - intros l id a [= <-]. cbn. by rewrite !lookup_empty.
Qed.

Lemma wait_runs_forever_witness : exists h', wait_loop 5 sample_host = Ok (None, h').
Proof.
  destruct (wait_runs_forever sample_host 5) as (h' & E & _); [discriminate |]. by exists h'.
Defined.

Lemma continue_reply_witness :
  processPacket (command_packet (ContinueSignal 9 7) "0"%byte "0"%byte) host_session =
  Ok (createResponse #"S0b" true, with_active sample_host host_session).
Proof.
  refine (eq_trans (continue_reply host_session sample_host sample_process tt 9 7 "0"%byte "0"%byte
    eq_refl eq_refl _ _ eq_refl eq_refl _ _) _).
  - unfold sig_ok. lia.
  - unfold u64_ok. lia.
  - reflexivity.
  - reflexivity.
  - reflexivity.
Defined.

Definition sample_requests : list (breakpoint_request * (byte * byte)) :=
  [(Insert 4096 1, ("0"%byte, "0"%byte)); (Insert 8192 1, ("0"%byte, "0"%byte));
   (Remove 4096 1, ("0"%byte, "0"%byte))].

Lemma breakpoints_refine_witness : exists s' l',
  serve (map (fun r => request_packet r.1 r.2) sample_requests) host_session =
    Ok (replicate 3 (createResponse #"OK" true), s') /\
  (exists h', active (server s') = Some h' /\ mTarget h' = Some l') /\
  forall a, stops l' a <-> a = 8192.
Proof.
  destruct (breakpoints_refine host_session sample_host ∅ sample_requests) as (s' & h' & l' & E & Hs & _ & Hl & Hst).
  - reflexivity.
  - exact sample_refines.
  - cbn. repeat split; apply (bool_decide_unpack _); vm_compute; exact I.
  - repeat constructor; unfold u64_ok; cbn; lia.
  - exists s', l'. split; [exact E |]. split; [exists h'; exact (conj Hs Hl) |].
    intros a. rewrite Hst.
    assert (foldl request_set ∅ (map fst sample_requests) = {[8192]}) as ->
      by (apply (bool_decide_unpack _); vm_compute; exact I).
    apply elem_of_singleton.
Defined.

Lemma double_insert_stays_witness :
  exists h' l', (_ ← createSoftwareBreakpoint 4096; _ ← createSoftwareBreakpoint 4096;
                 removeSoftwareBreakpoint 4096) sample_host = Ok (tt, h') /\
    mTarget h' = Some l' /\ stops l' 4096.
Proof.
  destruct (double_insert_stays sample_host ∅ 4096 sample_refines) as (h' & l' & E & Hl & Hst & _);
    [apply not_elem_of_empty |].
  exists h', l'. exact (conj E (conj Hl Hst)).
Defined.
