(* ===== verification/Printer.v ===== *)
(** * Printer: the command print

    src/print.cpp and src/pretty_printers.hpp: what [print] writes about the
    images and the records of a trace.  Standard output is one text, whichever
    of [fmt::print] and [std::cout] writes to it. *)

From stdpp Require Import sorting.
From S2P Require Import Prelude Streams Trace Images Options Files.

(** ** Formatting *)

Definition spaces (n : nat) : bytes := replicate n " "%byte.
(** [{:>w}], which is also [{:w}] of a number; [{:<w}]; [{:^w}]. *)
Definition right_aligned (w : nat) (s : bytes) : bytes := spaces (w - length s) ++ s.
Definition left_aligned (w : nat) (s : bytes) : bytes := s ++ spaces (w - length s).
Definition centered (w : nat) (s : bytes) : bytes :=
  let pad := (w - length s)%nat in spaces (pad / 2) ++ s ++ spaces (pad - pad / 2).

(** [{}] of a signed integer, and [{:x}] of an unsigned one. *)
Definition decimal (z : Z) : bytes :=
  if z <? 0 then #"-" ++ to_string (- z) else to_string z.
Fixpoint hex_digits (fuel : nat) (n : Z) (acc : bytes) : bytes :=
  match fuel with
  | O => acc
  | S fuel =>
      let d := n mod 16 in
      let acc := z2b (if d <? 10 then 48 + d else 87 + d) :: acc in
      if n <? 16 then acc else hex_digits fuel (n / 16) acc
  end.
Definition hexadecimal (n : Z) : bytes := hex_digits (S (Z.to_nat (Z.log2 n))) n [].
Definition line (l : list bytes) : bytes := concat l ++ [x0a].

(** ** Values of the plugin interface (src/pretty_printers.hpp) *)

(** The enumerators and masks of pi.h, and the names of pi.def. *)
Class PiNames := {
  api_name : Z -> option bytes;
  PI_QUEUE_OUT_OF_ORDER_EXEC_MODE_ENABLE : Z;
  PI_QUEUE_PROFILING_ENABLE : Z;
  PI_QUEUE_ON_DEVICE : Z;
  PI_QUEUE_ON_DEVICE_DEFAULT : Z;
  PI_MEM_FLAGS_ACCESS_RW : Z;
  PI_MEM_FLAGS_HOST_PTR_USE : Z;
  PI_MEM_FLAGS_HOST_PTR_COPY : Z;
  PI_MEM_FLAGS_HOST_PTR_ALLOC : Z;
  PI_MAP_READ : Z;
  PI_MAP_WRITE : Z;
  PI_MAP_WRITE_INVALIDATE_REGION : Z;
  PI_DEVICE_BINARY_TYPE_NONE : Z;
  PI_DEVICE_BINARY_TYPE_NATIVE : Z;
  PI_DEVICE_BINARY_TYPE_SPIRV : Z;
  PI_DEVICE_BINARY_TYPE_LLVMIR_BITCODE : Z;
  PI_PROPERTY_TYPE_UNKNOWN : Z;
  PI_PROPERTY_TYPE_UINT32 : Z;
  PI_PROPERTY_TYPE_BYTE_ARRAY : Z;
  PI_PROPERTY_TYPE_STRING : Z;
}.

Fixpoint join (values : list bytes) : bytes :=
  match values with
  | [] => []
  | [v] => v
  | v :: values => v ++ #" | " ++ join values
  end.

(** The names of the set bits. *)
Definition flag_names (bitfield : Z) (flags : list (Z * bytes)) : list bytes :=
  (if bitfield =? 0 then [ #"NONE"] else []) ++
  map snd (base.filter (fun f => Z.land bitfield f.1 <> 0) flags).
Definition print_flags (type : bytes) (bitfield : Z) (flags : list (Z * bytes)) : bytes :=
  line [right_aligned 15 type; #" : 0x"; hexadecimal bitfield; #" (";
        join (flag_names bitfield flags); #")"].

Section printer.
Context `{PiNames}.

Definition queue_flags : list (Z * bytes) :=
  [(PI_QUEUE_OUT_OF_ORDER_EXEC_MODE_ENABLE, #"PI_QUEUE_OUT_OF_ORDER_EXEC_MODE_ENABLE");
   (PI_QUEUE_PROFILING_ENABLE, #"PI_QUEUE_PROFILING_ENABLE");
   (PI_QUEUE_ON_DEVICE, #"PI_QUEUE_ON_DEVICE");
   (PI_QUEUE_ON_DEVICE_DEFAULT, #"PI_QUEUE_ON_DEVICE_DEFAULT")].
Definition mem_flags : list (Z * bytes) :=
  [(PI_MEM_FLAGS_ACCESS_RW, #"PI_MEM_FLAGS_ACCESS_RW");
   (PI_MEM_FLAGS_HOST_PTR_USE, #"PI_MEM_FLAGS_HOST_PTR_USE");
   (PI_MEM_FLAGS_HOST_PTR_COPY, #"PI_MEM_FLAGS_HOST_PTR_COPY");
   (PI_MEM_FLAGS_HOST_PTR_ALLOC, #"PI_MEM_FLAGS_HOST_PTR_ALLOC")].
Definition map_flags : list (Z * bytes) :=
  [(PI_MAP_READ, #"PI_MAP_READ"); (PI_MAP_WRITE, #"PI_MAP_WRITE");
   (PI_MAP_WRITE_INVALIDATE_REGION, #"PI_MAP_WRITE_INVALIDATE_REGION")].

Definition printQueueProperties (bitfield : Z) : bytes :=
  print_flags #"<pi_queue_properties>" bitfield queue_flags.
Definition printMemFlags (bitfield : Z) : bytes := print_flags #"<pi_mem_flags>" bitfield mem_flags.
Definition printMapFlags (bitfield : Z) : bytes := print_flags #"<pi_map_flags>" bitfield map_flags.

(** [pi_queue_info] and [pi_platform_info]: the enumerators the code names, and
    the others. *)
Inductive pi_queue_info : Set :=
  | PI_QUEUE_INFO_CONTEXT | PI_QUEUE_INFO_DEVICE | PI_QUEUE_INFO_DEVICE_DEFAULT
  | PI_QUEUE_INFO_PROPERTIES | PI_QUEUE_INFO_REFERENCE_COUNT | PI_QUEUE_INFO_SIZE
  | queue_info_other.
Inductive pi_platform_info : Set :=
  | PI_PLATFORM_INFO_EXTENSIONS | PI_PLATFORM_INFO_NAME | PI_PLATFORM_INFO_PROFILE
  | PI_PLATFORM_INFO_VENDOR | PI_PLATFORM_INFO_VERSION | platform_info_other.

(** The specialisations of [printFormatted]. *)
Definition printFormatted_queue_info (info : pi_queue_info) : bytes :=
  line [right_aligned 15 #"<pi_queue_info>"; #" : ";
        match info with
        | PI_QUEUE_INFO_CONTEXT => #"PI_QUEUE_INFO_CONTEXT"
        | PI_QUEUE_INFO_DEVICE => #"PI_QUEUE_INFO_DEVICE"
        | PI_QUEUE_INFO_DEVICE_DEFAULT => #"PI_QUEUE_INFO_DEVICE_DEFAULT"
        | PI_QUEUE_INFO_PROPERTIES => #"PI_QUEUE_INFO_PROPERTIES"
        | PI_QUEUE_INFO_REFERENCE_COUNT => #"PI_QUEUE_INFO_REFERENCE_COUNT"
        | PI_QUEUE_INFO_SIZE => #"PI_QUEUE_INFO_SIZE"
        | queue_info_other => #"UNKNOWN"
        end].
Definition printFormatted_platform_info (info : pi_platform_info) : bytes :=
  line [right_aligned 15 #"<pi_platform_info>"; #" : ";
        match info with
        | PI_PLATFORM_INFO_EXTENSIONS => #"PI_PLATFORM_INFO_EXTENSIONS"
        | PI_PLATFORM_INFO_NAME => #"PI_PLATFORM_INFO_NAME"
        | PI_PLATFORM_INFO_PROFILE => #"PI_PLATFORM_INFO_PROFILE"
        | PI_PLATFORM_INFO_VENDOR => #"PI_PLATFORM_INFO_VENDOR"
        | PI_PLATFORM_INFO_VERSION => #"PI_PLATFORM_INFO_VERSION"
        | platform_info_other => #"UNKNOWN"
        end].
Definition printFormatted (value : Z) : bytes :=
  line [right_aligned 15 #"<unknown>"; #" : 0x"; hexadecimal value].

(** [PrintHelper]: a row of typed arguments, printed by function and by the
    number of arguments that follow. *)
Inductive print_kind : Set :=
  | piMemBufferCreate | piMemImageCreate | piMemBufferPartition | piQueueCreate
  | piEnqueueMemBufferMap | other_function.
#[global] Instance print_kind_eq_dec : EqDecision print_kind.
Proof. solve_decision. Defined.
Inductive print_arg : Set :=
  | queue_info_arg (info : pi_queue_info)
  | platform_info_arg (info : pi_platform_info)
  | value_arg (value : Z).
Definition print_formatted (arg : print_arg) : bytes :=
  match arg with
  | queue_info_arg info => printFormatted_queue_info info
  | platform_info_arg info => printFormatted_platform_info info
  | value_arg value => printFormatted value
  end.
Definition PrintHelper_one (kind : print_kind) (rest : nat) (arg : print_arg) : bytes :=
  match arg with
  | value_arg value =>
      if bool_decide (kind = piMemBufferCreate) && (rest =? 4)%nat then printMemFlags value
      else if bool_decide (kind = piMemImageCreate) && (rest =? 4)%nat then printMemFlags value
      else if bool_decide (kind = piMemBufferPartition) && (rest =? 3)%nat then printMemFlags value
      else if bool_decide (kind = piQueueCreate) && (rest =? 1)%nat then printQueueProperties value
      else if bool_decide (kind = piEnqueueMemBufferMap) && (rest =? 6)%nat
      then printQueueProperties value
      else printFormatted value
  | arg => print_formatted arg
  end.
Fixpoint PrintHelper (kind : print_kind) (args : list print_arg) : bytes :=
  match args with
  | [] => []
  | arg :: args => PrintHelper_one kind (length args) arg ++ PrintHelper kind args
  end.

Definition printArg (arg : ArgData.t) : bytes :=
  let int_val := match ArgData.data arg with ArgData.int_val z => z | _ => 0 end in
  let str_val := match ArgData.data arg with ArgData.str_val s => s | _ => [] end in
  match ArgData.type arg with
  | ArgData.INT32 => line [right_aligned 20 #"<unknown>"; #" : "; decimal (i32 (i64 int_val))]
  | ArgData.INT64 => line [right_aligned 20 #"<unknown>"; #" : "; decimal (i64 int_val)]
  | ArgData.UINT32 => line [right_aligned 20 #"<unknown>"; #" : "; decimal (u32 int_val)]
  | ArgData.UINT64 => line [right_aligned 20 #"<unknown>"; #" : "; decimal int_val]
  | ArgData.POINTER => line [right_aligned 20 #"<unknown ptr>"; #" : 0x"; hexadecimal int_val]
  | ArgData.STRING => line [right_aligned 20 #"<string>"; #" : "; str_val]
  end.
Definition printArgs (args : list ArgData.t) : bytes := args ≫= printArg.

(** ** Records (src/print.cpp) *)

Definition getAPIName (id : Z) : bytes :=
  match api_name id with Some name => name | None => #"UNKNOWN ID : " ++ to_string id end.

(** A record with the name of its thread. *)
Definition RecordT : Type := bytes * APICall.
Definition duration (c : APICall) : Z := u64 (time_end c - time_start c).

Definition field (name value : bytes) : list bytes := [left_aligned 18 name; #" : "; value].
Definition printRecord (r : RecordT) (verbose : bool) : bytes :=
  (if verbose then
     line [] ++ line [ #">~~~~~~~~~~~~~~~~~~~~~~~~~~~~~~~~~~~"] ++ line [] ++
     line (field #"Thread ID" r.1) ++
     line (field #"Call duration" (to_string (duration r.2))) ++
     line (field #"Captured outputs"
             (to_string (Z.of_nat (length (small_outputs r.2) + length (mem_obj_outputs r.2))))) ++
     line []
   else []) ++
  line [ #"----> "; getAPIName (function_id r.2); #"("] ++
  printArgs (Trace.args r.2) ++
  line [ #") : "; to_string (return_value r.2)] ++
  (if verbose then line [] ++ line [ #"<~~~~~~~~~~~~~~~~~~~~~~~~~~~~~~~~~~~"] else []).

(** ** The performance summary *)

Record PerformanceSummary := {
  totalCalls : Z;
  maxDuration : Z;
  minDuration : Z;
  totalDuration : Z;
}.
(** [PerformanceSummary{}] *)
Definition new_summary : PerformanceSummary :=
  {| totalCalls := 0; maxDuration := 0; minDuration := 2 ^ 64 - 1; totalDuration := 0 |}.

Definition collectPerf (perfMap : gmap Z PerformanceSummary) (r : RecordT)
    : gmap Z PerformanceSummary :=
  let ps := default new_summary (perfMap !! function_id r.2) in
  let d := duration r.2 in
  <[function_id r.2 := {| totalCalls := u64 (totalCalls ps + 1);
                          maxDuration := Z.max (maxDuration ps) d;
                          minDuration := Z.min (minDuration ps) d;
                          totalDuration := u64 (totalDuration ps + d) |}]> perfMap.

Definition id_le (p q : Z * PerformanceSummary) : Prop := p.1 <= q.1.
#[global] Instance id_le_dec : RelDecision id_le := fun p q => Z.le_dec p.1 q.1.

Definition summary_line (p : Z * PerformanceSummary) : outcome bytes :=
  let ps := p.2 in
  if totalCalls ps =? 0 then UB (* division by zero *)
  else Ok (line
    [right_aligned 35 (getAPIName p.1); #" | "; right_aligned 15 (to_string (totalCalls ps));
     #" | "; right_aligned 13 (to_string (minDuration ps)); #"us | ";
     right_aligned 13 (to_string (maxDuration ps)); #"us | ";
     right_aligned 13 (to_string (totalDuration ps / totalCalls ps)); #"us |"]).

(** A [std::map] is visited in the order of its keys. *)
Definition printPerformanceSummary (perfMap : gmap Z PerformanceSummary) : outcome bytes :=
  lines ← mapM summary_line (merge_sort id_le (map_to_list perfMap));
  Ok (line [ #"Performance summary:"] ++
      line [right_aligned 35 #" "; #" | "; centered 15 #"Calls"; #" | "; centered 15 #"Min time";
            #" | "; centered 15 #"Max time"; #" | "; centered 15 #"Avg time"; #" |"] ++
      concat lines).

(** ** Images *)

Definition indented (n : nat) (name value : bytes) : bytes :=
  line [right_aligned n #" "; name; #": "; value].

Definition print_property (prop : Property) : bytes :=
  indented 10 #"Name" (p_name prop) ++
  indented 10 #"Size" (to_string (Z.of_nat (length (p_data prop)))) ++
  let type := u32 (p_type prop) in
  if type =? PI_PROPERTY_TYPE_UNKNOWN then indented 10 #"Type" #"UNKNOWN"
  else if type =? PI_PROPERTY_TYPE_UINT32 then indented 10 #"Type" #"uint32"
  else if type =? PI_PROPERTY_TYPE_BYTE_ARRAY then indented 10 #"Type" #"byte array"
  else if type =? PI_PROPERTY_TYPE_STRING then
    indented 10 #"Type" #"string" ++ indented 10 #"Value" (p_data prop)
  else [].

Definition print_entry (entry : OffloadEntry) : bytes :=
  indented 5 #"Address" (to_string (address entry)) ++ indented 5 #"Name" (name entry) ++
  indented 5 #"Size" (to_string (size entry)).

Definition print_set (propSet : PropertySet) : bytes :=
  indented 5 #"Name" (s_name propSet) ++
  line [right_aligned 5 #" "; #"Properties [";
        to_string (Z.of_nat (length (properties propSet))); #"]:"] ++
  (properties propSet ≫= print_property).

Definition print_binary (path : bytes) (binary : DeviceBinary) : bytes :=
  line [ #"Image desc: "; path] ++
  line [ #"Version: "; to_string (version binary)] ++
  line [ #"Kind: "; to_string (kind binary)] ++
  (let format := u8 (format binary) in
   if format =? PI_DEVICE_BINARY_TYPE_SPIRV then line [ #"Format: SPIR-V"]
   else if format =? PI_DEVICE_BINARY_TYPE_NATIVE then line [ #"Format: Native"]
   else if format =? PI_DEVICE_BINARY_TYPE_LLVMIR_BITCODE then line [ #"Format: LLVM IR Bitcode"]
   else if format =? PI_DEVICE_BINARY_TYPE_NONE then line [ #"Format: None"]
   else []) ++
  line [ #"Device target: "; device_target_spec binary] ++
  line [ #"Compile options: "; compile_options binary] ++
  line [ #"Link options: "; link_options binary] ++
  line [ #"Offload entries ["; to_string (Z.of_nat (length (offload_entries binary))); #"]:"] ++
  (offload_entries binary ≫= print_entry) ++
  line [ #"Property sets ["; to_string (Z.of_nat (length (property_sets binary))); #"]:"] ++
  (property_sets binary ≫= print_set) ++
  line [].

(** ** The command *)

(** [directory_iterator]: the paths of the entries, in an order that is the file
    system's, and [std::sort]. *)
Class Listing := {
  directory : filesystem -> bytes -> list bytes;
  sort : list RecordT -> list RecordT;
}.
Definition starts_before (a b : RecordT) : Prop := time_start a.2 <= time_start b.2.
Class LawfulSort `{Listing} := {
  sort_permutation l : sort l ≡ₚ l;
  sort_sorted l : Sorted starts_before (sort l);
}.

(** [path::extension] *)
Definition extension (p : bytes) : bytes :=
  let f := filename p in
  if bool_decide (f = #"." \/ f = #"..") then []
  else match split_at "."%byte (rev f) with
       | Some (a, _ :: _) => "."%byte :: rev a
       | _ => []
       end.

Context `{Listing, Protobuf APICall, Protobuf DeviceBinary}.

Definition printImageDesc (uninit : bytes) (path : bytes) (fs : filesystem) : outcome bytes :=
  binary ← read_descriptor uninit (read_file fs path); Ok (print_binary path binary).

Fixpoint print_images (uninit : bytes) (entries : list bytes) (fs : filesystem) : outcome bytes :=
  match entries with
  | [] => Ok []
  | de :: entries =>
      text ← (if bool_decide (extension de = #".desc") then printImageDesc uninit de fs else Ok []);
      rest ← print_images uninit entries fs;
      Ok (text ++ rest)
  end.

(** The second loop over the directory; [None] is running out of fuel. *)
Fixpoint collect_records (fuel : nat) (uninit : nat -> bytes) (entries : list bytes) (fs : filesystem)
    : option (outcome (list RecordT)) :=
  match entries with
  | [] => Some (Ok [])
  | de :: entries =>
      if bool_decide (extension de = kPiTraceExt) then
        match parseTraceFile fuel uninit (stem de) (read_file fs de) with
        | Some (Ok records) => mapped (app records) (collect_records fuel uninit entries fs)
        | r => r
        end
      else collect_records fuel uninit entries fs
  end.

Definition end_thread (t : bytes) : bytes := line [ #"~END THREAD : "; t] ++ [x0a].
Definition start_thread (t : bytes) : bytes := line [ #"~START THREAD : "; t] ++ [x0a].

(** The loop over the records grouped by thread, from [lastThread] on: the text
    and the last thread. *)
Fixpoint print_threads (verbose : bool) (lastThread : bytes) (records : list RecordT)
    : bytes * bytes :=
  match records with
  | [] => ([], lastThread)
  | r :: records =>
      let head :=
        if bool_decide (lastThread <> r.1) then
          (match lastThread with [] => [] | _ => end_thread lastThread end) ++ start_thread r.1
        else [] in
      let '(text, last) := print_threads verbose r.1 records in
      (head ++ printRecord r verbose ++ text, last)
  end.

Definition print_summary (o : options) (records : list RecordT) : outcome bytes :=
  if mPrintPerformanceSummary o
  then printPerformanceSummary (foldl collectPerf ∅ records) else Ok [].

Definition print_records (o : options) (records : list RecordT) : outcome bytes :=
  match mPringGroup o with
  | group_thread =>
      let '(text, lastThread) := print_threads (mVerbose o) [] records in
      perf ← print_summary o records;
      Ok (text ++ perf ++ end_thread lastThread)
  | _ =>
      let records := sort records in
      let text := records ≫= (fun r => line [ #"THREAD : "; r.1] ++ printRecord r (mVerbose o)) in
      perf ← print_summary o records;
      Ok (text ++ perf)
  end.

(** [uninit] is what the uninitialised sizes hold. *)
Definition printTrace (fuel : nat) (uninit_image : bytes) (uninit : nat -> bytes) (o : options)
    (fs : filesystem) : option (outcome bytes) :=
  if negb (exists_ fs (input o)) then Some (Exit (-1))
  else if negb (is_directory fs (input o)) then Some (Exit (-1))
  else
    let entries := directory fs (input o) in
    match print_images uninit_image entries fs with
    | Ok images =>
        match collect_records fuel uninit entries fs with
        | Some (Ok records) =>
            Some (text ← print_records o records;
                  Ok (line [ #"Binary images:"] ++ [x0a] ++ images ++
                      line [ #"------------------------------------------"] ++ text))
        | Some (Throw w) => Some (Throw w)
        | Some _ => Some UB
        | None => None
        end
    | Throw w => Some (Throw w)
    | _ => Some UB
    end.
End printer.
