(* ===== verification/PrintProps.v ===== *)
(** * PrintProps: what print shows of a recorded trace *)

From stdpp Require Import sorting.
From S2P Require Import Prelude Streams Trace PiCall Images Recorder Sample Options Files Printer.

Section printing.
Context `{PiNames}.

(** ** The performance summary *)

Definition calls_of (id : Z) (records : list RecordT) : list RecordT :=
  base.filter (fun r => function_id r.2 = id) records.
(** The summary of the calls [rs] of one function. *)
Definition summary_of (rs : list RecordT) : PerformanceSummary :=
  let ds := map (fun r => duration r.2) rs in
  {| totalCalls := u64 (Z.of_nat (length rs)); maxDuration := foldl Z.max 0 ds;
     minDuration := foldl Z.min (2 ^ 64 - 1) ds; totalDuration := u64 (foldl Z.add 0 ds) |}.

Lemma summary_of_snoc rs r :
  summary_of (rs ++ [r]) =
  let ps := summary_of rs in let d := duration r.2 in
  {| totalCalls := u64 (totalCalls ps + 1); maxDuration := Z.max (maxDuration ps) d;
     minDuration := Z.min (minDuration ps) d; totalDuration := u64 (totalDuration ps + d) |}.
Proof.
  unfold summary_of. cbn zeta. cbn [totalCalls maxDuration minDuration totalDuration].
  rewrite map_app, !foldl_app, length_app. cbn [map foldl length].
  rewrite !wrap_add_l. f_equal. f_equal. lia.
Qed.

Lemma calls_of_snoc id records r :
  calls_of id (records ++ [r]) =
  calls_of id records ++ (if bool_decide (function_id r.2 = id) then [r] else []).
Proof.
  unfold calls_of. rewrite list.filter_app, list.filter_cons, list.filter_nil.
  case_decide; [by rewrite bool_decide_eq_true_2 | by rewrite bool_decide_eq_false_2].
Qed.

Lemma collectPerf_summary records id :
  foldl collectPerf ∅ records !! id =
  match calls_of id records with [] => None | rs => Some (summary_of rs) end.
Proof.
  induction records as [|r records IH] using rev_ind; [done |].
  rewrite foldl_app, calls_of_snoc. cbn [foldl]. unfold collectPerf at 1. case_bool_decide as Hid.
  - subst id. rewrite lookup_insert_eq, IH.
    assert (forall (l : list RecordT) (x : RecordT), match l ++ [x] with [] => None | rs => Some (summary_of rs) end
      = Some (summary_of (l ++ [x]))) as -> by (intros l x; destruct l; reflexivity).
    rewrite summary_of_snoc. by destruct (calls_of _ records).
  - rewrite lookup_insert_ne by done. by rewrite app_nil_r, IH.
Qed.

Definition summary_text (id : Z) (ps : PerformanceSummary) : bytes :=
  line [right_aligned 35 (getAPIName id); #" | "; right_aligned 15 (to_string (totalCalls ps));
     #" | "; right_aligned 13 (to_string (minDuration ps)); #"us | ";
     right_aligned 13 (to_string (maxDuration ps)); #"us | ";
     right_aligned 13 (to_string (totalDuration ps / totalCalls ps)); #"us |"].
Definition summary_head : bytes :=
  line [ #"Performance summary:"] ++
  line [right_aligned 35 #" "; #" | "; centered 15 #"Calls"; #" | "; centered 15 #"Min time";
        #" | "; centered 15 #"Max time"; #" | "; centered 15 #"Avg time"; #" |"].

Lemma summary_lines (l : list (Z * PerformanceSummary)) :
  Forall (fun p => totalCalls p.2 <> 0) l ->
  mapM summary_line l = Ok (map (fun p => summary_text p.1 p.2) l).
Proof.
  induction 1 as [|p l Hp Hl IH]; [done |]. cbn [mapM map].
  assert (summary_line p = Ok (summary_text p.1 p.2)) as ->.
  { unfold summary_line. by destruct (Z.eqb_spec (totalCalls p.2) 0). }
  cbn [mbind outcome_mbind outcome_bind]. by rewrite IH.
Qed.

(** C12: the performance summary.  For fewer than 2^64 records the table is
    printed: one line for each function that was called, in ascending order of
    the ids, with the number of its calls, the least and the greatest duration,
    and the sum of the durations (modulo 2^64) divided by the number. *)
Theorem performance_summary (records : list RecordT) :
  Z.of_nat (length records) < 2 ^ 64 ->
  exists ids, Sorted Z.lt ids /\
    (forall id, id ∈ ids <-> exists r, r ∈ records /\ function_id r.2 = id) /\
    printPerformanceSummary (foldl collectPerf ∅ records) =
    Ok (summary_head ++ concat (map (fun id => summary_text id (summary_of (calls_of id records))) ids)).
Proof.
  intros Hlen. set (m := foldl collectPerf ∅ records).
  set (l := merge_sort id_le (map_to_list m)).
  assert (l ≡ₚ map_to_list m) as Hperm by apply merge_sort_Permutation.
  assert (forall id ps, (id, ps) ∈ l <-> m !! id = Some ps) as Hl.
  { intros id ps. rewrite Hperm. apply elem_of_map_to_list. }
  assert (forall id ps, m !! id = Some ps -> ps = summary_of (calls_of id records) /\
    calls_of id records <> []) as Hm.
  { intros id ps E. subst m. rewrite collectPerf_summary in E.
    destruct (calls_of id records) eqn:Ec; [done |]. by simplify_eq. }
  exists (map fst l). split; [| split].
  - assert (Sorted id_le l) as Hs.
    { apply Sorted_merge_sort. intros p q. unfold id_le. lia. }
    assert (NoDup (map fst l)) as Hd.
    { change (map fst l) with (l.*1). rewrite Hperm. apply NoDup_fst_map_to_list. }
    clear Hl Hperm. clearbody l. induction Hs as [|p l Hs IH Hh]; [constructor |].
    apply list.NoDup_cons in Hd as [Hn Hd]. cbn [map]. constructor; [by apply IH |].
    destruct Hh as [|q l Hpq]; [constructor |]. cbn [map]. constructor. unfold id_le in Hpq.
    assert (p.1 <> q.1) by (intros E; apply Hn; rewrite E; left). lia.
  - intros id. change (map fst l) with (l.*1). rewrite list_elem_of_fmap. split.
    + intros ([id' ps] & -> & Hin). apply Hl, Hm in Hin as [_ Hc]. cbn.
      destruct (calls_of id' records) as [|r rs] eqn:E; [done |].
      assert (r ∈ calls_of id' records) as Hr by (rewrite E; left).
      apply list_elem_of_filter in Hr as [Hid Hr]. eauto.
    + intros (r & Hr & Hid). assert (r ∈ calls_of id records) as Hc by (by apply list_elem_of_filter).
      destruct (m !! id) as [ps|] eqn:E; [exists (id, ps); split; [done | by apply Hl] |].
      exfalso. subst m. rewrite collectPerf_summary in E.
      destruct (calls_of id records); [by apply not_elem_of_nil in Hc | done].
  - unfold printPerformanceSummary. fold l. rewrite summary_lines.
    + cbn [mbind outcome_mbind outcome_bind]. unfold summary_head. rewrite <-app_assoc. do 4 f_equal.
      rewrite map_map. apply map_ext_in. intros [id ps] Hin%list_elem_of_In. cbn.
      by apply Hl, Hm in Hin as [-> _].
    + apply list.Forall_forall. intros [id ps] Hin. apply Hl, Hm in Hin as [-> Hc]. cbn.
      assert (length (calls_of id records) <= length records)%nat as Hle by apply length_filter.
      unfold summary_of. cbn [totalCalls]. destruct (calls_of id records) as [|r rs]; [done |].
      rewrite wrap_small by (cbn [length] in *; lia). cbn [length]. lia.
Qed.

(** ** Grouping by thread *)

(** The records of a thread, and what is printed of them. *)
Definition group_records (g : bytes * list APICall) : list RecordT := map (pair g.1) g.2.
Definition group_body (verbose : bool) (g : bytes * list APICall) : bytes :=
  group_records g ≫= (fun r => printRecord r verbose).
Definition section_text (verbose : bool) (g : bytes * list APICall) : bytes :=
  start_thread g.1 ++ group_body verbose g ++ end_thread g.1.

Lemma print_threads_same verbose t calls rest :
  print_threads verbose t (map (pair t) calls ++ rest) =
  let '(text, last) := print_threads verbose t rest in
  (group_body verbose (t, calls) ++ text, last).
Proof.
  induction calls as [|c calls IH]; [by cbn; destruct (print_threads _ _ _) |].
  cbn [map Datatypes.app print_threads fst]. rewrite bool_decide_eq_false_2 by tauto.
  rewrite IH. destruct (print_threads verbose t rest) as [text last].
  unfold group_body. cbn [group_records map fst snd]. cbn [mbind list_bind Datatypes.app].
  by rewrite <-app_assoc.
Qed.

Lemma print_threads_groups verbose last groups :
  NoDup (last :: map fst groups) -> Forall (fun g => g.1 <> [] /\ g.2 <> []) groups ->
  let '(text, last') := print_threads verbose last (groups ≫= group_records) in
  text ++ end_thread last' =
  match groups with
  | [] => end_thread last
  | _ => (match last with [] => [] | _ => end_thread last end) ++ concat (map (section_text verbose) groups)
  end.
Proof.
  intros Hd Hg. revert last Hd. induction Hg as [|[t calls] groups [Ht Hc] Hg IH]; intros last Hd; [done |].
  cbn [fst snd] in *. destruct calls as [|c calls]; [done |].
  apply list.NoDup_cons in Hd as [Hn Hd]. cbn [map fst] in *.
  change (((t, c :: calls) :: groups) ≫= group_records) with
    ((t, c) :: (map (pair t) calls ++ (groups ≫= group_records))).
  cbn [print_threads fst]. rewrite bool_decide_eq_true_2
    by (intros ->; apply Hn; left).
  rewrite print_threads_same. specialize (IH t Hd).
  destruct (print_threads verbose t (groups ≫= group_records)) as [text last'].
  rewrite <-!app_assoc, IH. f_equal. cbn [map concat].
  change (section_text verbose (t, c :: calls)) with
    (start_thread t ++ group_body verbose (t, c :: calls) ++ end_thread t).
  rewrite <-!app_assoc. f_equal.
  assert (group_body verbose (t, c :: calls) = printRecord (t, c) verbose ++ group_body verbose (t, calls))
    as -> by done.
  rewrite <-!app_assoc. do 3 f_equal.
  destruct groups; [by rewrite app_nil_r |]. by destruct t.
Qed.

(** ** The command on a recorded trace *)

Context `{Listing, Protobuf APICall, Protobuf DeviceBinary}.

(** The entry [de] of a trace directory is not an image, and a trace file holds
    complete records and perhaps a part of one. *)
Definition recorded_entry (fs : filesystem) (calls : bytes -> list APICall) (tail : bytes -> bytes)
    (fuel : nat) (de : bytes) : Prop :=
  extension de <> #".desc" /\
  (extension de = kPiTraceExt ->
   read_file fs de = Some (trace_of (calls de) ++ tail de) /\ Forall fits (calls de) /\
   cut_short (tail de) /\ (length (trace_of (calls de) ++ tail de) < fuel)%nat).

Definition traces (entries : list bytes) : list bytes :=
  base.filter (fun de => extension de = kPiTraceExt) entries.

Lemma collect_recorded fuel uninit entries fs calls tail :
  Forall (recorded_entry fs calls tail fuel) entries -> (forall i, length (uninit i) = 4%nat) ->
  collect_records fuel uninit entries fs =
  Some (Ok (traces entries ≫= (fun de => map (pair (stem de)) (calls de)))).
Proof.
  intros He Hu. induction He as [|de entries [_ Hde] He IH]; [done |].
  cbn [collect_records]. unfold traces. rewrite list.filter_cons. case_bool_decide as Hx.
  - destruct (Hde Hx) as (Hr & Hf & Hc & Hl). rewrite decide_True by done.
    rewrite Hr. unfold parseTraceFile. change (open_stream (Some ?c)) with (good c).
    rewrite parse_loop_spec by done. cbn [mapped fmap outcome_fmap outcome_bind]. by rewrite IH.
  - rewrite decide_False by done. apply IH.
Qed.

Lemma print_no_images uninit entries fs :
  Forall (fun de => extension de <> #".desc") entries -> print_images uninit entries fs = Ok [].
Proof.
  induction 1 as [|de entries Hde He IH]; [done |]. cbn [print_images].
  rewrite bool_decide_eq_false_2 by done. cbn [mbind outcome_mbind outcome_bind]. by rewrite IH.
Qed.

(** C11: [print --group thread] on a recorded trace.  When every trace file of
    the directory holds the records of one thread, complete but perhaps for the
    last, the command ends, and prints for each thread, in the order of the
    directory, all of its complete records in the order they were made, between
    the start and the end mark of the thread. *)
Theorem print_trace_threads fuel uninit_image uninit (o : options) fs calls tail :
  let entries := directory fs (input o) in
  let groups := map (fun de => (stem de, calls de)) (traces entries) in
  is_directory fs (input o) = true -> mPringGroup o = group_thread ->
  mPrintPerformanceSummary o = false ->
  Forall (recorded_entry fs calls tail fuel) entries -> (forall i, length (uninit i) = 4%nat) ->
  NoDup ([] :: map fst groups) -> Forall (fun g => g.2 <> []) groups -> groups <> [] ->
  printTrace fuel uninit_image uninit o fs =
  Some (Ok (line [ #"Binary images:"] ++ [x0a] ++ line [ #"------------------------------------------"] ++
            concat (map (section_text (mVerbose o)) groups))).
Proof.
  intros entries groups Hdir Hg Hp He Hu Hd Hc Hne. unfold printTrace.
  assert (exists_ fs (input o) = true) as ->.
  { unfold is_directory in Hdir. apply bool_decide_eq_true in Hdir. apply bool_decide_eq_true.
    by rewrite Hdir. }
  rewrite Hdir. cbn [negb]. fold entries. rewrite print_no_images.
  2:{ eapply list.Forall_impl; [exact He |]. intros de [Hde _]. done. }
  rewrite (collect_recorded _ _ _ _ calls tail) by done. unfold print_records. rewrite Hg.
  assert ((traces entries ≫= (fun de => map (pair (stem de)) (calls de))) = groups ≫= group_records) as ->.
  { subst groups. clear. induction (traces entries) as [|de l IH]; [done |].
    cbn [map mbind list_bind] in *. f_equal. apply IH. }
  pose proof (print_threads_groups (mVerbose o) [] groups Hd) as E.
  match goal with |- context [print_threads _ _ ?l] => change l with (groups ≫= group_records) end.
  destruct (print_threads (mVerbose o) [] (groups ≫= group_records)) as [text last].
  unfold print_summary. rewrite Hp. cbn [mbind outcome_mbind outcome_bind].
  change (@nil byte ++ end_thread last) with (end_thread last).
  rewrite E; [by destruct groups |].
  apply list.Forall_forall. intros g Hin. split.
  - intros Hg1. apply list.NoDup_cons in Hd as [Hn _]. apply Hn. rewrite <-Hg1.
    by apply list_elem_of_fmap_2.
  - rewrite list.Forall_forall in Hc. by apply Hc.
Qed.
(** ** Ordering by time *)

Lemma foldl_permutation {A B} (f : A -> B -> A) (l l' : list B) a :
  (forall a x y, f (f a x) y = f (f a y) x) -> l ≡ₚ l' -> foldl f a l = foldl f a l'.
Proof.
  intros Hf Hl. revert a. induction Hl as [|x l l' Hl IH|x y l|l l2 l3 _ IH1 _ IH2]; intros a.
  - done.
  - apply IH.
  - cbn. by rewrite Hf.
  - by rewrite IH1.
Qed.

#[local] Instance summary_of_permutation : Proper ((≡ₚ) ==> (=)) summary_of.
Proof.
  intros rs rs' Hp. unfold summary_of.
  assert (map (fun r : RecordT => duration r.2) rs ≡ₚ map (fun r : RecordT => duration r.2) rs') as Hd
    by by apply Permutation_map.
  rewrite (Permutation_length Hp). f_equal; [| | f_equal]; (apply foldl_permutation; [intros; lia | done]).
Qed.

(** The summary of a trace does not depend on the order of its records. *)
Lemma collectPerf_permutation (l l' : list RecordT) :
  l ≡ₚ l' -> foldl collectPerf ∅ l = foldl collectPerf ∅ l'.
Proof.
  intros Hp. apply map_eq. intros id. rewrite !collectPerf_summary.
  assert (calls_of id l ≡ₚ calls_of id l') as Hc by (unfold calls_of; by rewrite Hp).
  destruct (calls_of id l) as [|r rs] eqn:E, (calls_of id l') as [|r' rs'] eqn:E'; [done | | | by rewrite Hc].
  - by apply Permutation_nil_cons in Hc.
  - symmetry in Hc. by apply Permutation_nil_cons in Hc.
Qed.

Definition record_text (verbose : bool) (r : RecordT) : bytes :=
  line [ #"THREAD : "; r.1] ++ printRecord r verbose.

(** [print] without grouping shows every record of every thread exactly
    once, each with its thread, in the order of their starting times, and the
    summary it ends with is that of the records in any order. *)
Theorem print_time_order `{!LawfulSort} (o : options) (records : list RecordT) :
  mPringGroup o = group_none ->
  exists l, l ≡ₚ records /\ Sorted starts_before l /\
    print_records o records =
    (perf ← print_summary o records; Ok ((l ≫= record_text (mVerbose o)) ++ perf)).
Proof.
  intros Hg. exists (sort records). split; [apply sort_permutation |].
  split; [apply sort_sorted |]. unfold print_records. rewrite Hg. unfold print_summary.
  by rewrite (collectPerf_permutation (sort records) records) by apply sort_permutation.
Qed.
End printing.

(** ** Arguments *)

(** C35: what [print] shows of the arguments that the recorder collected.  A
    pointer, and a C string, is shown as its address in hexadecimal; every other
    argument, unsigned ones included, as the signed decimal number of its width. *)
Theorem printed_arguments `{PiHeaders, Plugin} m (l : list argument) :
  Forall (fun a => argument_bytes a = 4 \/ argument_bytes a = 8) l ->
  printArgs (collectArgs m l) =
  concat (map (fun a => match a with
    | Pointer v | CString v => line [right_aligned 20 #"<unknown ptr>"; #" : 0x"; hexadecimal (u64 v)]
    | _ => line [right_aligned 20 #"<unknown>"; #" : ";
                 decimal (if argument_bytes a =? 4 then i32 (argument_value a)
                          else i64 (argument_value a))]
    end) l).
Proof.
  induction 1 as [|a l Ha Hl IH]; [done |].
  change (printArgs (collectArgs m (a :: l))) with
    (printArg (collectArg m true a) ++ printArgs (collectArgs m l)).
  rewrite IH. cbn [map concat]. f_equal.
  assert (forall z, i64 (u64 (i64 z)) = i64 z) as E1.
  { intros z. rewrite wrap_signed by lia. by apply signed_wrap. }
  assert (forall z, i32 (i64 z) = i32 z) as E2.
  { intros z. rewrite <-(signed_wrap 32 64 (i64 z)), wrap_signed by lia. by apply signed_wrap. }
  destruct a; [done | done | | | |]; unfold collectArg; cbn [is_cstring is_pointer is_unsigned negb andb];
    unfold printArg, sized; cbn [ArgData.type ArgData.data];
    (destruct Ha as [-> | ->]; cbn [Z.eqb Pos.eqb ArgData.type]; by rewrite E1, ?E2).
Qed.

(** ** A concrete trace directory *)

#[local] Instance sample_names : PiNames := {|
  api_name id := if id =? 3 then Some #"piDevicesGet" else None;
  PI_QUEUE_OUT_OF_ORDER_EXEC_MODE_ENABLE := 1; PI_QUEUE_PROFILING_ENABLE := 2;
  PI_QUEUE_ON_DEVICE := 4; PI_QUEUE_ON_DEVICE_DEFAULT := 8;
  PI_MEM_FLAGS_ACCESS_RW := 1; PI_MEM_FLAGS_HOST_PTR_USE := 8; PI_MEM_FLAGS_HOST_PTR_COPY := 32;
  PI_MEM_FLAGS_HOST_PTR_ALLOC := 16; PI_MAP_READ := 1; PI_MAP_WRITE := 2;
  PI_MAP_WRITE_INVALIDATE_REGION := 4; Printer.PI_DEVICE_BINARY_TYPE_NONE := 0;
  Printer.PI_DEVICE_BINARY_TYPE_NATIVE := 1; Printer.PI_DEVICE_BINARY_TYPE_SPIRV := 2;
  Printer.PI_DEVICE_BINARY_TYPE_LLVMIR_BITCODE := 3; PI_PROPERTY_TYPE_UNKNOWN := 0;
  PI_PROPERTY_TYPE_UINT32 := 1; PI_PROPERTY_TYPE_BYTE_ARRAY := 2; PI_PROPERTY_TYPE_STRING := 3;
|}.
#[local] Instance starts_before_dec : RelDecision starts_before :=
  fun a b => Z.le_dec (time_start a.2) (time_start b.2).
#[local] Instance sample_listing : Listing := {|
  directory _ _ := [ #"/trace/env"; #"/trace/main.pi_trace"; #"/trace/main_1.pi_trace"];
  sort := merge_sort starts_before;
|}.
#[local] Instance sample_lawful : LawfulSort.
Proof.
  split; intros l; [apply merge_sort_Permutation |].
  apply Sorted_merge_sort. intros a b. unfold starts_before. lia.
Qed.

Definition sample_calls (de : bytes) : list APICall :=
  if bool_decide (de = #"/trace/main.pi_trace") then demo_calls else [new_call].
Definition sample_tail : bytes := take 5 (serialize new_call).
Definition sample_directory : filesystem :=
  <[ #"/trace" := Directory]>
    (<[ #"/trace/main.pi_trace" := Regular (trace_of demo_calls ++ sample_tail)]>
      (<[ #"/trace/main_1.pi_trace" := Regular (trace_of [new_call] ++ sample_tail)]> ∅)).
Definition print_options (group : print_group_by) : options :=
  set_group group (set_paths #"/trace" [] new_options).

Lemma sample_short : cut_short sample_tail.
Proof.
  exists new_call, 5%nat. split; [vm_compute; reflexivity |]. split; [| reflexivity].
  apply Nat.ltb_lt. vm_compute. reflexivity.
Qed.

Lemma print_trace_threads_witness :
  printTrace 1000 [] (fun _ => [x01; x02; x03; x04]) (print_options group_thread) sample_directory =
  Some (Ok (line [ #"Binary images:"] ++ [x0a] ++ line [ #"------------------------------------------"] ++
            section_text false (#"main", demo_calls) ++ section_text false (#"main_1", [new_call]))).
Proof.
  refine (eq_trans (print_trace_threads 1000 [] (fun _ => [x01; x02; x03; x04])
    (print_options group_thread) sample_directory sample_calls (fun _ => sample_tail) _ eq_refl eq_refl _ (fun _ => eq_refl) _ _ _) _).
  - vm_compute. reflexivity.
  - constructor; [| constructor; [| constructor; [| constructor]]];
      (split; [vm_compute; discriminate |]); intros Hx.
    + vm_compute in Hx. discriminate.
    + split; [vm_compute; reflexivity |]. split; [exact demo_fits |]. split; [exact sample_short |].
      apply Nat.ltb_lt. vm_compute. reflexivity.
    + split; [vm_compute; reflexivity |].
      split; [constructor; [vm_compute; reflexivity | constructor] |]. split; [exact sample_short |].
      apply Nat.ltb_lt. vm_compute. reflexivity.
  - apply (bool_decide_unpack _). vm_compute. exact I.
  - apply (bool_decide_unpack _). vm_compute. exact I.
  - vm_compute. discriminate.
  - vm_compute. reflexivity.
Defined.

Definition sample_records : list RecordT := map (pair #"main") (rev demo_calls).

Lemma performance_summary_witness :
  exists ids, Sorted Z.lt ids /\ 3 ∈ ids /\
    printPerformanceSummary (foldl collectPerf ∅ sample_records) =
    Ok (summary_head ++
        concat (map (fun id => summary_text id (summary_of (calls_of id sample_records))) ids)).
Proof.
  destruct (performance_summary sample_records) as (ids & Hs & Hids & E); [vm_compute; reflexivity |].
  exists ids. split; [exact Hs |]. split; [| exact E].
  apply Hids. eexists. split; [right; left | reflexivity].
Defined.

Lemma print_time_order_witness : exists l, l ≡ₚ sample_records /\ Sorted starts_before l /\
  print_records (print_options group_none) sample_records =
  Ok ((l ≫= record_text false) ++ []).
Proof. exact (print_time_order (print_options group_none) sample_records eq_refl). Defined.

Lemma printed_arguments_witness :
  printArgs (collectArgs sample_memory [Pointer 255; UInt32 4294967295]) =
  line [right_aligned 20 #"<unknown ptr>"; #" : 0x"; #"ff"] ++
  line [right_aligned 20 #"<unknown>"; #" : "; #"-1"].
Proof.
  refine (eq_trans (printed_arguments sample_memory [Pointer 255; UInt32 4294967295] _) _).
  - constructor; [right; reflexivity |]. constructor; [left; reflexivity |]. constructor.
  - vm_compute. reflexivity.
Defined.
