(* ===== verification/GraphDump.v ===== *)
(** * GraphDump: the graph of a program's tasks

    lib/graph_dump/graph_dump.cpp: the callback on the trace points of the
    "sycl" stream and the file it is written to.  The XPTI framework calls it
    for four kinds of trace points; callbacks hold a mutex, so they are taken
    one after the other. *)

From S2P Require Import Prelude Streams Trace.

(** ** Messages (tools/schemas/graph.proto) *)

Inductive EventType : Set := NODE | EDGE.
Record GraphEvent := {
  type : EventType;
  id : Z;
  time_create : Z;
  time_start : option Z;
  time_end : option Z;
  start_node : option Z;
  end_node : option Z;
  metadata : list (bytes * bytes);
}.
#[global] Instance EventType_eq_dec : EqDecision EventType.
Proof. solve_decision. Defined.
#[global] Instance GraphEvent_eq_dec : EqDecision GraphEvent.
Proof. solve_decision. Defined.

(** ** The framework *)

Inductive trace_point_type : Set := node_create | edge_create | task_begin | task_end.

(** [xpti::trace_event_data_t] with its metadata, the strings looked up, and its
    payload: [None] is a null pointer, [Some None] a payload without a name. *)
Record trace_event := {
  unique_id : Z;
  source_id : Z;
  target_id : Z;
  event_metadata : list (bytes * bytes);
  payload : option (option bytes);
}.

(** A call of the callback: [event] may be null, [now] is the clock in
    nanoseconds. *)
Record callback := {
  traceType : trace_point_type;
  event : option trace_event;
  now : Z;
}.

(** ** State *)

Record GraphGlobalData := {
  graph : list GraphEvent;
  ids : gset Z;
  start : Z;
}.
Definition new_data (t : Z) : GraphGlobalData := {| graph := []; ids := ∅; start := t |}.

(** [set_time_start] and [set_time_end] *)
Definition set_time_start (t : Z) (e : GraphEvent) : GraphEvent :=
  {| type := type e; id := id e; time_create := time_create e; time_start := Some t;
     time_end := time_end e; start_node := start_node e; end_node := end_node e;
     metadata := metadata e |}.
Definition set_time_end (t : Z) (e : GraphEvent) : GraphEvent :=
  {| type := type e; id := id e; time_create := time_create e; time_start := time_start e;
     time_end := Some t; start_node := start_node e; end_node := end_node e;
     metadata := metadata e |}.

(** The text behind the last colon. *)
Fixpoint truncate (Name : bytes) : bytes :=
  match Name with
  | [] => []
  | c :: rest =>
      if bool_decide (":"%byte ∈ rest) then truncate rest
      else if bool_decide (c = ":"%byte) then rest else Name
  end.

(** [findById] searches from the back; the event found is changed in place. *)
Fixpoint change_first (i : Z) (f : GraphEvent -> GraphEvent) (l : list GraphEvent)
    : list GraphEvent :=
  match l with
  | [] => []
  | e :: l => if bool_decide (id e = i) then f e :: l else e :: change_first i f l
  end.
Definition change_found (i : Z) (f : GraphEvent -> GraphEvent) (l : list GraphEvent)
    : list GraphEvent :=
  rev (change_first i f (rev l)).

(** [timestamp] *)
Definition timestamp (d : GraphGlobalData) (now : Z) : Z := u64 ((now - start d) ÷ 1000).

(** ** The callback *)

Definition new_event (d : GraphGlobalData) (traceType : trace_point_type) (e : trace_event) (now : Z)
    : GraphEvent :=
  {| type := match traceType with edge_create => EDGE | _ => NODE end;
     id := i64 (unique_id e);
     time_create := timestamp d now;
     time_start := None;
     time_end := None;
     start_node := match traceType with edge_create => Some (i64 (source_id e)) | _ => None end;
     end_node := match traceType with edge_create => Some (i64 (target_id e)) | _ => None end;
     metadata := event_metadata e |}.

(** The name is computed and not stored. *)
Definition tpCallback (c : callback) : M GraphGlobalData unit := fun d =>
  match event c with
  | None => UB (* the payload of no event is null *)
  | Some e =>
      match payload e with
      | None => UB
      | Some name =>
          let name := match name with Some n => truncate n | None => #"<unknown>" end in
          let i := i64 (unique_id e) in
          match traceType c with
          | task_begin =>
              Ok (tt, {| graph := change_found i (set_time_start (timestamp d (now c))) (graph d);
                         ids := ids d; start := start d |})
          | t =>
              let g := match t with
                       | task_end => change_found i (set_time_end (timestamp d (now c))) (graph d)
                       | _ => graph d
                       end in
              if bool_decide (i ∈ ids d)
              then Ok (tt, {| graph := g; ids := ids d; start := start d |})
              else Ok (tt, {| graph := g ++ [new_event d t e (now c)]; ids := {[i]} ∪ ids d;
                              start := start d |})
          end
      end
  end.

(** [dumpGraph]: the text of the file. *)
Definition dumpGraph `{Protobuf GraphEvent} (d : GraphGlobalData) : bytes :=
  graph d ≫= (fun e =>
    let out := SerializeToString e in
    let size := u32 (Z.of_nat (length out)) in
    le_bytes 4 size ++ take (Z.to_nat size) out).

(** [data] of the library, from [xptiTraceInit] for the stream on. *)
Fixpoint callbacks (cs : list callback) : M GraphGlobalData unit :=
  match cs with
  | [] => mret tt
  | c :: cs => _ ← tpCallback c; callbacks cs
  end.
(** [xptiTraceInit], the callbacks, and [xptiTraceFinish], for a stream of the
    given name: the file that is written, if the stream is the one. *)
Definition trace_stream `{Protobuf GraphEvent} (name : bytes) (t : Z) (cs : list callback)
    : outcome (option bytes) :=
  if bool_decide (name = #"sycl") then
    '(_, d) ← callbacks cs (new_data t); Ok (Some (dumpGraph d))
  else Ok None.

(** * Theorems *)

(** ** Events by id *)

Definition lookup_event (i : Z) (l : list GraphEvent) : option GraphEvent :=
  List.find (fun e => bool_decide (id e = i)) l.

Lemma change_first_map i f l :
  NoDup (map id l) -> change_first i f l = map (fun e => if bool_decide (id e = i) then f e else e) l.
Proof.
  induction l as [|e l IH]; intros Hd; [done |]. cbn [map] in Hd. apply list.NoDup_cons in Hd as [Hn Hd].
  cbn [change_first map]. case_bool_decide as He; [| by rewrite IH].
  f_equal. rewrite <-(map_id l) at 1. apply map_ext_in. intros e' Hin%list_elem_of_In.
  rewrite bool_decide_eq_false_2; [done |]. intros He'. apply Hn. rewrite He, <-He'.
  by apply list_elem_of_fmap_2.
Qed.

Lemma change_found_map i f l :
  NoDup (map id l) -> change_found i f l = map (fun e => if bool_decide (id e = i) then f e else e) l.
Proof.
  intros Hd. unfold change_found. rewrite change_first_map.
  - by rewrite map_rev, rev_involutive.
  - rewrite map_rev. by rewrite <-(Permutation_rev (map id l)).
Qed.

Lemma map_id_change i f l :
  (forall e, id (f e) = id e) ->
  map id (map (fun e => if bool_decide (id e = i) then f e else e) l) = map id l.
Proof.
  intros Hf. rewrite map_map. apply map_ext. intros e. by case_bool_decide.
Qed.

Lemma lookup_change i j f l :
  (forall e, id (f e) = id e) ->
  lookup_event j (map (fun e => if bool_decide (id e = i) then f e else e) l) =
  if bool_decide (j = i) then f <$> lookup_event j l else lookup_event j l.
Proof.
  intros Hf. induction l as [|e l IH]; [by case_bool_decide |].
  unfold lookup_event in *. cbn [map List.find].
  destruct (decide (id e = i)) as [He | He].
  - rewrite (bool_decide_eq_true_2 (id e = i)), Hf by done.
    case_bool_decide as Hj; [by rewrite bool_decide_eq_true_2 by congruence |].
    by rewrite (bool_decide_eq_false_2 (id e = j)) by congruence.
  - rewrite (bool_decide_eq_false_2 (id e = i)) by done.
    case_bool_decide as Hj; [by rewrite bool_decide_eq_false_2 by congruence |].
    by destruct (bool_decide (id e = j)).
Qed.

Lemma lookup_snoc j l e :
  lookup_event j (l ++ [e]) =
  match lookup_event j l with Some x => Some x | None => if bool_decide (id e = j) then Some e else None end.
Proof.
  induction l as [|x l IH]; [done |]. unfold lookup_event in *. cbn [app List.find].
  by destruct (bool_decide (id x = j)).
Qed.

Lemma lookup_None j l : lookup_event j l = None <-> j ∉ map id l.
Proof.
  induction l as [|x l IH]; [split; [intros _; apply not_elem_of_nil | done] |].
  unfold lookup_event in *. cbn [map List.find]. rewrite not_elem_of_cons.
  case_bool_decide; [split; [done | intros [? _]; congruence] |]. rewrite IH. split; [| tauto].
  intros Hn. split; [congruence | done].
Qed.

(** ** One event *)

(** What the calls for one id do, on their own: the first that is not the begin
    of a task makes the event, and from then on every begin and every end of the
    task sets its time. *)
Definition event_step (t0 i : Z) (o : option GraphEvent) (c : callback) : option GraphEvent :=
  match event c with
  | None => o
  | Some e =>
      if bool_decide (i64 (unique_id e) = i) then
        let t := timestamp (new_data t0) (now c) in
        match o, traceType c with
        | None, task_begin => None
        | None, type => Some (new_event (new_data t0) type e (now c))
        | Some x, task_begin => Some (set_time_start t x)
        | Some x, task_end => Some (set_time_end t x)
        | Some x, _ => Some x
        end
      else o
  end.

Record well_formed (t0 : Z) (d : GraphGlobalData) : Prop := {
  data_start : start d = t0;
  data_nodup : NoDup (map id (graph d));
  data_ids i : i ∈ ids d <-> i ∈ map id (graph d);
}.

Definition has_payload (c : callback) : Prop :=
  match event c with Some e => payload e <> None | None => False end.

Lemma tpCallback_step t0 d c :
  well_formed t0 d -> has_payload c ->
  exists d', tpCallback c d = Ok (tt, d') /\ well_formed t0 d' /\
    forall i, lookup_event i (graph d') = event_step t0 i (lookup_event i (graph d)) c.
Proof.
  intros [Hs Hd Hi] Hp. unfold has_payload in Hp. unfold tpCallback, event_step.
  destruct (event c) as [e|]; [| done]. destruct (payload e) as [nm|]; [| done].
  set (i := i64 (unique_id e)). set (t := timestamp d (now c)).
  assert (timestamp (new_data t0) (now c) = t) as Ht by (unfold t, timestamp; by rewrite Hs).
  rewrite Ht.
  assert (i ∈ ids d -> exists x, lookup_event i (graph d) = Some x) as Hsome.
  { intros Hin%Hi. destruct (lookup_event i (graph d)) eqn:E; [eauto |]. by apply lookup_None in E. }
  assert (i ∉ ids d -> lookup_event i (graph d) = None) as Hnone
    by (intros Hin; apply lookup_None; by rewrite <-Hi).
  assert (forall ty, new_event (new_data t0) ty e (now c) = new_event d ty e (now c)) as Hev.
  { intros ty. unfold new_event. by rewrite Ht. }
  assert (forall f, (forall e, id (f e) = id e) -> change_found i f (graph d) =
    map (fun e => if bool_decide (id e = i) then f e else e) (graph d)) as Hch
    by (intros; by apply change_found_map).
  assert (forall g ty, map id g = map id (graph d) -> i ∉ ids d ->
    well_formed t0 {| graph := g ++ [new_event d ty e (now c)]; ids := {[i]} ∪ ids d; start := start d |})
    as Hnew.
  { intros g ty Hg Hn. split; cbn [graph ids start]; [done | |].
    - rewrite map_app, Hg. cbn [map new_event id]. apply list.NoDup_app. split; [done |].
      split; [| apply NoDup_singleton]. intros j Hj ->%list_elem_of_singleton. by apply Hn, Hi.
    - intros j. rewrite map_app, Hg, elem_of_app, elem_of_union, elem_of_singleton, Hi.
      cbn [map new_event id]. rewrite list_elem_of_singleton. tauto. }
  assert (forall g, map id g = map id (graph d) ->
    well_formed t0 {| graph := g; ids := ids d; start := start d |}) as Hold.
  { intros g Hg. split; cbn [graph ids start]; [done | by rewrite Hg |]. intros j. by rewrite Hg. }
  destruct (traceType c).
  1, 2: destruct (decide (i ∈ ids d)) as [Hin | Hin];
    [rewrite bool_decide_eq_true_2 by done | rewrite bool_decide_eq_false_2 by done];
    (eexists; split; [done |]; split; [by auto |]); intros j; cbn [graph];
    [ case_bool_decide as Hj; [| done]; subst j; by destruct (Hsome Hin) as [x ->]
    | rewrite lookup_snoc, Hev; cbn [new_event id]; fold i;
      case_bool_decide; by destruct (lookup_event j (graph d)) ].
  - eexists. split; [done |]. rewrite Hch by done. split; [by apply Hold, map_id_change |].
    intros j. cbn [graph]. rewrite lookup_change by done.
    destruct (decide (j = i)) as [-> | Hj];
      [rewrite !bool_decide_eq_true_2 by done | rewrite !bool_decide_eq_false_2 by congruence; done].
    by destruct (lookup_event i (graph d)).
  - rewrite Hch by done.
    destruct (decide (i ∈ ids d)) as [Hin | Hin];
      [rewrite bool_decide_eq_true_2 by done | rewrite bool_decide_eq_false_2 by done];
      (eexists; split; [done |]; split; [by apply Hold, map_id_change || by apply Hnew; [apply map_id_change |] |]);
      intros j; cbn [graph]; rewrite ?lookup_snoc, lookup_change by done; rewrite ?Hev;
      cbn [new_event id]; fold i;
      (destruct (decide (j = i)) as [-> | Hj];
       [rewrite !bool_decide_eq_true_2 by done
       | rewrite !(bool_decide_eq_false_2 (i = j)), !(bool_decide_eq_false_2 (j = i)) by congruence]).
    + by destruct (Hsome Hin) as [x ->].
    + done.
    + by rewrite Hnone.
    + by destruct (lookup_event j (graph d)).
Qed.

(** C9: the graph is the events, each on its own.  Whatever the order in which
    the callbacks of different tasks arrive, no id has two events, and the event
    of an id is what the callbacks for that id alone make: created by the first
    one that is not the begin of a task (the end of a task that was never
    created, too), with the times of the last begin and the last end behind it. *)
Theorem graph_refines (t0 : Z) (cs : list callback) :
  Forall has_payload cs ->
  exists d, callbacks cs (new_data t0) = Ok (tt, d) /\ NoDup (map id (graph d)) /\
    forall i, lookup_event i (graph d) = foldl (event_step t0 i) None cs.
Proof.
  intros Hc. enough (forall d, well_formed t0 d -> exists d', callbacks cs d = Ok (tt, d') /\
    well_formed t0 d' /\ forall i, lookup_event i (graph d') =
      foldl (event_step t0 i) (lookup_event i (graph d)) cs) as Hgen.
  { destruct (Hgen (new_data t0)) as (d & E & [_ Hd _] & Hl); [| by exists d].
    split; [done | apply NoDup_nil_2 |]. intros i. cbn.
    split; [by intros ?%not_elem_of_empty | by intros ?%not_elem_of_nil]. }
  induction Hc as [|c cs Hp Hc IH]; intros d Hd; [by exists d |].
  destruct (tpCallback_step t0 d c Hd Hp) as (d1 & E1 & Hd1 & Hl1).
  destruct (IH d1 Hd1) as (d' & E & Hd' & Hl). exists d'. split; [| split; [done |]].
  - cbn [callbacks]. by rewrite (M_run_bind _ _ _ _ _ E1).
  - intros i. cbn [foldl]. by rewrite Hl, Hl1.
Qed.

Definition sample_event (i : Z) : trace_event :=
  {| unique_id := i; source_id := 0; target_id := 0; event_metadata := []; payload := Some None |}.
Definition sample_callbacks : list callback :=
  [ {| traceType := task_begin; event := Some (sample_event 9); now := 2000 |};
    {| traceType := node_create; event := Some (sample_event 7); now := 3000 |};
    {| traceType := task_end; event := Some (sample_event 9); now := 4000 |};
    {| traceType := task_begin; event := Some (sample_event 7); now := 5000 |};
    {| traceType := task_end; event := Some (sample_event 7); now := 9000 |} ].

Lemma graph_refines_witness : exists d, callbacks sample_callbacks (new_data 1000) = Ok (tt, d) /\
  (time_start <$> lookup_event 7 (graph d)) = Some (Some 4) /\
  (time_end <$> lookup_event 7 (graph d)) = Some (Some 8) /\
  (time_create <$> lookup_event 9 (graph d)) = Some 3.
Proof.
  destruct (graph_refines 1000 sample_callbacks) as (d & E & _ & Hl).
  - repeat (constructor; [discriminate |]). constructor.
  - exists d. split; [exact E |]. rewrite !Hl. repeat split; vm_compute; reflexivity.
Defined.
