(* ===== verification/Threads.v ===== *)
(** * Threads: the names of the threads of a traced program

    lib/system_intercept/threads.cpp: the main thread is called "main", and the
    interposed [pthread_create] calls each new thread after its creator and the
    creator's count of threads.  The recorder and the replay plugin name their
    files by these names. *)

From S2P Require Import Prelude Streams Files.

(** ** State *)

(** Every thread's name, and its [threadCouner]. *)
Record thread_state := { name : bytes; threadCouner : Z }.
#[global] Instance thread_state_eq_dec : EqDecision thread_state.
Proof. solve_decision. Defined.
Abbreviation threads := (gmap Z thread_state).

(** [pthread_setname_np]: a name longer than 15 bytes is an error, which the
    code does not look at, and the thread keeps its name. *)
Definition pthread_setname_np (t : Z) (n : bytes) : M threads unit :=
  modify (fun ts =>
    match ts !! t with
    | Some s =>
        if (length n <=? 15)%nat
        then <[t := {| name := n; threadCouner := threadCouner s |}]> ts else ts
    | None => ts
    end).

(** The constructor of the library, in the main thread. *)
Definition setMainThreadName (t : Z) : M threads unit := pthread_setname_np t #"main".

(** A thread that starts has its creator's name, and its own counter. *)
Definition real_pthread_create (self t : Z) : M threads unit := fun ts =>
  match ts !! self with
  | Some s => Ok (tt, <[t := {| name := name s; threadCouner := 0 |}]> ts)
  | None => UB
  end.

(** What [pthread_create] does after the real one has returned. *)
Definition name_thread (self t : Z) : M threads unit := fun ts =>
  match ts !! self with
  | Some s =>
      let newName := name s ++ #"_" ++ to_string (threadCouner s) in
      (_ ← modify (insert self {| name := name s; threadCouner := u64 (threadCouner s + 1) |});
       pthread_setname_np t newName) ts
  | None => UB
  end.

(** [pthread_create] in the thread [self]; [created] is the new thread, or
    [None] when the real call fails and [*thread] is not set. *)
Definition pthread_create (self : Z) (created : option Z) : M threads unit :=
  match created with
  | Some t => _ ← real_pthread_create self t; name_thread self t
  | None => lift UB
  end.

(** * Theorems *)

(** ** Numbers in names *)

Definition digits_value (s : bytes) : Z := foldl (fun v c => 10 * v + (b2z c - 48)) 0 s.

Lemma digits_value_spec fuel n acc :
  0 <= n < 10 ^ Z.of_nat fuel -> digits_value (digits fuel n acc) =
  foldl (fun v c => 10 * v + (b2z c - 48)) n acc.
Proof.
  unfold digits_value. revert n acc. induction fuel as [|fuel IH]; intros n acc Hn.
  { change (10 ^ Z.of_nat 0) with 1 in Hn. by replace n with 0 by lia. }
  cbn [digits]. pose proof (Z.mod_pos_bound n 10 ltac:(lia)) as Hm.
  assert (b2z (z2b (48 + n mod 10)) = 48 + n mod 10) as Hb
    by (rewrite b2z_z2b, Z.mod_small by lia; done).
  destruct (Z.ltb_spec n 10).
  - cbn [foldl]. rewrite Hb, Z.mod_small by lia. f_equal. lia.
  - rewrite IH; [| split; [apply Z.div_pos; lia |]; apply Z.div_lt_upper_bound; [lia |]; rewrite Nat2Z.inj_succ, Z.pow_succ_r in Hn by lia; lia].
    cbn [foldl]. rewrite Hb. f_equal. pose proof (Z.div_mod n 10 ltac:(lia)). lia.
Qed.

Lemma digits_value_to_string n : 0 <= n -> digits_value (to_string n) = n.
Proof.
  intros Hn. unfold to_string. rewrite digits_value_spec; [done |]. split; [done |].
  destruct (decide (n = 0)) as [-> | Hne]; [done |].
  pose proof (Z.log2_spec n ltac:(lia)) as [_ Hl]. pose proof (Z.log2_nonneg n).
  rewrite Nat2Z.inj_succ, Z2Nat.id by done. eapply Z.lt_le_trans; [exact Hl |].
  apply Z.pow_le_mono_l. lia.
Qed.

Lemma to_string_inj n m : 0 <= n -> 0 <= m -> to_string n = to_string m -> n = m.
Proof.
  intros Hn Hm E. by rewrite <-(digits_value_to_string n), E, digits_value_to_string.
Qed.

Lemma to_string_no_underscore n : "_"%byte ∉ to_string n.
Proof.
  assert (Forall (fun c => c <> "_"%byte) (to_string n)) as Hf.
  { apply digits_chars; [| constructor]. intros d Hd E. apply (f_equal b2z) in E.
    rewrite b2z_z2b, Z.mod_small in E by lia. cbn in E. lia. }
  intros Hin. rewrite list.Forall_forall in Hf. by apply (Hf _ Hin).
Qed.

(** The text before the last separator, and the number behind it. *)
Lemma last_separator (c : byte) a b a' b' :
  c ∉ b -> c ∉ b' -> a ++ c :: b = a' ++ c :: b' -> a = a' /\ b = b'.
Proof.
  intros Hb Hb' E. apply (f_equal (@rev _)) in E. rewrite !rev_app_distr in E. cbn [rev] in E.
  rewrite <-!app_assoc in E. cbn [app] in E.
  assert (forall l : bytes, c ∉ l -> c ∉ rev l) as Hrev.
  { intros l Hl Hin. apply Hl, list_elem_of_In, in_rev. by apply list_elem_of_In. }
  apply (f_equal (split_at c)) in E. rewrite !split_at_app in E by by apply Hrev.
  injection E as E1 E2.
  by rewrite <-(rev_involutive a), E2, <-(rev_involutive b), E1, !rev_involutive.
Qed.

(** ** Distinct names *)

(** A thread [self] makes a thread [t] that is new. *)
Fixpoint create_all (l : list (Z * Z)) : M threads unit :=
  match l with
  | [] => mret tt
  | (self, t) :: l => _ ← pthread_create self (Some t); create_all l
  end.

(** Creators exist, and new threads are new. *)
Fixpoint creations (ts : gset Z) (l : list (Z * Z)) : Prop :=
  match l with
  | [] => True
  | (self, t) :: l => self ∈ ts /\ (t ∉ ts) /\ creations ({[t]} ∪ ts) l
  end.

(** The name a creation gives to its thread, were it set. *)
Definition new_name (ts : threads) (self : Z) : bytes :=
  match ts !! self with
  | Some s => name s ++ #"_" ++ to_string (threadCouner s)
  | None => []
  end.
Fixpoint all_named (ts : threads) (l : list (Z * Z)) : Prop :=
  match l with
  | [] => True
  | (self, t) :: l =>
      (length (new_name ts self) <= 15)%nat /\
      forall ts', pthread_create self (Some t) ts = Ok (tt, ts') -> all_named ts' l
  end.

Definition distinct (ts : threads) : Prop :=
  forall t1 t2 s1 s2, ts !! t1 = Some s1 -> ts !! t2 = Some s2 -> name s1 = name s2 -> t1 = t2.

(** Every name but the main thread's is that of a thread and a number the thread
    has counted past; [n] bounds the counters. *)
Record named (n : Z) (ts : threads) : Prop := {
  named_distinct : distinct ts;
  named_counter t s : ts !! t = Some s -> 0 <= threadCouner s <= n;
  named_origin t s : ts !! t = Some s -> "_"%byte ∉ name s \/
    exists t' s' k, ts !! t' = Some s' /\ 0 <= k < threadCouner s' /\
      name s = name s' ++ #"_" ++ to_string k;
}.

Lemma dom_create (ts : threads) self t (x y : thread_state) :
  self ∈ dom ts -> dom (<[t := y]> (<[self := x]> ts)) = {[t]} ∪ dom ts.
Proof.
  intros Hs. rewrite !dom_insert_L. f_equal. by apply subseteq_union_1_L, singleton_subseteq_l.
Qed.

(** The threads after a creation: the counter is raised, and the new thread has
    the new name, or its creator's when that is too long. *)
Lemma pthread_create_run ts self t s :
  ts !! self = Some s -> ts !! t = None ->
  pthread_create self (Some t) ts =
  Ok (tt, <[t := {| name := if (length (new_name ts self) <=? 15)%nat then new_name ts self else name s;
                    threadCouner := 0 |}]>
          (<[self := {| name := name s; threadCouner := u64 (threadCouner s + 1) |}]> ts)).
Proof.
  intros Hs Ht. assert (self <> t) as Hne by congruence.
  unfold pthread_create. rewrite (M_run_bind _ _ _ tt (<[t := {| name := name s; threadCouner := 0 |}]> ts))
    by (unfold real_pthread_create; by rewrite Hs).
  unfold name_thread, new_name. rewrite lookup_insert_ne, Hs by done. cbn zeta.
  unfold mbind, M_mbind, modify, pthread_setname_np. cbn [mbind outcome_mbind outcome_bind]. unfold modify.
  rewrite lookup_insert_ne, lookup_insert_eq by done. cbn [threadCouner].
  rewrite (insert_insert_ne ts self t) by done.
  destruct (_ <=? 15)%nat; [by rewrite insert_insert_eq | done].
Qed.

(** The new name is nobody's. *)
Lemma new_name_fresh n ts self s t' s' :
  named n ts -> ts !! self = Some s -> ts !! t' = Some s' -> name s' <> new_name ts self.
Proof.
  intros [Hd Hc Ho] Hs Hs' E. unfold new_name in E. rewrite Hs in E.
  destruct (Ho _ _ Hs') as [Hn | (tp & sp & k & Hp & Hk & En)].
  - apply Hn. rewrite E. apply elem_of_app. right. apply elem_of_app. left. by left.
  - rewrite E in En. change (#"_" ++ ?x) with ("_"%byte :: x) in En.
    apply last_separator in En as [En Ek]; [| apply to_string_no_underscore..].
    assert (self = tp) as -> by (by eapply Hd). assert (s = sp) as -> by congruence.
    apply to_string_inj in Ek; [lia | by eapply Hc | lia].
Qed.

Lemma named_create n ts self t s :
  named n ts -> 0 <= n < 2 ^ 64 - 1 -> ts !! self = Some s -> ts !! t = None ->
  (length (new_name ts self) <= 15)%nat ->
  exists ts', pthread_create self (Some t) ts = Ok (tt, ts') /\ named (n + 1) ts' /\
    dom ts' = {[t]} ∪ dom ts.
Proof.
  intros Hn Hb Hs Ht Hfit. rewrite (pthread_create_run _ _ _ s) by done.
  rewrite (proj2 (Nat.leb_le _ _)) by done. pose proof Hn as [Hd Hc Ho].
  pose proof (Hc _ _ Hs) as Hcs. assert (self <> t) as Hne by congruence.
  rewrite wrap_small by lia. eexists. split; [done |].
  (* what a lookup of an old thread gives *)
  assert (forall t1 s1, <[t := {| name := new_name ts self; threadCouner := 0 |}]>
      (<[self := {| name := name s; threadCouner := threadCouner s + 1 |}]> ts) !! t1 = Some s1 ->
    (t1 = t /\ s1 = {| name := new_name ts self; threadCouner := 0 |}) \/
    (t1 <> t /\ exists s0, ts !! t1 = Some s0 /\ name s1 = name s0 /\
       threadCouner s0 <= threadCouner s1 <= threadCouner s0 + 1 /\
       (t1 = self -> threadCouner s1 = threadCouner s + 1))) as Hl.
  { intros t1 s1. destruct (decide (t1 = t)) as [-> | Ht1]; [rewrite lookup_insert_eq; intros [= <-]; by left |].
    rewrite lookup_insert_ne by done. destruct (decide (t1 = self)) as [-> | Ht2].
    - rewrite lookup_insert_eq. intros [= <-]. right. split; [done |]. exists s. cbn. auto with lia.
    - rewrite lookup_insert_ne by done. intros E. right. split; [done |]. exists s1.
      split; [done |]. split; [done |]. split; [lia | done]. }
  split; [split |].
  - intros t1 t2 s1 s2 [[-> ->] | (H1 & x1 & Hx1 & E1 & _)]%Hl [[-> ->] | (H2 & x2 & Hx2 & E2 & _)]%Hl E;
      cbn [name] in *.
    + done.
    + destruct (new_name_fresh n ts self s t2 x2 Hn Hs Hx2). congruence.
    + destruct (new_name_fresh n ts self s t1 x1 Hn Hs Hx1). congruence.
    + eapply Hd; [exact Hx1 | exact Hx2 | congruence].
  - intros t1 s1 [[-> ->] | (H1 & x1 & Hx1 & _ & Hr & _)]%Hl; [cbn; lia |].
    specialize (Hc _ _ Hx1). lia.
  - (* an old thread is still there, with at least its counter *)
    assert (forall t1 s1, ts !! t1 = Some s1 -> exists s2,
      <[t := {| name := new_name ts self; threadCouner := 0 |}]>
        (<[self := {| name := name s; threadCouner := threadCouner s + 1 |}]> ts) !! t1 = Some s2 /\
      name s2 = name s1 /\ threadCouner s1 <= threadCouner s2 /\
      (t1 = self -> threadCouner s2 = threadCouner s + 1)) as Hold.
    { intros t1 s1 E. assert (t1 <> t) by congruence. rewrite lookup_insert_ne by done.
      destruct (decide (t1 = self)) as [-> | Ht2].
      - rewrite lookup_insert_eq. eexists. split; [done |]. cbn. assert (s1 = s) as -> by congruence.
        auto with lia.
      - rewrite lookup_insert_ne by done. exists s1. auto with lia. }
    intros t1 s1 [[-> ->] | (H1 & x1 & Hx1 & E1 & _)]%Hl; cbn [name].
    + right. destruct (Hold _ _ Hs) as (s2 & H2 & En & _ & Hcnt). exists self, s2, (threadCouner s).
      split; [done |]. rewrite Hcnt by done. split; [lia |]. unfold new_name. by rewrite Hs, En.
    + rewrite E1. destruct (Ho _ _ Hx1) as [Hn1 | (tp & sp & k & Hp & Hk & En)]; [by left | right].
      destruct (Hold _ _ Hp) as (s2 & H2 & En2 & Hle & _). exists tp, s2, k.
      split; [done |]. split; [lia |]. by rewrite En2.
  - apply dom_create. by eapply elem_of_dom_2.
Qed.

(** A creation whose name is too long leaves two threads with one name, which
    stays so. *)
Lemma create_extends ts self t ts' :
  t ∉ dom ts -> pthread_create self (Some t) ts = Ok (tt, ts') ->
  forall t1 s1, ts !! t1 = Some s1 -> exists s2, ts' !! t1 = Some s2 /\ name s2 = name s1.
Proof.
  intros Ht E t1 s1 H1. apply not_elem_of_dom in Ht.
  destruct (ts !! self) as [s|] eqn:Hs.
  - rewrite (pthread_create_run _ _ _ s) in E by done. injection E as <-.
    rewrite lookup_insert_ne by congruence.
    destruct (decide (t1 = self)) as [-> | Hne]; [rewrite lookup_insert_eq | rewrite lookup_insert_ne by done].
    + eexists. split; [done |]. cbn. congruence.
    + by exists s1.
  - unfold pthread_create, real_pthread_create, mbind, M_mbind in E. by rewrite Hs in E.
Qed.

Lemma create_dom ts self t :
  self ∈ dom ts -> t ∉ dom ts ->
  exists ts', pthread_create self (Some t) ts = Ok (tt, ts') /\ dom ts' = {[t]} ∪ dom ts.
Proof.
  intros Hs Ht. pose proof Hs as Hs'. apply elem_of_dom in Hs as [s Hs]. apply not_elem_of_dom in Ht.
  rewrite (pthread_create_run _ _ _ s) by done. eexists. split; [done |].
  by apply dom_create.
Qed.

Lemma shared_stays l ts t1 t2 s1 s2 :
  creations (dom ts) l -> t1 <> t2 -> ts !! t1 = Some s1 -> ts !! t2 = Some s2 -> name s1 = name s2 ->
  exists ts', create_all l ts = Ok (tt, ts') /\ ~ distinct ts'.
Proof.
  revert ts s1 s2. induction l as [|[self t] l IH]; intros ts s1 s2 Hc Hne H1 H2 E.
  - exists ts. split; [done |]. intros Hd. apply Hne. by eapply Hd.
  - destruct Hc as (Hs & Ht & Hc). destruct (create_dom ts self t Hs Ht) as (ts1 & E1 & Hdom).
    destruct (create_extends _ _ _ _ Ht E1 _ _ H1) as (x1 & Hx1 & En1).
    destruct (create_extends _ _ _ _ Ht E1 _ _ H2) as (x2 & Hx2 & En2).
    destruct (IH ts1 x1 x2) as (ts' & E' & Hd); [by rewrite Hdom | done.. | congruence |].
    exists ts'. split; [| done]. cbn [create_all]. by rewrite (M_run_bind _ _ _ _ _ E1).
Qed.

(** No name has a separator of paths or begins with a digit. *)
Definition plain_name (n : bytes) : Prop := ("/"%byte ∉ n) /\ own_name n.
Definition plain_names (ts : threads) : Prop := forall t s, ts !! t = Some s -> plain_name (name s).

Lemma create_all_plain l ts ts' : plain_names ts -> create_all l ts = Ok (tt, ts') -> plain_names ts'.
Proof.
  revert ts. induction l as [|[self t] l IH]; intros ts Hp E; [by injection E as <- |].
  cbn [create_all] in E. apply M_bind_Ok in E as ([] & ts1 & E1 & E). apply (IH ts1); [| done].
  clear IH E. unfold pthread_create in E1. apply M_bind_Ok in E1 as ([] & ts0 & E0 & E1).
  assert (plain_names ts0) as Hp0.
  { unfold real_pthread_create in E0. destruct (ts !! self) as [s|] eqn:Hs; [| done]. injection E0 as <-.
    intros t1 s1 [[_ <-] | [_ H1]]%lookup_insert_Some; [by apply (Hp self s) | by apply (Hp t1 s1)]. }
  unfold name_thread in E1. destruct (ts0 !! self) as [s|] eqn:Hs; [| done].
  pose proof (Hp0 _ _ Hs) as Hself. apply M_bind_Ok in E1 as ([] & ts2 & [= <-] & [= <-]).
  assert (plain_names (<[self := {| name := name s; threadCouner := u64 (threadCouner s + 1) |}]> ts0)) as Hp2.
  { intros t1 s1 [[_ <-] | [_ H1]]%lookup_insert_Some; [done | by apply (Hp0 t1 s1)]. }
  destruct (_ !! t) as [s2|]; [| done]. destruct (_ <=? 15)%nat; [| done].
  intros t1 s1 [[_ <-] | [_ H1]]%lookup_insert_Some; [| by apply (Hp2 t1 s1)]. cbn.
  destruct Hself as [Hself Hown]. split; [| by apply own_name_app].
  intros [Hin | [Heq | Hin]%elem_of_cons]%elem_of_app; [done.. |]. by eapply to_string_no_slash.
Qed.


