(* ===== verification/RecordThreads.v ===== *)
(** * RecordThreads: the record plugin in all threads of a program

    The record plugin of a process: what is [thread_local] is kept per thread,
    everything else is shared.  A thread stands at a place of its calls, and the
    scheduler lets any thread do its next statement; where [handleSelectBinary]
    tests the shared flag and takes the mutex, every statement is one of these
    steps.  A thread's trace is what RecordProps says of it alone, but for the
    calls that wait for the mutex while another thread sets the flag. *)

From S2P Require Import Prelude Streams Trace PiCall Images Recorder RecordProps Replayer ReplayProps.
From S2P Require Import Sample Threads.

(** ** The files of a thread *)

Section frame.
Context `{Thread, Plugin, PiHeaders, Protobuf APICall, Protobuf DeviceBinary}.
Context (R : bool -> bool -> Prop) `{!PreOrder R}.

(** The files a thread writes: its trace, its memory objects, and those of the
    binaries. *)
Definition own_file (p : bytes) : Prop :=
  p = trace_path \/ (exists i, p = buffer_path (mem_file_name i)) \/
  exists c l, is_digit c = true /\ p = path_join traceDir (c :: l).

(** The thread's handler appends to the thread's trace. *)
Definition tidy (s : recording) : Prop := forall h, GRecordHandler s = Some h -> mOS h = trace_path.

(** A computation of the thread leaves the files of others alone, and the flag as
    [R] says. *)
Definition frames {A} (m : M recording A) : Prop := forall s, tidy s ->
  holds m s (fun _ s' => tidy s' /\ R (GBinariesCollected s) (GBinariesCollected s') /\
    forall p, ~ own_file p -> disk s' !! p = disk s !! p).

Lemma frames_ret {A} (a : A) : frames (mret a).
Proof. intros s Hs. by apply holds_ret. Qed.
Lemma frames_lift {A} (x : outcome A) : frames (lift x).
Proof. intros s Hs. by apply holds_lift. Qed.
Lemma frames_get : frames get.
Proof. intros s Hs a s' [= <- <-]. by split. Qed.
Lemma frames_bind {A B} (m : M recording A) (f : A -> M recording B) :
  frames m -> (forall a, frames (f a)) -> frames (m ≫= f).
Proof.
  intros Hm Hf s Hs. apply holds_bind. eapply holds_mono; [by apply Hm |]. intros a s1 (Hs1 & Hr1 & Hd1).
  eapply holds_mono; [by apply Hf |]. intros b s2 (Hs2 & Hr2 & Hd2). split; [done |].
  split; [by etransitivity |]. intros p Hp. by rewrite Hd2, Hd1.
Qed.
Lemma frames_with_handler {A} (f : RecordHandler -> M recording A) :
  (forall h, mOS h = trace_path -> frames (f h)) -> frames (with_handler f).
Proof.
  intros Hf s Hs. unfold with_handler. intros a s' E. destruct (GRecordHandler s) as [h|] eqn:Eh; [| done].
  exact (Hf h (Hs h Eh) s Hs a s' E).
Qed.
Lemma frames_set_handler h : mOS h = trace_path -> frames (modify (set_handler h)).
Proof. intros Ho s Hs [] s' [= <-]. split; [by intros h' [= <-] | done]. Qed.
Lemma frames_memory (f : memory -> memory) : frames (modify (fun s => set_app (f (app s)) s)).
Proof. intros s Hs [] s' [= <-]. by split. Qed.
Lemma frames_collected : (forall b, R b true) -> frames (modify (set_collected true)).
Proof. intros Hr s Hs [] s' [= <-]. by split. Qed.
Lemma frames_lock : frames lock.
Proof. intros s Hs [] s'. unfold lock. destruct (GBinariesMutex s); [done |]. intros [= <-]. by split. Qed.
Lemma frames_unlock : frames unlock.
Proof. intros s Hs [] s' [= <-]. by split. Qed.
Lemma frames_load p n : frames (load_bytes p n).
Proof. intros s Hs l s' [-> _]%load_bytes_Ok. done. Qed.
Lemma frames_append p l : own_file p -> frames (append_file p l).
Proof.
  intros Hp s Hs [] s' [= <-]. split; [done |]. split; [done |]. intros q Hq. cbn. apply lookup_insert_ne. congruence.
Qed.
Lemma frames_write p l : own_file p -> frames (write_file p l).
Proof.
  intros Hp s Hs [] s' [= <-]. split; [done |]. split; [done |]. intros q Hq. cbn. apply lookup_insert_ne. congruence.
Qed.
Lemma frames_new_record res args : frames (new_record res args).
Proof.
  apply frames_with_handler. intros h _. apply frames_bind; [apply frames_lift |]. intros r.
  apply frames_bind; [apply frames_get |]. intros s. apply frames_ret.
Qed.
Lemma frames_serialize call : frames (serialize_to call).
Proof. apply frames_with_handler. intros h ->. apply frames_append. by left. Qed.
Lemma frames_output p n call : frames (add_output_at p n call).
Proof.
  unfold add_output_at. destruct (p =? 0); [apply frames_ret |].
  apply frames_bind; [apply frames_load |]. intros. apply frames_ret.
Qed.
Lemma frames_save event size (data : M recording Z) call : frames data ->
  frames (save_mem_obj event size data call).
Proof.
  intros Hd. apply frames_with_handler. intros h _.
  apply frames_bind; [apply frames_memory |]. intros _. apply frames_bind; [done |]. intros p.
  apply frames_bind; [apply frames_load |]. intros c.
  apply frames_bind; [apply frames_write; right; left; by eexists |]. intros _. apply frames_ret.
Qed.
Lemma frames_load_pointer p : frames (load_pointer p).
Proof. apply frames_bind; [apply frames_load |]. intros. apply frames_ret. Qed.

Lemma frames_binary binaries i : frames (collect_binary binaries i).
Proof.
  intros s Hs [] s' E. unfold collect_binary in E.
  destruct (binary_at (app s) binaries i) as [binary|]; [| done].
  destruct (DeviceTargetSpec binary) as [target|]; [| done].
  apply M_bind_Ok in E as ([] & s0 & [= <-] & [= <-]). split; [done |]. split; [done |]. intros p Hp.
  destruct (to_string_head i) as (c & l & -> & Hc). cbn [disk set_disk].
  rewrite !lookup_insert_ne; [done | |]; intros <-; apply Hp; right; right; by eexists _, _.
Qed.
Lemma frames_collect binaries i n : frames (collect_binaries binaries i n).
Proof.
  revert i. induction n as [|n IH]; intros i; [apply frames_ret |].
  apply frames_bind; [apply frames_binary | intros _; apply IH].
Qed.

Ltac frames := repeat first
  [ apply frames_ret | apply frames_new_record | apply frames_serialize | apply frames_output
  | apply frames_save | apply frames_load_pointer | apply frames_load | apply frames_get
  | apply frames_binary | apply frames_collect | apply frames_lock | apply frames_unlock
  | apply frames_collected; assumption
  | apply frames_bind; [| intros ?]
  | match goal with |- frames (if ?b then _ else _) => destruct b end ].

Lemma frames_selection res a b c d : frames (record_selection res a b c d).
Proof. unfold record_selection. frames. Qed.

Lemma frames_select res a b c d p : (forall b, R b true) -> frames (select_step res a b c d p).
Proof. intros Hr. destruct p; cbn [select_step]; frames; apply frames_selection. Qed.

Lemma frames_handler h res call :
  Call.kind call <> PiApiKind.piextDeviceSelectBinary \/ (forall b, R b true) ->
  frames (mArgHandler h res call).
Proof.
  intros Hr. destruct call; cbn [mArgHandler];
    unfold handleSelectBinary, basicHandler, handlePlatformsGet, handleDevicesGet, handleGetInfo, handleKernelGetGroupInfo,
      handleEnqueueMemBufferMap, handleEnqueueMemBufferRead, handleUSMEnqueueMemcpy; frames.
  all: try apply frames_selection. destruct Hr as [? | Hr]; [done |]. by apply frames_collected.
Qed.

(** A callback leaves the files of others alone. *)
Lemma frames_begin skip now : frames (tpCallback skip now function_with_args_begin).
Proof.
  apply frames_bind; [apply frames_get |]. intros s. apply frames_bind.
  - destruct (GRecordHandler s); [apply frames_ret |].
    apply frames_bind; [apply frames_append; by left |]. intros _.
    by apply frames_set_handler.
  - intros _. apply frames_with_handler. intros h Ho. by apply frames_set_handler.
Qed.

Lemma frames_stamp now : frames (timestamp_end now).
Proof. apply frames_with_handler. intros h Ho. by apply frames_set_handler. Qed.
Lemma frames_last eventId funcId : frames (set_last eventId funcId).
Proof. apply frames_with_handler. intros h Ho. by apply frames_set_handler. Qed.
End frame.

(** ** A thread and its calls *)

#[global] Instance select_pc_eq_dec : EqDecision select_pc.
Proof. solve_decision. Defined.

(** Where a thread is: in the program; in a call that has begun; in [tpCallback]
    for its end, after [timestamp_end]; at the start of its handler; inside
    [handleSelectBinary]. *)
Inductive place : Type :=
  | Idle
  | Called (e : event)
  | Stamped (e : event)
  | Handling (e : event)
  | Selecting (e : event) (p : select_pc).

(** A thread: its place, the calls it will still make, and those it has made, each
    with whether its handler got to the record. *)
Record worker := { at_ : place; todo : list event; made : list (event * bool) }.

Definition go (p : place) (w : worker) : worker := {| at_ := p; todo := todo w; made := made w |}.
Definition done_ (e : event) (recorded : bool) (w : worker) : worker :=
  {| at_ := Idle; todo := todo w; made := made w ++ [(e, recorded)] |}.

(** The handler of a call: [handleSelectBinary] is entered, the others run. *)
Definition handler_of (e : event) : place :=
  match ev_call e with
  | Call.piextDeviceSelectBinary _ _ _ _ => Selecting e Check
  | _ => Handling e
  end.

Section statement.
Context `{Thread, Plugin, PiHeaders, Protobuf APICall, Protobuf DeviceBinary}.

(** The next statement of a thread.  While a call is in its handler the memory is
    as the call left it. *)
Definition statement (skip : bool) (w : worker) : M recording worker :=
  match at_ w with
  | Idle =>
      match todo w with
      | [] => mret w
      | e :: es =>
          _ ← tpCallback skip (ev_begin e) function_with_args_begin;
          mret {| at_ := Called e; todo := es; made := made w |}
      end
  | Called e =>
      _ ← modify (set_app (ev_memory e));
      s ← get;
      match GRecordHandler s with
      | None => mret (done_ e false w)
      | Some _ => _ ← timestamp_end (ev_end e); mret (go (Stamped e) w)
      end
  | Stamped e =>
      _ ← set_last (ev_instance e) (kind_id (Call.kind (ev_call e)));
      mret (go (handler_of e) w)
  | Handling e =>
      _ ← modify (set_app (ev_memory e));
      _ ← with_handler (fun h => mArgHandler h (Some (ev_result e)) (ev_call e));
      mret (done_ e true w)
  | Selecting e p =>
      match ev_call e with
      | Call.piextDeviceSelectBinary device binaries numBinaries selectedBinary =>
          _ ← modify (set_app (ev_memory e));
          next ← select_step (Some (ev_result e)) device binaries numBinaries selectedBinary p;
          mret (match next with
                | Some p' => go (Selecting e p') w
                | None => done_ e (match p with Fill => true | _ => false end) w
                end)
      | _ => mret w
      end
  end.

End statement.

(** The calls of a thread, in order. *)
Definition current (w : worker) : list event :=
  match at_ w with
  | Idle => []
  | Called e | Stamped e | Handling e | Selecting e _ => [e]
  end.
Definition calls_of (w : worker) : list event := map fst (made w) ++ current w ++ todo w.
Definition recorded (l : list (event * bool)) : list event :=
  omap (fun x => if x.2 : bool then Some x.1 else None) l.

(** ** All threads *)

Section threads.
Context `{Plugin, PiHeaders, Protobuf APICall, Protobuf DeviceBinary}.

(** The thread [t] of a program whose data path is [dir]. *)
Definition thread (dir : bytes) (ts : threads) (t : Z) : Thread :=
  {| traceDir := dir; threadName := match ts !! t with Some s => name s | None => [] end |}.

(** The threads with their handlers, and what they share ([GRecordHandler] of
    [shared] is not used). *)
Record recorded_process := { handlers : gmap Z RecordHandler; workers : gmap Z worker; shared : recording }.

Definition view (t : Z) (g : recorded_process) : recording :=
  {| GBinariesCollected := GBinariesCollected (shared g); GBinariesMutex := GBinariesMutex (shared g);
     GRecordHandler := handlers g !! t; GStartTime := GStartTime (shared g); disk := disk (shared g);
     Recorder.app := Recorder.app (shared g) |}.

(** The scheduler lets the thread [t] do its next statement; when it waits for the
    mutex, or there is no such thread, nothing happens. *)
Definition move (dir : bytes) (ts : threads) (skip : bool) (t : Z) : M recorded_process unit := fun g =>
  match workers g !! t with
  | None => Ok (tt, g)
  | Some w =>
      match statement (H := thread dir ts t) skip w (view t g) with
      | Ok (w', s) =>
          Ok (tt, {| handlers := partial_alter (fun _ => GRecordHandler s) t (handlers g);
                     workers := <[t := w']> (workers g); shared := s |})
      | Blocked => Ok (tt, g)
      | Throw what => Throw what
      | Terminate => Terminate
      | Exit code => Exit code
      | UB => UB
      end
  end.

Fixpoint record_threads (dir : bytes) (ts : threads) (skip : bool) (schedule : list Z)
    : M recorded_process unit :=
  match schedule with
  | [] => mret tt
  | t :: schedule => _ ← move dir ts skip t; record_threads dir ts skip schedule
  end.

(** The program with the calls that each thread will make. *)
Definition launched (ts : threads) (es : Z -> list event) (s : recording) : recorded_process :=
  {| handlers := ∅; shared := s;
     workers := map_imap (fun t _ => Some {| at_ := Idle; todo := es t; made := [] |}) ts |}.
End threads.

(** ** The statements of a thread are its callbacks *)

Section alone.
Context `{Thread, Plugin, PiHeaders, Protobuf APICall, Protobuf DeviceBinary}.

(** A thread that is scheduled [n] times in a row. *)
Fixpoint statements (skip : bool) (n : nat) (w : worker) : M recording worker :=
  match n with
  | O => mret w
  | S n => w ← statement skip w; statements skip n w
  end.

Lemma statements_step skip n w s w1 s1 : statement skip w s = Ok (w1, s1) ->
  statements skip (S n) w s = statements skip n w1 s1.
Proof. apply (M_run_bind (statement skip w) (statements skip n)). Qed.

Lemma set_app_same m s : app s = m -> set_app m s = s.
Proof. intros <-. by destruct s. Qed.

(** One statement of [handleSelectBinary], in a memory that is the call's. *)
Lemma selecting_step skip n e p w s a b c d next s1 :
  at_ w = Selecting e p -> ev_call e = Call.piextDeviceSelectBinary a b c d -> app s = ev_memory e ->
  select_step (Some (ev_result e)) a b c d p s = Ok (next, s1) ->
  statements skip (S n) w s =
  statements skip n (match next with
                     | Some p' => go (Selecting e p') w
                     | None => done_ e (match p with Fill => true | _ => false end) w
                     end) s1.
Proof.
  intros Hw Hc Ha E. apply statements_step. unfold statement. rewrite Hw, Hc.
  unfold mbind at 1, M_mbind at 1. cbn [modify outcome_mbind mbind outcome_bind].
  rewrite set_app_same by done. by rewrite (M_run_bind _ _ _ _ _ E).
Qed.

Lemma collecting_steps skip m e w a b c d k i s s1 :
  ev_call e = Call.piextDeviceSelectBinary a b c d -> app s = ev_memory e ->
  (k = 0%nat \/ i + Z.of_nat k <= c) -> collect_binaries b i k s = Ok (tt, s1) ->
  statements skip (k + m) (go (Selecting e (Collect i)) w) s =
  statements skip m (go (Selecting e (Collect (i + Z.of_nat k))) w) s1 /\ app s1 = ev_memory e /\
  GBinariesMutex s1 = GBinariesMutex s.
Proof.
  intros Hc. revert i s. induction k as [|k IH]; intros i s Ha Hi E.
  { injection E as <-. by rewrite Z.add_0_r. }
  cbn [collect_binaries] in E. apply M_bind_Ok in E as ([] & s0 & E & E').
  assert (app s0 = ev_memory e /\ GBinariesMutex s0 = GBinariesMutex s) as [Ha0 Hm0].
  { unfold collect_binary in E. destruct (binary_at (app s) b i) as [x|]; [| done].
    destruct (DeviceTargetSpec x); [| done]. apply M_bind_Ok in E as ([] & ? & [= <-] & [= <-]). by split. }
  assert (select_step (Some (ev_result e)) a b c d (Collect i) s = Ok (Some (Collect (i + 1)), s0)) as Es.
  { cbn [select_step]. rewrite (proj2 (Z.ltb_lt _ _)) by lia. by rewrite (M_run_bind _ _ _ _ _ E). }
  destruct (IH (i + 1) s0 Ha0 ltac:(lia) E') as (Er & Ha1 & Hm1).
  split; [| split; [done | congruence]]. cbn [Nat.add].
  rewrite (selecting_step skip (k + m) e (Collect i) (go (Selecting e (Collect i)) w) s a b c d _ s0 eq_refl Hc Ha Es).
  change (go (Selecting e (Collect (i + 1))) (go (Selecting e (Collect i)) w))
    with (go (Selecting e (Collect (i + 1))) w).
  rewrite Er. do 4 f_equal. lia.
Qed.

(** [handleSelectBinary] is its statements, when nobody comes in between. *)
Lemma select_alone skip e w s a b c d s1 :
  at_ w = Selecting e Check -> ev_call e = Call.piextDeviceSelectBinary a b c d -> app s = ev_memory e ->
  handleSelectBinary (Some (ev_result e)) a b c d s = Ok (tt, s1) ->
  exists n, statements skip n w s = Ok (done_ e true w, s1).
Proof.
  intros Hw Hc Ha E. unfold handleSelectBinary in E.
  apply M_bind_Ok in E as (? & ? & [= <- <-] & E).
  pose proof (fun n p w s next s1 => selecting_step skip n e p w s a b c d next s1) as Hstep.
  assert (forall w' s', at_ w' = Selecting e Fill -> app s' = ev_memory e ->
    record_selection (Some (ev_result e)) a b c d s' = Ok (tt, s1) ->
    statements skip 1 w' s' = Ok (done_ e true w', s1)) as Hfill.
  { intros w' s' Hw' Ha' Er. rewrite (Hstep 0%nat Fill w' s' None s1); [done.. |].
    cbn [select_step]. by rewrite (M_run_bind _ _ _ _ _ Er). }
  destruct (GBinariesCollected s) eqn:Hf.
  { exists 2%nat. rewrite (Hstep 1%nat Check w s (Some Fill) s); [by rewrite Hfill | done.. |].
    cbn [select_step]. unfold mbind, M_mbind. cbn. by rewrite Hf. }
  apply M_bind_Ok in E as ([] & s2 & El & E). pose proof El as Hl. unfold lock in Hl.
  destruct (GBinariesMutex s) eqn:Hm; [done |]. injection Hl as <-.
  apply M_bind_Ok in E as (? & ? & [= <- <-] & E). cbn [GBinariesCollected set_mutex] in E. rewrite Hf in E.
  apply M_bind_Ok in E as ([] & s3 & [= <-] & E). apply M_bind_Ok in E as ([] & s4 & Ec & E).
  apply M_bind_Ok in E as ([] & s5 & [= <-] & E).
  destruct (collecting_steps skip 2 e w a b c d (Z.to_nat c) 0
    (set_collected true (set_mutex true s)) s4 Hc Ha ltac:(lia) Ec) as (Er & Ha4 & _).
  exists (4 + (Z.to_nat c + 2))%nat. cbn [Nat.add].
  rewrite (Hstep _ Check w s (Some Lock) s); [| done.. | cbn [select_step]; unfold mbind, M_mbind; cbn; by rewrite Hf].
  rewrite (Hstep _ Lock _ s (Some Recheck) (set_mutex true s));
    [| done.. | cbn [select_step]; by rewrite (M_run_bind _ _ _ _ _ El)].
  rewrite (Hstep _ Recheck _ _ (Some SetFlag) (set_mutex true s));
    [| done.. | cbn [select_step]; unfold mbind, M_mbind; cbn; by rewrite Hf].
  rewrite (Hstep _ SetFlag _ _ (Some (Collect 0)) (set_collected true (set_mutex true s))); [| done..].
  etransitivity; [exact Er |].
  rewrite (Hstep 1%nat (Collect (0 + Z.of_nat (Z.to_nat c))) _ s4 (Some Fill) (set_mutex false s4)); [| done.. |].
  - by rewrite Hfill.
  - cbn [select_step]. rewrite (proj2 (Z.ltb_ge _ _)) by lia. done.
Qed.

Lemma begin_handler skip now s s1 : tpCallback skip now function_with_args_begin s = Ok (tt, s1) ->
  is_Some (GRecordHandler s1).
Proof.
  intros E. unfold tpCallback in E. apply M_bind_Ok in E as (? & ? & [= <- <-] & E).
  apply M_bind_Ok in E as ([] & s2 & _ & E). unfold timestamp_begin, with_handler in E.
  destruct (GRecordHandler s2); [| done]. injection E as <-. by eexists.
Qed.

Lemma statements_app skip n m w s w1 s1 : statements skip n w s = Ok (w1, s1) ->
  statements skip (n + m) w s = statements skip m w1 s1.
Proof.
  revert w s. induction n as [|n IH]; intros w s E; [by injection E as <- <- |].
  cbn [statements Nat.add] in *. apply M_bind_Ok in E as (w2 & s2 & E2 & E).
  rewrite (M_run_bind _ _ _ _ _ E2). by apply IH.
Qed.

(** A thread that is alone does with a call what the two callbacks of record.cpp
    do, one after the other. *)
Lemma record_event_alone skip e es w s s1 :
  at_ w = Idle -> todo w = e :: es -> record_event skip e s = Ok (tt, s1) ->
  exists n, statements skip n w s =
    Ok ({| at_ := Idle; todo := es; made := made w ++ [(e, true)] |}, s1).
Proof.
  intros Hw Ht E. unfold record_event in E. apply M_bind_Ok in E as ([] & s2 & Eb & E).
  pose proof (begin_handler _ _ _ _ Eb) as [h Hh].
  apply M_bind_Ok in E as ([] & s3 & [= <-] & E). unfold tpCallback in E.
  apply M_bind_Ok in E as (? & ? & [= <- <-] & E). cbn [GRecordHandler set_app] in E. rewrite Hh in E.
  apply M_bind_Ok in E as ([] & s4 & Es & E). unfold handle in E. apply M_bind_Ok in E as ([] & s5 & El & E).
  assert (app s5 = ev_memory e) as Ha.
  { unfold timestamp_end, set_last, with_handler in Es, El. cbn [GRecordHandler set_app] in Es. rewrite Hh in Es.
    injection Es as <-. cbn [GRecordHandler set_handler] in El. by injection El as <-. }
  set (w1 := {| at_ := Idle; todo := es; made := made w |}).
  assert (statements skip 3 w s = Ok (go (handler_of e) w1, s5)) as E3.
  { rewrite (statements_step skip 2 w s (go (Called e) w1) s2)
      by (unfold statement; rewrite Hw, Ht; by rewrite (M_run_bind _ _ _ _ _ Eb)).
    rewrite (statements_step skip 1 _ s2 (go (Stamped e) w1) s4).
    - rewrite (statements_step skip 0 _ s4 (go (handler_of e) w1) s5); [done |].
      unfold statement. cbn [at_ go]. by rewrite (M_run_bind _ _ _ _ _ El).
    - unfold statement. cbn [at_ go]. unfold mbind at 1, M_mbind at 1. cbn [modify outcome_mbind mbind outcome_bind].
      unfold mbind at 1, M_mbind at 1. cbn [get outcome_mbind mbind outcome_bind GRecordHandler set_app].
      rewrite Hh. by rewrite (M_run_bind _ _ _ _ _ Es). }
  enough (exists n, statements skip n (go (handler_of e) w1) s5 = Ok (done_ e true w1, s1)) as [n En]
    by (exists (3 + n)%nat; by rewrite (statements_app _ _ _ _ _ _ _ E3), En).
  destruct (decide (Call.kind (ev_call e) = PiApiKind.piextDeviceSelectBinary)) as [Hk | Hk].
  - destruct (ev_call e) eqn:Hc; try done.
    unfold handler_of. rewrite Hc. unfold with_handler in E. destruct (GRecordHandler s5); [| done].
    destruct (select_alone skip e (go (Selecting e Check) w1) s5 _ _ _ _ s1 eq_refl Hc Ha E) as [n En].
    by exists n.
  - exists 1%nat. assert (handler_of e = Handling e) as -> by (unfold handler_of; by destruct (ev_call e)).
    rewrite (statements_step skip 0 _ s5 (done_ e true w1) s1); [done |].
    unfold statement. cbn [at_ go]. unfold mbind at 1, M_mbind at 1.
    cbn [modify outcome_mbind mbind outcome_bind]. rewrite set_app_same by done.
    by rewrite (M_run_bind _ _ _ _ _ E).
Qed.
End alone.

(** ** The trace of a thread *)

Lemma recorded_app l l' : recorded (l ++ l') = recorded l ++ recorded l'.
Proof. apply omap_app. Qed.

Section progress.
Context `{Thread, Plugin, PiHeaders, Protobuf APICall, Protobuf DeviceBinary}.

Definition selects (e : event) : Prop := Call.kind (ev_call e) = PiApiKind.piextDeviceSelectBinary.

(** The handler of the thread knows the call that is in it. *)
Definition entered (e : event) (s : recording) : Prop :=
  exists h, GRecordHandler s = Some h /\ mLastEventId h = ev_instance e /\
    mLastFunctionId h = kind_id (Call.kind (ev_call e)).

Definition placed (p : place) (s : recording) : Prop :=
  match p with
  | Idle => True
  | Called _ | Stamped _ => is_Some (GRecordHandler s)
  | Handling e => ~ selects e /\ entered e s
  | Selecting e _ => selects e /\ entered e s
  end.

(** Since the thread had made the calls [base] and its trace was [c0], the trace
    has grown by the records of its recorded calls. *)
Record progress (skip : bool) (base : list (event * bool)) (c0 : bytes) (w : worker) (s : recording) : Prop := {
  pr_own : own_trace skip s;
  pr_place : placed (at_ w) s;
  pr_trace : exists later recs, made w = base ++ later /\ Forall2 (records skip) (recorded later) recs /\
    default [] (disk s !! trace_path) = c0 ++ trace_of recs;
  pr_lost : Forall (fun x => x.2 = false -> selects x.1) (made w);
}.

(** The thread moves on without touching its trace. *)
Lemma progress_go skip base c0 w w' s s' : progress skip base c0 w s -> made w' = made w ->
  own_trace skip s' -> placed (at_ w') s' ->
  default [] (disk s' !! trace_path) = default [] (disk s !! trace_path) ->
  progress skip base c0 w' s'.
Proof. intros [Ho Hp Ht Hl] Hm Ho' Hp' Hd. split; [done | done | by rewrite Hm, Hd | by rewrite Hm]. Qed.

(** Another thread moves. *)
Lemma progress_other skip base c0 w s s' : progress skip base c0 w s ->
  GRecordHandler s' = GRecordHandler s -> disk s' !! trace_path = disk s !! trace_path ->
  progress skip base c0 w s'.
Proof.
  intros Hw Hh Hd. eapply progress_go; [exact Hw | done | | | by rewrite Hd].
  - unfold own_trace. rewrite Hh. apply Hw.
  - pose proof (pr_place _ _ _ _ _ Hw) as Hp. unfold placed, entered in *. by rewrite Hh.
Qed.

(** A call ends with its record. *)
Lemma progress_record skip base c0 e w s s' h : progress skip base c0 w s ->
  GRecordHandler s = Some h -> entered e s -> appended h (ev_memory e) (ev_result e) (ev_call e) s s' ->
  progress skip base c0 (done_ e true w) s'.
Proof.
  intros [Ho Hp (later & recs & Hm & Hrs & Hd) Hl] Hh (h' & Hh' & Hi & Hf) (Hg & _ & outs & Hout & Hd').
  rewrite Hh in Hh'. injection Hh' as <-. unfold own_trace in Ho. rewrite Hh in Ho. split.
  - unfold own_trace. by rewrite Hg, Hh.
  - done.
  - exists (later ++ [(e, true)]), (recs ++ [record_with h (ev_memory e) (ev_result e)
      (Call.arguments (ev_call e)) (mjoin outs) (mem_objs_of h (ev_call e))]). cbn [made done_]. rewrite Hm, <-app_assoc.
    split; [done |]. split.
    + rewrite recorded_app. apply Forall2_app; [exact Hrs |]. constructor; [| constructor].
      split; [exact Hf |]. split; [done |]. exists outs, h. split; [apply Ho |]. by repeat split.
    + rewrite Hd'. cbn [default]. rewrite Hd. unfold trace_of. rewrite bind_app. cbn. by rewrite app_nil_r, app_assoc.
  - cbn [made done_]. apply Forall_app. split; [done |]. by constructor.
Qed.

(** A [piextDeviceSelectBinary] that returns under the lock. *)
Lemma progress_lost skip base c0 e w s : progress skip base c0 w s -> selects e ->
  progress skip base c0 (done_ e false w) s.
Proof.
  intros [Ho Hp (later & recs & Hm & Hrs & Hd) Hl] He. split; [done | done | |].
  - exists (later ++ [(e, false)]), recs. cbn [made done_]. rewrite Hm, <-app_assoc. split; [done |].
    rewrite recorded_app. cbn. by rewrite app_nil_r.
  - cbn [made done_]. apply Forall_app. split; [done |]. by constructor.
Qed.

(** The statements before the record change neither the handler nor the trace. *)
Lemma select_step_keeps res a b c d p s : own_name threadName -> p <> Fill ->
  holds (select_step res a b c d p) s (fun next s' => GRecordHandler s' = GRecordHandler s /\
    disk s' !! trace_path = disk s !! trace_path /\ (next = None -> p = Recheck)).
Proof.
  intros Hn Hp. destruct p as [| | | | i |]; cbn [select_step]; intros next s' E; try done.
  - apply M_bind_Ok in E as (? & ? & [= <- <-] & E). by injection E as <- <-.
  - apply M_bind_Ok in E as ([] & s1 & E1 & [= <- <-]). unfold lock in E1.
    destruct (GBinariesMutex s); [done |]. by injection E1 as <-.
  - apply M_bind_Ok in E as (? & ? & [= <- <-] & E). destruct (GBinariesCollected s).
    + by apply M_bind_Ok in E as ([] & s1 & [= <-] & [= <- <-]).
    + by injection E as <- <-.
  - by apply M_bind_Ok in E as ([] & s1 & [= <-] & [= <- <-]).
  - destruct (i <? c); [| by apply M_bind_Ok in E as ([] & s1 & [= <-] & [= <- <-])].
    apply M_bind_Ok in E as ([] & s1 & E1 & [= <- <-]).
    destruct (collect_binaries_files b i 1 s tt s1) as (Hh & _ & _ & Hd).
    { cbn [collect_binaries]. by rewrite (M_run_bind _ _ _ _ _ E1). }
    split; [done |]. split; [| done]. apply Hd. intros ch l. by apply trace_path_binary.
Qed.

Lemma statement_progress skip base c0 w s : own_name threadName -> progress skip base c0 w s ->
  holds (statement skip w) s (fun w' s' => progress skip base c0 w' s').
Proof.
  intros Hn Hw w' s' E. pose proof (pr_own _ _ _ _ _ Hw) as Ho. pose proof (pr_place _ _ _ _ _ Hw) as Hp.
  unfold statement in E. destruct (at_ w) as [| e | e | e | e p] eqn:Hat; cbn [placed] in Hp.
  - destruct (todo w) as [|e es]; [by injection E as <- <- |].
    apply M_bind_Ok in E as ([] & s1 & Eb & [= <- <-]). apply begin_spec in Eb as (Ho1 & Hh & Hd); [| done].
    by eapply progress_go.
  - apply M_bind_Ok in E as ([] & s1 & [= <-] & E). apply M_bind_Ok in E as (? & ? & [= <- <-] & E).
    cbn [GRecordHandler set_app] in E. destruct Hp as [h Hh]. rewrite Hh in E.
    apply M_bind_Ok in E as ([] & s2 & Es & [= <- <-]). unfold timestamp_end, with_handler in Es.
    cbn [GRecordHandler set_app] in Es. rewrite Hh in Es. injection Es as <-. unfold own_trace in Ho. rewrite Hh in Ho.
    eapply progress_go; [exact Hw | done | exact Ho | by eexists | done].
  - apply M_bind_Ok in E as ([] & s2 & Es & [= <- <-]). destruct Hp as [h Hh].
    unfold set_last, with_handler in Es. rewrite Hh in Es. injection Es as <-.
    unfold own_trace in Ho. rewrite Hh in Ho.
    eapply progress_go; [exact Hw | done | exact Ho | | done]. cbn [at_ go].
    unfold handler_of. destruct (ev_call e) eqn:Hc; cbn [placed]; unfold selects, entered; rewrite Hc;
      (split; [done |]; by eexists).
  - apply M_bind_Ok in E as ([] & s1 & [= <-] & E). apply M_bind_Ok in E as ([] & s2 & E & [= <- <-]).
    destruct Hp as [Hk Hp]. pose proof Hp as (h & Hh & _). unfold with_handler in E. cbn [GRecordHandler set_app] in E.
    rewrite Hh in E. unfold own_trace in Ho. rewrite Hh in Ho.
    apply handler_appended in E; [| done | apply Ho | done].
    apply (progress_record skip base c0 e w (set_app (ev_memory e) s) s2 h); [| done | done | done].
    by apply progress_other with s.
  - destruct Hp as [Hk Hp]. assert (progress skip base c0 w (set_app (ev_memory e) s)) as Hw1
      by by apply progress_other with s.
    unfold selects in Hk. destruct (ev_call e) eqn:Hc; try done.
    apply M_bind_Ok in E as ([] & s1 & [= <-] & E). apply M_bind_Ok in E as (next & s2 & E & [= <- <-]).
    destruct (decide (p = Fill)) as [-> | Hne].
    + cbn [select_step] in E. apply M_bind_Ok in E as ([] & s3 & E & [= <- <-]).
      pose proof Hp as (h & Hh & _). unfold own_trace in Ho. rewrite Hh in Ho.
      apply (selection_appended h _ _ _ _ _ (set_app (ev_memory e) s)) in E; [| done | apply Ho | done..].
      eapply progress_record; [exact Hw1 | exact Hh | exact Hp |]. by rewrite Hc.
    + apply (select_step_keeps _ _ _ _ _ _ _ Hn Hne) in E as (Hh & Hd & Hnone).
      assert (progress skip base c0 w s2) as Hw2 by by apply progress_other with (set_app (ev_memory e) s).
      destruct next as [p' |].
      * eapply progress_go; [exact Hw2 | done | apply Hw2 | | done]. cbn [at_ go placed]. unfold selects.
        rewrite Hc. split; [done |]. unfold entered in *. by rewrite Hh.
      * rewrite (Hnone eq_refl). apply progress_lost; [done |]. unfold selects. by rewrite Hc.
Qed.

(** A statement is of the next call of the thread. *)
Lemma statement_calls skip w s : holds (statement skip w) s (fun w' _ => calls_of w' = calls_of w).
Proof.
  intros w' s' E. unfold statement in E. unfold calls_of, current. destruct (at_ w) as [| e | e | e | e p] eqn:Hat.
  - destruct (todo w) as [|e es] eqn:Ht; [injection E as <- <-; by rewrite Hat, Ht |].
    by apply M_bind_Ok in E as ([] & s1 & _ & [= <- <-]).
  - apply M_bind_Ok in E as ([] & s1 & [= <-] & E). apply M_bind_Ok in E as (? & ? & [= <- <-] & E).
    cbn [GRecordHandler set_app] in E. destruct (GRecordHandler s).
    + by apply M_bind_Ok in E as ([] & s2 & _ & [= <- <-]).
    + injection E as <- <-. cbn. by rewrite map_app, <-app_assoc.
  - apply M_bind_Ok in E as ([] & s2 & _ & [= <- <-]). cbn. unfold handler_of. by destruct (ev_call e).
  - apply M_bind_Ok in E as ([] & s1 & _ & E). apply M_bind_Ok in E as ([] & s2 & _ & [= <- <-]).
    cbn. by rewrite map_app, <-app_assoc.
  - destruct (ev_call e); try (by injection E as <- <-; rewrite Hat).
    apply M_bind_Ok in E as ([] & s1 & _ & E). apply M_bind_Ok in E as (next & s2 & _ & [= <- <-]).
    destruct next; cbn; [done |]. by rewrite map_app, <-app_assoc.
Qed.

(** A statement leaves the files of other threads alone, and so it does with the
    flag if the thread does not select a binary. *)
Lemma frames_statement (R : bool -> bool -> Prop) `{!PreOrder R} skip w :
  (forall e, e ∈ calls_of w -> ~ selects e) \/ (forall b, R b true) -> frames R (statement skip w).
Proof.
  intros Hs. unfold statement, calls_of, current in *.
  assert (forall m, frames R (modify (set_app m))) as Hm by (intros m; apply (frames_memory R (fun _ => m))).
  destruct (at_ w) as [| e | e | e | e p].
  - destruct (todo w); [apply frames_ret; apply _ |].
    apply frames_bind; [apply _ | apply frames_begin; apply _ | intros _; apply frames_ret; apply _].
  - apply frames_bind; [apply _ | apply Hm |]. intros _. apply frames_bind; [apply _ | apply frames_get; apply _ |].
    intros s. destruct (GRecordHandler s); [| apply frames_ret; apply _].
    apply frames_bind; [apply _ | apply frames_stamp; apply _ | intros _; apply frames_ret; apply _].
  - apply frames_bind; [apply _ | apply frames_last; apply _ | intros _; apply frames_ret; apply _].
  - apply frames_bind; [apply _ | apply Hm |]. intros _.
    apply frames_bind; [apply _ | | intros _; apply frames_ret; apply _].
    apply frames_with_handler. intros h _. apply frames_handler; [apply _ |].
    destruct Hs as [Hs | Hs]; [left | by right]. apply Hs. set_solver.
  - destruct Hs as [Hs | Hs].
    + assert (~ selects e) as He by (apply Hs; set_solver). unfold selects in He.
      destruct (ev_call e); try (apply frames_ret; apply _). done.
    + destruct (ev_call e); try (apply frames_ret; apply _).
      apply frames_bind; [apply _ | apply Hm |]. intros _.
      apply frames_bind; [apply _ | by apply frames_select; [apply _ |] | intros next; apply frames_ret; apply _].
Qed.
End progress.

(** ** Runs of all threads *)

#[global] Instance flag_order : PreOrder (fun a b : bool => a = true -> b = true).
Proof. split; [by intros a | intros a b c; auto]. Qed.
#[global] Instance any_order : PreOrder (fun _ _ : bool => True).
Proof. by split. Qed.

Section process.
Context `{Plugin, PiHeaders, Protobuf APICall, Protobuf DeviceBinary}.
Context (dir : bytes) (ts : threads).

(** Threads with distinct names do not share files. *)
Lemma path_join_inj d n n' : "/"%byte ∉ n -> "/"%byte ∉ n' -> path_join d n = path_join d n' -> n = n'.
Proof.
  intros Hn Hn'. assert (forall m, "/"%byte ∉ m -> list.head m <> Some "/"%byte) as Hh.
  { intros [|c m]; [done |]. intros Hm [= ->]. apply Hm. left. }
  unfold path_join. rewrite (bool_decide_eq_false_2 (list.head n = _)) by by apply Hh.
  rewrite (bool_decide_eq_false_2 (list.head n' = _)) by by apply Hh.
  destruct (bool_decide _); intros E%app_inv_head; [done |]. by injection E.
Qed.

Context (names : distinct ts) (plain : plain_names ts).

Lemma own_names t : is_Some (ts !! t) -> own_name (@threadName (thread dir ts t)).
Proof. intros [s Hs]. cbn. rewrite Hs. by apply (plain t s). Qed.

Lemma other_trace t u : is_Some (ts !! t) -> is_Some (ts !! u) -> t <> u ->
  ~ @own_file (thread dir ts u) (@trace_path (thread dir ts t)).
Proof.
  intros Ht Hu Hne. pose proof Ht as [s Hs]. pose proof Hu as [s' Hs'].
  intros [E | [[i E] | (c & l & Hc & E)]].
  - apply Hne. eapply names; [exact Hs | exact Hs' |]. unfold trace_path, thread in E. cbn in E.
    rewrite Hs, Hs' in E. assert (forall s, "/"%byte ∉ name s -> "/"%byte ∉ name s ++ kPiTraceExt) as Hext.
    { intros x Hx [Hin | Hin]%elem_of_app; [done |]. revert Hin. apply (bool_decide_unpack _). vm_compute. exact I. }
    apply path_join_inj in E; [by apply app_inv_tail in E | by eapply Hext, plain ..].
  - destruct (@trace_path_last (thread dir ts t)) as [p1 E1], (@buffer_path_last (thread dir ts u) i) as [p2 E2].
    eapply last_byte_ne; [| exact E1 | exact E2 | exact E]. done.
  - eapply (@trace_path_binary (thread dir ts t)); [| exact Hc | exact E]. by apply own_names.
Qed.

(** The workers are threads, with handlers on their own traces. *)
Definition well (g : recorded_process) : Prop :=
  (forall t, is_Some (workers g !! t) -> is_Some (ts !! t)) /\
  (forall t, @tidy (thread dir ts t) (view t g)).

Lemma move_Ok skip t g g' : move dir ts skip t g = Ok (tt, g') ->
  g' = g \/ exists w w', workers g !! t = Some w /\
    statement (H := thread dir ts t) skip w (view t g) = Ok (w', view t g') /\
    workers g' = <[t := w']> (workers g) /\
    forall u, u <> t -> GRecordHandler (view u g') = GRecordHandler (view u g).
Proof.
  unfold move. destruct (workers g !! t) as [w|]; [| intros [= <-]; by left].
  destruct (statement _ _ _) as [[w' s] | | | | |] eqn:E; try done; [| intros [= <-]; by left].
  intros [= <-]. right. exists w, w'. split; [done |]. split; [| split; [done |]].
  - rewrite E. do 2 f_equal. destruct s. unfold view. cbn. by rewrite lookup_partial_alter_eq.
  - intros u Hu. cbn. by apply lookup_partial_alter_ne.
Qed.

Lemma move_well skip t g g' : well g -> move dir ts skip t g = Ok (tt, g') -> well g'.
Proof.
  intros [Hw Ht] [-> | (w & w' & Hg & E & Hws & Ho)]%move_Ok; [done |]. split.
  - intros u. rewrite Hws. intros [v [[<- _] | [_ Hu]]%lookup_insert_Some]; apply Hw; by eexists.
  - intros u. destruct (decide (u = t)) as [-> | Hu].
    + apply (frames_statement (H := thread dir ts t) (fun _ _ => True) skip w) in E; [| by right | apply Ht].
      apply E.
    + intros h Hh. rewrite Ho in Hh by done. by apply (Ht u).
Qed.

Lemma record_threads_well skip schedule g g' : well g -> record_threads dir ts skip schedule g = Ok (tt, g') ->
  well g'.
Proof.
  revert g. induction schedule as [|t schedule IH]; intros g Hg E; [by injection E as <- |].
  cbn [record_threads] in E. apply M_bind_Ok in E as ([] & g1 & E1 & E). eapply IH; [| exact E]. by eapply move_well.
Qed.

(** What a thread keeps through its own statements, and through what others may
    do to the flag. *)
Lemma record_threads_ind (R : bool -> bool -> Prop) `{!PreOrder R} skip t (P : worker -> recording -> Prop) :
  (forall w s w' s', P w s -> statement (H := thread dir ts t) skip w s = Ok (w', s') -> P w' s') ->
  (forall w s s', P w s -> GRecordHandler s' = GRecordHandler s ->
     disk s' !! @trace_path (thread dir ts t) = disk s !! @trace_path (thread dir ts t) ->
     R (GBinariesCollected s) (GBinariesCollected s') -> P w s') ->
  forall schedule g w, well g -> workers g !! t = Some w -> P w (view t g) ->
  (forall u v e, u <> t -> workers g !! u = Some v -> e ∈ calls_of v -> ~ selects e) \/ (forall b, R b true) ->
  holds (record_threads dir ts skip schedule) g (fun _ g' =>
    well g' /\ exists w', workers g' !! t = Some w' /\ P w' (view t g')).
Proof.
  intros Hown Hother schedule. induction schedule as [|u schedule IH]; intros g w Hg Hw Hp Hs.
  { apply holds_ret. eauto. }
  cbn [record_threads]. apply holds_bind. intros [] g1 E. pose proof (move_well _ _ _ _ Hg E) as Hg1.
  apply move_Ok in E as [-> | (v & v' & Hv & E & Hws & Ho)]; [by apply (IH g w) |].
  assert ((forall x y e, x <> t -> workers g1 !! x = Some y -> e ∈ calls_of y -> ~ selects e) \/
    (forall b, R b true)) as Hs1.
  { destruct Hs as [Hs | Hs]; [left | by right]. intros x y e Hx. rewrite Hws.
    intros [[<- <-] | [_ Hy]]%lookup_insert_Some; [| by apply (Hs x)].
    rewrite (statement_calls (H := thread dir ts u) skip v (view u g) v' (view u g1) E). by apply (Hs u). }
  destruct (decide (u = t)) as [-> | Hu].
  - rewrite Hw in Hv. injection Hv as <-. apply (IH g1 v'); [done | by rewrite Hws, lookup_insert_eq | | done].
    by eapply Hown.
  - apply (IH g1 w); [done | by rewrite Hws, lookup_insert_ne | | done].
    apply (frames_statement (H := thread dir ts u) R skip v) in E;
      [| destruct Hs as [Hs | Hs]; [left; intros e; by apply (Hs u) | by right] | by apply Hg].
    destruct E as (_ & HR & Hd). apply (Hother w (view t g)); [done | by apply Ho | | exact HR].
    apply (Hd (@trace_path (thread dir ts t))). apply other_trace; [apply Hg; by eexists.. | done].
Qed.
End process.

(** ** Theorems *)

(** The thread is in [handleSelectBinary] and will find the flag as it is: nobody
    has set it since it was seen clear. *)
Definition not_overtaken (w : worker) (s : recording) : Prop :=
  match at_ w with
  | Selecting _ (Lock | Recheck | SetFlag) => GBinariesCollected s = false
  | _ => True
  end.

(** A thread at the mutex: it has seen the flag clear, and waits or tests again. *)
Definition waits (w : worker) (e : event) : Prop := at_ w = Selecting e Lock \/ at_ w = Selecting e Recheck.

Section theorems.
Context `{Thread, Plugin, PiHeaders, Protobuf APICall, Protobuf DeviceBinary}.

Lemma statement_alone skip base c0 w s : own_name threadName -> progress skip base c0 w s ->
  not_overtaken w s /\ Forall (fun x => x.2 = true) (made w) ->
  holds (statement skip w) s (fun w' s' => not_overtaken w' s' /\ Forall (fun x => x.2 = true) (made w')).
Proof.
  intros Hn Hw [Hs Hm] w' s' E. pose proof (pr_place _ _ _ _ _ Hw) as Hp. unfold statement in E.
  unfold not_overtaken in Hs. destruct (at_ w) as [| e | e | e | e p] eqn:Hat; cbn [placed] in Hp.
  - destruct (todo w); [injection E as <- <-; unfold not_overtaken; by rewrite Hat |].
    by apply M_bind_Ok in E as ([] & s1 & Eb & [= <- <-]).
  - apply M_bind_Ok in E as ([] & s1 & [= <-] & E). apply M_bind_Ok in E as (? & ? & [= <- <-] & E).
    cbn [GRecordHandler set_app] in E. destruct Hp as [h Hh]. rewrite Hh in E.
    by apply M_bind_Ok in E as ([] & s2 & Es & [= <- <-]).
  - apply M_bind_Ok in E as ([] & s2 & Es & [= <- <-]). unfold not_overtaken, handler_of. cbn [at_ go made].
    by destruct (ev_call e).
  - apply M_bind_Ok in E as ([] & s1 & _ & E). apply M_bind_Ok in E as ([] & s2 & E & [= <- <-]).
    split; [done |]. cbn [made done_]. apply Forall_app. split; [done | by constructor].
  - destruct Hp as [Hk _]. unfold selects in Hk. destruct (ev_call e); try done.
    apply M_bind_Ok in E as ([] & s1 & [= <-] & E). apply M_bind_Ok in E as (next & s2 & E & [= <- <-]).
    assert (Forall (fun x : event * bool => x.2 = true) (made w ++ [(e, true)])) as Hm'
      by (apply Forall_app; split; [done | by constructor]).
    destruct p; cbn [select_step] in E.
    + apply M_bind_Ok in E as (? & ? & [= <- <-] & [= <- <-]). unfold not_overtaken. cbn.
      destruct (GBinariesCollected s) eqn:Hf; by rewrite ?Hf.
    + apply M_bind_Ok in E as ([] & s1 & E1 & [= <- <-]). unfold lock in E1.
      destruct (GBinariesMutex _); [done |]. by injection E1 as <-.
    + apply M_bind_Ok in E as (? & ? & [= <- <-] & E). cbn [GBinariesCollected set_app] in E. rewrite Hs in E.
      by injection E as <- <-.
    + by apply M_bind_Ok in E as ([] & s1 & [= <-] & [= <- <-]).
    + destruct (_ <? _); by apply M_bind_Ok in E as ([] & s1 & _ & [= <- <-]).
    + by apply M_bind_Ok in E as ([] & s1 & _ & [= <- <-]).
Qed.

(** A thread that waits while the flag is set: it goes on waiting, or has left
    the handler without a record. *)
Definition overtaken (skip : bool) (base : list (event * bool)) (c0 : bytes) (e : event) (w : worker)
    (s : recording) : Prop :=
  GBinariesCollected s = true /\
  (waits w e /\ made w = base /\ progress skip base c0 w s \/
   progress skip (base ++ [(e, false)]) c0 w s).

Lemma statement_overtaken skip base c0 e w s : own_name threadName -> overtaken skip base c0 e w s ->
  holds (statement skip w) s (fun w' s' => overtaken skip base c0 e w' s').
Proof.
  intros Hn [Hf Hw] w' s' E.
  assert (tidy s) as Ht.
  { intros h Hh. destruct Hw as [(_ & _ & Hw) | Hw]; pose proof (pr_own _ _ _ _ _ Hw) as Ho;
      unfold own_trace in Ho; rewrite Hh in Ho; apply Ho. }
  destruct (frames_statement (fun a b => a = true -> b = true) skip w (or_intror (fun _ _ => eq_refl)) s Ht w' s' E)
    as (_ & Hf' & _).
  split; [by apply Hf' |]. destruct Hw as [(Hat & Hm & Hw) | Hw];
    [| right; by eapply statement_progress in E].
  pose proof (statement_progress _ _ _ _ _ Hn Hw _ _ E) as Hw'. unfold statement in E.
  pose proof (pr_place _ _ _ _ _ Hw) as Hp. destruct Hat as [Hat | Hat]; rewrite Hat in E, Hp; destruct Hp as [Hk _];
    unfold selects in Hk; destruct (ev_call e); try done;
    apply M_bind_Ok in E as ([] & s1 & [= <-] & E); apply M_bind_Ok in E as (next & s2 & E & [= <- <-]);
    cbn [select_step] in E.
  - apply M_bind_Ok in E as ([] & s3 & E & [= <- <-]). left. split; [by right | done].
  - apply M_bind_Ok in E as (? & ? & [= <- <-] & E). cbn [GBinariesCollected set_app] in E. rewrite Hf in E.
    apply M_bind_Ok in E as ([] & s3 & [= <-] & [= <- <-]). right.
    destruct Hw' as [Ho Hp (later & recs & Hl & Hrs & Hd) Hlost]. cbn [made done_] in *. rewrite Hm in *.
    apply app_inv_head in Hl. subst later. apply Forall2_nil_inv_l in Hrs as ->.
    split; [done | done | | cbn [made done_]; by rewrite Hm]. exists [], []. cbn [made done_]. by rewrite Hm, app_nil_r.
Qed.
End theorems.

Section program.
Context `{Plugin, PiHeaders, Protobuf APICall, Protobuf DeviceBinary}.
Context (dir : bytes) (main : Z) (l : list (Z * Z)) (ts : threads).
Context (made_threads : create_all l (<[main := {| name := #"main"; threadCouner := 0 |}]> ∅) = Ok (tt, ts)).
Context (names : distinct ts).

Lemma program_plain : plain_names ts.
Proof.
  eapply create_all_plain; [| exact made_threads]. intros t s [[_ <-] | [_ Hn]]%lookup_insert_Some.
  - split; [apply (bool_decide_unpack _); vm_compute; exact I | done].
  - by rewrite lookup_empty in Hn.
Qed.

Lemma launched_worker es s t w : workers (launched ts es s) !! t = Some w ->
  is_Some (ts !! t) /\ w = {| at_ := Idle; todo := es t; made := [] |}.
Proof.
  cbn. rewrite map_lookup_imap. destruct (ts !! t) as [x|]; [| done]. cbn. intros [= <-].
  split; [by eexists | done].
Qed.
Lemma launched_thread es s t : is_Some (ts !! t) ->
  workers (launched ts es s) !! t = Some {| at_ := Idle; todo := es t; made := [] |}.
Proof. intros [x Hx]. cbn. by rewrite map_lookup_imap, Hx. Qed.

Lemma launched_well es s : well dir ts (launched ts es s).
Proof.
  split; [intros t [w Hw]; by apply (launched_worker es s t w) |].
  intros t h Hh. cbn in Hh. by rewrite lookup_empty in Hh.
Qed.

Lemma launched_progress skip es s t : disk s !! @trace_path (thread dir ts t) = None ->
  @progress (thread dir ts t) _ _ _ skip [] [] {| at_ := Idle; todo := es t; made := [] |}
    (view t (launched ts es s)).
Proof.
  intros Hd. split; [unfold own_trace; cbn; by rewrite lookup_empty | done | | constructor].
  exists [], []. split; [done |]. split; [constructor |]. cbn [view disk launched shared].
  by rewrite Hd.
Qed.

(** At every moment of a recording, the trace of a thread has the records of the
    calls it has made, in order, but for selections of a binary; and for all of
    them when no other thread selects. *)
Lemma threads_recorded skip es s schedule g t w :
  disk s !! @trace_path (thread dir ts t) = None ->
  record_threads dir ts skip schedule (launched ts es s) = Ok (tt, g) -> workers g !! t = Some w ->
  calls_of w = es t /\ well dir ts g /\ @progress (thread dir ts t) _ _ _ skip [] [] w (view t g) /\
  ((forall u e, u <> t -> e ∈ es u -> ~ selects e) -> Forall (fun x => x.2 = true) (made w)).
Proof.
  intros Hd E Hw. pose proof program_plain as Hplain. set (w0 := {| at_ := Idle; todo := es t; made := [] |}).
  set (P := fun w s => calls_of w = es t /\ @progress (thread dir ts t) _ _ _ skip [] [] w s).
  assert (is_Some (ts !! t)) as Ht
    by (apply (record_threads_well dir ts skip schedule _ _ (launched_well es s) E); by eexists).
  pose proof (own_names dir ts Hplain t Ht) as Hn. pose proof (launched_progress skip es s t Hd) as H0p.
  assert (well dir ts g /\ exists w', workers g !! t = Some w' /\ P w' (view t g)) as (Hg & w' & Hw' & Hp).
  { apply (record_threads_ind dir ts names Hplain (fun _ _ => True) skip t P) with schedule (launched ts es s) w0 tt;
      [| | apply launched_well | by apply launched_thread | by split | by right | exact E].
    - intros w1 s1 w2 s2 [Hc Hp] E'. split; [| by eapply statement_progress in E'].
      by rewrite (statement_calls (H := thread dir ts t) _ _ _ _ _ E').
    - intros w1 s1 s2 [Hc Hp] Hh Hd' _. split; [done |]. by eapply progress_other. }
  rewrite Hw in Hw'. injection Hw' as <-. destruct Hp as [Hc Hp]. split; [done |]. split; [done |]. split; [done |].
  intros Hs. set (Q := fun w s => @progress (thread dir ts t) _ _ _ skip [] [] w s /\
    not_overtaken w s /\ Forall (fun x : event * bool => x.2 = true) (made w)).
  assert (well dir ts g /\ exists w', workers g !! t = Some w' /\ Q w' (view t g)) as (_ & w' & Hw' & Hq).
  { apply (record_threads_ind dir ts names Hplain eq skip t Q) with schedule (launched ts es s) w0 tt;
      [| | apply launched_well | by apply launched_thread
       | split; [exact H0p | split; [done | constructor]] | left | exact E].
    - intros w1 s1 w2 s2 [Hp1 Hq1] E'. split; [by eapply statement_progress in E' |].
      by eapply (statement_alone (H := thread dir ts t)) in E'.
    - intros w1 s1 s2 (Hp1 & Ho & Hm) Hh Hd' Hf. split; [by eapply progress_other |]. split; [| done].
      unfold not_overtaken in *. by rewrite <-Hf.
    - intros u v e Hu [_ ->]%launched_worker. unfold calls_of. cbn. by apply Hs. }
  rewrite Hw in Hw'. injection Hw' as <-. apply Hq.
Qed.

Lemma worker_exists skip es s schedule g t : is_Some (ts !! t) ->
  record_threads dir ts skip schedule (launched ts es s) = Ok (tt, g) -> is_Some (workers g !! t).
Proof.
  intros Ht E. destruct (record_threads_ind dir ts names program_plain (fun _ _ => True) skip t (fun _ _ => True))
    with schedule (launched ts es s) {| at_ := Idle; todo := es t; made := [] |} tt g as (_ & w & Hw & _);
    [done | done | apply launched_well | by apply launched_thread | done | by right | exact E |]. by eexists.
Qed.

(** C40: a call that is lost.  At some moment of a recording a thread is in
    [handleSelectBinary] at the mutex, having seen [GBinariesCollected] clear, and
    meanwhile another thread has set it.  However the threads go on, the thread
    either still waits, or its call has ended without a record: its trace has
    grown by the records of its later calls only. *)
Theorem waiting_call_lost skip es s schedule g1 t w e schedule' g2
    (content := fun g : recorded_process => default [] (disk (shared g) !! @trace_path (thread dir ts t))) :
  disk s !! @trace_path (thread dir ts t) = None ->
  record_threads dir ts skip schedule (launched ts es s) = Ok (tt, g1) ->
  workers g1 !! t = Some w -> waits w e -> GBinariesCollected (shared g1) = true ->
  record_threads dir ts skip schedule' g1 = Ok (tt, g2) ->
  exists w', workers g2 !! t = Some w' /\
    (waits w' e /\ made w' = made w /\ content g2 = content g1 \/
     exists later recs, made w' = made w ++ (e, false) :: later /\
       Forall2 (@records (thread dir ts t) _ _ skip) (recorded later) recs /\
       content g2 = content g1 ++ trace_of recs).
Proof.
  intros Hd E1 Hw Hwait Hf E2. pose proof program_plain as Hplain.
  destruct (threads_recorded skip es s schedule g1 t w Hd E1 Hw) as (_ & Hg & Hp & _).
  assert (is_Some (ts !! t)) as Ht by (apply Hg; by eexists).
  pose proof (own_names dir ts Hplain t Ht) as Hn.
  assert (@progress (thread dir ts t) _ _ _ skip (made w) (content g1) w (view t g1)) as Hp1.
  { destruct Hp as [Ho Hpl _ Hl]. split; [done | done | | done]. exists [], []. split; [by rewrite app_nil_r |].
    split; [constructor |]. by rewrite app_nil_r. }
  destruct (record_threads_ind dir ts names Hplain (fun a b => a = true -> b = true) skip t
    (@overtaken (thread dir ts t) _ _ _ skip (made w) (content g1) e)) with schedule' g1 w tt g2
    as (_ & w' & Hw' & _ & Hcase); [| | done | done | | by right | exact E2 |].
  - intros w1 s1 w2 s2 Hov E'. by eapply (statement_overtaken (H := thread dir ts t)) in E'.
  - intros w1 s1 s2 [Hf1 Hov] Hh Hd' HR. split; [by apply HR |].
    destruct Hov as [(? & ? & ?) | ?]; [left | right; by eapply progress_other].
    split; [done |]. split; [done |]. by eapply progress_other.
  - split; [exact Hf |]. left. by split.
  - exists w'. split; [done |].
    destruct Hcase as [(Hwt & Hm & [_ _ (later & recs & Hl & Hrs & Hc) _]) | [_ _ (later & recs & Hl & Hrs & Hc) _]].
    + left. split; [done |]. split; [done |]. rewrite Hm in Hl. rewrite <-(app_nil_r (made w)) in Hl at 1.
      apply app_inv_head in Hl. subst later. apply Forall2_nil_inv_l in Hrs as ->. cbn in Hc.
      by rewrite app_nil_r in Hc.
    + right. exists later, recs. rewrite Hl, <-app_assoc. by split.
Qed.
End program.

(** Two threads that select a binary at the same time: the first collects the
    binaries, the second waits for it. *)
Definition two_threads : threads :=
  <[2 := {| name := #"main_0"; threadCouner := 0 |}]>
    (<[1 := {| name := #"main"; threadCouner := 1 |}]> ∅).
Definition selection (instance : Z) : event :=
  {| ev_call := Call.piextDeviceSelectBinary 1 2 1 256; ev_result := 0; ev_instance := instance;
     ev_begin := 2000; ev_end := 9000; ev_memory := sample_memory |}.
Definition both_select (t : Z) : list event := [selection t].
Definition not_collected : recording := set_collected false sample_recording.

Lemma two_threads_distinct : distinct two_threads.
Proof.
  assert (forall t s, two_threads !! t = Some s ->
    t = 1 /\ name s = #"main" \/ t = 2 /\ name s = #"main_0") as Ht.
  { unfold two_threads. intros t s [[<- <-] | [_ H]]%lookup_insert_Some; [by right | left].
    apply lookup_insert_Some in H as [[<- <-] | [_ H]]; [done | by rewrite lookup_empty in H]. }
  intros t1 t2 s1 s2 H1 H2 En.
  destruct (Ht t1 s1 H1) as [[-> E1] | [-> E1]], (Ht t2 s2 H2) as [[-> E2] | [-> E2]]; try done;
    rewrite E1, E2 in En; vm_compute in En; discriminate.
Qed.

(** What the run of a schedule leaves of a thread: where it is, and the calls it
    has made. *)
Definition after (x : outcome (unit * recorded_process)) : recorded_process :=
  match x with Ok (_, g) => g | _ => launched ∅ (fun _ => []) sample_recording end.
Lemma after_Ok x : is_ok x = true -> x = Ok (tt, after x).
Proof. by destruct x as [[[] g] | | | | |]. Qed.

Definition at_mutex : recorded_process :=
  after (record_threads #"/tmp/trace" two_threads false [1; 1; 1; 1; 2; 2; 2; 2; 1; 1; 1]
    (launched two_threads both_select not_collected)).
Definition one_lost : recorded_process :=
  after (record_threads #"/tmp/trace" two_threads false [2; 1; 1; 2; 2; 1] at_mutex).

Lemma waiting_call_lost_witness :
  (exists w, workers at_mutex !! 2 = Some w /\ waits w (selection 2)) /\
  exists w', workers one_lost !! 2 = Some w' /\
    (waits w' (selection 2) \/ exists later, made w' = (selection 2, false) :: later).
Proof.
  assert (workers at_mutex !! 2 =
    Some {| at_ := Selecting (selection 2) Lock; todo := []; made := [] |}) as Hw by (vm_compute; reflexivity).
  split; [eexists; split; [exact Hw | by left] |].
  destruct (waiting_call_lost #"/tmp/trace" 1 [(1, 2)] two_threads eq_refl two_threads_distinct false
    both_select not_collected [1; 1; 1; 1; 2; 2; 2; 2; 1; 1; 1] at_mutex 2
    {| at_ := Selecting (selection 2) Lock; todo := []; made := [] |} (selection 2)
    [2; 1; 1; 2; 2; 1] one_lost eq_refl) as (w' & Hw' & Hcase).
  - apply after_Ok. vm_compute. reflexivity.
  - exact Hw.
  - by left.
  - vm_compute. reflexivity.
  - apply after_Ok. vm_compute. reflexivity.
  - exists w'. split; [exact Hw' |]. destruct Hcase as [(H & _) | (later & recs & H & _)]; [by left |].
    right. exists later. exact H.
Defined.

(** The second thread has ended its call, and has no trace but an empty file. *)
Example second_call_lost :
  (fun w => (made w, match at_ w with Idle => true | _ => false end)) <$> workers one_lost !! 2 =
    Some ([(selection 2, false)], true) /\
  disk (shared one_lost) !! #"/tmp/trace/main_0.pi_trace" = Some [].
Proof. split; vm_compute; reflexivity. Qed.
