(* ===== verification/Interleaving.v ===== *)
(** * Interleaving: the threads of a program, recorded and replayed

    The replay plugin in all threads of a process, on the traces that the record
    plugin left of them (RecordThreads): the stream of a thread is its own, the
    maps of handles are shared. *)

From S2P Require Import Prelude Streams Trace PiCall Images Recorder RecordProps Replayer ReplayProps.
From S2P Require Import Sample Threads RecordThreads.

(** What thread [t] does in a list of steps of all threads. *)
Definition of_thread {A} (t : Z) (l : list (Z * A)) : list A :=
  omap (fun x => if bool_decide (x.1 = t) then Some x.2 else None) l.

Lemma of_thread_same {A} t (x : A) l : of_thread t ((t, x) :: l) = x :: of_thread t l.
Proof. unfold of_thread. cbn. by rewrite bool_decide_eq_true_2. Qed.
Lemma of_thread_other {A} t u (x : A) l : u <> t -> of_thread t ((u, x) :: l) = of_thread t l.
Proof. intros Hu. unfold of_thread. cbn. by rewrite bool_decide_eq_false_2. Qed.

(** ** Replaying *)

Section replay.
Context `{Process, Protobuf APICall, PiHeaders} (dir : bytes) (ts : threads).

(** The streams of the threads, and what they share ([GTrace] of [common] is not
    used).  The two maps are shared without a lock; a call is one step here. *)
Record replayed_process := { traces : gmap Z ifstream; common : replayer }.

Definition replayer_of (t : Z) (g : replayed_process) : replayer :=
  set_GTrace (default no_stream (traces g !! t)) (common g).
Definition in_thread {A} (t : Z) (m : M replayer A) : M replayed_process A := fun g =>
  '(a, r) ← m (replayer_of t g);
  Ok (a, {| traces := <[t := GTrace r]> (traces g); common := r |}).

(** A call of a thread, with the memory the program has then: the thread, and
    what it is answered. *)
Definition answer (c : Z * (memory * Call.t)) : M replayed_process (Z * Z) :=
  let _ := thread dir ts c.1 in
  v ← in_thread c.1 (_ ← modify (set_mem c.2.1); piPluginInit c.2.2);
  mret (c.1, v).
Definition replay_threads (l : list (Z * (memory * Call.t))) : M replayed_process (list (Z * Z)) :=
  mapM answer l.

(** At each call of the run, a pointer that the program gives back is null or an
    array of the plugin that is not deleted yet. *)
Definition frees_own (l : list (Z * (memory * Call.t))) (g : replayed_process) : Prop :=
  forall pre c post vs g', l = pre ++ c :: post -> replay_threads pre g = Ok (vs, g') ->
    frees_live (arrays (common g')) c.2.2.

Definition no_tear_down (l : list (Z * (memory * Call.t))) : Prop :=
  Forall (fun c => Call.kind c.2.2 <> PiApiKind.piTearDown) l.

(** What a thread will read. *)
Definition to_read (t : Z) (g : replayed_process) (content : bytes) : Prop :=
  @pending (thread dir ts t) _ (replayer_of t g) content.

Lemma in_thread_Ok {A} t (m : M replayer A) g a g' : in_thread t m g = Ok (a, g') ->
  exists r, m (replayer_of t g) = Ok (a, r) /\ GTrace (replayer_of t g') = GTrace r /\
    forall u, u <> t -> GTrace (replayer_of u g') = GTrace (replayer_of u g).
Proof.
  intros E. unfold in_thread in E. apply outcome_bind_Ok in E as ([a' r] & E & [= <- <-]).
  exists r. split; [done |]. cbn. split; [by rewrite lookup_insert_eq |].
  intros u Hu. by rewrite lookup_insert_ne by congruence.
Qed.

Lemma in_thread_run {A} t (m : M replayer A) g a r : m (replayer_of t g) = Ok (a, r) ->
  in_thread t m g = Ok (a, {| traces := <[t := GTrace r]> (traces g); common := r |}).
Proof. intros E. unfold in_thread. by rewrite E. Qed.

Lemma to_read_same t g g' c : GTrace (replayer_of t g') = GTrace (replayer_of t g) ->
  to_read t g c -> to_read t g' c.
Proof. intros E. unfold to_read, pending. by rewrite E. Qed.

(** One call: it answers with the result of the thread's next record, which it
    consumes, when that is of the expected function. *)
Lemma answer_Ok c g t v g' rec tail : answer c g = Ok ((t, v), g') ->
  Call.kind c.2.2 <> PiApiKind.piTearDown -> fits rec -> to_read c.1 g (serialize rec ++ tail) ->
  t = c.1 /\ function_id rec = kind_id (expected_kind c.2.2) /\ v = result rec /\ to_read t g' tail.
Proof.
  intros E Ht Hf Hp. unfold answer in E. apply M_bind_Ok in E as (v' & g1 & E & [= <- <- <-]).
  split; [done |]. apply in_thread_Ok in E as (r & E & Hg & _).
  apply M_bind_Ok in E as ([] & r0 & [= <-] & E).
  pose proof (plugin_step (H := thread dir ts c.1) c.2.2 rec tail
    (set_mem c.2.1 (replayer_of c.1 g)) Ht Hf Hp) as Hs.
  destruct (Z.eqb_spec (function_id rec) (kind_id (expected_kind c.2.2))) as [Hk |]; [| congruence].
  apply Hs in E as [-> Hp']. split; [done |]. split; [done |]. unfold to_read, pending. by rewrite Hg.
Qed.

Lemma answer_other c g x g' u : answer c g = Ok (x, g') -> u <> c.1 ->
  x.1 = c.1 /\ GTrace (replayer_of u g') = GTrace (replayer_of u g).
Proof.
  intros E Hu. unfold answer in E. apply M_bind_Ok in E as (v' & g1 & E & [= <- <-]).
  apply in_thread_Ok in E as (r & _ & _ & Ho). split; [done |]. by apply Ho.
Qed.

(** A replay that returns answers each thread from its own trace. *)
Lemma replay_threads_Ok t recs tail l g vs g' :
  no_tear_down l -> Forall fits recs -> length (of_thread t l) = length recs ->
  (recs <> [] -> to_read t g (trace_of recs ++ tail)) -> replay_threads l g = Ok (vs, g') ->
  Forall2 (fun c rec => function_id rec = kind_id (expected_kind c.2)) (of_thread t l) recs /\
  of_thread t vs = map result recs.
Proof.
  intros Hl Hf. revert recs g vs Hf. induction Hl as [|[u c] l Hc Hl IH]; intros recs g vs Hf Hlen Hp E.
  { injection E as <- <-. by destruct recs. }
  cbn [replay_threads mapM] in E. apply M_bind_Ok in E as ([u' v] & g1 & E1 & E).
  apply M_bind_Ok in E as (vs' & g2 & E2 & [= <- <-]).
  destruct (decide (u = t)) as [-> | Hne].
  - rewrite of_thread_same in Hlen |- *. destruct recs as [|rec recs]; [done |]. injection Hlen as Hlen.
    apply list.Forall_cons in Hf as [Hf1 Hf]. specialize (Hp ltac:(done)).
    change (trace_of (rec :: recs)) with (serialize rec ++ trace_of recs) in Hp. rewrite <-app_assoc in Hp.
    destruct (answer_Ok (t, c) g u' v g1 rec _ E1 Hc Hf1 Hp) as (-> & Hk & -> & Hp').
    cbn [fst snd] in *. rewrite of_thread_same.
    destruct (IH recs g1 vs' Hf Hlen (fun _ => Hp') E2) as [Hks ->]. split; [by constructor | done].
  - rewrite of_thread_other in Hlen |- * by done.
    destruct (answer_other (u, c) g (u', v) g1 t E1) as [Hu Hg]; [done |]. cbn in Hu. subst u'.
    rewrite of_thread_other by done. apply (IH recs g1 vs' Hf Hlen); [| done].
    intros Hr. eapply to_read_same; [exact Hg | by apply Hp].
Qed.

Lemma frees_own_cons c l g : frees_own (c :: l) g ->
  frees_live (arrays (common g)) c.2.2 /\
  forall x g', answer c g = Ok (x, g') -> frees_own l g'.
Proof.
  intros Hl. split; [by eapply (Hl [] c l [] g) |]. intros x g' E pre d post vs g2 -> E2.
  apply (Hl (c :: pre) d post (x :: vs) g2); [done |]. unfold replay_threads in *. cbn [mapM].
  rewrite (M_run_bind _ _ _ _ _ E). by rewrite (M_run_bind _ _ _ _ _ E2).
Qed.

(** Calls that can be answered from the threads' traces return. *)
Lemma replay_threads_returns (recs : Z -> list APICall) (tail : Z -> bytes) l g :
  no_tear_down l -> (forall t, Forall fits (recs t)) ->
  (forall t, recs t <> [] -> to_read t g (trace_of (recs t) ++ tail t)) ->
  (forall t, Forall2 (fun c rec => function_id rec = kind_id (expected_kind c.2) /\
       answerable (H := thread dir ts t) c.2 rec) (of_thread t l) (recs t)) ->
  0 < heap (common g) -> frees_own l g ->
  exists vs g', replay_threads l g = Ok (vs, g').
Proof.
  intros Hl. revert recs g. induction Hl as [|[u [m c]] l Hc Hl IH]; intros recs g Hf Hp Ha Hheap Hfree.
  { by exists [], g. }
  pose proof (Ha u) as Hau. rewrite of_thread_same in Hau.
  destruct (recs u) as [|rec rest] eqn:Hu; [by inversion Hau |].
  apply list.Forall2_cons in Hau as [[Hid Hans] Hau]. cbn [snd] in Hid, Hans.
  pose proof (Hf u) as Hfu. rewrite Hu in Hfu. apply list.Forall_cons in Hfu as [Hf1 Hfu].
  specialize (Hp u) as Hpu. rewrite Hu in Hpu. specialize (Hpu ltac:(done)).
  change (trace_of (rec :: rest)) with (serialize rec ++ trace_of rest) in Hpu. rewrite <-app_assoc in Hpu.
  apply frees_own_cons in Hfree as [Hfree1 Hfree].
  assert (exists v g1, answer (u, (m, c)) g = Ok ((u, v), g1) /\ 0 < heap (common g1)) as (v & g1 & E1 & Hh1).
  { pose proof (next_record_spec (H := thread dir ts u) (expected_kind c) rec _ (set_mem m (replayer_of u g)) Hf1 Hpu) as En.
    rewrite Hid, Z.eqb_refl in En.
    destruct (answerable_returns (H := thread dir ts u) c rec Hc Hans) as (f & Ef & Hr).
    destruct (Hr (set_GTrace (good (trace_of rest ++ tail u)) (set_mem m (replayer_of u g))) Hheap Hfree1)
      as (v & r1 & E1 & Hh1).
    rewrite <-(M_run_bind _ _ _ _ _ En), <-Ef in E1. exists v. eexists.
    split; [etransitivity; [eapply M_run_bind, in_thread_run; exact E1 | reflexivity] | exact Hh1]. }
  destruct (answer_Ok (u, (m, c)) g u v g1 rec _ E1 Hc Hf1 Hpu) as (_ & _ & _ & Hp1).
  destruct (IH (fun t => if decide (t = u) then rest else recs t) g1) as (vs & g' & E).
  - intros t. destruct (decide (t = u)); [done | apply Hf].
  - intros t. destruct (decide (t = u)) as [-> | Hne]; [done |]. intros Hr.
    eapply to_read_same; [| by apply Hp]. by apply (answer_other (u, (m, c)) g (u, v) g1 t E1).
  - intros t. specialize (Ha t). destruct (decide (t = u)) as [-> | Hne]; [done |].
    by rewrite of_thread_other in Ha by done.
  - done.
  - by eapply Hfree.
  - exists ((u, v) :: vs), g'. unfold replay_threads in *. cbn [mapM].
    rewrite (M_run_bind _ _ _ _ _ E1). by rewrite (M_run_bind _ _ _ _ _ E).
Qed.
End replay.

(** ** Record, then replay *)

(** A choice for each element of a finite set. *)
Lemma choose_each {B} (X : gset Z) (d : B) (P : Z -> B -> Prop) :
  (forall t, t ∈ X -> exists b, P t b) ->
  exists f, (forall t, t ∈ X -> P t (f t)) /\ forall t, t ∉ X -> f t = d.
Proof.
  induction X as [|t X Ht IH] using set_ind_L; intros Hx.
  { exists (fun _ => d). split; [| done]. intros t Ht. by apply not_elem_of_empty in Ht. }
  destruct IH as (f & Hf & Hd); [intros u Hu; apply Hx; by apply elem_of_union_r |].
  destruct (Hx t) as [b Hb]; [apply elem_of_union_l, elem_of_singleton; done |].
  exists (fun u => if decide (u = t) then b else f u). split; intros u Hu.
  - destruct (decide (u = t)) as [-> | Hne]; [done |]. apply Hf.
    by apply elem_of_union in Hu as [->%elem_of_singleton | Hu].
  - rewrite decide_False by (intros ->; apply Hu, elem_of_union_l, elem_of_singleton; done).
    apply Hd. intros Hin. by apply Hu, elem_of_union_r.
Qed.

Lemma default_trace `{Protobuf APICall} (content : option bytes) recs :
  default [] content = trace_of recs -> recs <> [] -> content = Some (trace_of recs).
Proof.
  destruct content as [c|]; cbn; [by intros -> |]. destruct recs as [|rec recs]; [done |]. intros E _.
  exfalso. pose proof (length_serialize rec) as Hl. apply (f_equal length) in E. cbn in E.
  rewrite length_app in E. lia.
Qed.

Lemma of_thread_nil {A} (P : Z -> Prop) t (l : list (Z * A)) :
  Forall (fun x => P x.1) l -> ~ P t -> of_thread t l = [].
Proof.
  intros Hl Ht. induction Hl as [|[u x] l Hu Hl IH]; [done |]. cbn in Hu.
  rewrite of_thread_other by congruence. done.
Qed.

Section threads.
Context `{Plugin, PiHeaders, Protobuf APICall, Protobuf DeviceBinary}.

(** The calls a thread has a record of. *)
Definition kept (g : recorded_process) (t : Z) : list event :=
  match workers g !! t with Some w => recorded (made w) | None => [] end.

(** The records of all threads. *)
Lemma all_recorded main (l : list (Z * Z)) ts dir skip schedule (es : Z -> list event) s g
    (trace := fun t => @trace_path (thread dir ts t)) :
  create_all l (<[main := {| name := #"main"; threadCouner := 0 |}]> ∅) = Ok (tt, ts) -> distinct ts ->
  (forall t, is_Some (ts !! t) -> disk s !! trace t = None) ->
  record_threads dir ts skip schedule (launched ts es s) = Ok (tt, g) ->
  exists recs : Z -> list APICall, forall t,
    Forall2 (@records (thread dir ts t) _ _ skip) (kept g t) (recs t) /\
    (is_Some (ts !! t) -> default [] (disk (shared g) !! trace t) = trace_of (recs t)).
Proof.
  intros Hts Hdist Hdisk E.
  assert (well dir ts g) as Hwell
    by (eapply record_threads_well; [apply (launched_well dir ts es s) | exact E]).
  destruct (choose_each (dom ts) [] (fun t recs => Forall2 (@records (thread dir ts t) _ _ skip) (kept g t) recs /\
     default [] (disk (shared g) !! trace t) = trace_of recs)) as (recs & Hrecs & Hnone).
  { intros t Ht%elem_of_dom.
    destruct (worker_exists dir main l ts Hts Hdist skip es s schedule g t Ht E) as [w Hw].
    destruct (threads_recorded dir main l ts Hts Hdist skip es s schedule g t w (Hdisk t Ht) E Hw)
      as (_ & _ & [_ _ (later & rs & Hm & Hrs & Hd) _] & _). exists rs. split; [| exact Hd].
    unfold kept. by rewrite Hw, Hm. }
  exists recs. intros t. destruct (decide (t ∈ dom ts)) as [Ht | Ht].
  - split; [by apply Hrecs | intros _; by apply Hrecs].
  - rewrite Hnone by done. unfold kept. rewrite not_elem_of_dom in Ht.
    destruct (workers g !! t) as [w|] eqn:Hw; [| split; [constructor | intros [? ?]; congruence]].
    destruct (proj1 Hwell t) as [x Hx]; [by eexists | congruence].
Qed.

Lemma Forall_recorded (P : event -> Prop) l : Forall P (map fst l) -> Forall P (recorded l).
Proof.
  induction l as [|[e [|]] l IH]; cbn; [done | |]; intros [He Hl]%Forall_cons_1; [constructor; [done |] |]; by apply IH.
Qed.
Lemma all_kept l : Forall (fun x : event * bool => x.2 = true) l -> recorded l = map fst l.
Proof. induction 1 as [|[e b] l Hb Hl IH]; [done |]. cbn in Hb. subst b. cbn [map fst]. by rewrite <-IH. Qed.

End threads.

(** The main thread asks for a device's name while a thread it made retains the
    device. *)
Definition first_event : event :=
  {| ev_call := Call.piDeviceGetInfo 1 2 11 768 0; ev_result := 0; ev_instance := 1;
     ev_begin := 2000; ev_end := 9000; ev_memory := sample_memory |}.
Definition second_event : event :=
  {| ev_call := Call.piDeviceRetain 1; ev_result := -33; ev_instance := 2;
     ev_begin := 3000; ev_end := 8000; ev_memory := sample_memory |}.
Definition thread_events (t : Z) : list event :=
  if decide (t = 1) then [first_event] else if decide (t = 2) then [second_event] else [].
Definition sample_schedule : list Z := [1; 2; 2; 1; 3; 2; 1; 2; 1].
Definition sample_group : recorded_process :=
  after (record_threads #"/tmp/trace" two_threads false sample_schedule
    (launched two_threads thread_events sample_recording)).

(** The same program on the replay plugin: the thread's call comes first now, and
    both get what they got. *)
Definition sample_calls : list (Z * (memory * Call.t)) :=
  [(2, (∅, Call.piDeviceRetain 7)); (1, (∅, Call.piDeviceGetInfo 1 2 11 1024 0))].
Definition sample_replay : replayed_process := {| traces := ∅; common := sample_replayer |}.
Example two_threads_replayed :
  let _ := sample_process (disk (shared sample_group)) in
  ('(vs, _) ← replay_threads #"/tmp/trace" two_threads sample_calls sample_replay; Ok vs) =
  Ok [(2, -33); (1, 0)].
Proof. vm_compute. reflexivity. Qed.

Lemma sample_kept t : kept sample_group t = thread_events t.
Proof.
  unfold kept, thread_events.
  assert (workers sample_group = <[2 := {| at_ := Idle; todo := []; made := [(second_event, true)] |}]>
    (<[1 := {| at_ := Idle; todo := []; made := [(first_event, true)] |}]> ∅)) as -> by (vm_compute; reflexivity).
  destruct (decide (t = 2)) as [-> | H2]; [reflexivity |]. rewrite lookup_insert_ne by done.
  destruct (decide (t = 1)) as [-> | H1]; [reflexivity |]. by rewrite lookup_insert_ne, lookup_empty by done.
Qed.

Lemma sample_of_thread t : of_thread t sample_calls =
  if decide (t = 1) then [(∅, Call.piDeviceGetInfo 1 2 11 1024 0)]
  else if decide (t = 2) then [(∅, Call.piDeviceRetain 7)] else [].
Proof.
  unfold of_thread, sample_calls. cbn [omap list_omap fst snd].
  destruct (decide (t = 1)) as [-> | H1]; [reflexivity |].
  destruct (decide (t = 2)) as [-> | H2]; [reflexivity |].
  by rewrite !bool_decide_eq_false_2 by congruence.
Qed.

Lemma sample_no_frees (P : Process) : frees_own #"/tmp/trace" two_threads sample_calls sample_replay.
Proof.
  intros pre c post vs g' E _.
  assert (c ∈ sample_calls) as Hc by (rewrite E; apply elem_of_app; right; left).
  apply elem_of_cons in Hc as [-> | [-> | Hc%elem_of_nil]%elem_of_cons]; done.
Qed.

