(* ===== verification/Lifetimes.v ===== *)
(** * Lifetimes: what is created and destroyed once

    The objects of libraries that the tool creates and destroys itself: LLDB's
    through [initialize], [deinitialize] and the class HostDebugger
    (lib/debug/host/HostDebugger.cpp) under the shared pointers of [debug], zstd's
    contexts in lib/utils/Compression.cpp, and the allocations of
    include/utils/MiResource.hpp. *)

From S2P Require Import Prelude.

(** ** Objects *)

Inductive kind : Set := LLDB_system | LLDB_debugger | LLDB_target | ZSTD_CCtx | ZSTD_DCtx | Allocation.
#[global] Instance kind_eq_dec : EqDecision kind.
Proof. solve_decision. Defined.

(** The object [HostDebugger], as far as its destructor looks at it. *)
Record host_object := { mDebugger : option Z; mTarget : option Z }.

(** What [initialize] registers with LLVM and LLDB. *)
Inductive registration : Set :=
  | NativeTarget | NativeTargetAsmPrinter | NativeTargetDisassembler
  | LLDBPlugin (x : bytes) | ProcessTrace | PluginManager | DebuggerSettings.

(** The objects that are alive by address, the [HostDebugger]s with the number of
    shared pointers that own them, what is registered, and the next address. *)
Record world := {
  registered : list registration;
  alive : gmap Z kind;
  hosts : gmap Z (host_object * nat);
  next : Z;
}.

Definition create (k : kind) : M world Z := fun w =>
  Ok (next w, {| alive := <[next w := k]> (alive w); hosts := hosts w; registered := registered w; next := next w + 1 |}).
(** Destroying what is not alive is undefined. *)
Definition destroy (p : Z) : M world unit := fun w =>
  match alive w !! p with
  | Some _ => Ok (tt, {| alive := base.delete p (alive w); hosts := hosts w; registered := registered w; next := next w |})
  | None => UB
  end.
Definition set_host (n : Z) (o : option (host_object * nat)) : M world unit :=
  modify (fun w => {| alive := alive w; hosts := partial_alter (fun _ => o) n (hosts w);
                     registered := registered w; next := next w |}).
Definition get_host (n : Z) : M world (host_object * nat) := fun w =>
  match hosts w !! n with Some h => Ok (h, w) | None => UB end.

(** ** HostDebugger *)

(** [new HostDebugger()] *)
Definition new_HostDebugger : M world Z :=
  d ← create LLDB_debugger;
  w ← get;
  _ ← modify (fun w => {| alive := alive w; hosts := hosts w; registered := registered w; next := next w + 1 |});
  _ ← set_host (next w) (Some ({| mDebugger := Some d; mTarget := None |}, O));
  mret (next w).

(** [CreateTarget] of [launch]. *)
Definition create_target (n : Z) : M world unit :=
  '(h, count) ← get_host n;
  t ← create LLDB_target;
  set_host n (Some ({| mDebugger := mDebugger h; mTarget := Some t |}, count)).

(** [~HostDebugger], and [deinitialize], which deletes the object. *)
Definition destroy_HostDebugger (h : host_object) : M world unit :=
  _ ← (match mTarget h with Some t => destroy t | None => mret tt end);
  match mDebugger h with Some d => destroy d | None => mret tt end.
Definition deinitialize (n : Z) : M world unit :=
  '(h, _) ← get_host n; _ ← destroy_HostDebugger h; set_host n None.

(** [initialize]: [err] is whether the initialisation of the system fails, and
    [plugins] what LLDBPlugins.def lists. *)
Definition register (r : registration) : M world unit :=
  modify (fun w => {| alive := alive w; hosts := hosts w; registered := registered w ++ [r]; next := next w |}).
Fixpoint register_all (l : list registration) : M world unit :=
  match l with
  | [] => mret tt
  | r :: l => _ ← register r; register_all l
  end.
Definition initialize (err : bool) (plugins : list bytes) : M world Z :=
  _ ← create LLDB_system;
  if err then lift (Exit 1)
  else
    _ ← register NativeTarget;
    _ ← register NativeTargetAsmPrinter;
    _ ← register NativeTargetDisassembler;
    _ ← register_all (map LLDBPlugin plugins);
    _ ← register ProcessTrace;
    _ ← register PluginManager;
    _ ← register DebuggerSettings;
    new_HostDebugger.

(** ** The owners in [debug] *)

(** A shared pointer made or copied, and one that goes. *)
Definition retain (n : Z) : M world unit :=
  '(h, count) ← get_host n; set_host n (Some (h, S count)).
Definition release (n : Z) : M world unit :=
  '(h, count) ← get_host n;
  match count with
  | O => lift UB
  | S O => deinitialize n
  | S count => set_host n (Some (h, count))
  end.

(** [debug]: the debugger is made, shared with the server, launches its program or
    not, and both owners go in either order when the function ends or throws. *)
Definition debug_owners (err launches : bool) (plugins : list bytes) : M world unit :=
  n ← initialize err plugins;
  _ ← retain n;
  _ ← retain n;
  _ ← (if launches then create_target n else mret tt);
  _ ← release n;
  release n.

(** ** Compression *)

Record CompressionImpl := { mCompContext : Z; mDecContext : Z }.
Definition new_CompressionImpl : M world CompressionImpl :=
  c ← create ZSTD_CCtx; d ← create ZSTD_DCtx; mret {| mCompContext := c; mDecContext := d |}.
Definition destroy_CompressionImpl (i : CompressionImpl) : M world unit :=
  _ ← destroy (mCompContext i); destroy (mDecContext i).

(** ** MiResource *)

Definition do_allocate (bytes alignment : Z) : M world Z := create Allocation.
Definition do_deallocate (p bytes alignment : Z) : M world unit := destroy p.
Definition do_is_equal (this other : Z) : bool := false.
(** [operator==] of [std::pmr::memory_resource] compares addresses first. *)
Definition resource_equal (this other : Z) : bool := (this =? other) || do_is_equal this other.

(** * Theorems *)

(** Addresses from [next] on are new. *)
Definition fresh (w : world) : Prop :=
  forall p, next w <= p -> alive w !! p = None /\ hosts w !! p = None.

Lemma create_run k w (Q : Z -> world -> Prop) :
  Q (next w) {| alive := <[next w := k]> (alive w); hosts := hosts w; registered := registered w; next := next w + 1 |} ->
  exists a w', create k w = Ok (a, w') /\ Q a w'.
Proof. intros HQ. by eexists _, _. Qed.

(** Destroying two objects made one after the other gives back the world before. *)
Lemma delete_both {A} (m : gmap Z A) p q x y :
  m !! p = None -> m !! q = None -> p <> q ->
  base.delete q (base.delete p (<[q := x]> (<[p := y]> m))) = m.
Proof.
  intros Hp Hq Hne. apply map_eq. intros i. destruct (decide (i = q)) as [-> |]; [by rewrite lookup_delete_eq |].
  rewrite lookup_delete_ne by done. destruct (decide (i = p)) as [-> |]; [by rewrite lookup_delete_eq |].
  by rewrite lookup_delete_ne, !lookup_insert_ne by done.
Qed.

(** A compression object gives back both its contexts. *)
Theorem compression_balanced w : fresh w ->
  exists w', (i ← new_CompressionImpl; destroy_CompressionImpl i) w = Ok (tt, w') /\ alive w' = alive w.
Proof.
  intros Hf. destruct (Hf (next w)) as [H0 _]; [lia |]. destruct (Hf (next w + 1)) as [H1 _]; [lia |].
  unfold new_CompressionImpl, destroy_CompressionImpl, create, destroy, mbind, M_mbind. cbn.
  rewrite lookup_insert_ne, lookup_insert_eq by lia. cbn.
  rewrite lookup_delete_ne, lookup_insert_eq by lia. eexists. split; [done |]. cbn. apply delete_both; [done.. | lia].
Qed.

Lemma register_all_run l w : register_all l w =
  Ok (tt, {| alive := alive w; hosts := hosts w; registered := registered w ++ l; next := next w |}).
Proof.
  revert w. induction l as [|r l IH]; intros w; [rewrite app_nil_r; by destruct w |].
  cbn [register_all]. unfold mbind, M_mbind, register, modify. cbn [mbind outcome_mbind outcome_bind].
  rewrite IH. cbn. by rewrite <-app_assoc.
Qed.

(** What is registered when the debugger is made. *)
Definition registrations (plugins : list bytes) : list registration :=
  [NativeTarget; NativeTargetAsmPrinter; NativeTargetDisassembler] ++ map LLDBPlugin plugins ++
  [ProcessTrace; PluginManager; DebuggerSettings].

Lemma initialize_run plugins w : initialize false plugins w =
  new_HostDebugger {| alive := <[next w := LLDB_system]> (alive w); hosts := hosts w;
                      registered := registered w ++ registrations plugins; next := next w + 1 |}.
Proof.
  unfold initialize, create, register, modify, mbind, M_mbind. cbn [mbind outcome_mbind outcome_bind].
  rewrite register_all_run. cbn [mbind outcome_mbind outcome_bind alive hosts registered next].
  unfold registrations. by rewrite <-!app_assoc.
Qed.

(** Whether the program of [debug] was launched or not, the debugger and its target
    are destroyed exactly once, when the last owner goes: nothing is destroyed
    that is not alive, and only LLDB's system is alive afterwards, which no code
    terminates.  When the system cannot be initialised the process exits before
    anything is registered. *)
Theorem debugger_destroyed_once w launches plugins : fresh w ->
  debug_owners true launches plugins w = Exit 1 /\
  exists w', debug_owners false launches plugins w = Ok (tt, w') /\
    alive w' = <[next w := LLDB_system]> (alive w) /\ hosts w' = hosts w /\
    registered w' = registered w ++ registrations plugins.
Proof.
  intros Hf. split; [done |]. unfold debug_owners. unfold mbind at 1, M_mbind at 1. rewrite initialize_run.
  generalize (registered w ++ registrations plugins) as regs. intros regs.
  unfold new_HostDebugger, retain, release, deinitialize,
    destroy_HostDebugger, create_target, set_host, get_host, create, destroy, mbind, M_mbind, modify, get.
  set (n := next w) in *.
  destruct (Hf n) as [H0 _]; [lia |]. destruct (Hf (n + 1)) as [H1 _]; [lia |].
  destruct (Hf (n + 1 + 1)) as [H2 Hh2]; [lia |]. destruct (Hf (n + 1 + 1 + 1)) as [H3 _]; [lia |].
  destruct launches; cbn; repeat (rewrite lookup_partial_alter_eq; cbn);
    rewrite !lookup_insert_eq; cbn; rewrite delete_insert_id by (rewrite !lookup_insert_ne by lia; done);
    rewrite ?lookup_insert_eq; cbn; rewrite ?delete_insert_id by (rewrite !lookup_insert_ne by lia; done);
    (eexists; split; [done |]; split; [done |]); (split; [| done]); apply map_eq; intros p; cbn;
    (destruct (decide (p = n + 1 + 1)) as [-> |];
     [by rewrite Hh2, lookup_partial_alter_eq | by rewrite !lookup_partial_alter_ne by done]).
Qed.

(** Two allocators on the one resource are equal, although [do_is_equal] says no
    of everything; on two resources they are not. *)
Theorem resource_equal_iff this other : resource_equal this other = true <-> this = other.
Proof. unfold resource_equal, do_is_equal. rewrite orb_false_r. apply Z.eqb_eq. Qed.

(** The world at the start of a process. *)
Definition empty_world : world := {| alive := ∅; hosts := ∅; registered := []; next := 1 |}.
Lemma empty_fresh : fresh empty_world.
Proof. intros p _. split; apply lookup_empty. Qed.

Lemma debugger_destroyed_once_witness : exists w',
  debug_owners false true [ #"ObjectFileELF"] empty_world = Ok (tt, w') /\ alive w' = {[1 := LLDB_system]}.
Proof.
  destruct (debugger_destroyed_once empty_world true [ #"ObjectFileELF"] empty_fresh) as (_ & w' & E & Ha & _).
  exists w'. exact (conj E Ha).
Defined.
