(* ===== verification/Commands.v ===== *)
(** * Commands: the command debug

    src/debug.cpp: the program of a trace, started under the debugger of
    HostDebugger and served to a GDB client; with the casts by identifier of
    include/utils/RTTI.hpp that find the debugger's side of the tracer. *)

From S2P Require Import Prelude Regex Hex Debugger GdbProtocol GdbServer Streams Trace Options Files.
From S2P Require Import Json Tracer Launch HostDebugger Sim SampleHost.

(** ** Casts *)

(** [RTTIHierarchy], and the identifiers [getID] gives. *)
Inductive RTTIHierarchy : Set := AbstractDebugger_ | Tracer_ | HostDebugger_.
Definition getID (c : RTTIHierarchy) : Z :=
  match c with AbstractDebugger_ => 0 | Tracer_ => 1 | HostDebugger_ => 2 end.
(** [HostDebugger::cast]: the side of the object that is pointed to. *)
Definition cast (type : Z) : option RTTIHierarchy :=
  if type =? getID AbstractDebugger_ then Some AbstractDebugger_
  else if type =? getID Tracer_ then Some Tracer_
  else if type =? getID HostDebugger_ then Some HostDebugger_
  else None.
Definition dyn_cast (to : RTTIHierarchy) : option RTTIHierarchy := cast (getID to).

Section debug.
Context `{JsonText, System} {L T : Type} `{LLDB L T, !Launcher L} `{Ctre} {F : Type}
  `{!GdbProtocol.Files F}.

(** The command prints what it would start, or serves a session: what is
    written to the client, and how the session ends. *)
Inductive debugged : Type :=
  | DebugPrinted (text : bytes)
  | Served (written : list bytes) (e : ending (session (HostDebugger L) F)).

Definition host_debugger_library (o : options) : bytes :=
  path_join (path_join (path_join (location o) #"..") #"lib") #"libhost_debugger.so".

(** [pid] is what [fork] returns, [files] the state of the process's open files,
    [messages] what the client sends. *)
Definition debug (pid : Z) (o : options) (fs : filesystem) (files : F) (messages : list bytes)
    : outcome debugged :=
  if negb (canLoadLibrary (host_debugger_library o)) then Throw #"Failed to load host debugger"
  else
    match dyn_cast Tracer_ with
    | Some Tracer_ =>
        plan ← launch_plan o fs;
        match plan with
        | PrintCommand text => Ok (DebugPrinted text)
        | Start p _ =>
            '(_, hostTracer) ←
              host_launch pid (executable p) (arguments p) (environment p) new_debugger;
            let '(written, e) :=
              run messages {| proto := new_protocol; server := addDebugger hostTracer new_server;
                              GdbProtocol.files := files |} in
            Ok (Served written e)
        end
    | _ => UB
    end.

(** * Theorems *)

(** C37: what [debug] debugs is what [record] recorded.  On the directory of a
    recording that left the configuration alone, when LLDB can be loaded and
    starts the program, [debug] sets up the launch with the executable and the
    arguments that [record] ran, the name from the command line first, waits for
    its first stop and serves the client on that process: one debugger, no
    breakpoints, packets acknowledged. *)
Theorem debug_recorded_program (pid : Z) (o o' : options) (fs0 fs1 fs2 : filesystem) (p : Launch.process)
    (files : F) (messages : list bytes) (path : bytes) (l0 : L) :
  tree fs0 -> output o <> [] -> record_prepare o fs0 = Ok (p, fs1) ->
  is_directory fs2 (output o) = true ->
  read_file fs2 (path_join (output o) kReplayConfigName) =
  read_file fs1 (path_join (output o) kReplayConfigName) ->
  input o' = output o -> print_only o' = false ->
  canLoadLibrary (host_debugger_library o') = true -> pid <> 0 ->
  fs_canonical (executable p) = Ok path -> CreateTarget = Some l0 ->
  let l := set_launch_info (executable p) (input o :: args o) l0 in
  GetOrCreateModule (executable p) l = true -> CreateProcess l = true -> ConnectRemote l = true ->
  exists written e,
    run messages
      {| proto := new_protocol;
         server :=
           {| mActiveDebugger := 0;
              mDebuggers := [{| mTarget := Some (wait_for_stop l); mExecutablePath := path;
                                mBreakpoints := ∅ |}] |};
         GdbProtocol.files := files |} = (written, e) /\
    debug pid o' fs2 files messages = Ok (Served written e).
Proof.
  intros Ht Ho Hp Hdir Hread Hin Hpr Hlib Hpid Hpath Hl0 l Hmod Hproc Hconn.
  destruct (run messages _) as [written e] eqn:Erun. exists written, e. split; [done |].
  destruct (record_prepare_spec o fs0 p fs1 Ht Ho Hp) as (_ & _ & _ & _ & _ & _ & _ & _ & Ha).
  pose proof (record_then_launch o o' fs0 fs1 fs2 p Ht Ho Hp Hdir Hread Hin Hpr) as Hr.
  unfold replay in Hr. unfold debug. rewrite Hlib. cbn [negb dyn_cast].
  destruct (launch_plan o' fs2) as [[t | q packed] | | | | |]; [discriminate Hr | | discriminate Hr..].
  destruct packed; [by destruct (load_json _ _) |]. injection Hr as ->.
  cbn [mbind outcome_mbind outcome_bind executable arguments cast getID].
  unfold host_launch, mbind, M_mbind, lift. rewrite Hpath. cbn [outcome_bind modify]. rewrite Ha, Hl0.
  fold l. unfold launch_parent. rewrite (proj2 (Z.eqb_neq pid 0) Hpid), Hmod, Hproc, Hconn.
  cbn [negb modify]. unfold addDebugger, new_server, set_target, new_debugger. cbn.
  by rewrite Erun.
Qed.
End debug.

(** ** A recording, debugged *)

(** The system of the sample recording, on which every library loads. *)
Definition loading_system : System :=
  {| getenv := @getenv sample_system; canLoadLibrary _ := true |}.
Definition no_files : sim_files := {| sim_content := []; sim_offset := 0 |}.

(** The client asks why the process stopped, and stops the session. *)
Definition debug_client : list bytes := [ #"$?#3f"; #"$k#6b"].

Lemma debug_recorded_program_witness : let _ := loading_system in
  exists p fs, record_prepare record_options sample_fs = Ok (p, fs) /\
    exists written s, debug (L := lldb) 1 replay_options fs no_files debug_client =
      Ok (Served written (Stopped s)).
Proof.
  intros S.
  destruct (is_ok_true (record_prepare record_options sample_fs)) as [[p fs] E];
    [vm_compute; reflexivity |].
  assert (tree sample_fs) as Ht by (apply tree_check; vm_compute; reflexivity).
  exists p, fs. split; [exact E |].
  destruct (debug_recorded_program (L := lldb) (F := sim_files) 1 record_options replay_options
    sample_fs fs fs p no_files debug_client (executable p) sample_process Ht) as (written & e & Hrun & Hd).
  - discriminate.
  - exact E.
  - assert (fs = match record_prepare record_options sample_fs with Ok (_, fs) => fs | _ => ∅ end)
      as -> by (by rewrite E).
    vm_compute. reflexivity.
  - reflexivity.
  - reflexivity.
  - reflexivity.
  - reflexivity.
  - discriminate.
  - reflexivity.
  - reflexivity.
  - reflexivity.
  - reflexivity.
  - reflexivity.
  - exists written. assert (exists s, e = Stopped s) as [s ->]; [| by exists s].
    apply (f_equal snd) in Hrun. cbn [snd] in Hrun. subst e. vm_compute. eexists. reflexivity.
Defined.
