(* ===== verification/TracedFiles.v ===== *)
(** * TracedFiles: the files a recorded program opens

    The command record of Launch on the worker of Tracer: how the list of files
    that pack copies comes about. *)

From S2P Require Import Prelude Streams Trace Options Files Json Tracer Launch.

(** ** Recording names *)

#[local] Hint Mode Ptrace ! : typeclass_instances.

(** A stopped tracee with something kept beside it, as the names recorded at the
    stop. *)
#[global] Program Instance pair_Ptrace {T A : Type} `{Ptrace T} : Ptrace (T * A) := {
  tracee_memory x := tracee_memory x.1;
  tracee_user x := tracee_user x.1;
  PEEKDATA a x := PEEKDATA a x.1;
  POKETEXT a w x := match POKETEXT a w x.1 with Some t => Some (t, x.2) | None => None end;
  POKEUSER r v x := (POKEUSER r v x.1, x.2);
}.
Next Obligation. intros T A P [t l] a w Hl. by apply peek_mapped. Qed.
Next Obligation. intros T A P [t l] a Hl. by apply peek_unmapped. Qed.
Next Obligation.
  intros T A P [t l] a w v Hl. destruct (poke_mapped t a w v Hl) as (t' & E & Hm & Hu).
  exists (t', l). cbn. by rewrite E.
Qed.
Next Obligation. intros T A P [t l] a w Hl. cbn. by rewrite poke_unmapped. Qed.
Next Obligation. intros T A P [t l] r v. apply pokeuser_memory. Qed.
Next Obligation. intros T A P [t l] r v. apply pokeuser_user. Qed.
Next Obligation. intros T A P [t l] r v r'. apply pokeuser_other. Qed.

Section traced.
Context {T : Type} `{Ptrace T} (fuel : nat) (garbage : Z -> bytes).
Implicit Types (stops : list (option Z * T)).

(** The handler [record] installs: [files.push_back(fn)]. *)
Definition record_handler : file_handler (T := T * list bytes) :=
  fun filename _ => modify (fun x => (x.1, x.2 ++ [filename])).

(** A run of the program: the names its [openat] calls gave to the handler, and
    its exit code. *)
Definition traced_run (answer : option Z) (setopt : bool) stops : outcome (list bytes * Z) :=
  '(code, resumed) ← run_traced fuel garbage (onFileOpen record_handler new_tracer) answer setopt
     (map (fun '(a, t) => (a, (t, []))) stops);
  Ok (concat (map snd resumed), code).

(** The names at the stops of [openat] calls, until the tracee ends. *)
Fixpoint opened stops : list bytes :=
  match stops with
  | [] => []
  | (answer, t) :: stops =>
      let res := wait answer in
      if bool_decide (mType res = success) then
        (if isSeccomp res && (tracee_user t ORIG_RAX =? NR_openat)
         then [default [] (readString fuel (tracee_user t RSI) t)] else []) ++ opened stops
      else []
  end.

Lemma readString_pair {A : Type} n a (t : T) (l : A) : readString n a (t, l) = readString n a t.
Proof.
  revert a. induction n as [|n IH]; intros a; [done |]. cbn [readString].
  change (PEEKDATA a (t, l)) with (PEEKDATA a t). by rewrite IH.
Qed.

(** One stop: the tracee is left alone, and an [openat] call adds its name. *)
Lemma record_stop (t : T) (l : list bytes) x :
  at_syscall fuel garbage (onFileOpen record_handler new_tracer) (t, l) = Ok (tt, x) ->
  x = (t, l ++ if tracee_user t ORIG_RAX =? NR_openat
               then [default [] (readString fuel (tracee_user t RSI) t)] else []).
Proof.
  unfold at_syscall. rewrite (M_run_bind _ _ _ (t, l) (t, l)) by done. unfold dispatch.
  change (tracee_user (t, l) ORIG_RAX) with (tracee_user t ORIG_RAX).
  destruct (Z.eqb_spec (tracee_user t ORIG_RAX) NR_stat) as [-> |].
  - intros (s & x1 & Hs & Hx)%M_bind_Ok. unfold name_at in Hs.
    destruct (readString _ _ _); simplify_eq. injection Hx as <-. cbn. by rewrite app_nil_r.
  - destruct (Z.eqb_spec (tracee_user t ORIG_RAX) NR_newfstatat) as [-> |].
    + intros (s & x1 & Hs & Hx)%M_bind_Ok. unfold name_at in Hs.
      destruct (readString _ _ _); simplify_eq. injection Hx as <-. cbn. by rewrite app_nil_r.
    + destruct (Z.eqb_spec (tracee_user t ORIG_RAX) NR_openat); [| intros [= <-]; by rewrite app_nil_r].
      intros (s & x1 & Hs & Hx)%M_bind_Ok. unfold name_at in Hs. rewrite readString_pair in Hs.
      change (tracee_user (t, l) RSI) with (tracee_user t RSI) in Hs.
      destruct (readString _ _ _) as [s'|] eqn:E; simplify_eq. by injection Hx as <-.
Qed.

Lemma worker_opened stops code resumed :
  worker fuel garbage (onFileOpen record_handler new_tracer)
    (map (fun '(a, t) => (a, (t, []))) stops) = Ok (code, resumed) ->
  concat (map snd resumed) = opened stops.
Proof.
  revert resumed. induction stops as [|[a t] stops IH]; intros resumed E; [done |].
  cbn [map worker opened] in *. destruct (bool_decide (mType (wait a) = success)) eqn:Hs.
  - apply outcome_bind_Ok in E as (x & Hx & E). apply outcome_bind_Ok in E as ([c r] & Hr & E).
    injection E as <- <-. apply IH in Hr. cbn [map concat]. rewrite Hr. f_equal.
    destruct (isSeccomp (wait a)); [| by injection Hx as <-].
    apply outcome_bind_Ok in Hx as ([[] x'] & Hx & [= <-]). apply record_stop in Hx as ->. done.
  - destruct (bool_decide (mType (wait a) = fail)); [done |]. by injection E as <- <-.
Qed.
End traced.

(** ** The files of a recording *)

Section recording.
Context `{JsonText, System} {T : Type} `{Ptrace T}.

(** What a recording that ends normally leaves. *)
Lemma record_leaves_files (fuel : nat) (garbage : Z -> bytes) (answer : option Z) (setopt : bool)
    (stops : list (option Z * T)) (effect : process -> filesystem -> filesystem) (o : options)
    fs0 fs1 fs2 p (fse := effect p fs1) :
  record (fun p => _ ← modify (effect p); lift (traced_run fuel garbage answer setopt stops)) o fs0 =
    Ok (tt, fs2) ->
  output o <> [] -> record_prepare o fs0 = Ok (p, fs1) -> is_directory fse (output o) = true ->
  node_at fse (path_join (output o) kFilesConfigName) = None ->
  exists j text, traced_run fuel garbage answer setopt stops = Ok (opened fuel stops, 0) /\
    load_json (path_join (output o) kFilesConfigName) fs2 = Ok j /\
    elements j = map String (opened fuel stops) /\
    fs2 = write_file (path_join (output o) kFilesConfigName) text fse.
Proof.
  intros Hr Ho Hp Hdir Hnone. unfold record in Hr. rewrite (M_run_bind _ _ _ _ _ Hp) in Hr.
  apply M_bind_Ok in Hr as ([files code] & fs & Hrun & Hr).
  apply M_bind_Ok in Hrun as ([] & fs' & [= <-] & Hrun). apply lift_Ok in Hrun as [Hrun ->].
  assert (files = opened fuel stops) as Hf.
  { unfold traced_run, run_traced in Hrun. apply outcome_bind_Ok in Hrun as ([c resumed] & Hw & E).
    apply outcome_bind_Ok in Hw as ([] & _ & Hw). injection E as <- <-. exact (worker_opened fuel garbage stops c resumed Hw). }
  unfold record_finish in Hr. apply M_bind_Ok in Hr as ([] & fs3 & Hs & Hr).
  apply M_bind_Ok in Hs as (text & s & [Htext ->]%lift_Ok & Hs). injection Hs as <-.
  destruct (Z.eqb_spec code 0) as [-> |]; [| discriminate]. injection Hr as <-. fold fse. subst files.
  set (j := match opened fuel stops with [] => Null | _ => strings (opened fuel stops) end) in *.
  exists j, text. split; [done |]. split; [| split; [| done]].
  - assert (simple kFilesConfigName) as Hsn by (apply simple_name; vm_compute; reflexivity).
    rewrite node_at_child in Hnone by done.
    eapply load_json_ok; [| eapply parse_dump; [| exact Htext]].
    + rewrite write_file_new by (done || by rewrite Hnone).
      by rewrite read_file_child, lookup_insert_eq by done.
    + subst j. destruct (opened fuel stops); [done |]. apply plain_strings.
  - subst j. by destruct (opened fuel stops).
Qed.

(** C36: the list of files that a recording leaves.  [effect] is what the
    program itself does to the file system, under the condition that it leaves
    the trace directory in place and does not make that file.  When [record]
    ends normally, the list holds the names of the program's [openat] calls, in
    their order and with repetitions, and the program exited with 0. *)
Theorem recorded_files (fuel : nat) (garbage : Z -> bytes) (answer : option Z) (setopt : bool)
    (stops : list (option Z * T))
    (effect : process -> filesystem -> filesystem) (o : options) fs0 fs2 :
  record (fun p => _ ← modify (effect p); lift (traced_run fuel garbage answer setopt stops)) o fs0 =
    Ok (tt, fs2) ->
  output o <> [] ->
  (forall p fs1, record_prepare o fs0 = Ok (p, fs1) ->
     is_directory (effect p fs1) (output o) = true /\
     node_at (effect p fs1) (path_join (output o) kFilesConfigName) = None) ->
  exists files j, load_json (path_join (output o) kFilesConfigName) fs2 = Ok j /\
    elements j = map String (opened fuel stops) /\
    traced_run fuel garbage answer setopt stops = Ok (files, 0) /\ files = opened fuel stops.
Proof.
  intros Hr Ho He. assert (exists p fs1, record_prepare o fs0 = Ok (p, fs1)) as (p & fs1 & Hp).
  { unfold record in Hr. apply M_bind_Ok in Hr as (p & fs1 & Hp & _). eauto. }
  destruct (He p fs1 Hp) as [Hdir Hnone].
  destruct (record_leaves_files _ _ _ _ _ _ _ _ _ _ _ Hr Ho Hp Hdir Hnone) as (j & text & Hrun & Hj & Hel & _).
  by exists (opened fuel stops), j.
Qed.

(** The trace a recording leaves, for [pack]. *)
Lemma record_leaves_trace (fuel : nat) (garbage : Z -> bytes) (answer : option Z) (setopt : bool)
    (stops : list (option Z * T)) (effect : process -> filesystem -> filesystem) (o : options)
    fs0 fs1 fs2 p (fse := effect p fs1) :
  record (fun p => _ ← modify (effect p); lift (traced_run fuel garbage answer setopt stops)) o fs0 =
    Ok (tt, fs2) ->
  tree fs0 -> output o <> [] -> record_prepare o fs0 = Ok (p, fs1) -> is_directory fse (output o) = true ->
  node_at fse (path_join (output o) kFilesConfigName) = None ->
  node_at fse (path_join (output o) kReplayFileMapConfigName) = None ->
  read_file fse (path_join (output o) kReplayConfigName) =
  read_file fs1 (path_join (output o) kReplayConfigName) ->
  exists j config, traced_run fuel garbage answer setopt stops = Ok (opened fuel stops, 0) /\
    load_json (path_join (output o) kFilesConfigName) fs2 = Ok j /\
    elements j = map String (opened fuel stops) /\
    load_json (path_join (output o) kReplayConfigName) fs2 = Ok config /\ plain config = true /\
    at_key kReplayExecutable config = Ok (String (executable p)) /\
    exists_ fs2 (path_join (output o) kReplayFileMapConfigName) = false /\
    forall q, canonical (path_join (output o) kFilesConfigName) <> canonical q ->
      node_at fs2 q = node_at fse q.
Proof.
  intros Hr Ht Ho Hp Hdir Hfiles Hmap Hcfg.
  destruct (record_leaves_files _ _ _ _ _ _ _ _ _ _ _ Hr Ho Hp Hdir Hfiles) as (j & text & Hrun & Hj & Hel & Hfs2).
  destruct (record_prepare_spec o fs0 p fs1 Ht Ho Hp) as (_ & _ & m & text' & Hread & Hparse & Hplain & Hkeys & _).
  assert (forall k, simple k -> k <> kFilesConfigName ->
    canonical (path_join (output o) kFilesConfigName) <> canonical (path_join (output o) k)) as Hne.
  { intros k Hk Hkn. rewrite !canonical_child by (done || simple_tac). intros E%(inj _). congruence. }
  assert (forall q, canonical (path_join (output o) kFilesConfigName) <> canonical q ->
    node_at fs2 q = node_at fse q) as Hsame.
  { intros q Hq. rewrite Hfs2. by apply write_file_other. }
  exists j, (Object m). do 3 (split; [done |]). split.
  { eapply load_json_ok; [| exact Hparse]. rewrite <-Hread, <-Hcfg. unfold read_file.
    rewrite Hsame; [done |]. apply Hne; [simple_tac | done]. }
  split; [done |]. split.
  { rewrite list.Forall_forall in Hkeys. apply (Hkeys (kReplayExecutable, String (executable p))).
    unfold record_config. repeat (first [left | right]). }
  split; [| done]. apply bool_decide_eq_false, eq_None_not_Some. rewrite Hsame; [done |].
  apply Hne; [simple_tac | done].
Qed.
End recording.

(** ** A program that opens one file *)

#[local] Existing Instance Tracee.process_Ptrace.

Lemma recorded_files_witness : let _ := sample_system in
  exists fs2 j,
    record (fun p => _ ← modify id; lift (traced_run 2 Tracee.garbage (Some (stop_status 0 19)) true
      [(Some (stop_status PTRACE_EVENT_SECCOMP SIGTRAP), Tracee.stopped); (Some 0, Tracee.stopped)]))
      record_options sample_fs = Ok (tt, fs2) /\
    load_json #"/trace/files_config.json" fs2 = Ok j /\ elements j = [String #"a.so"].
Proof.
  intros S.
  set (run := fun p : process => _ ← modify id; lift (traced_run 2 Tracee.garbage (Some (stop_status 0 19)) true
      [(Some (stop_status PTRACE_EVENT_SECCOMP SIGTRAP), Tracee.stopped); (Some 0, Tracee.stopped)])).
  destruct (is_ok_true (record run record_options sample_fs)) as [[[] fs2] E];
    [vm_compute; reflexivity |].
  destruct (recorded_files 2 Tracee.garbage (Some (stop_status 0 19)) true
    [(Some (stop_status PTRACE_EVENT_SECCOMP SIGTRAP), Tracee.stopped); (Some 0, Tracee.stopped)]
    (fun _ => id) record_options sample_fs fs2 E) as (files & j & Hj & He & _).
  - discriminate.
  - intros p fs1 Hp.
    assert (fs1 = match record_prepare record_options sample_fs with Ok (_, fs) => fs | _ => ∅ end)
      as -> by (by rewrite Hp).
    split; vm_compute; reflexivity.
  - exists fs2, j. split; [exact E |]. split; [exact Hj |]. rewrite He. vm_compute. reflexivity.
Defined.
