(* ===== verification/Starting.v ===== *)
(** * Starting: how a traced program is started

    [NativeTracer::launch] of lib/utils/Tracer.cpp: the vectors for [execve], the
    child process that becomes the program or ends, and what [record] reports of
    a program that the system refuses. *)

From S2P Require Import Prelude Streams Trace Options Files Json Tracer Launch TracedFiles.

(** ** The vectors *)

(** [c_str]: the characters and a NUL. *)
Definition toCString (str : bytes) : bytes := str ++ [x00].
(** [cArgs] and [cEnv]: pointers to C strings and a null pointer. *)
Definition c_vector (l : list bytes) : list (option bytes) :=
  map (fun s => Some (toCString s)) l ++ [None].

(** How [execve] reads such a vector: up to the null pointer, each string up to
    its NUL. *)
Fixpoint read_vector (v : list (option bytes)) : outcome (list bytes) :=
  match v with
  | [] => UB
  | None :: _ => Ok []
  | Some p :: v => s ← c_string p; l ← read_vector v; Ok (s :: l)
  end.

(** ** The child process *)

(** [accepts] is whether the system runs a program; [execve] returns -1 when it
    does not.  The child becomes the program it gives, or ends as it says. *)
Definition launch_child (accepts : process -> bool) (no_new_privs seccomp : bool)
    (executable : bytes) (args env : list bytes) : outcome process :=
  _ ← traceMe no_new_privs seccomp;
  path ← c_string (toCString executable);
  argv ← read_vector (c_vector args);
  envp ← read_vector (c_vector env);
  let program := {| Launch.executable := path; arguments := argv; environment := envp |} in
  if accepts program then Ok program
  else (_ ← exec_failed (-1); Exit 0).

(** The status [waitpid] gives of a process that called [exit(code)]. *)
Definition exit_status (code : Z) : Z := 256 * (code mod 256).

(** [launch], [start] and [wait] with both processes, for a program of [record]:
    [stops] are the stops of the program when it runs.  An exception of the child
    reaches the handler in its copy of [main], which returns -1. *)
Definition launched_run {T} `{Ptrace T} (fuel : nat) (garbage : Z -> bytes)
    (accepts : process -> bool) (no_new_privs seccomp : bool) (answer : option Z) (setopt : bool)
    (t0 : T) (stops : process -> list (option Z * T)) (p : process) : outcome (list bytes * Z) :=
  match launch_child accepts no_new_privs seccomp (executable p) (arguments p) (environment p) with
  | Ok program => traced_run fuel garbage answer setopt (stops program)
  | Exit code => traced_run fuel garbage answer setopt [(Some (exit_status code), t0)]
  | Throw _ => traced_run fuel garbage (Some (exit_status (-1))) setopt []
  | _ => UB
  end.

(** * Theorems *)

Lemma c_string_nul s l : x00 ∉ s -> c_string (s ++ x00 :: l) = Ok s.
Proof.
  induction s as [|c s IH]; intros Hs; [done |]. apply not_elem_of_cons in Hs as [Hc Hs].
  cbn [app c_string]. rewrite bool_decide_eq_false_2 by congruence. by rewrite IH.
Qed.

(** The text in front of the first NUL. *)
Definition cut (s : bytes) : bytes := (until_nul s).1.
Lemma cut_no_nul s : x00 ∉ s -> cut s = s.
Proof.
  intros Hs. unfold cut. rewrite <-(app_nil_r s) at 1. rewrite until_nul_chars by done. apply app_nil_r.
Qed.

Lemma c_string_cut s : c_string (toCString s) = Ok (cut s).
Proof.
  unfold toCString, cut. induction s as [|c s IH]; [done |]. cbn [app c_string until_nul].
  destruct (bool_decide (c = x00)); [done |]. rewrite IH. by destruct (until_nul s).
Qed.

Lemma read_c_vector l : read_vector (c_vector l) = Ok (map cut l).
Proof.
  induction l as [|s l IH]; [done |]. change (c_vector (s :: l)) with (Some (toCString s) :: c_vector l).
  cbn [read_vector map]. by rewrite c_string_cut, IH.
Qed.

(** What a program is started with: its path, arguments and variables, each cut
    at its first NUL. *)
Definition started_as (p : process) : process :=
  {| executable := cut (executable p); arguments := map cut (arguments p);
     environment := map cut (environment p) |}.

(** The child becomes exactly the program it is given, and when the system
    refuses that it exits with -1; reading the vectors is always defined. *)
Theorem launch_child_spec accepts p :
  launch_child accepts true true (executable p) (arguments p) (environment p) =
  if accepts (started_as p) then Ok (started_as p) else Exit (-1).
Proof.
  unfold launch_child. cbn [traceMe negb mbind outcome_mbind outcome_bind].
  by rewrite c_string_cut, !read_c_vector.
Qed.

(** Without NULs nothing is cut. *)
Lemma started_as_id p :
  x00 ∉ executable p -> Forall (fun s => x00 ∉ s) (arguments p) ->
  Forall (fun s => x00 ∉ s) (environment p) -> started_as p = p.
Proof.
  intros He Ha Hv. assert (forall l, Forall (fun s => x00 ∉ s) l -> map cut l = l) as Hl.
  { induction 1 as [|s l Hs _ IH]; [done |]. cbn. by rewrite cut_no_nul, IH. }
  unfold started_as. rewrite cut_no_nul, !Hl by done. by destruct p.
Qed.

Section refused.
Context `{JsonText, System} {T : Type} `{Ptrace T} (fuel : nat) (garbage : Z -> bytes).

(** A program the system refuses: [record] reports the exit code 255 of the
    child, whatever the program would have done. *)
Theorem record_refused accepts (t0 : T) stops o fs0 p fs1 text :
  record_prepare o fs0 = Ok (p, fs1) -> accepts (started_as p) = false -> dump 4 Null = Ok text ->
  record (fun p => lift (launched_run fuel garbage accepts true true (Some (stop_status 0 19)) true
                           t0 stops p)) o fs0 = Throw #"Child application exited with code 255".
Proof.
  intros Hp Ha Hd. unfold record. rewrite (M_run_bind _ _ _ _ _ Hp).
  assert (launched_run fuel garbage accepts true true (Some (stop_status 0 19)) true t0 stops p =
    Ok ([], 255)) as Hrun by (unfold launched_run; by rewrite launch_child_spec, Ha).
  rewrite (lift_run _ _ _ _ Hrun). unfold record_finish, store_json. unfold mbind at 1, M_mbind at 1.
  by rewrite (lift_run _ _ _ _ Hd).
Qed.

(** When the child cannot install the filter, [record] reports that it exited. *)
Theorem record_untraceable accepts (no_new_privs seccomp : bool) answer setopt (t0 : T) stops o fs0 p fs1 :
  record_prepare o fs0 = Ok (p, fs1) -> no_new_privs && seccomp = false ->
  record (fun p => lift (launched_run fuel garbage accepts no_new_privs seccomp answer setopt t0 stops p))
    o fs0 = Throw #"Process immediately exited".
Proof.
  intros Hp Hf. unfold record. rewrite (M_run_bind _ _ _ _ _ Hp).
  assert (launched_run fuel garbage accepts no_new_privs seccomp answer setopt t0 stops p =
    Throw #"Process immediately exited") as Hrun
    by (unfold launched_run, launch_child; by destruct no_new_privs, seccomp).
  by rewrite Hrun.
Qed.
End refused.

(** An interpreter that is not there: the child of a recording of the sample. *)
Lemma record_refused_witness : let _ := sample_system in
  record (fun p => lift (launched_run (T := Tracee.process) (H := Tracee.process_Ptrace) 512 Tracee.garbage
      (fun _ => false) true true (Some (stop_status 0 19)) true Tracee.stopped (fun _ => []) p))
    record_options sample_fs = Throw #"Child application exited with code 255".
Proof.
  intros S. destruct (is_ok_true (record_prepare record_options sample_fs)) as [[p fs] E];
    [vm_compute; reflexivity |].
  destruct (is_ok_true (dump 4 Null)) as [text Hd]; [vm_compute; reflexivity |].
  exact (record_refused (H1 := Tracee.process_Ptrace) 512 Tracee.garbage (fun _ => false) Tracee.stopped
    (fun _ => []) record_options sample_fs p fs text E eq_refl Hd).
Defined.
