(* ===== verification/Programs.v ===== *)
(** * Programs: a traced program and the system it runs on

    A program under the worker of Tracer, with what the system answers to its
    file calls: the states it stops in follow from the answers it got.  A run is
    shown to be a run of [worker], and two runs that get the same answers to be
    the same for a program that does not look where the tracer writes. *)

From S2P Require Import Prelude Streams Files Tracer.

(** ** The system *)

(** What [stat] tells of a file, as far as a file has it here. *)
Inductive file_status : Type := RegularFile (size : Z) | DirectoryFile | SpecialFile.
#[global] Instance file_status_eq_dec : EqDecision file_status.
Proof. solve_decision. Defined.

Definition stat_of (fs : filesystem) (p : bytes) : option file_status :=
  match node_at fs p with
  | Some (Regular content) => Some (RegularFile (Z.of_nat (length content)))
  | Some Directory => Some DirectoryFile
  | Some Special => Some SpecialFile
  | None => None
  end.

(** What a system call gives the program: [openat] a file with its content, or
    an error; the calls of [stat] a status, or an error; other calls what they
    give without the tracer. *)
Inductive answer : Type :=
  | Opened (content : option bytes)
  | Stated (status : option file_status)
  | Other.
#[global] Instance answer_eq_dec : EqDecision answer.
Proof. solve_decision. Defined.

Definition is_file_call (nr : Z) : bool := bool_decide (nr ∈ [NR_stat; NR_newfstatat; NR_openat]).

Section system.
Context {T : Type} `{Ptrace T}.

(** A program: [resume] runs a stopped process with the answer to its call until
    it stops again or ends, which gives the answer of [waitpid] and the state;
    [writes] is what it writes to a file it opens for writing. *)
Class Program := {
  resume : answer -> T -> option Z * T;
  writes : T -> option bytes;
}.
Context `{Program}.

(** The name the system reads for a file call, of at most PATH_MAX bytes with
    its NUL. *)
Definition name_of (t : T) : option bytes :=
  readString 512 (tracee_user t (path_register (tracee_user t ORIG_RAX))) t.

Lemma name_of_read t fuel s : name_of t = Some s -> (512 <= fuel)%nat ->
  readString fuel (tracee_user t (path_register (tracee_user t ORIG_RAX))) t = Some s.
Proof. unfold name_of. eauto using readString_mono. Qed.
Lemma read_name_of t fuel s : (fuel <= 512)%nat ->
  readString fuel (tracee_user t (path_register (tracee_user t ORIG_RAX))) t = Some s ->
  name_of t = Some s.
Proof. unfold name_of. eauto using readString_mono. Qed.
#[local] Opaque name_of.

(** The call the process is stopped at, done. *)
Definition system_call (t : T) (fs : filesystem) : answer * filesystem :=
  let nr := tracee_user t ORIG_RAX in
  if negb (is_file_call nr) then (Other, fs)
  else if nr =? NR_openat then
    match name_of t with
    | None => (Opened None, fs)
    | Some name =>
        match writes t with
        | None => (Opened (read_file fs name), fs)
        | Some content =>
            let fs' := write_file name content fs in
            (Opened (_ ← read_file fs' name; Some []), fs')
        end
    end
  else (Stated (name ← name_of t; stat_of fs name), fs).

(** ** A run under the tracer *)

(** A file call: its number, the name the program gave and what it got. *)
Record event := { call : Z; path : option bytes; got : answer }.
#[global] Instance event_eq_dec : EqDecision event.
Proof. solve_decision. Defined.

Definition events_of (t : T) (a : answer) : list event :=
  if is_file_call (tracee_user t ORIG_RAX)
  then [{| call := tracee_user t ORIG_RAX; path := name_of t; got := a |}] else [].

(** The names of the [openat] calls of a run. *)
Definition opened_paths (ev : list event) : list bytes :=
  omap (fun e => if call e =? NR_openat then path e else None) ev.

Section run.
Context (fuel : nat) (garbage : Z -> bytes) (tr : tracer (T := T)).

Definition outcome_map {A B} (f : A -> B) (x : outcome A) : outcome B := a ← x; Ok (f a).

(** From the answer of [waitpid] and the state on: the exit code, the file calls
    and the file system at the end.  [None]: still running after [n] stops. *)
Fixpoint drive (n : nat) (a : option Z) (t : T) (fs : filesystem)
    : option (outcome (Z * list event * filesystem)) :=
  match n with
  | O => None
  | S n =>
      let res := wait a in
      if bool_decide (mType res = success) then
        if isSeccomp res then
          match at_syscall fuel garbage tr t with
          | Ok (_, t') =>
              let '(r, fs') := system_call t' fs in
              let '(a', next) := resume r t' in
              outcome_map (fun x => (x.1.1, events_of t r ++ x.1.2, x.2)) <$> drive n a' next fs'
          | e => Some (_ ← e; UB)
          end
        else let '(a', next) := resume Other t in drive n a' next fs
      else if bool_decide (mType res = fail) then Some (Throw #"errno")
      else Some (Ok (mCode res, [], fs))
  end.

(** The stops of that run. *)
Fixpoint stops_of (n : nat) (a : option Z) (t : T) (fs : filesystem) : list (option Z * T) :=
  (a, t) ::
  match n with
  | O => []
  | S n =>
      let res := wait a in
      if bool_decide (mType res = success) then
        if isSeccomp res then
          match at_syscall fuel garbage tr t with
          | Ok (_, t') =>
              let '(r, fs') := system_call t' fs in
              let '(a', next) := resume r t' in stops_of n a' next fs'
          | _ => []
          end
        else let '(a', next) := resume Other t in stops_of n a' next fs
      else []
  end.

(** Without handlers the process is left alone. *)
Lemma at_syscall_new (t : T) u t' : at_syscall fuel garbage new_tracer t = Ok (u, t') -> t' = t.
Proof.
  unfold at_syscall. rewrite (M_run_bind _ _ _ t t) by done. unfold dispatch.
  assert (forall reg (h : file_handler), h = mStatHandler new_tracer \/ h = mOpenFileHandler new_tracer ->
    (filename ← name_at fuel reg; h filename (writeString garbage reg)) t = Ok (u, t') -> t' = t) as Hh.
  { intros reg h Hh (s & x & Hs & Hx)%M_bind_Ok. unfold name_at in Hs.
    destruct (readString _ _ _); simplify_eq. destruct Hh as [-> | ->]; by injection Hx as _ <-. }
  destruct (_ =? NR_stat); [apply Hh; by left |]. destruct (_ =? NR_newfstatat); [apply Hh; by left |].
  destruct (_ =? NR_openat); [apply Hh; by right |]. by intros [= _ <-].
Qed.

(** A step of a run that ends. *)
Lemma outcome_map_Ok {A B} (f : A -> B) (x : option (outcome A)) b :
  outcome_map f <$> x = Some (Ok b) -> exists a, x = Some (Ok a) /\ f a = b.
Proof. destruct x as [[a | | | | |] |]; cbn; intros E; simplify_eq. by exists a. Qed.

(** Every run is a run of the worker over its stops, with the same exit code. *)
Lemma drive_worker n a t fs code ev fs' :
  drive n a t fs = Some (Ok (code, ev, fs')) ->
  exists resumed, worker fuel garbage tr (stops_of n a t fs) = Ok (code, resumed).
Proof.
  revert a t fs ev. induction n as [|n IH]; intros a t fs ev E; [done |].
  cbn [drive stops_of worker] in *. destruct (bool_decide (mType (wait a) = success)).
  - destruct (isSeccomp (wait a)).
    + destruct (at_syscall fuel garbage tr t) as [[[] t'] | | | | |]; try discriminate E.
      destruct (system_call t' fs) as [r fs1]. destruct (resume r t') as [a' next].
      apply outcome_map_Ok in E as ([[c l] f] & E & [= <- _ <-]).
      apply IH in E as [resumed ->]. by eexists.
    + destruct (resume Other t) as [a' next]. apply IH in E as [resumed ->]. by eexists.
  - destruct (bool_decide (mType (wait a) = fail)); [done |]. injection E as <- <- <-. by exists [].
Qed.
End run.

(** ** Programs that do not look at what the tracer writes *)

(** Two stopped processes are [similar] when nothing the program looks at tells
    them apart; a state is similar to itself when the program can stop in it.
    A program does not look at the memory below its red zone, nor at the
    register of a path after the call, which [resume_replaced] says of a name
    written there; its stack has room for a path. *)
Class Oblivious `{Program} (garbage : Z -> bytes) := {
  similar : relation T;
  similar_symmetric :: Symmetric similar;
  similar_transitive :: Transitive similar;
  similar_call t t' : similar t t' -> tracee_user t ORIG_RAX = tracee_user t' ORIG_RAX;
  similar_name t t' : similar t t' -> name_of t = name_of t';
  similar_writes t t' : similar t t' -> writes t = writes t';
  similar_resume :: Proper ((=) ==> similar ==> prod_relation (=) similar) resume;
  resume_replaced r s t t' : similar t t ->
    writeString garbage (path_register (tracee_user t ORIG_RAX)) s t = Ok (tt, t') ->
    writes t' = writes t /\ prod_relation (=) similar (resume r t') (resume r t);
  similar_stack t : similar t t -> mapped (tracee_user t RSP - (128 + PATH_MAX)) 512 t;
}.
End system.
Arguments Program T : clear implicits.
Arguments event : clear implicits.
