(* ===== verification/SampleProgram.v ===== *)
(** * SampleProgram: concrete programs under the tracer

    Programs that make a list of calls, as instances of the classes of Programs,
    for the concrete inputs at which theorems are exercised and for the unit
    tests.  Nothing here models code of the repository. *)

From S2P Require Import Prelude Streams Files Tracer TracedFiles Programs.

Import Tracee.

(** What a program does next; [Create] writes a file, [Raise] gets a signal, and
    the end of the list exits with 0. *)
Inductive action : Type :=
  | Read (name : bytes)
  | Create (name content : bytes)
  | Status (nr : Z) (name : bytes)
  | Raise (sig : Z)
  | ExitWith (code : Z).

(** The process, the actions from the current one on, and the answers so far. *)
Definition script : Type := process * (list action * list answer).

(** Stopped at call [nr] on [name]: 4096 bytes of stack below the red zone, and
    the name at 9000. *)
Definition process_at (nr : Z) (name : bytes) : process :=
  {| mem := store (store ∅ 3968 (repeat x00 4096)) 9000 (name ++ repeat x00 8);
     user := fun r => if r =? RSP then 8192 else if r =? path_register nr then 9000
                      else if r =? ORIG_RAX then nr else 0 |}.

Definition seccomp_stop : option Z := Some (stop_status PTRACE_EVENT_SECCOMP SIGTRAP).
Definition stop_at (todo : list action) (seen : list answer) : option Z * script :=
  match todo with
  | Read name :: _ | Create name _ :: _ => (seccomp_stop, (process_at NR_openat name, (todo, seen)))
  | Status nr name :: _ => (seccomp_stop, (process_at nr name, (todo, seen)))
  | Raise sig :: _ => (Some (stop_status 0 sig), (process_at 0 [], (todo, seen)))
  | ExitWith code :: _ => (Some (256 * code), (process_at 0 [], (todo, seen)))
  | [] => (Some 0, (process_at 0 [], ([], seen)))
  end.

#[export] Instance script_program : Program script := {
  resume r t := stop_at (tail t.2.1) (t.2.2 ++ [r]);
  writes t := match t.2.1 with Create _ content :: _ => Some content | _ => None end;
}.

(** What is kept beside a process is not changed by a write into it. *)
Lemma writeString_kept {T A : Type} `{Ptrace T} garbage reg s (t t' : T * A) :
  writeString garbage reg s t = Ok (tt, t') -> t'.2 = t.2.
Proof.
  intros E. unfold writeString in E. apply M_bind_Ok in E as ([] & t1 & Hw & E). injection E as <-. cbn.
  revert Hw. generalize (tracee_user t RSP - (128 + PATH_MAX)) as p. generalize (S (length s / 8)) as n.
  intros n p. revert s p t. induction n as [|n IH]; intros s p [t l] Hw; [done |].
  cbn [write_words] in Hw. cbn in Hw.
  destruct (POKETEXT p (le_value (word_of s (garbage p))) t) as [t2 |]; [| done].
  destruct (length s <=? 7)%nat; [by injection Hw as <- |]. by apply IH in Hw.
Qed.

(** The programs that write no file, which do not look at what the tracer
    writes: a state of theirs follows from the actions left and the answers. *)
Definition reads_only (todo : list action) : Prop :=
  Forall (fun x => match x with Create _ _ => False | _ => True end) todo.

Lemma resumed_reader r (t : script) :
  (exists todo seen, reads_only todo /\ t = (stop_at todo seen).2) ->
  exists todo seen, reads_only todo /\ (resume r t).2 = (stop_at todo seen).2.
Proof.
  intros (todo & seen & Hr & ->). cbn. eexists _, _. split; [| reflexivity].
  destruct Hr as [|x todo Hx Hr]; [constructor |]. by destruct x.
Qed.

#[export] Program Instance script_oblivious (garbage : Z -> bytes) : Oblivious (T := script) garbage := {
  similar t t' := t = t' /\ exists todo seen, reads_only todo /\ t = (stop_at todo seen).2;
}.
Next Obligation. intros g t t' [<- Ht]. by split. Qed.
Next Obligation. intros g t t' t'' [<- Ht] [<- _]. by split. Qed.
Next Obligation. by intros g t t' [<- _]. Qed.
Next Obligation. by intros g t t' [<- _]. Qed.
Next Obligation. by intros g t t' [<- _]. Qed.
Next Obligation.
  intros g r _ <- t _ [<- Ht]. split; [done |]. split; [done |]. by apply resumed_reader.
Qed.
Next Obligation.
  intros g r s t t' [_ Ht] Hw. apply writeString_kept in Hw. cbn. rewrite Hw. split; [done |].
  split; [done |]. split; [done |]. by apply (resumed_reader r).
Qed.
Next Obligation.
  intros g t [_ (todo & seen & _ & ->)] a.
  assert (exists nr name, (stop_at todo seen).2.1 = process_at nr name /\
    tracee_user (stop_at todo seen).2 RSP = 8192) as (nr & name & E & Hrsp).
  { destruct todo as [|[] todo]; cbn; eauto. }
  rewrite Hrsp. intros Ha. change (tracee_memory (stop_at todo seen).2) with (mem (stop_at todo seen).2.1).
  rewrite E. cbn [mem process_at]. apply store_mapped. unfold PATH_MAX in Ha.
  replace a with (3968 + Z.of_nat (Z.to_nat (a - 3968))) by lia.
  rewrite store_lookup by (rewrite repeat_length; lia).
  apply lookup_lt_is_Some. rewrite repeat_length. lia.
Qed.

Lemma reader_writes garbage (t : script) : similar (garbage := garbage) t t -> writes t = None.
Proof.
  intros [_ (todo & seen & Hr & ->)]. destruct Hr as [|x todo Hx Hr]; [done |]. by destruct x.
Qed.

(** The first stop of a traced program, after [traceMe]. *)
Definition started (todo : list action) : option Z * script := stop_at todo [].
