(* ===== verification/Observer.v ===== *)
(** * Observer: tracing does not disturb a program

    Handlers that only look at the names, as those of [record] and of the unit
    tests of the tracer: the program under them makes the calls, gets the answers
    and ends as without them. *)

From S2P Require Import Prelude Streams Files Tracer TracedFiles Programs SampleProgram.

(** A program with something of the tracer kept beside it. *)
#[export] Instance pair_Program {T A : Type} `{Ptrace T} `{!Program T} : Program (T * A) := {
  resume r x := let '(a, t) := resume r x.1 in (a, (t, x.2));
  writes x := writes x.1;
}.

Section observer.
Context {T A : Type} `{Ptrace T} `{!Program T} (fuel : nat) (garbage : Z -> bytes).

(** A handler that changes only what is kept beside the process. *)
Definition observes (f : A -> bytes -> A) (h : file_handler (T := T * A)) : Prop :=
  forall name replaceFilename t x, h name replaceFilename (t, x) = Ok (tt, (t, f x name)).

Lemma observes_nothing : observes (fun x _ => x) (fun _ _ => mret tt).
Proof. done. Qed.

Context (tr : tracer (T := T * A)) (on_open on_stat : A -> bytes -> A).
Context (opens : observes on_open (mOpenFileHandler tr)) (stats : observes on_stat (mStatHandler tr)).

(** What a call of the program adds. *)
Definition noted (nr : Z) (name : option bytes) (x : A) : A :=
  if is_file_call nr then
    (if nr =? NR_openat then on_open else on_stat) x (default [] name)
  else x.

Lemma at_syscall_observed t x (nr := tracee_user t ORIG_RAX)
    (name := readString fuel (tracee_user t (path_register nr)) t) :
  at_syscall fuel garbage tr (t, x) =
  outcome_map (fun _ => (tt, (t, noted nr name x))) (at_syscall fuel garbage new_tracer t).
Proof.
  unfold noted. destruct (is_file_call nr) eqn:Hf.
  - apply bool_decide_eq_true in Hf. destruct name as [s|] eqn:Hname; subst name.
    + rewrite (at_file_call fuel garbage tr (t, x) s) by (done || by rewrite readString_pair).
      rewrite (at_file_call fuel garbage new_tracer t s) by done. unfold handler_of. cbn [default].
      change (tracee_user (t, x) ORIG_RAX) with nr. fold nr.
      destruct (nr =? NR_openat); [rewrite opens | rewrite stats]; reflexivity.
    + assert (forall A' (P : Ptrace A') (tr : tracer (T := A')) (t' : A'), tracee_user t' ORIG_RAX = nr ->
        readString fuel (tracee_user t' (path_register nr)) t' = None ->
        at_syscall fuel garbage tr t' = UB) as Hub.
      { clear -Hf. intros A' P tr t' Hnr E. subst nr.
        change (at_syscall fuel garbage tr t') with (dispatch fuel garbage tr (tracee_user t' ORIG_RAX) t').
        rewrite Hnr. clear Hnr. revert Hf E. generalize (tracee_user t ORIG_RAX). intros nr.
        unfold dispatch, mbind, M_mbind, name_at, path_register.
        intros [<- | [<- | [<- | []]]]%list_elem_of_In E; cbn in E |- *; by rewrite E. }
      rewrite (Hub _ _ tr (t, x)) by (done || by rewrite readString_pair).
      by rewrite (Hub _ _ new_tracer t).
  - apply bool_decide_eq_false in Hf. rewrite (at_other_call fuel garbage tr (t, x)) by exact Hf.
    by rewrite (at_other_call fuel garbage new_tracer t).
Qed.

Lemma system_call_pair (t : T) (x : A) fs : system_call (t, x) fs = system_call t fs.
Proof. unfold system_call, name_of. by rewrite readString_pair. Qed.
Lemma events_of_pair (t : T) (x : A) r : events_of (t, x) r = events_of t r.
Proof. unfold events_of, name_of. by rewrite readString_pair. Qed.

(** The run is the one without handlers. *)
Lemma drive_observed n a t x fs :
  drive fuel garbage tr n a (t, x) fs = drive fuel garbage new_tracer n a t fs.
Proof.
  revert a t x fs. induction n as [|n IH]; intros a t x fs; [done |]. cbn [drive].
  destruct (bool_decide (mType (wait a) = success)); [| done].
  destruct (isSeccomp (wait a)).
  - rewrite at_syscall_observed.
    destruct (at_syscall fuel garbage new_tracer t) as [[[] t'] | | | | |] eqn:E; try done.
    apply at_syscall_new in E as ->. cbn [outcome_map mbind outcome_mbind outcome_bind].
    rewrite system_call_pair. destruct (system_call t fs) as [r fs'].
    cbn [resume pair_Program fst snd]. destruct (resume r t) as [a' t'].
    by rewrite events_of_pair, IH.
  - cbn [resume pair_Program fst snd]. destruct (resume Other t) as [a' t']. apply IH.
Qed.

(** What is kept at the end follows from the calls alone. *)
Definition noted_all (ev : list event) (x : A) : A :=
  foldl (fun x e => noted (call e) (path e) x) x ev.

Lemma last_cons_stop {B} (b : B) l : l <> [] -> list.last (b :: l) = list.last l.
Proof. by destruct l. Qed.
Lemma stops_of_nonempty {T'} `{Ptrace T', !Program T'} (tr' : tracer (T := T')) n a t fs :
  stops_of fuel garbage tr' n a t fs <> [].
Proof. by destruct n. Qed.

Lemma drive_noted n a t x fs code ev fs' : (512 <= fuel)%nat ->
  drive fuel garbage new_tracer n a t fs = Some (Ok (code, ev, fs')) ->
  Forall (fun e => is_Some (path e)) ev ->
  exists a' t', list.last (stops_of fuel garbage tr n a (t, x) fs) = Some (a', (t', noted_all ev x)).
Proof.
  intros Hfuel. revert a t x fs ev. induction n as [|n IH]; intros a t x fs ev E Hev; [done |].
  cbn [drive stops_of] in *. destruct (bool_decide (mType (wait a) = success)).
  2:{ destruct (bool_decide (mType (wait a) = fail)); [done |]. injection E as _ <- _. by exists a, t. }
  destruct (isSeccomp (wait a)).
  - rewrite at_syscall_observed.
    destruct (at_syscall fuel garbage new_tracer t) as [[[] t'] | | | | |] eqn:Ht; try discriminate E.
    apply at_syscall_new in Ht as ->. cbn [outcome_map mbind outcome_mbind outcome_bind].
    rewrite system_call_pair. destruct (system_call t fs) as [r fs1].
    cbn [resume pair_Program fst snd]. destruct (resume r t) as [a1 t1].
    apply outcome_map_Ok in E as ([[c l] f] & E & [= <- <- <-]). apply Forall_app in Hev as [He Hl].
    rewrite last_cons_stop by apply stops_of_nonempty.
    unfold noted_all. rewrite foldl_app. unfold events_of in He |- *.
    destruct (is_file_call (tracee_user t ORIG_RAX)) eqn:Hf.
    + apply list.Forall_cons in He as [[name Hn] _]. cbn [path] in Hn. cbn [foldl call path].
      rewrite Hn, (name_of_read t fuel name Hn Hfuel). by eapply IH.
    + cbn [foldl]. unfold noted. rewrite Hf. by eapply IH.
  - cbn [resume pair_Program fst snd]. destruct (resume Other t) as [a1 t1].
    rewrite last_cons_stop by apply stops_of_nonempty. by eapply IH.
Qed.
End observer.

(** ** The recording handler *)

Section recording.
Context {T : Type} `{Ptrace T} `{!Program T} (fuel : nat) (garbage : Z -> bytes).

(** C34: Tracing does not disturb a program that is recorded: under the handler of
    [record] every run, whatever the program does and whether it ends or not, is
    the run without handlers, with the same calls, answers, writes and exit code;
    and when it ends, the handler has been given the names of its [openat] calls
    in their order. *)
Theorem recording_transparent (n : nat) (a : option Z) (t : T) (fs : filesystem) (tr := onFileOpen record_handler new_tracer) :
  (512 <= fuel)%nat ->
  drive fuel garbage tr n a (t, []) fs = drive fuel garbage new_tracer n a t fs /\
  forall code ev fs', drive fuel garbage new_tracer n a t fs = Some (Ok (code, ev, fs')) ->
    Forall (fun e => is_Some (path e)) ev ->
    exists a' t', list.last (stops_of fuel garbage tr n a (t, []) fs) =
      Some (a', (t', opened_paths ev)).
Proof.
  intros Hfuel. set (on_open := fun (l : list bytes) name => l ++ [name]).
  assert (observes on_open (mOpenFileHandler tr)) as Ho by done.
  assert (observes (fun l _ => l) (mStatHandler tr)) as Hs by done.
  split; [by eapply drive_observed |]. intros code ev fs' E Hev.
  destruct (drive_noted fuel garbage tr _ _ Ho Hs n a t [] fs code ev fs' Hfuel E Hev) as (a' & t' & Hl).
  exists a', t'. rewrite Hl. repeat f_equal. clear -Hev. unfold noted_all, opened_paths.
  rewrite <-(app_nil_l (omap _ ev)). generalize (@nil bytes). induction Hev as [|e ev [name He] Hev IH].
  { intros l. by rewrite app_nil_r. }
  intros l. cbn [foldl omap list_omap]. rewrite IH. unfold noted. rewrite He.
  unfold is_file_call. case_bool_decide as Hc.
  - destruct (call e =? NR_openat); [| done]. unfold on_open. by rewrite <-app_assoc.
  - destruct (Z.eqb_spec (call e) NR_openat) as [E |]; [| done]. by destruct Hc; rewrite E; right; right; left.
Qed.
End recording.

(** A program that writes a file and asks for its status. *)
#[local] Existing Instance Tracee.process_Ptrace.
Definition writer_stop : option Z * script := started [Create #"/out" #"42"; Status NR_stat #"/out"].

Lemma recording_transparent_witness :
  drive 512 Tracee.garbage (onFileOpen record_handler new_tracer) 4 writer_stop.1 (writer_stop.2, []) ∅ =
  drive 512 Tracee.garbage new_tracer 4 writer_stop.1 writer_stop.2 ∅.
Proof.
  exact (proj1 (recording_transparent 512 Tracee.garbage 4 writer_stop.1 writer_stop.2 ∅ ltac:(lia))).
Defined.
