(* ===== verification/Reproduce.v ===== *)
(** * Reproduce: a packed trace reproduces a run

    A program that reads files, recorded; its trace, packed; and the program
    under the tracer of [replay]: the program gets what it got. *)

From S2P Require Import Prelude Streams Trace Options Files Json Tracer Launch TracedFiles Archive Packing.
From S2P Require Import Programs SampleProgram.

#[local] Opaque name_of.

(** ** The tracer of replay *)

Section replaying.
Context {T : Type} `{Ptrace T} `{!Program T} (fuel : nat) (garbage : Z -> bytes).
Context `{!Oblivious garbage} (fuel_enough : (512 <= fuel)%nat).
Context (garbage_word : forall a, length (garbage a) = 8%nat).
Context (base : bytes) (m : json) (fs0 fs2 : filesystem).

(** The tracer [replay] makes for a packed trace. *)
Definition replaying : tracer (T := T) :=
  onStat (replace_handler base m) (onFileOpen (replace_handler base m) new_tracer).

(** What a call gives a program that reads. *)
Definition answer_for (nr : Z) (name : bytes) (fs : filesystem) : answer :=
  if nr =? NR_openat then Opened (read_file fs name) else Stated (stat_of fs name).

Lemma system_call_file t name fs :
  is_file_call (tracee_user t ORIG_RAX) = true -> name_of t = Some name -> writes t = None ->
  system_call t fs = (answer_for (tracee_user t ORIG_RAX) name fs, fs).
Proof.
  intros Hf Hn Hw. unfold system_call, answer_for. rewrite Hf, Hn, Hw. cbn [negb].
  by destruct (_ =? NR_openat).
Qed.

(** A name that [fs2], with the replacements, answers as [fs0]. *)
Definition served (name : bytes) : Prop :=
  (exists copy c, findSuitableReplacement base m name = Ok copy /\ copy <> [] /\ (x00 ∉ copy) /\
     Z.of_nat (length copy) < PATH_MAX /\ read_file fs0 name = Some c /\ read_file fs2 copy = Some c) \/
  (findSuitableReplacement base m name = Ok [] /\ node_at fs2 name = node_at fs0 name).

Lemma answer_copy nr name copy c :
  read_file fs0 name = Some c -> read_file fs2 copy = Some c ->
  answer_for nr copy fs2 = answer_for nr name fs0.
Proof.
  intros H0 H2. unfold answer_for, stat_of. rewrite H0, H2. unfold read_file in *.
  destruct (node_at fs0 name) as [[] |]; simplify_eq.
  by destruct (node_at fs2 copy) as [[] |]; simplify_eq.
Qed.

Lemma answer_same nr name :
  node_at fs2 name = node_at fs0 name -> answer_for nr name fs2 = answer_for nr name fs0.
Proof. intros E. unfold answer_for, stat_of, read_file. by rewrite E. Qed.

Lemma similar_refl_l t t' : similar t t' -> similar t t.
Proof. intros Hs. by transitivity t'. Qed.
Lemma similar_refl_r t t' : similar t t' -> similar t' t'.
Proof. intros Hs. by transitivity t. Qed.

(** One file call under the tracer of replay. *)
Lemma replayed_call t name :
  similar t t -> writes t = None -> is_file_call (tracee_user t ORIG_RAX) = true ->
  name_of t = Some name -> served name ->
  exists t', at_syscall fuel garbage replaying t = Ok (tt, t') /\
    system_call t' fs2 = (answer_for (tracee_user t ORIG_RAX) name fs0, fs2) /\
    forall r, prod_relation (=) similar (resume r t') (resume r t).
Proof.
  intros Hs Hw Hf Hn Hserved. set (nr := tracee_user t ORIG_RAX) in *.
  assert (nr ∈ [NR_stat; NR_newfstatat; NR_openat]) as Hnr by by apply bool_decide_eq_true in Hf.
  assert (at_syscall fuel garbage replaying t =
    replace_handler base m name (writeString garbage (path_register nr)) t) as ->.
  { rewrite (at_file_call _ _ _ _ name); [| done |].
    - unfold handler_of. by destruct (_ =? NR_openat).
    - by apply name_of_read. }
  unfold replace_handler. destruct Hserved as [(copy & c & Hc & Hne & Hnul & Hlen & H0 & H2) | [Hc Hnode]].
  - rewrite (lift_run _ _ _ _ Hc). destruct copy as [|b copy]; [done |]. set (name' := b :: copy) in *.
    apply words_PATH_MAX in Hlen.
    destruct (writeString_spec garbage garbage_word (path_register nr) name' t Hnul) as
      (t' & Ht' & Hreg & Hother & Hread & _).
    { intros a Ha. apply (similar_stack t Hs). lia. }
    exists t'. split; [done |].
    destruct (resume_replaced Other name' t t' Hs Ht') as [Hw' _].
    assert (tracee_user t' ORIG_RAX = nr) as Hnr'.
    { apply Hother. unfold path_register. by destruct (nr =? NR_stat). }
    split; [| intros r; by apply (resume_replaced r name' t t')].
    rewrite (system_call_file t' name'); rewrite ?Hnr'; try done.
    + by rewrite (answer_copy _ name name' c).
    + apply (read_name_of t' (words name')); [done |]. by rewrite Hnr'.
    + by rewrite Hw'.
  - rewrite (lift_run _ _ _ _ Hc). exists t. split; [done |]. split.
    + rewrite (system_call_file t name) by done. by rewrite answer_same.
    + intros r. apply (similar_resume r r eq_refl t t Hs).
Qed.

Lemma similar_events t t' r : similar t t' -> events_of t' r = events_of t r.
Proof. intros Hs. unfold events_of. by rewrite <-(similar_call _ _ Hs), <-(similar_name _ _ Hs). Qed.

(** One stop at a system call: the same answer, and similar states before it. *)
Lemma replayed_stop t t' r fs0' :
  similar t t' -> writes t = None -> system_call t fs0 = (r, fs0') ->
  Forall (fun e => exists name, path e = Some name /\ served name) (events_of t r) ->
  fs0' = fs0 /\ exists t2, at_syscall fuel garbage replaying t' = Ok (tt, t2) /\
    system_call t2 fs2 = (r, fs2) /\ prod_relation (=) similar (resume r t) (resume r t2).
Proof.
  intros Hs Hw Hsys Hev. pose proof (similar_call _ _ Hs) as Hc.
  pose proof (similar_resume r r eq_refl t t' Hs) as [Ha Hr].
  destruct (is_file_call (tracee_user t ORIG_RAX)) eqn:Hf.
  - unfold events_of in Hev. rewrite Hf in Hev. apply list.Forall_cons in Hev as [(name & Hn & Hv) _].
    cbn in Hn. rewrite (system_call_file t name) in Hsys by done. injection Hsys as <- <-. split; [done |].
    destruct (replayed_call t' name) as (t2 & Hat & Hsys & Hres);
      [by eapply similar_refl_r | by rewrite <-(similar_writes _ _ Hs) | by rewrite <-Hc |
       by rewrite <-(similar_name _ _ Hs) | done |].
    rewrite <-Hc in Hsys. exists t2. split; [done |]. split; [done |].
    specialize (Hres (answer_for (tracee_user t ORIG_RAX) name fs0)) as [Ha' Hr'].
    split; [by rewrite Ha | by etransitivity].
  - unfold system_call in Hsys. rewrite Hf in Hsys. injection Hsys as <- <-. split; [done |].
    exists t'. unfold system_call. rewrite <-Hc, Hf. split; [| done].
    apply at_other_call. rewrite <-Hc. by apply bool_decide_eq_false in Hf.
Qed.

(** The program makes the same calls, gets the same answers and ends with the
    same code, when every name it uses is served. *)
Lemma drive_replayed n a t t' code ev fs0' :
  similar t t' -> (forall u, similar u u -> writes u = None) ->
  drive fuel garbage new_tracer n a t fs0 = Some (Ok (code, ev, fs0')) ->
  Forall (fun e => exists name, path e = Some name /\ served name) ev ->
  drive fuel garbage replaying n a t' fs2 = Some (Ok (code, ev, fs2)).
Proof.
  intros Hs Hreader. revert a t t' ev Hs.
  induction n as [|n IH]; intros a t t' ev Hs E Hev; [done |]. cbn [drive] in *.
  destruct (bool_decide (mType (wait a) = success)).
  2:{ destruct (bool_decide (mType (wait a) = fail)); [done |]. by injection E as <- <- <-. }
  destruct (isSeccomp (wait a)).
  2:{ pose proof (similar_resume Other Other eq_refl t t' Hs) as [Ha Hr].
      destruct (resume Other t) as [a1 t1], (resume Other t') as [a2 t2].
      cbn in Ha, Hr. subst a2. by apply (IH a1 t1). }
  destruct (at_syscall fuel garbage new_tracer t) as [[u tn] | | | | |] eqn:Hat; try discriminate E.
  apply at_syscall_new in Hat as ->. destruct (system_call t fs0) as [r fs0''] eqn:Hsys.
  destruct (resume r t) as [a1 t1] eqn:Hr. apply outcome_map_Ok in E as ([[c l] f] & E & Ev).
  cbn [fst snd] in Ev. injection Ev as <- <- <-. apply Forall_app in Hev as [Hev1 Hev].
  destruct (replayed_stop t t' r fs0'' Hs (Hreader t (similar_refl_l _ _ Hs)) Hsys Hev1)
    as (-> & t2 & Hat2 & Hsys2 & Ha & Hsim).
  rewrite Hat2, Hsys2. rewrite Hr in Ha, Hsim. destruct (resume r t2) as [a2 t3]. cbn in Ha, Hsim. subst a2.
  rewrite (IH a1 t1 t3 l Hsim E Hev). cbn. by rewrite (similar_events _ _ _ Hs).
Qed.
End replaying.

(** ** The names a run opens *)

Section opening.
Context {T : Type} `{Ptrace T} `{!Program T} (fuel : nat) (garbage : Z -> bytes).
Context (fuel_enough : (512 <= fuel)%nat).

(** They are the names the recording collects. *)
Lemma drive_opened n a (t : T) fs code ev fs' :
  drive fuel garbage new_tracer n a t fs = Some (Ok (code, ev, fs')) ->
  Forall (fun e => is_Some (path e)) ev ->
  opened fuel (stops_of fuel garbage new_tracer n a t fs) = opened_paths ev.
Proof.
  revert a t fs ev. induction n as [|n IH]; intros a t fs ev E Hev; [done |].
  cbn [drive stops_of opened] in *. destruct (bool_decide (mType (wait a) = success)).
  2:{ destruct (bool_decide (mType (wait a) = fail)); [done |]. by injection E as <- <- <-. }
  destruct (isSeccomp (wait a)); cbn [andb].
  2:{ destruct (resume Other t) as [a1 t1]. by apply (IH a1 t1 fs ev). }
  destruct (at_syscall fuel garbage new_tracer t) as [[u tn] | | | | |] eqn:Hat; try discriminate E.
  apply at_syscall_new in Hat as ->. destruct (system_call t fs) as [r fs1].
  destruct (resume r t) as [a1 t1]. apply outcome_map_Ok in E as ([[c l] f] & E & Ev).
  cbn [fst snd] in Ev. injection Ev as <- <- <-. apply Forall_app in Hev as [Hev1 Hev].
  rewrite (IH a1 t1 fs1 l E Hev). unfold opened_paths. rewrite omap_app. f_equal.
  unfold events_of in *. destruct (is_file_call (tracee_user t ORIG_RAX)) eqn:Hf.
  - apply list.Forall_cons in Hev1 as [[name Hn] _]. cbn in Hn |- *.
    destruct (Z.eqb_spec (tracee_user t ORIG_RAX) NR_openat) as [Hnr |]; [| done].
    rewrite Hn. apply (name_of_read t fuel) in Hn; [| done]. rewrite Hnr in Hn.
    change (path_register NR_openat) with RSI in Hn. by rewrite Hn.
  - apply bool_decide_eq_false in Hf. rewrite !elem_of_cons in Hf.
    by rewrite (proj2 (Z.eqb_neq _ _)) by tauto.
Qed.

Lemma path_no_nul n a (t : T) fs code ev fs' tr :
  drive fuel garbage tr n a t fs = Some (Ok (code, ev, fs')) ->
  Forall (fun e => forall name, path e = Some name -> x00 ∉ name) ev.
Proof.
  revert a t fs ev. induction n as [|n IH]; intros a t fs ev E; [done |]. cbn [drive] in E.
  destruct (bool_decide (mType (wait a) = success)).
  2:{ destruct (bool_decide (mType (wait a) = fail)); [done |]. injection E as <- <- <-. constructor. }
  destruct (isSeccomp (wait a)).
  2:{ destruct (resume Other t) as [a1 t1]. by apply (IH a1 t1 fs ev). }
  destruct (at_syscall fuel garbage tr t) as [[u tn] | | | | |]; try discriminate E.
  destruct (system_call tn fs) as [r fs1]. destruct (resume r tn) as [a1 t1].
  apply outcome_map_Ok in E as ([[c l] f] & E & Ev). cbn [fst snd] in Ev. injection Ev as <- <- <-.
  apply Forall_app. split; [| by eapply IH]. unfold events_of. destruct (is_file_call _); [| constructor].
  constructor; [| constructor]. cbn. intros name Hn. apply (name_of_read t fuel) in Hn; [| done].
  by eapply readString_no_nul.
Qed.
End opening.

(** ** Record, pack, replay *)

Section reproducing.
Context `{JsonText, System} {T : Type} `{Ptrace T} `{!Program T} (fuel : nat) (garbage : Z -> bytes).
Context `{!Oblivious garbage} (fuel_enough : (512 <= fuel)%nat).
Context (garbage_word : forall a, length (garbage a) = 8%nat).

(** The file system on which the trace is replayed has its packed files. *)
Definition holds_trace (dir : bytes) (fs fs2 : filesystem) : Prop :=
  read_file fs2 (path_join dir kReplayFileMapConfigName) =
    read_file fs (path_join dir kReplayFileMapConfigName) /\
  forall k, simple k -> read_file fs2 (packed_path dir k) = read_file fs (packed_path dir k).

(** The file system on which the trace was recorded, as the run found it, has a
    file the run packed whose name has the file name of the library [name] in
    it. *)
Definition candidate (o : options) (p : process) (ev : list event) (fs1 : filesystem)
    (name other : bytes) : Prop :=
  contains (filename name) other = true /\
  (other = executable p \/
   other ∈ opened_paths ev /\ unpacked other = false /\ is_Some (read_file fs1 other)).

(** A name of the run that the trace is good for; it is not in the trace itself.
    If it is not a library's: of a file the run opened that can be packed, or one
    that is not packed and that the two file systems agree on.  If it is a
    library's: every packed file that replay may take for it, and there is one
    that the run opened, has its content; or there is none, and the two file
    systems agree on it. *)
Definition reproducible (o : options) (p : process) (ev : list event) (fs1 fs2 : filesystem)
    (name : bytes) : Prop :=
  outside (output o) name /\
  if contains #".so" name then
    (exists c, read_file fs1 name = Some c /\
       (exists other, other <> executable p /\ candidate o p ev fs1 name other) /\
       forall other, candidate o p ev fs1 name other ->
         outside (output o) other /\ read_file fs1 other = Some c) \/
    (forall other, ~ candidate o p ev fs1 name other) /\ node_at fs2 name = node_at fs1 name
  else
    name ∈ opened_paths ev /\ unpacked name = false /\ is_Some (read_file fs1 name) \/
    name <> executable p /\
      (name ∉ opened_paths ev \/ unpacked name = true \/ read_file fs1 name = None) /\
      node_at fs2 name = node_at fs1 name.

(** The copies have names without NUL. *)
Lemma packed_path_no_nul dir n : x00 ∉ dir -> x00 ∉ n -> x00 ∉ packed_path dir n.
Proof.
  intros Hd Hn. apply path_join_not; [done | | done]. apply path_join_not; [done | done |].
  apply (bool_decide_unpack _). vm_compute. exact I.
Qed.
Lemma packed_name_no_nul e files m name n :
  x00 ∉ name -> Forall (named e files) m -> find_key name m = Some (String n) -> x00 ∉ n.
Proof.
  intros Hname Hm Hk.
  destruct (find_key_Forall _ _ _ _ Hm Hk) as [Hv | (counter & Hv & _)]; [injection Hv as _ -> |].
  - apply (bool_decide_unpack _). vm_compute. exact I.
  - cbn [fst snd] in Hv. injection Hv as ->. unfold packed_name. apply not_elem_of_app.
    split; [apply to_string_not; cbn; lia |]. apply not_elem_of_cons. split; [done |].
    intros Hs. by apply Hname, stem_chars.
Qed.

Section served.
Context (o : options) (p : process) (ev : list event) (fs1 fs2 fsR fsP : filesystem) (files : json)
  (m : list (bytes * json)).
Context (output_named : output o <> []) (not_root : canonical (output o) <> #"/") (no_nul : x00 ∉ output o).
Context (P : packed_trace (output o) fsR fsP (executable p) files m).
Context (files_opened : elements files = map String (opened_paths ev)).
Context (trace_held : holds_trace (output o) fsP fs2).
Context (same : forall q, outside (output o) q -> node_at fsR q = node_at fs1 q).
Context (opened_outside : forall q, q ∈ opened_paths ev -> outside (output o) q).
Context (short : forall name copy,
  findSuitableReplacement (path_join (output o) kPackedDataPath) (Object m) name = Ok copy ->
  Z.of_nat (length copy) < PATH_MAX).

Lemma same_file q : outside (output o) q -> read_file fsR q = read_file fs1 q.
Proof. intros Hq. unfold read_file. by rewrite same. Qed.

(** A name that is replaced by a copy with its content. *)
Lemma copy_served name n c : x00 ∉ n ->
  findSuitableReplacement (path_join (output o) kPackedDataPath) (Object m) name =
    Ok (packed_path (output o) n) ->
  read_file fs1 name = Some c -> read_file fs2 (packed_path (output o) n) = Some c ->
  served (path_join (output o) kPackedDataPath) (Object m) fs1 fs2 name.
Proof.
  intros Hn Hrep Hc Hcopy. left. exists (packed_path (output o) n), c. split_and!; try done.
  - unfold packed_path. apply (path_of_nonempty (path_join (output o) kPackedDataPath) [n]).
    by apply (path_of_nonempty (output o) [kPackedDataPath]).
  - by apply packed_path_no_nul.
  - by eapply short.
Qed.

(** The packed files are the executable and files the run opened. *)
Lemma packed_is k v : find_key k m = Some v ->
  (k = executable p /\ v = String #"0") \/
  k ∈ opened_paths ev /\ unpacked k = false /\
    exists c n, read_file fs1 k = Some c /\ v = String n /\ simple n /\
      read_file fsP (packed_path (output o) n) = Some c.
Proof.
  intros Hk.
  destruct (find_key_Forall _ _ _ _ (packed_names _ _ _ _ _ _ P) Hk) as [Hv | (counter & _ & Hin & Hu)];
    [left; by injection Hv |]. right. cbn [fst snd] in *.
  assert (k ∈ opened_paths ev) as Hop.
  { rewrite files_opened in Hin. apply list_elem_of_fmap in Hin as (x & [= <-] & Hx). done. }
  split; [done |]. split; [done |].
  destruct (packed_only _ _ _ _ _ _ P k) as [c Hc]; [by rewrite Hk | done | by apply opened_outside |].
  destruct (packed_copy _ _ _ _ _ _ P k c Hin Hu Hc) as (n & Hn & Hs & Hr).
  exists c, n. rewrite Hk in Hn. rewrite <-(same_file k) by by apply opened_outside.
  split; [done |]. split; [congruence | done].
Qed.

Lemma library_served name : (forall q, q ∈ opened_paths ev -> x00 ∉ q) ->
  contains #".so" name = true -> reproducible o p ev fs1 fs2 name ->
  served (path_join (output o) kPackedDataPath) (Object m) fs1 fs2 name.
Proof.
  intros Hnul Hso [Hout Hcase]. rewrite Hso in Hcase.
  assert (forall k v, find_key k m = Some v -> contains (filename name) k = true ->
    candidate o p ev fs1 name k) as Hcand.
  { intros k v Hk Hc. split; [done |]. apply packed_is in Hk as [[-> _] | (Hop & Hu & c & n & Hr & _)];
      [by left | right]. by rewrite Hr. }
  destruct (List.find (fun el => contains (filename name) el.1) m) as [[k v]|] eqn:Hf.
  - pose proof Hf as [Hk Hkc]%find_first. pose proof (Hcand k v Hk Hkc) as Hkn.
    destruct Hcase as [(c & Hc & _ & Hall) | [Hnone _]]; [| by destruct (Hnone k)].
    destruct (Hall k Hkn) as [Hko Hkr].
    pose proof Hk as [[-> ->] | (Hop & _ & c' & n & Hc' & -> & Hn & Hr)]%packed_is.
    + eapply (copy_served name #"0" c);
        [apply (bool_decide_unpack _); vm_compute; exact I | by eapply library_replaced | done |].
      destruct (packed_executable _ _ _ _ _ _ P) as (c0 & Hc0 & Heq).
      rewrite (proj2 trace_held) by simple_tac. rewrite (Heq c); [done |]. by rewrite same_file.
    + eapply (copy_served name n c); [| by eapply library_replaced | done |].
      { eapply packed_name_no_nul; [by apply Hnul | apply (packed_names _ _ _ _ _ _ P) | exact Hk]. }
      rewrite (proj2 trace_held) by done. congruence.
  - assert (forall k v, find_key k m = Some v -> contains (filename name) k = false) as Hno.
    { intros k v Hk. apply find_key_In in Hk. by apply (List.find_none _ _ Hf) in Hk. }
    destruct Hcase as [(c & _ & (other & Hne & Hoc & [? | (Hop & Hu & c' & Hc')]) & _) | [_ Hnode]]; [done | |].
    + destruct (packed_copy _ _ _ _ _ _ P other c') as (n & Hn & _); [| done | |].
      * rewrite files_opened. by apply list_elem_of_fmap_2.
      * rewrite same_file; [done |]. by apply opened_outside.
      * rewrite (Hno other _ Hn) in Hoc. done.
    + right. split; [by apply library_not_replaced | done].
Qed.

(** A name the trace is good for is served. *)
Lemma reproducible_served name : x00 ∉ name -> (forall q, q ∈ opened_paths ev -> x00 ∉ q) ->
  reproducible o p ev fs1 fs2 name ->
  served (path_join (output o) kPackedDataPath) (Object m) fs1 fs2 name.
Proof.
  intros Hname Hnul Hrep. destruct (contains #".so" name) eqn:Hso; [by apply library_served |].
  destruct Hrep as [Hout Hcase]. rewrite Hso in Hcase.
  destruct Hcase as [(Hin & Hu & c & Hc) | (Hne & Hno & Hnode)].
  - destruct (packed_copy _ _ _ _ _ _ P name c) as (n & Hk & Hn & Hr); [| done | by rewrite same_file |].
    { rewrite files_opened. by apply list_elem_of_fmap_2. }
    eapply (copy_served name n c); [| by apply replaced_by_copy | done |].
    { by eapply packed_name_no_nul; [| apply (packed_names _ _ _ _ _ _ P) |]. }
    by rewrite (proj2 trace_held).
  - right. split; [| done]. apply not_replaced; [done |].
    destruct (find_key name m) as [v|] eqn:Hk; [| done]. exfalso.
    apply packed_is in Hk as [[? _] | (Hin & Hu & c & n & Hc & _)]; [done |].
    destruct Hno as [Hno | [Hno | Hno]]; congruence.
Qed.
End served.

(** C4: a packed trace reproduces the run it was recorded from, as far as the
    names of the run are in the trace.  A program that only reads files is recorded
    on [fs0]; nothing but the trace changes meanwhile; the trace is packed.  On a
    file system [fs2] with the packed files, the program under the tracer of
    [replay] makes the same file calls with the same names, gets the same contents
    and statuses, and ends with the same exit code.  A regular file outside /dev,
    /sys and /proc that the run opened is answered from its copy, whatever [fs2]
    has under its name.  Every other name is answered by [fs2], which has to agree
    with the recorded system there: files that were only asked for their status,
    the excluded trees, and what was not there.  A library, a name with [.so] in
    it, is answered from the first packed file whose name contains the library's
    file name; all the packed files that do must have its content, or there must
    be none and [fs2] must agree. *)
Theorem packed_run_reproduced (o : options) (fs0 fs1 fsR fsP fs2 : filesystem) (p : process)
    (effect : process -> filesystem -> filesystem) (fse := effect p fs1)
    (n : nat) (a : option Z) (t t' : T) code ev fs1' answer setopt :
  tree fs0 -> output o <> [] -> x00 ∉ output o -> record_prepare o fs0 = Ok (p, fs1) ->
  similar t t' -> (forall u, similar u u -> writes u = None) ->
  drive fuel garbage new_tracer n a t fs1 = Some (Ok (code, ev, fs1')) ->
  record (fun p => _ ← modify (effect p);
                   lift (traced_run fuel garbage answer setopt (stops_of fuel garbage new_tracer n a t fs1)))
    o fs0 = Ok (tt, fsR) ->
  is_directory fse (output o) = true ->
  node_at fse (path_join (output o) kFilesConfigName) = None ->
  node_at fse (path_join (output o) kReplayFileMapConfigName) = None ->
  read_file fse (path_join (output o) kReplayConfigName) =
    read_file fs1 (path_join (output o) kReplayConfigName) ->
  (forall q, outside (output o) q -> node_at fse q = node_at fs1 q) ->
  pack_trace (output o) fsR = Ok (tt, fsP) -> holds_trace (output o) fsP fs2 ->
  (forall m name copy, load_json (path_join (output o) kReplayFileMapConfigName) fs2 = Ok m ->
     findSuitableReplacement (path_join (output o) kPackedDataPath) m name = Ok copy ->
     Z.of_nat (length copy) < PATH_MAX) ->
  Forall (fun e => exists name, path e = Some name /\ reproducible o p ev fs1 fs2 name) ev ->
  exists m, load_json (path_join (output o) kReplayFileMapConfigName) fs2 = Ok m /\
    drive fuel garbage (replaying (path_join (output o) kPackedDataPath) m) n a t' fs2 =
    Some (Ok (code, ev, fs2)).
Proof.
  intros Ht Ho Hnul Hprep Hs Hreader Hrun Hrec Hdir Hf Hm Hcfg Hout Hpack Hholds Hshort Hev.
  destruct (record_prepare_spec o fs0 p fs1 Ht Ho Hprep) as (_ & Hroot & _).
  destruct (record_leaves_trace _ _ _ _ _ _ _ _ _ _ _ Hrec Ht Ho Hprep Hdir Hf Hm Hcfg)
    as (files & config & Htr & Hfiles & Hel & Hconfig & Hplain & Hexe & Hmap & Hsame).
  destruct (pack_makes_trace _ Ho _ _ _ _ Hpack Hfiles Hconfig Hplain Hmap) as (e & m & He & P).
  rewrite Hexe in He. injection He as <-.
  assert (load_json (path_join (output o) kReplayFileMapConfigName) fs2 = Ok (Object m)) as Hload.
  { pose proof (packed_map _ _ _ _ _ _ P) as Hload. unfold load_json in *. by rewrite (proj1 Hholds). }
  assert (Forall (fun e => is_Some (path e)) ev) as Hsome.
  { eapply list.Forall_impl; [exact Hev |]. intros x (name & -> & _). done. }
  rewrite (drive_opened fuel garbage fuel_enough n a t fs1 code ev fs1' Hrun Hsome) in Hel.
  exists (Object m). split; [done |].
  eapply (drive_replayed fuel garbage fuel_enough garbage_word _ _ fs1); [exact Hs | done | exact Hrun |].
  pose proof (path_no_nul fuel garbage fuel_enough n a t fs1 code ev fs1' _ Hrun) as Hnn.
  apply list.Forall_forall. intros x Hx. rewrite list.Forall_forall in Hev, Hnn.
  destruct (Hev x Hx) as (name & Hname & Hrep). exists name. split; [done |].
  assert (forall q, q ∈ opened_paths ev -> outside (output o) q /\ x00 ∉ q) as Hopened.
  { intros q Hq. unfold opened_paths in Hq. apply list_elem_of_omap in Hq as (y & Hy & Hyq).
    destruct (_ =? _); [| done]. destruct (Hev y Hy) as (name' & Hname' & Hrep').
    rewrite Hyq in Hname'. injection Hname' as <-. split; [apply Hrep' | by apply (Hnn y Hy)]. }
  eapply (reproducible_served o p ev fs1 fs2 fsR fsP files m); try done.
  + intros q Hq. rewrite <-(Hout q Hq). apply Hsame.
    apply not_eq_sym, (outside_packed (output o) Ho q Hroot Hq). simple_tac.
  + intros q Hq. by apply Hopened.
  + intros name' copy. by apply Hshort.
  + by apply (Hnn x Hx).
  + intros q Hq. by apply Hopened.
Qed.
End reproducing.

(** ** A concrete run *)

(** The lengths of the copies, checked on the map. *)
Lemma short_copies base m :
  forallb (fun kv => match kv.2 with String v => Z.of_nat (length (path_join base v)) <? PATH_MAX | _ => true end)
    (items m) = true ->
  forall name copy, findSuitableReplacement base m name = Ok copy -> Z.of_nat (length copy) < PATH_MAX.
Proof.
  intros Hm name copy E. rewrite forallb_forall in Hm. unfold findSuitableReplacement in E.
  destruct (contains #".so" name).
  - destruct (List.find _ (items m)) as [[k v] |] eqn:Hf; [| by injection E as <-].
    apply List.find_some in Hf as [Hin _]. apply Hm in Hin. apply outcome_bind_Ok in E as (s & Hs & E).
    cbn in Hs, Hin. destruct v; simplify_eq/=. by apply Z.ltb_lt.
  - destruct m as [| | | | | l]; try (injection E as <-; done).
    destruct (contains_key name (Object l)); [| by injection E as <-].
    apply outcome_bind_Ok in E as (s & Hs & E). apply outcome_bind_Ok in Hs as (v & Hv & Hs).
    cbn in Hv. injection Hv as <-. destruct (find_key name l) as [v|] eqn:Hk; cbn in Hs; [| done].
    apply find_key_In, Hm in Hk as Hin. cbn in Hin. destruct v; simplify_eq/=. by apply Z.ltb_lt.
Qed.

(** Opens a library, reads a file, asks for its status, and tries one that is not
    there. *)
Definition reader : list action :=
  [Read #"/libdemo.so.1"; Read #"/data"; Status NR_newfstatat #"/data"; Read #"/missing"; ExitWith 0].
Definition library_fs : filesystem := <[ #"/libdemo.so.1" := Regular #"code"]> sample_fs.
Definition reader_stop : option Z * script := started reader.
Definition reader_events : list event :=
  [ {| call := NR_openat; path := Some #"/libdemo.so.1"; got := Opened (Some #"code") |};
    {| call := NR_openat; path := Some #"/data"; got := Opened (Some #"numbers") |};
    {| call := NR_newfstatat; path := Some #"/data"; got := Stated (Some (RegularFile 7)) |};
    {| call := NR_openat; path := Some #"/missing"; got := Opened None |} ].

Lemma reader_opens q : q ∈ opened_paths reader_events -> q = #"/libdemo.so.1" \/ q = #"/data" \/ q = #"/missing".
Proof.
  assert (opened_paths reader_events = [ #"/libdemo.so.1"; #"/data"; #"/missing"]) as -> by reflexivity.
  intros [-> | [-> | [-> | []%elem_of_nil]%elem_of_cons]%elem_of_cons]%elem_of_cons; auto.
Qed.

#[local] Existing Instance Tracee.process_Ptrace.

(** The plugin writes the trace of a thread; on the machine that replays, the
    file has changed. *)
Definition reader_effect (p : process) : filesystem -> filesystem :=
  write_file #"/trace/main.pi_trace" #"calls".
Definition reader_stops (fs : filesystem) : list (option Z * script) :=
  stops_of 512 Tracee.garbage new_tracer 9 reader_stop.1 reader_stop.2 fs.
Definition state_after {S A : Type} (s0 : S) (x : outcome (A * S)) : S :=
  match x with Ok (_, s) => s | _ => s0 end.

Lemma packed_path_ne_data k : simple k -> canonical #"/data" <> canonical (packed_path #"/trace" k).
Proof.
  intros Hk. apply (proj1 (proj2 (outside_packed #"/trace" ltac:(done) #"/data" ltac:(done) ltac:(done)))), Hk.
Qed.

Lemma ran_as {A : Type} code ev (x : option (outcome (Z * list event * A))) :
  match x with Some (Ok (c, l, _)) => bool_decide (c = code /\ l = ev) | _ => false end = true ->
  exists fs, x = Some (Ok (code, ev, fs)).
Proof.
  destruct x as [[[[c l] fs] | | | | |] |]; try done. intros [-> ->]%bool_decide_eq_true. by exists fs.
Qed.

Lemma packed_run_reproduced_witness : let _ := sample_system in
  let fs1 := state_after ∅ (record_prepare record_options library_fs) in
  let fsR := state_after ∅ (record (fun p => _ ← modify (reader_effect p);
    lift (traced_run 512 Tracee.garbage (Some (stop_status 0 19)) true (reader_stops fs1)))
    record_options library_fs) in
  let fsP := state_after ∅ (pack_trace #"/trace" fsR) in
  let fs2 := <[ #"/data" := Regular #"changed"]> fsP in
  exists m, load_json #"/trace/replay_file_map.json" fs2 = Ok m /\
    drive 512 Tracee.garbage (replaying #"/trace/pack" m) 9 reader_stop.1 reader_stop.2 fs2 =
    Some (Ok (0, reader_events, fs2)).
Proof.
  intros S fs1 fsR fsP fs2.
  assert (forall {A B} (x : outcome (A * B)) s0, is_ok x = true -> exists a, x = Ok (a, state_after s0 x)) as Hok.
  { intros A B x s0. destruct x as [[a s] | | | | |]; [by eexists | done..]. }
  destruct (Hok _ _ (record_prepare record_options library_fs) ∅) as [p Hp]; [vm_compute; reflexivity |].
  destruct (ran_as 0 reader_events
    (drive 512 Tracee.garbage new_tracer 9 reader_stop.1 reader_stop.2 fs1)) as [fs1' Hrun];
    [vm_compute; reflexivity |].
  refine (packed_run_reproduced 512 Tracee.garbage ltac:(lia) (fun _ => eq_refl) record_options
    library_fs fs1 fsR fsP fs2 p reader_effect 9 reader_stop.1 reader_stop.2 reader_stop.2 0 reader_events
    fs1' (Some (stop_status 0 19)) true _ _ _ Hp _ _ Hrun _ _ _ _ _ _ _ _ _ _).
  - apply tree_check. vm_compute. reflexivity.
  - discriminate.
  - apply (bool_decide_unpack _). vm_compute. exact I.
  - split; [reflexivity |]. exists reader, []. split; [repeat constructor | reflexivity].
  - exact (reader_writes Tracee.garbage).
  - destruct (Hok _ _ (record (fun p => _ ← modify (reader_effect p);
      lift (traced_run 512 Tracee.garbage (Some (stop_status 0 19)) true (reader_stops fs1)))
      record_options library_fs) ∅) as [[] E]; [vm_compute; reflexivity | exact E].
  - vm_compute. reflexivity.
  - vm_compute. reflexivity.
  - vm_compute. reflexivity.
  - vm_compute. reflexivity.
  - intros q Hq. unfold reader_effect. apply write_file_other. intros E. unfold outside in Hq.
    rewrite <-E in Hq. vm_compute in Hq. discriminate.
  - destruct (Hok _ _ (pack_trace #"/trace" fsR) ∅) as [[] E]; [vm_compute; reflexivity | exact E].
  - split; [vm_compute; reflexivity |]. intros k Hk. unfold fs2.
    change #"/data" with (canonical #"/data"). apply read_file_insert. intros E.
    apply (packed_path_ne_data k Hk). exact E.
  - intros m name copy Hm. apply short_copies.
    assert (m = match load_json (path_join (output record_options) kReplayFileMapConfigName) fs2 with
                | Ok m => m | _ => Null end) as ->
      by (by rewrite Hm).
    vm_compute. reflexivity.
  - assert (executable p = #"/bin/app") as Hexe.
    { assert (p = match record_prepare record_options library_fs with Ok (p, _) => p | _ => p end) as ->
        by (by rewrite Hp).
      vm_compute. reflexivity. }
    repeat constructor; eexists; (split; [reflexivity |]); (split; [vm_compute; reflexivity |]).
    + left. exists #"code". split; [vm_compute; reflexivity |]. split.
      * exists #"/libdemo.so.1". split; [rewrite Hexe; discriminate |]. split; [vm_compute; reflexivity |]. right.
        split; [left |]. split; [vm_compute; reflexivity |]. eexists. vm_compute. reflexivity.
      * intros other [Hin [-> | (Hop & _)]]; [rewrite Hexe in Hin; vm_compute in Hin; discriminate |].
        destruct (reader_opens other Hop) as [-> | [-> | ->]];
          [split; vm_compute; reflexivity | vm_compute in Hin; discriminate..].
    + left. split; [right; left |]. split; [vm_compute; reflexivity |]. eexists. vm_compute. reflexivity.
    + left. split; [right; left |]. split; [vm_compute; reflexivity |]. eexists. vm_compute. reflexivity.
    + right. split; [rewrite Hexe; discriminate |]. split; [right; right |]; vm_compute; reflexivity.
Defined.
