(* ===== verification/Main.v ===== *)
(** * Main: the command line tool

    src/main.cpp: the options, the dispatch to the commands and the handler of
    their exceptions; and what two command lines typed one after the other do. *)

From S2P Require Import Prelude Regex Hex Debugger GdbProtocol GdbServer Streams Trace PiCall Images Recorder.
From S2P Require Import Sample Files Printer PrintProps HostDebugger Sim SampleHost Options Json Tracer.
From S2P Require Import Launch Archive Commands.

Definition infoText : bytes := #"
DPC++ trace utility

Available commands:

    info    displays this guide
    record  records DPC++ application trace
    print   prints recorded traces
    replay  replays recorded PI traces
    pack    packs executable and its dependencies into trace

- record:
    Usage: dpcpp_trace record [OPTIONS] executable [-- application args]

    Options:
      --output, -o  output directory, required.
      --skip-mem-objects, -s
                    skip record of memory objects.

- print:
    Usage: dpcpp_trace print [OPTIONS] path/to/trace/dir

    Options:
      --group <mode>
                   group PI call traces, available modes: none, thread;
                   default: none.
      --verbose    print as much info as possible.
      --perf       print performance summary per group.

- replay:
    Usages: dpcpp_trace replay [OPTIONS] path/to/trace/dir
            dpcpp_trace replay [OPTIONS] -t /path/to/trace executable [-- args]

    Options:
      -t <path>    use trace from this path, but command line is specified
                   separately.
      --print-only, -p
                   print command, that is going to be executed.

- pack:
    Usages:
      dpcpp_trace pack /path/to/trace
      dpcpp_trace pack /path/to/trace -o my_trace.dpcpp_trace

    Options:
      --output, -o creates compressed trace file in addition to packing
                   reproducer; optional.
".

(** Whether an exception is a [std::runtime_error]: those of nlohmann::json and of
    a vector that is too long are not, which the start of [what()] tells. *)
Definition runtime_error (what : bytes) : bool :=
  negb (is_prefix #"[json.exception." what) && negb (is_prefix #"vector::" what).

Section main.
Context `{JsonText, System, Compression, Walk, PiNames, Listing} `{Protobuf APICall}
  `{Protobuf DeviceBinary} {L T : Type} `{LLDB L T, !Launcher L} `{Ctre} {F : Type}
  `{!GdbProtocol.Files F} (kHasDebugger : bool).

(** What a process of the tool meets outside the file system: the programs it
    runs ([traced] under [record], [replayed] under [replay], which gives the
    exit code), what it finds in memory it has not set, the files and the client
    of the debug server, and what [readlink] answers. *)
Record world := {
  traced : Launch.process -> M filesystem (list bytes * Z);
  replayed : Launch.process -> option (bytes * json) -> M filesystem Z;
  uninit_image : bytes;
  uninit : nat -> bytes;
  pid : Z;
  open_files : F;
  messages : list bytes;
  self : option bytes;
  buffer : bytes;
}.

(** What a command that ends normally did. *)
Inductive ended : Type :=
  | Informed (text : bytes)
  | Recorded
  | Listed (text : bytes)
  | Replayed (a : action)
  | Packed
  | Unpacked
  | Debugged (d : debugged (L := L) (F := F))
  | NoDebugger.

(** [replay] from [launch] on: the exit code is not looked at. *)
Definition replay_run (w : world) (o : options) : M filesystem action :=
  fs ← get;
  a ← lift (replay o fs);
  match a with
  | Printed _ => mret a
  | Launched p packed => _ ← replayed w p packed; mret a
  end.

(** The body of the [try]; [None] when [fuel] does not end the loops of
    [print]. *)
Definition run_command (fuel : nat) (w : world) (o : options) (fs : filesystem)
    : option (outcome (ended * filesystem)) :=
  match command o with
  | Ok mode.info => Some (Ok (Informed infoText, fs))
  | Ok mode.record => Some ((_ ← record (traced w) o; mret Recorded) fs)
  | Ok mode.print =>
      match printTrace fuel (uninit_image w) (uninit w) o fs with
      | Some text => Some (text ← text; Ok (Listed text, fs))
      | None => None
      end
  | Ok mode.replay => Some ((a ← replay_run w o; mret (Replayed a)) fs)
  | Ok mode.pack => Some ((_ ← pack o; mret Packed) fs)
  | Ok mode.unpack => Some ((_ ← unpack o; mret Unpacked) fs)
  | Ok mode.debug =>
      if kHasDebugger then
        Some (d ← debug (pid w) o fs (open_files w) (messages w); Ok (Debugged d, fs))
      else Some (Ok (NoDebugger, fs))
  | _ => Some UB
  end.

(** A run of the tool: its exit status, what it writes to [std::cerr] itself and,
    after a command that ended normally, what that did. *)
Record report := { status : Z; cerr : bytes; result : option (ended * filesystem) }.

(** The end of [main]: [return 0], the handler of the [try], or neither. *)
Definition finish (body : outcome (ended * filesystem)) : outcome report :=
  match body with
  | Ok (e, fs) =>
      Ok {| status := 0;
            cerr := match e with
                    | NoDebugger => #"dpcpp_trace was build without debugger support" ++ [x0a]
                    | _ => []
                    end;
            result := Some (e, fs) |}
  | Throw what =>
      if runtime_error what then
        Ok {| status := -1; cerr := #"CLI error: " ++ what ++ [x0a]; result := None |}
      else Terminate
  | Terminate => Terminate
  | Exit code => Exit code
  | Blocked => Blocked
  | UB => UB
  end.

Definition main (fuel : nat) (w : world) (argv env : list bytes) (fs : filesystem)
    : option (outcome report) :=
  finish <$> match make_options argv env (self w) (buffer w) with
             | Ok opts => run_command fuel w opts fs
             | Throw what => Some (Throw what)
             | Terminate => Some Terminate
             | Exit code => Some (Exit code)
             | Blocked => Some Blocked
             | UB => Some UB
             end.

(** * Theorems *)

(** A run that ends with 0 has parsed the command line and run the command. *)
Lemma main_ended fuel w argv env fs e out fs' :
  main fuel w argv env fs = Some (Ok {| status := 0; cerr := out; result := Some (e, fs') |}) ->
  exists o, make_options argv env (self w) (buffer w) = Ok o /\
    run_command fuel w o fs = Some (Ok (e, fs')).
Proof.
  unfold main. destruct (make_options argv env (self w) (buffer w)) as [o | what | | | |] eqn:E; cbn;
    try done; [| by destruct (runtime_error what)].
  destruct (run_command fuel w o fs) as [[[e1 fs1] | what | | | |] |] eqn:Hr; cbn; try done;
    [| by destruct (runtime_error what)].
  intros [= <- <- <-]. by exists o.
Qed.

(** ** Parsed command lines *)

(** The members [set_start] gives at the start of the constructor, and nothing
    else set. *)
Definition started (path : bytes) (env : list bytes) (m : mode.t) : options :=
  set_mMode m (Options.set_start path env None new_options).

Lemma make_options_started tool cmd m rest env exe buf o :
  (cmd, m) ∈ [( #"record", mode.record); ( #"replay", mode.replay)] ->
  make_options (tool :: cmd :: rest) env exe buf = Ok o ->
  exists link path, exe = Some link /\ c_string (link ++ drop (length link) buf) = Ok path /\
    match m with
    | mode.record => parseRecordOptions (tool :: cmd :: rest) (started path env m) = Ok o
    | _ => parseReplayOptions (tool :: cmd :: rest) (started path env m) = Ok o
    end.
Proof.
  intros Hm E. unfold make_options in E. destruct exe as [link |]; [| done].
  apply outcome_bind_Ok in E as (path & Hp & E). exists link, path. split; [done |]. split; [done |].
  apply list_elem_of_In in Hm as [[= <- <-] | [[= <- <-] | []]]; exact E.
Qed.

Lemma foldl_record_apply l o :
  mMode (foldl record_apply o l) = mMode o /\ mArguments (foldl record_apply o l) = mArguments o.
Proof.
  revert o. induction l as [|a l IH]; intros o; [done |]. cbn [foldl].
  destruct (IH (record_apply o a)) as [-> ->]. by destruct a.
Qed.

(** What [record] has made of a correct command line. *)
Lemma record_line tool rest env (w : world) l extra p n q o :
  rest = mjoin (record_text <$> l) ++ extra_text extra ->
  NoDup (kind_of <$> l) -> Forall record_valid l -> RInput p ∈ l -> ROutput n q ∈ l ->
  make_options (tool :: #"record" :: rest) env (self w) (buffer w) = Ok o ->
  command o = Ok mode.record /\ input o = p /\ output o = q /\ args o = default [] extra.
Proof.
  intros -> Hn Hv Hp Hq E. eapply (make_options_started _ _ mode.record) in E as (link & path & _ & _ & E);
    [| repeat constructor].
  unfold parseRecordOptions in E. apply outcome_bind_Ok in E as (o1 & E1 & E).
  change (drop 2 (tool :: #"record" :: ?x)) with x in E1. rewrite record_parse in E1;
    [| done | done | apply list.Forall_forall; intros [] _; done].
  injection E1 as <-.
  destruct (empty _) in E; [done |]. destruct (empty _) in E; [done |]. injection E as <-.
  pose proof (foldl_inputs l (started path env mode.record) p Hn Hp) as Ei.
  pose proof (foldl_outputs l (started path env mode.record) n q Hn Hq) as Eo.
  destruct (foldl_record_apply l (started path env mode.record)) as [Em Ea].
  unfold command, input, output, args. set (o := foldl _ _ _) in *. clearbody o. 
  destruct extra; cbn [extra_apply set_mArguments mMode mInput mOutput mArguments default];
    rewrite ?Em, ?Ei, ?Eo, ?Ea; done.
Qed.

(** What [replay], with the name of a trace alone, has made of it. *)
Lemma replay_line tool q env (w : world) link path :
  positional q = true -> q <> [] -> self w = Some link ->
  c_string (link ++ drop (length link) (buffer w)) = Ok path ->
  make_options [tool; #"replay"; q] env (self w) (buffer w) =
  Ok (set_mInput q (started path env mode.replay)).
Proof.
  intros Hq Hne -> Hp. unfold make_options. rewrite Hp. cbn [mbind outcome_mbind outcome_bind].
  change (is_one_of #"replay" [ #"record"]) with false.
  change (is_one_of #"replay" [ #"replay"]) with true. cbn iota.
  unfold parseReplayOptions. cbn [drop replay_loop]. rewrite Hq. cbn [mbind outcome_mbind outcome_bind].
  rewrite (proj2 (empty_false _)) by done. done.
Qed.

(** The end of a recording does not touch the configuration. *)
Lemma record_finish_spec o files code fs fs' :
  output o <> [] -> record_finish o files code fs = Ok (tt, fs') ->
  code = 0 /\
  (is_directory fs (output o) = true -> is_directory fs' (output o) = true) /\
  read_file fs' (path_join (output o) kReplayConfigName) =
  read_file fs (path_join (output o) kReplayConfigName).
Proof.
  intros Ho Hr. unfold record_finish in Hr. apply M_bind_Ok in Hr as ([] & fs1 & Hs & Hr).
  apply M_bind_Ok in Hs as (text & s & [_ ->]%lift_Ok & Hs). injection Hs as <-.
  destruct (Z.eqb_spec code 0) as [-> |]; [| discriminate]. injection Hr as <-.
  split; [done |]. split; [apply write_file_directory |].
  unfold read_file. rewrite write_file_other; [done |].
  rewrite !canonical_child by (done || simple_tac). intros E%(inj _). discriminate E.
Qed.

Lemma run_replay fuel (w : world) o fs pr packed :
  command o = Ok mode.replay -> replay o fs = Ok (Launched pr packed) ->
  run_command fuel w o fs =
  Some ((_ ← replayed w pr packed; mret (Replayed (Launched pr packed))) fs).
Proof.
  intros Hc Hr. unfold run_command. rewrite Hc. f_equal. unfold replay_run, mbind, M_mbind.
  cbn [get outcome_mbind outcome_bind mbind]. rewrite Hr. unfold lift. cbn [outcome_bind mbind outcome_mbind].
  by destruct (replayed w pr packed fs) as [[] | | | | |].
Qed.

(** ** Recording a program and replaying the trace *)

(** C2: the two command lines of the tool's purpose.  A correct [record] command
    line, in which [p] is the program, [q] the trace and what follows [--] the
    program's arguments, runs the program and ends with 0; the program leaves
    the trace's configuration alone.  Then [replay q] runs the same executable
    with the same arguments on the same trace, the replay plugin standing in for
    exactly the plugins that could be loaded, and ends with 0 whenever that run
    comes to an end, whatever its exit code. *)
Theorem record_then_replay_commands (fuel fuel' : nat) (w w' : world) (tool tool' p n q link path out : bytes)
    (env env' : list bytes) (l : list record_arg) (extra : option (list bytes)) (fs0 fs2 : filesystem) :
  NoDup (kind_of <$> l) -> Forall record_valid l -> RInput p ∈ l -> ROutput n q ∈ l ->
  positional q = true -> q <> [] -> tree fs0 ->
  (forall pr fs r fs', traced w pr fs = Ok (r, fs') -> is_directory fs q = true ->
     is_directory fs' q = true /\
     read_file fs' (path_join q kReplayConfigName) = read_file fs (path_join q kReplayConfigName)) ->
  self w' = Some link -> c_string (link ++ drop (length link) (buffer w')) = Ok path ->
  main fuel w (tool :: #"record" :: mjoin (record_text <$> l) ++ extra_text extra) env fs0 =
    Some (Ok {| status := 0; cerr := out; result := Some (Recorded, fs2) |}) ->
  exists pr fs1 files fs',
    traced w pr fs1 = Ok (files, 0, fs') /\ arguments pr = p :: default [] extra /\
    let pr' :=
      {| executable := executable pr;
         arguments := arguments pr;
         environment :=
           base.filter (fun e => is_prefix #"LD_LIBRARY_PATH" e = false) env' ++
           [ #"LD_PRELOAD=libsystem_intercept.so"] ++
           overrides (canLoadLibrary kOpenCLPluginName, canLoadLibrary kLevelZeroPluginName,
                      canLoadLibrary kCUDAPluginName, canLoadLibrary kROCmPluginName) ++
           [(#"LD_LIBRARY_PATH=" ++ path_join (path_join (parent_path path) #"..") #"lib" ++ #":") ++
               default [] (getenv #"LD_LIBRARY_PATH");
             kTracePathEnvVar ++ #"=" ++ q] |} in
    main fuel' w' [tool'; #"replay"; q] env' fs2 =
    Some (finish ((_ ← replayed w' pr' None; mret (Replayed (Launched pr' None))) fs2)).
Proof.
  intros Hn Hv Hp Hq Hpos Hne Ht Hkeep Hself Hpath Hmain.
  apply main_ended in Hmain as (o & Ho & Hrun).
  apply (record_line _ _ _ _ l extra p n q) in Ho as (Hc & Hi & Hout & Hargs); [| done..].
  unfold run_command in Hrun. rewrite Hc in Hrun. injection Hrun as Hrun.
  apply M_bind_Ok in Hrun as ([] & fsa & Hrec & Hret). injection Hret as <-.
  unfold record in Hrec. apply M_bind_Ok in Hrec as (pr & fs1 & Hprep & Hrec).
  apply M_bind_Ok in Hrec as ([files code] & fs' & Hprog & Hfin).
  rewrite <-Hout in Hne, Hpos, Hkeep |- *.
  destruct (record_prepare_spec o fs0 pr fs1 Ht Hne Hprep) as (Hdir & _ & m & text & _ & _ & _ & _ & Ha).
  destruct (Hkeep _ _ _ _ Hprog Hdir) as [Hdir' Hread'].
  destruct (record_finish_spec o files code fs' fsa Hne Hfin) as (-> & Hdir2 & Hread2).
  exists pr, fs1, files, fs'. split; [done |]. split; [by rewrite Ha, Hi, Hargs |].
  cbn zeta. unfold main. rewrite (replay_line _ _ _ _ link path) by done.
  erewrite run_replay; [reflexivity | reflexivity |].
  exact (record_then_launch o (set_mInput (output o) (started path env' mode.replay)) fs0 fs1 fsa
    pr Ht Hne Hprep (Hdir2 Hdir') (eq_trans Hread2 Hread') eq_refl eq_refl).
Qed.
End main.

(** ** A concrete session *)

#[local] Existing Instances Archive.sample_compression Archive.sample_walk PrintProps.sample_names
  PrintProps.sample_listing.

(** The program opens one file; a replay of it ends with 3. *)
Definition sample_world : world (F := sim_files) := {|
  traced _ := mret ([ #"a.so"], 0);
  replayed _ _ := mret 3;
  uninit_image := []; uninit _ := []; pid := 1;
  open_files := {| sim_content := []; sim_offset := 0 |};
  messages := [];
  self := Some #"/opt/bin/dpcpp_trace"; buffer := repeat x00 1024;
|}.

Definition recorded_trace (r : option (outcome (report (L := lldb) (F := sim_files)))) : filesystem :=
  match r with Some (Ok {| result := Some (_, fs) |}) => fs | _ => ∅ end.
Definition sample_record : option (outcome (report (L := lldb) (F := sim_files))) :=
  let _ := sample_system in
  main (L := lldb) true 0 sample_world
    [ #"dpcpp_trace"; #"record"; #"-o"; #"/trace"; #"app"; #"--"; #"-n"] [ #"HOME=/"] sample_fs.

Lemma record_then_replay_commands_witness : let _ := sample_system in
  exists a fs, main (L := lldb) true 0 sample_world [ #"dpcpp_trace"; #"replay"; #"/trace"] [ #"HOME=/"]
      (recorded_trace sample_record) =
    Some (Ok {| status := 0; cerr := []; result := Some (Replayed a, fs) |}).
Proof.
  intros S.
  destruct (record_then_replay_commands true 0 0 sample_world sample_world #"dpcpp_trace" #"dpcpp_trace"
    #"app" #"-o" #"/trace" #"/opt/bin/dpcpp_trace" #"/opt/bin/dpcpp_trace" [] [ #"HOME=/"] [ #"HOME=/"]
    [ROutput #"-o" #"/trace"; RInput #"app"] (Some [ #"-n"]) sample_fs (recorded_trace sample_record))
    as (pr & fs1 & files & fs' & _ & _ & E).
  - apply (bool_decide_unpack _). vm_compute. exact I.
  - repeat constructor.
  - repeat constructor.
  - repeat constructor.
  - vm_compute. reflexivity.
  - discriminate.
  - apply tree_check. vm_compute. reflexivity.
  - intros pr fs r fs' Hr Hd. injection Hr as _ <-. split; [exact Hd | reflexivity].
  - reflexivity.
  - vm_compute. reflexivity.
  - vm_compute. reflexivity.
  - eexists _, _. rewrite E. reflexivity.
Defined.
