(* ===== verification/UnitTests.v ===== *)
(** * UnitTests: the unit tests of the repository

    The test cases of unittests/utils on the definitions of Options, Files and
    Tracer: each case as the conjunction of its [REQUIRE]s. *)

From S2P Require Import Prelude Options Streams Files Tracer TracedFiles Programs SampleProgram Observer Main.

#[local] Existing Instance Tracee.process_Ptrace.

(** [s.ends_with(suffix)] *)
Definition ends_with (suffix s : bytes) : bool := is_prefix (rev suffix) (rev s).

(** [fs::remove] *)
Definition remove (p : bytes) : M filesystem unit := modify (base.delete (canonical p)).

(** [is >> n]: the decimal digits at the start, 0 when there are none. *)
Fixpoint read_digits (acc : Z) (s : bytes) : Z :=
  match s with
  | c :: s =>
      let d := Z.of_N (Byte.to_N c) - 48 in
      if (0 <=? d) && (d <=? 9) then read_digits (10 * acc + d) s else acc
  | [] => acc
  end.
Definition extract_int (p : bytes) (fs : filesystem) : Z := read_digits 0 (default [] (read_file fs p)).

(** ** NativeTracer.cpp *)

Definition kForkTestFilename : bytes := #"fork_test".
Definition kOpenTestFilename : bytes := #"open_test".
Definition kStatTestFilename : bytes := #"stat_test".
Definition kReplaceTestFilename1 : bytes := #"replace1_test".
Definition kReplaceTestFilename2 : bytes := #"replace2_test".

Section native_tracer.
Context (tmp : bytes).

(** [tracer.fork(start); tracer.start();] and [tracer.wait()]: the exit code, and
    what the handlers captured. *)
Definition run_child {A : Type} (tr : tracer (T := script * A)) (captured : A) (start : list action)
    : M filesystem (Z * A) := fun fs =>
  _ ← fork_parent (Some (stop_status 0 19)) true;
  let '(a, t) := SampleProgram.started start in
  match drive 512 Tracee.garbage tr 8 a (t, captured) fs with
  | Some (Ok (code, _, fs')) =>
      match list.last (stops_of 512 Tracee.garbage tr 8 a (t, captured) fs) with
      | Some (_, (_, captured)) => Ok ((code, captured), fs')
      | None => UB
      end
  | Some e => _ ← e; UB
  | None => UB
  end.

(** A handler that captures [test] by reference. *)
Definition sets_test (suffix : bytes) : file_handler (T := script * bool) := fun filename _ =>
  if ends_with suffix filename then modify (fun x => (x.1, true)) else mret tt.

(** The end of a test on a file: the number in it, and the file removed. *)
Definition number_in (p : bytes) : M filesystem Z :=
  fs ← get; _ ← remove p; mret (extract_int p fs).

Definition can_fork_processes : M filesystem bool :=
  let file := path_join tmp kForkTestFilename in
  _ ← run_child new_tracer tt [Create file #"42"];
  n ← number_in file;
  mret (n =? 42).

Definition can_trace_files_being_open : M filesystem bool :=
  let file := path_join tmp kOpenTestFilename in
  '(_, test) ← run_child (onFileOpen (sets_test kOpenTestFilename) new_tracer) false [Create file #"42"];
  n ← number_in file;
  mret (test && (n =? 42)).

(** [status] is the system call behind [fs::status]. *)
Definition can_trace_files_being_stat (status : Z) : M filesystem bool :=
  let file := path_join tmp kStatTestFilename in
  '(_, test) ← run_child (onStat (sets_test kStatTestFilename) new_tracer) false
                 [Create file #"42"; Status status file];
  n ← number_in file;
  mret (test && (n =? 42)).

Definition replaces_name : file_handler (T := script * unit) := fun filename replaceFilename =>
  if ends_with kReplaceTestFilename1 filename then
    replaceFilename (path_join (parent_path filename) kReplaceTestFilename2)
  else mret tt.
Definition can_replace_filenames : M filesystem bool :=
  let file1 := path_join tmp kReplaceTestFilename1 in
  let file2 := path_join tmp kReplaceTestFilename2 in
  _ ← modify (write_file file1 #"10");
  _ ← run_child (onFileOpen replaces_name new_tracer) tt [Create file1 #"42"];
  n ← number_in file1;
  fs ← get;
  let found := exists_ fs file2 in
  k ← number_in file2;
  mret (found && (k =? 42) && (n =? 10)).

Definition can_catch_signals : M filesystem bool :=
  '(result, _) ← run_child new_tracer tt [Raise SIGABRT]; mret (negb (result =? 0)).

Definition can_capture_exit_code : M filesystem bool :=
  '(result, _) ← run_child new_tracer tt [ExitWith 42]; mret (result =? 42).

Definition native_tracer_tests : list (M filesystem bool) :=
  [ can_fork_processes; can_trace_files_being_open; can_trace_files_being_stat NR_newfstatat;
    can_trace_files_being_stat NR_stat; can_replace_filenames; can_catch_signals;
    can_capture_exit_code ].
End native_tracer.

(** ** record.cpp and info.cpp *)

(** [run()] of a section: whether the options are made and pass [check], and
    whether a [std::runtime_error] leaves it. *)
Section options_tests.
Context (exe : option bytes) (buf : bytes).

Definition REQUIRE_NOTHROW (argv : list bytes) (check : options -> bool) : bool :=
  match make_options argv [] exe buf with Ok o => check o | _ => false end.
Definition REQUIRE_THROWS_AS (argv : list bytes) : bool :=
  match make_options argv [] exe buf with Throw what => runtime_error what | _ => false end.

Definition has_paths (o : options) : bool :=
  bool_decide (input o = #"input") && bool_decide (output o = #"test").

(** The sections of "record requires input and output". *)
Definition has_input_and_output : bool :=
  REQUIRE_NOTHROW [ #"prog"; #"record"; #"-o"; #"test"; #"input"] has_paths.
Definition has_input_only : bool := REQUIRE_THROWS_AS [ #"prog"; #"record"; #"input"].
Definition has_two_inputs : bool :=
  REQUIRE_THROWS_AS [ #"prog"; #"record"; #"-o"; #"out"; #"input1"; #"input2"].
Definition has_only_output : bool := REQUIRE_THROWS_AS [ #"prog"; #"record"; #"-o"; #"output"].
Definition has_two_outputs : bool :=
  REQUIRE_THROWS_AS [ #"prog"; #"record"; #"-o"; #"output"; #"-o"; #"test"; #"input"].

(** The sections of "optional arguments are handled correctly". *)
Definition has_skip_mem_objects : bool :=
  REQUIRE_NOTHROW [ #"prog"; #"record"; #"-o"; #"test"; #"--skip-mem-objects"; #"input"]
    (fun o => has_paths o && record_skip_mem_objects o).
Definition has_skip_mem_objects_twice : bool :=
  REQUIRE_THROWS_AS [ #"prog"; #"record"; #"-o"; #"test"; #"--skip-mem-objects";
                      #"--skip-mem-objects"; #"input"].
Definition has_extra_args : bool :=
  REQUIRE_NOTHROW [ #"prog"; #"record"; #"-o"; #"test"; #"input"; #"--"; #"--foo"; #"--bar"]
    (fun o => has_paths o && (length (args o) =? 2)%nat).

(** The sections of "info doesn't take any parameters". *)
Definition info_extra_arguments : bool := REQUIRE_THROWS_AS [ #"prog"; #"info"; #"-foo"].
Definition info_no_extra_arguments : bool :=
  REQUIRE_NOTHROW [ #"prog"; #"info"]
    (fun o => match command o with Ok m => bool_decide (m = mode.info) | _ => false end).

Definition options_tests : list bool :=
  [ has_input_and_output; has_input_only; has_two_inputs; has_only_output; has_two_outputs;
    has_skip_mem_objects; has_skip_mem_objects_twice; has_extra_args;
    info_extra_arguments; info_no_extra_arguments ].
End options_tests.

(** ** utils.cpp *)

(** "which finds full path to executable" *)
Definition which_finds_full_path (PATH : option bytes) (fs : filesystem) : bool :=
  match which PATH #"ls" fs with Ok fullPath => ends_with #"ls" fullPath | _ => false end.

(** * Theorems *)

Lemma is_prefix_app p s : is_prefix p (p ++ s) = true.
Proof. induction p as [|c p IH]; [done |]. cbn. by rewrite bool_decide_eq_true_2. Qed.
Lemma ends_with_app p s : ends_with s (p ++ s) = true.
Proof. unfold ends_with. rewrite rev_app_distr. apply is_prefix_app. Qed.

Lemma ends_with_join d s : ends_with s (path_join d s) = true.
Proof.
  unfold path_join. case_bool_decide; [apply (ends_with_app []) |].
  case_bool_decide; [apply ends_with_app |]. rewrite app_assoc. apply ends_with_app.
Qed.

(** What [which] finds ends with the name it was asked for. *)
Lemma which_ends_with PATH executable fs p :
  which PATH executable fs = Ok p -> ends_with executable p = true.
Proof.
  destruct PATH as [path |]; [| done]. unfold which. generalize (S (length path)) as n. intros n. revert path.
  induction n as [|n IH]; intros path; [done |]. cbn [which_loop].
  destruct (exists_ fs _); [intros [= <-]; apply ends_with_join |].
  destruct (split_at _ _) as [[d rest] |]; [apply IH | done].
Qed.

(** The test of [which] passes exactly where [which] does not throw. *)
Theorem which_test_passes PATH fs :
  which_finds_full_path PATH fs = true <-> exists p, which PATH #"ls" fs = Ok p.
Proof.
  unfold which_finds_full_path. split.
  - destruct (which PATH #"ls" fs) as [p | | | | |]; try done. by exists p.
  - intros [p E]. rewrite E. by eapply which_ends_with.
Qed.

(** The tests of the command line pass, whatever [readlink] answers and whatever
    is behind its answer, as long as there is a NUL. *)
Theorem options_tests_pass link buf path :
  c_string (link ++ drop (length link) buf) = Ok path ->
  Forall (fun b => b = true) (options_tests (Some link) buf).
Proof.
  intros E. unfold options_tests.
  repeat (constructor; [unfold has_input_and_output, has_input_only, has_two_inputs, has_only_output,
    has_two_outputs, has_skip_mem_objects, has_skip_mem_objects_twice, has_extra_args,
    info_extra_arguments, info_no_extra_arguments, REQUIRE_NOTHROW, REQUIRE_THROWS_AS, make_options;
    rewrite E; vm_compute; reflexivity |]).
  constructor.
Qed.

(** The tests of the tracer pass on a system with an empty directory /tmp. *)
Theorem native_tracer_tests_pass :
  Forall (fun test => exists fs', test (<[ #"/tmp" := Directory]> ∅) = Ok (true, fs'))
    (native_tracer_tests #"/tmp").
Proof.
  assert (forall x : outcome (bool * filesystem),
    match x with Ok (b, _) => b | _ => false end = true -> exists fs', x = Ok (true, fs')) as Hok.
  { intros [[[] fs] | | | | |]; try done. by exists fs. }
  repeat (constructor; [apply Hok; vm_compute; reflexivity |]). constructor.
Qed.
